(* ===== verification/_CoqProject ===== *)
-Q . S2P
Prelude.v
Externals.v
Serde.v
Api.v
Clock.v
Types.v
Idempotency.v
Sanitizer.v
Protocol.v
Telemetry.v
Connections.v
Config.v
ConfigStore.v
Interceptors.v
Auth.v
KeyRing.v
Wasm.v
Ticker.v
Cel.v
Manager.v
Hub.v
Engine.v
Audience.v
WebSocket.v
Access.v
State.v
Overlap.v
Saving.v
Traffic.v
Gateway.v
Lifecycle.v
Relay.v
Retry.v
Crowd.v
Guard.v
Fleet.v
Registry.v
EventSink.v
Inspector.v
Router.v
Admin.v
Answers.v
Boot.v
Settings.v
Site.v
