(* ===== verification/Prelude.v ===== *)
(** * A verification library for SpectraGQL

    SpectraGQL is a GraphQL gateway: a proxy that authenticates, filters and routes
    requests, deduplicates them by an idempotency key, publishes commands and events to a
    message broker, answers subscriptions over WebSockets, and is administered over HTTP
    while it runs. This library models its Rust code under [src/] as Rocq functions and
    step relations and proves what makes it correct. Lines of code that a definition
    translates are named in the comment before it, as file, lines or function, and symbol.

    ** The parts and where they are

    - Vocabulary: [Prelude] (this file; [str] methods, machine integers, association
      lists, sorting, tactics), [Externals] (headers, JSON text, the GraphQL parser, LRU
      caches, regular expressions as classes with their documented laws and an instance
      each), [Serde] (codecs: what the derived serialisers and deserialisers make of
      structs and tagged enums, put together field by field).
    - Core, [core/]: [Clock] (hybrid logical clock: the compare-and-swap loops as a
      concurrent machine), [Types], [Config] (sections, defaults, sources, upstreams,
      applications), [Settings] (how every section is read from the merged sources and
      written out), [ConfigStore] (the four stores over storage with faults, the table of
      the PostgreSQL one, and the class that states what a store promises), [Saving] (the
      file store call by call).
    - Idempotency, [idempotency/mod.rs]: [Idempotency], both backends.
    - Protocol and telemetry, [protocol/], [telemetry/]: [Protocol] (bodies, operations,
      decoders, redaction), [Telemetry] (topics, events, the messages of every broker),
      [Connections] (how the adapters hold their clients).
    - Interceptors, [interceptors/]: [Sanitizer], [Interceptors] (contract, native
      interceptors, pipelines), [Auth] (tokens, key sets, RBAC), [KeyRing] (the refresh of a
      provider's keys and the tokens accepted meanwhile), [Wasm] (plugins, circuit
      breakers), [Ticker] (the thread that ends a guest's time), [Cel] (rules), [Manager]
      (construction and lookup).
    - Subscriptions, [subscriptions/]: [Hub], [Engine] (a connection's actor), [Audience]
      (any number of actors and broadcasts over the hub, at the grain of its two locks),
      [WebSocket] (upgrade and pump).
    - Gateway, [gateway/]: [State] (the running configuration and its control plane),
      [Overlap] (updates, reloads and rescans side by side), [Gateway] (every phase of a request), and over it [Lifecycle] (a calculus of the
      phases and what every request satisfies), [Relay] (forwarding, answers, receipts,
      replays), [Retry] (a request and its retry composed with the idempotency engine),
      [Crowd] (any number of requests over one engine, in any order), [Guard] (what a
      request the interceptors reject can cause, and which requests they never see) and
      [Fleet] (the requests of any number of gateways over one Redis server, one command
      at a time).
    - Administration, [admin/]: [Access] (addresses and token), [Traffic], [Registry]
      (workers), [EventSink] (looking at the broker), [Inspector] (schema coverage),
      [Router], [Api] (the records of the answers), [Admin] (the handlers and their
      dispatch), [Answers] (what a client reads).
    - Start-up, [lib.rs] and [main.rs]: [Boot] (what is run and stored, the builder, the
      refresher, the process), [Site] (a built gateway with its administrative engine, its
      idempotency engine, its recorder and the WebSocket handler in place of [Gateway]'s
      parameters, over requests one after the other, between which the thread that
      refreshes the upstreams' addresses takes its steps).

    A request flows through [Gateway.serve]: the phases read the running [State], claim a
    key in [Idempotency], decode with [Protocol], run the pipelines of [Manager], publish
    through [Telemetry] and [Connections], and end in [Traffic]. [Admin] changes the
    running state through the cell that [Boot] shares between it and the gateway.

    ** How it is modelled

    Stateful code is explicit state passing: the gateway's phases are a monad over the
    session, the request's context, the interceptors' world and the log of effects
    (messages, claims, answers, records), with early returns as values. Interceptors are
    functions over a world of shared cells, so that pipelines built from the same
    interceptor share its breaker and caches. Interleaving is a relation on machines: the
    clock, the breakers, the store and the running state under updates, reloads and rescans
    (for a store that writes in one step, and for one whose saves can come across each
    other), the configuration file under its saves, the hub under its locks, the Redis server under
    its commands, the NATS client. The running state may be another one in every phase of
    a request and with every chunk of a response. A property of a stage
    that holds whatever the stage meets is shown once, for the primitives, by a calculus
    ([Lifecycle.wp], [Guard.respects]). Fallible code returns [result] or an option; a panic is a separate outcome.
    Integers keep their width where the code can reach it. Doubles are IEEE doubles.

    ** What is shown

    - Requests: each claim of a key is completed or released, but for one exact exception
      ([Lifecycle]); one answer per request; what is forwarded, relayed, cut, kept and
      replayed ([Relay]); a retry after each outcome ([Retry]); once per key for requests side
      by side ([Crowd]), and what weaker holds over Redis ([Fleet]).
    - Access control of decoded operations through all phases ([Guard]): under the
      strictest policy a request from which the gateway decoded an operation is forwarded
      only for a caller who was granted it, and one that is rejected leaves nothing behind
      but its refusal; which bodies pass unread and uncontrolled, and that a replay asks
      nobody.
    - The whole gateway over its requests in turn ([Site]): who is no operator changes
      neither the running nor the stored configuration, and an operator's update is what
      every later request is served by and what the interface tells, both up to the
      addresses and the time the refresher writes; and that a rescan under way undoes an
      update.
    - Idempotency: refinement of a cache, mutual exclusion on both backends, capacity.
    - Clock: strict monotonicity under any interleaving, bounded drift, termination,
      sortable text.
    - Secrets: noninterference of the sanitizer, redacted events.
    - Access: token verification against a reference, RBAC's decision, staleness of the
      token cache and of the fetched keys, address ranges, what an administrative request can change.
    - Interceptors: order and short circuit of pipelines, breakers against their history,
      construction from the configuration, bounds on a guest's time.
    - Configuration: what is read is in range and, written out, is read again as it was;
      stores, updates and reloads; however these overlap, the running state is one
      configuration whole and the history explains it, while two that overlap can leave
      another text stored than runs, and in the file store a torn one; a file that is never
      torn by saves one at a time; what a start runs and what the next one runs.
    - Administration: the text of an answer made of the gateway's own state is read by the
      client as the record of the state the request left, with every number in range; not
      the answers with fractions in them or with what a broker says.
    - Brokers: one client at a time, whose stream's set-up was attempted but need not have
      succeeded, exact outcomes of a publish, clients that are kept.
    - Subscriptions: the hub's indexes, one operation after the other and under
      interleaving with tasks that are stopped anywhere, who is sent what, that nobody
      waits for ever, broadcast, the actor's discipline, the pump.
    - Observability: worker history, the window and the counters of the traffic, coverage
      against routing, age of a broker's report.

    ** Bounds and fuel

    Recursion is structural except: trimming and prefix stripping, whose fuel is the
    length of the text and each step of which shortens it; dropping old traffic records, whose fuel is
    the length of the buffer; printing numbers, with 39 decimal digits, enough for 128 bits;
    JSON redaction, with the code's own depth limit of 64; a call of the NATS adapter,
    whose nine steps are proved to be enough; and a task of the control plane alone, which
    has at most four calls to make ([Overlap.alone_ends]). Loops over shared
    words or cells are not given fuel: they are relations. The code's limits (64 KiB and
    10 MiB of bodies, 2 MiB of configuration, 250 traffic records, 200 logs per worker, 32
    shards) are definitions of the parts that use them.

    ** What is not modelled

    Code that is not in the repository is a parameter or a class: pingora's proxying,
    the text of JSON, TOML and GraphQL, the merging of configuration sources and its
    conversions between types, wasmtime, the cel crate, regular expressions,
    cryptography, matchit, HTTP and broker clients, PostgreSQL and Redis servers. Where a
    proof relies on such code, the law is named and an instance shows it can hold. Logging,
    the TLS handshake, UUID generation, the logger, signals and server loop of [main.rs],
    re-exporting module files and the administrative page are left out. Time,
    random identifiers and what clients answer are inputs. A second attempt that pingora
    makes itself when a pooled connection is closed counts as the first.

    ** Where it can grow

    The framing of the connection's actor; the whole of [Site] with requests side by side,
    over breakers and the running state at the same time.

    ** This file

    Bytes and text.  A Rust [str] or [String] is its UTF-8 byte sequence, a
    Rocq [string]; the [str] methods the program calls are defined here on
    bytes.  Machine integers are [Z] with their wrap-around written out.  The
    Unicode tables behind [str::to_lowercase] and [char::is_uppercase] are the
    class [Unicode], of which the program only uses the ASCII part it states.
    The file also holds the tactics and the hint databases of the library. *)

From Stdlib Require Export Ascii Sorting.Sorted Lia.
From stdpp Require Export prelude strings gmap numbers.
From stdpp Require Export list.

#[export] Set Default Goal Selector "!".
Local Open Scope Z_scope.

#[global] Arguments String.append !_ _ / : simpl nomatch.

(** ** Tactics *)

(** Case analysis on the innermost scrutinee of the goal or of a hypothesis. *)
Ltac break_match_goal :=
  match goal with
  | |- context [match ?x with _ => _ end] =>
      lazymatch x with
      | context [match _ with _ => _ end] => fail
      | _ => destruct x eqn:?
      end
  end.
Ltac break_match_hyp :=
  match goal with
  | H : context [match ?x with _ => _ end] |- _ =>
      lazymatch x with
      | context [match _ with _ => _ end] => fail
      | _ => destruct x eqn:?
      end
  end.
Ltac break_match := first [break_match_goal | break_match_hyp].

(** A closed arithmetic goal, by computation. *)
Ltac z_compute :=
  repeat match goal with |- _ /\ _ => split end;
  vm_compute; first [reflexivity | discriminate | done].

(** Boolean tests of the code turned into the propositions they decide. *)
Create HintDb spectra discriminated.
Create Rewrite HintDb spectra_bool.
#[export] Hint Rewrite
  Z.eqb_eq Z.eqb_neq Z.ltb_lt Z.ltb_ge Z.leb_le Z.leb_gt
  Nat.eqb_eq Nat.eqb_neq Nat.ltb_lt Nat.ltb_ge Nat.leb_le Nat.leb_gt
  andb_true_iff andb_false_iff orb_true_iff orb_false_iff
  negb_true_iff negb_false_iff String.eqb_eq String.eqb_neq
  bool_decide_eq_true bool_decide_eq_false : spectra_bool.
Ltac to_prop := autorewrite with spectra_bool in *.

(** ** Results *)

(** [Result<A, E>]. *)
Inductive result (E A : Type) := Ok (a : A) | Err (e : E).
Arguments Ok {_ _} _.
Arguments Err {_ _} _.
#[export] Instance result_ret E : MRet (result E) := fun A a => Ok a.
#[export] Instance result_bind E : MBind (result E) :=
  fun A B f r => match r with Ok a => f a | Err e => Err e end.
Definition is_ok {E A} (r : result E A) : bool := match r with Ok _ => true | Err _ => false end.
(** [r.ok()], [o.ok_or(e)]. *)
Definition ok {E A} (r : result E A) : option A := match r with Ok a => Some a | Err _ => None end.
Definition ok_or {E A} (e : E) (o : option A) : result E A :=
  match o with Some a => Ok a | None => Err e end.
#[export] Instance result_eq_dec `{EqDecision E, EqDecision A} : EqDecision (result E A).
Proof. solve_decision. Defined.

(** ** Machine integers *)

Module Int.
Definition u64_max : Z := 2 ^ 64 - 1.
Definition u32_max : Z := 2 ^ 32 - 1.
Definition i64_max : Z := 2 ^ 63 - 1.
Definition i64_min : Z := - 2 ^ 63.
(** [x as u64], and the result of a wrapping operation of width [w]. *)
Definition wrap (w x : Z) : Z := x mod 2 ^ w.
Definition saturating_add_u64 (x y : Z) : Z := Z.min u64_max (x + y).
Definition saturating_sub_u64 (x y : Z) : Z := Z.max 0 (x - y).
Definition saturating_add_i64 (x y : Z) : Z :=
  Z.max i64_min (Z.min i64_max (x + y)).
Definition checked_add_u32 (x y : Z) : option Z :=
  if x + y <=? u32_max then Some (x + y) else None.

Lemma wrap_small w x : 0 <= x < 2 ^ w -> wrap w x = x.
Proof. apply Z.mod_small. Qed.

Lemma wrap_range w x : 0 <= w -> 0 <= wrap w x < 2 ^ w.
Proof. intros. apply Z.mod_pos_bound, Z.pow_pos_nonneg; lia. Qed.
End Int.

(** ** Unicode tables *)

Definition is_ascii_char (a : ascii) : bool := (N_of_ascii a <? 128)%N.

Fixpoint str_forallb (p : ascii -> bool) (s : string) : bool :=
  match s with
  | EmptyString => true
  | String a s' => p a && str_forallb p s'
  end.

Fixpoint str_map (f : ascii -> ascii) (s : string) : string :=
  match s with
  | EmptyString => EmptyString
  | String a s' => String (f a) (str_map f s')
  end.

(** [str::is_ascii]. *)
Definition is_ascii : string -> bool := str_forallb is_ascii_char.

(** [u8::to_ascii_lowercase], [u8::is_ascii_uppercase]. *)
Definition is_ascii_upper (a : ascii) : bool :=
  (65 <=? N_of_ascii a)%N && (N_of_ascii a <=? 90)%N.
Definition ascii_lower (a : ascii) : ascii :=
  if is_ascii_upper a then ascii_of_N (N_of_ascii a + 32) else a.

(** [str::to_ascii_lowercase] and [str::eq_ignore_ascii_case]. *)
Definition to_ascii_lowercase : string -> string := str_map ascii_lower.
Definition eq_ignore_ascii_case (s t : string) : bool :=
  String.eqb (to_ascii_lowercase s) (to_ascii_lowercase t).

(** The Unicode part of the standard library's text functions.  [to_lowercase]
    is [str::to_lowercase]; [char_is_uppercase] is [char::is_uppercase] and
    [char_escape_debug] is [char::escape_debug], on the UTF-8 encoding of one
    character.  On ASCII both are the ASCII functions. *)
Class Unicode := {
  to_lowercase : string -> string;
  char_is_uppercase : string -> bool;
  char_escape_debug : string -> string;
  to_lowercase_ascii s : is_ascii s = true -> to_lowercase s = to_ascii_lowercase s;
  char_is_uppercase_ascii a :
    is_ascii_char a = true ->
    char_is_uppercase (String a EmptyString) = is_ascii_upper a
}.

(** The tables restricted to ASCII: every other character is caseless.  Not an
    instance: the theorems are stated for every table. *)
Definition ascii_char_is_uppercase (s : string) : bool :=
  match s with String a EmptyString => is_ascii_upper a | _ => false end.
Definition ascii_tables : Unicode := {|
  to_lowercase := to_ascii_lowercase;
  char_is_uppercase := ascii_char_is_uppercase;
  char_escape_debug := fun c => c;
  to_lowercase_ascii := fun _ _ => eq_refl;
  char_is_uppercase_ascii := fun _ _ => eq_refl
|}.

(** ** Text *)

(** [s.starts_with(p)], [s.strip_prefix(p)]. *)
Fixpoint starts_with (p s : string) : bool :=
  match p, s with
  | EmptyString, _ => true
  | String a p', String b s' => Ascii.eqb a b && starts_with p' s'
  | _, _ => false
  end.
Fixpoint strip_prefix (p s : string) : option string :=
  match p, s with
  | EmptyString, _ => Some s
  | String a p', String b s' => if Ascii.eqb a b then strip_prefix p' s' else None
  | _, _ => None
  end.

(** [hay.contains(needle)]. *)
Fixpoint str_contains (needle hay : string) : bool :=
  starts_with needle hay ||
  match hay with
  | EmptyString => false
  | String _ hay' => str_contains needle hay'
  end.

(** [s.ends_with(p)]. *)
Definition ends_with (p s : string) : bool :=
  starts_with (String.rev p) (String.rev s).

(** [s.split(c)] for an ASCII character [c]: never empty. *)
Fixpoint split_on (c : ascii) (s : string) : list string :=
  match s with
  | EmptyString => [EmptyString]
  | String a s' =>
      if Ascii.eqb a c then EmptyString :: split_on c s'
      else match split_on c s' with
           | [] => [String a EmptyString]
           | h :: t => String a h :: t
           end
  end.

(** [s.split_once(c)]. *)
Fixpoint split_once (c : ascii) (s : string) : option (string * string) :=
  match s with
  | EmptyString => None
  | String a s' =>
      if Ascii.eqb a c then Some (EmptyString, s')
      else match split_once c s' with
           | Some (l, r) => Some (String a l, r)
           | None => None
           end
  end.

(** [s.replace(chars, with)]: every character in [cs] becomes [w]. *)
Fixpoint replace_chars (cs : list ascii) (w s : string) : string :=
  match s with
  | EmptyString => EmptyString
  | String a s' =>
      if existsb (Ascii.eqb a) cs then String.append w (replace_chars cs w s')
      else String a (replace_chars cs w s')
  end.

(** [v.concat()] and [v.join(sep)]. *)
Definition str_concat (l : list string) : string := String.concat EmptyString l.
Definition str_join (sep : string) (l : list string) : string := String.concat sep l.

(** The UTF-8 encodings of the characters of Unicode's White_Space property,
    what [str::trim] removes. *)
Definition bytes (l : list N) : string :=
  List.fold_right (fun n s => String (ascii_of_N n) s) EmptyString l.
Definition whitespace : list string :=
  map bytes
    ([[9]; [10]; [11]; [12]; [13]; [32]; [194; 133]; [194; 160];
      [225; 154; 128]; [226; 128; 168]; [226; 128; 169]; [226; 128; 175];
      [226; 129; 159]; [227; 128; 128]]
     ++ map (fun n => [226; 128; n])
          [128; 129; 130; 131; 132; 133; 134; 135; 136; 137; 138])%N.

Fixpoint strip_one (ws : list string) (s : string) : option string :=
  match ws with
  | [] => None
  | w :: ws' => match strip_prefix w s with
                | Some s' => Some s'
                | None => strip_one ws' s
                end
  end.
Fixpoint strip_all (fuel : nat) (ws : list string) (s : string) : string :=
  match fuel with
  | O => s
  | S f => match strip_one ws s with
           | Some s' => strip_all f ws s'
           | None => s
           end
  end.
(** [s.trim_start()], [s.trim_end()] and [s.trim()]; each removal shortens the
    string, so its length is enough fuel. *)
Definition trim_start (s : string) : string :=
  strip_all (String.length s) whitespace s.
Definition trim_end (s : string) : string :=
  String.rev (strip_all (String.length s) (map String.rev whitespace) (String.rev s)).
Definition trim (s : string) : string := trim_end (trim_start s).

(** [s.trim_end_matches(c)] and [s.trim_matches(c)] for an ASCII character. *)
Fixpoint drop_char (c : ascii) (s : string) : string :=
  match s with
  | String a s' => if Ascii.eqb a c then drop_char c s' else s
  | EmptyString => EmptyString
  end.
Definition trim_end_char (c : ascii) (s : string) : string :=
  String.rev (drop_char c (String.rev s)).
Definition trim_char (c : ascii) (s : string) : string :=
  trim_end_char c (drop_char c s).

(** [&s[n..]] and [&s[..n]] for a boundary [n]. *)
Fixpoint str_skip (n : nat) (s : string) : string :=
  match n, s with
  | S n', String _ s' => str_skip n' s'
  | _, _ => s
  end.
Fixpoint str_take (n : nat) (s : string) : string :=
  match n, s with
  | S n', String a s' => String a (str_take n' s')
  | _, _ => EmptyString
  end.

(** [s.as_bytes()], each byte an integer. *)
Fixpoint as_bytes (s : string) : list Z :=
  match s with
  | EmptyString => []
  | String a s' => Z.of_N (N_of_ascii a) :: as_bytes s'
  end.

(** [s.chars()]: each character as its encoding.  A byte 10xxxxxx continues the
    character before it. *)
Definition is_continuation (a : ascii) : bool :=
  (128 <=? N_of_ascii a)%N && (N_of_ascii a <? 192)%N.
Fixpoint chars (s : string) : list string :=
  match s with
  | EmptyString => []
  | String a s' =>
      let continues :=
        match s' with String b _ => is_continuation b | EmptyString => false end in
      match chars s' with
      | [] => [String a EmptyString]
      | h :: t =>
          if continues then String a h :: t else String a EmptyString :: h :: t
      end
  end.

(** [std::str::from_utf8(v).is_ok()]: well-formed UTF-8, overlong forms and
    surrogates excluded. *)
Fixpoint utf8_valid (s : string) : bool :=
  let byte := fun a => N_of_ascii a in
  let within := fun a lo hi => ((lo <=? byte a) && (byte a <=? hi))%N in
  match s with
  | EmptyString => true
  | String a s1 =>
      if (byte a <? 128)%N then utf8_valid s1
      else match s1 with
      | EmptyString => false
      | String b s2 =>
          if within a 194%N 223%N then within b 128%N 191%N && utf8_valid s2
          else match s2 with
          | EmptyString => false
          | String c s3 =>
              if within a 224%N 239%N then
                within b (if (byte a =? 224)%N then 160%N else 128%N)
                         (if (byte a =? 237)%N then 159%N else 191%N) &&
                within c 128%N 191%N && utf8_valid s3
              else match s3 with
              | EmptyString => false
              | String d s4 =>
                  within a 240%N 244%N &&
                  within b (if (byte a =? 240)%N then 144%N else 128%N)
                           (if (byte a =? 244)%N then 143%N else 191%N) &&
                  within c 128%N 191%N && within d 128%N 191%N && utf8_valid s4
              end
          end
      end
  end.

(** [String::from_utf8_lossy]: every maximal ill-formed sequence becomes U+FFFD.
    [lossy need] reads [need] further bytes of a character begun by [acc], the next
    of them in [lo, hi]. *)
Definition replacement : string := bytes [239; 191; 189]%N.
Definition lead_byte (n : N) : option (nat * N * N) :=
  (if n <? 128 then Some (O, 128, 191)
   else if (194 <=? n) && (n <=? 223) then Some (1%nat, 128, 191)
   else if n =? 224 then Some (2%nat, 160, 191)
   else if n =? 237 then Some (2%nat, 128, 159)
   else if (225 <=? n) && (n <=? 239) then Some (2%nat, 128, 191)
   else if n =? 240 then Some (3%nat, 144, 191)
   else if (241 <=? n) && (n <=? 243) then Some (3%nat, 128, 191)
   else if n =? 244 then Some (3%nat, 128, 143)
   else None)%N.
Fixpoint lossy (need : nat) (lo hi : N) (acc : string) (s : string) : string :=
  match s with
  | EmptyString => match need with O => EmptyString | _ => replacement end
  | String a s' =>
      let n := N_of_ascii a in
      let start := fun _ : unit =>
        match lead_byte n with
        | Some (O, _, _) => String a (lossy O 0 0 EmptyString s')
        | Some (need', lo', hi') => lossy need' lo' hi' (String a EmptyString) s'
        | None => String.append replacement (lossy O 0 0 EmptyString s')
        end in
      match need with
      | O => start tt
      | S need' =>
          if ((lo <=? n) && (n <=? hi))%N then
            let acc' := String.append acc (String a EmptyString) in
            match need' with
            | O => String.append acc' (lossy O 0 0 EmptyString s')
            | _ => lossy need' 128 191 acc' s'
            end
          else String.append replacement (start tt)
      end
  end.
Definition from_utf8_lossy (s : string) : string := lossy O 0 0 EmptyString s.
Example lossy_example :
  from_utf8_lossy (bytes [72; 228; 240; 159; 152; 33; 195; 169; 237; 160]%N) =
  str_concat [bytes [72]%N; replacement; replacement; bytes [33; 195; 169]%N; replacement; replacement].
Proof. by vm_compute. Qed.

(** ** Decimal printing *)

Definition digit (d : Z) : ascii := ascii_of_N (Z.to_N (48 + d)).
Fixpoint dec_go (fuel : nat) (n : Z) (acc : string) : string :=
  match fuel with
  | O => acc
  | S f =>
      let acc' := String (digit (n mod 10)) acc in
      if n / 10 =? 0 then acc' else dec_go f (n / 10) acc'
  end.
(** [format!("{}", n)] of an unsigned integer; 39 digits cover [u128]. *)
Definition dec (n : Z) : string := dec_go 39 n EmptyString.
(** [format!("{:0w}", n)]. *)
Fixpoint zeros (n : nat) : string :=
  match n with O => EmptyString | S n' => String "0" (zeros n') end.
Definition pad0 (w : nat) (s : string) : string :=
  String.append (zeros (w - String.length s)) s.

(** [{:?}] of a string: control characters, quotes and backslashes escaped, the
    characters outside ASCII as the tables say. *)
Definition hex_digit (n : N) : ascii :=
  ascii_of_N (if (n <? 10)%N then 48 + n else 87 + n)%N.
Definition escape_unicode (n : N) : string :=
  String.append "\u{"
    (if (n <? 16)%N then String (hex_digit n) "}"
     else String (hex_digit (n / 16)) (String (hex_digit (n mod 16)) "}")).
Definition escape_ascii (a : ascii) : string :=
  let n := N_of_ascii a in
  if (n =? 0)%N then "\0" else if (n =? 9)%N then "\t" else if (n =? 10)%N then "\n"
  else if (n =? 13)%N then "\r" else if (n =? 34)%N then bytes [92; 34]%N
  else if (n =? 92)%N then "\\" else if ((n <? 32) || (n =? 127))%N then escape_unicode n
  else String a EmptyString.
Definition debug_str `{Unicode} (s : string) : string :=
  let esc := fun c => match c with
                      | String a EmptyString => if is_ascii_char a then escape_ascii a else char_escape_debug c
                      | _ => char_escape_debug c
                      end in
  String.append (bytes [34%N]) (String.append (str_concat (map esc (chars s))) (bytes [34%N])).
Definition debug_opt_str `{Unicode} (o : option string) : string :=
  match o with Some s => String.append "Some(" (String.append (debug_str s) ")") | None => "None" end.

(** ** Association lists *)

Module Assoc.
(** Entries in order; the first binding of a key counts. *)
Fixpoint get {V} (k : string) (l : list (string * V)) : option V :=
  match l with
  | [] => None
  | (k', v) :: l' => if String.eqb k k' then Some v else get k l'
  end.
Fixpoint remove {V} (k : string) (l : list (string * V)) : list (string * V) :=
  match l with
  | [] => []
  | (k', v) :: l' => if String.eqb k k' then remove k l' else (k', v) :: remove k l'
  end.
Definition mem {V} (k : string) (l : list (string * V)) : bool :=
  match get k l with Some _ => true | None => false end.

Lemma get_In {V} k (v : V) l : get k l = Some v -> (k, v) ∈ l.
Proof.
  induction l as [|[k' v'] l IH]; cbn; [done|].
  destruct (String.eqb_spec k k') as [->|]; intros H; [simplify_eq; by left|].
  right; auto.
Qed.

Lemma get_None {V} k (l : list (string * V)) : get k l = None <-> k ∉ l.*1.
Proof.
  induction l as [|[k' v'] l IH]; cbn; [by split; [intros _ ?%elem_of_nil|]|].
  rewrite not_elem_of_cons, <- IH.
  destruct (String.eqb_spec k k'); split; intros; try done; naive_solver.
Qed.

Lemma In_get {V} k (v : V) l : NoDup l.*1 -> (k, v) ∈ l -> get k l = Some v.
Proof.
  induction l as [|[k' v'] l IH]; cbn; [by intros _ ?%elem_of_nil|].
  intros [Hni Hnd]%NoDup_cons Hin.
  destruct (String.eqb_spec k k') as [->|Hne].
  - apply elem_of_cons in Hin as [[= ->]|Hin]; [done|].
    destruct Hni. apply list_elem_of_fmap. by exists (k', v).
  - apply elem_of_cons in Hin as [[= -> ->]|Hin]; [done|auto].
Qed.

Lemma get_remove_eq {V} k (l : list (string * V)) : get k (remove k l) = None.
Proof.
  induction l as [|[k' v] l IH]; cbn; [done|].
  destruct (String.eqb k k') eqn:E; cbn; [done|by rewrite E].
Qed.

Lemma get_remove_ne {V} k k' (l : list (string * V)) :
  k <> k' -> get k (remove k' l) = get k l.
Proof.
  intros Hne. induction l as [|[k2 v] l IH]; cbn; [done|].
  destruct (String.eqb_spec k' k2) as [->|]; cbn; rewrite IH; [|done].
  by destruct (String.eqb_spec k k2).
Qed.

Lemma remove_keys {V} k k' (l : list (string * V)) :
  k ∈ (remove k' l).*1 <-> k ∈ l.*1 /\ k <> k'.
Proof.
  destruct (decide (k = k')) as [->|Hne].
  - pose proof (proj1 (get_None _ _) (get_remove_eq k' l)). naive_solver.
  - pose proof (get_None k (remove k' l)) as H1. pose proof (get_None k l) as H2.
    rewrite get_remove_ne in H1 by done. rewrite H2 in H1.
    destruct (decide (k ∈ l.*1)), (decide (k ∈ (remove k' l).*1)); naive_solver.
Qed.

Lemma remove_NoDup {V} k (l : list (string * V)) : NoDup l.*1 -> NoDup (remove k l).*1.
Proof.
  induction l as [|[k' v] l IH]; cbn; [done|].
  intros [Hni Hnd]%NoDup_cons. destruct (String.eqb k k'); cbn; [by apply IH|].
  apply NoDup_cons; split; [|by apply IH]. rewrite (remove_keys k'). naive_solver.
Qed.

Lemma remove_None {V} k (l : list (string * V)) : get k l = None -> remove k l = l.
Proof.
  induction l as [|[k' v] l IH]; cbn; [done|].
  destruct (String.eqb k k'); cbn; [done|]. intros H. by rewrite IH.
Qed.

Lemma remove_length {V} k v (l : list (string * V)) :
  NoDup l.*1 -> get k l = Some v -> length l = S (length (remove k l)).
Proof.
  induction l as [|[k' v'] l IH]; cbn; [done|].
  intros [Hni Hnd]%NoDup_cons. destruct (String.eqb_spec k k') as [->|Hne]; cbn.
  - intros _. by rewrite remove_None by by apply get_None.
  - intros Hg. by rewrite <- IH.
Qed.

Lemma get_app {V} k (l1 l2 : list (string * V)) :
  get k (l1 ++ l2) = match get k l1 with Some v => Some v | None => get k l2 end.
Proof.
  induction l1 as [|[k' v] l1 IH]; cbn; [done|]. by destruct (String.eqb k k').
Qed.
(** Dropping the last entry of a list with distinct keys. *)
Lemma removelast_last {V} (l : list V) x : last l = Some x -> l = removelast l ++ [x].
Proof.
  intros Hl. assert (l <> []) by (by intros ->).
  rewrite (app_removelast_last x) at 1 by done. do 2 f_equal.
  induction l as [|a [|b l] IH]; [done|cbn in *; congruence|].
  cbn [List.last]. apply IH; [exact Hl|done].
Qed.

Lemma get_removelast {V} k k' v (l : list (string * V)) :
  NoDup l.*1 -> last l = Some (k', v) ->
  get k (removelast l) = if String.eqb k k' then None else get k l.
Proof.
  intros Hnd Hl. pose proof (removelast_last l _ Hl) as Heq.
  rewrite Heq in Hnd. rewrite fmap_app in Hnd. apply NoDup_app in Hnd as (_ & Hd & _).
  rewrite Heq at 2. rewrite get_app. cbn.
  destruct (String.eqb_spec k k') as [->|].
  - apply get_None. intros Hin. apply (Hd _ Hin). by left.
  - by destruct (get k (removelast l)).
Qed.

Lemma get_removelast_Some {V} k (v : V) (l : list (string * V)) :
  get k (removelast l) = Some v -> get k l = Some v.
Proof.
  induction l as [|[k' v'] [|p l] IH]; [done|done|]. cbn in *.
  destruct (String.eqb k k'); [done|]. apply IH.
Qed.
End Assoc.

(** ** Lemmas: text *)

Lemma str_app_assoc (a b c : string) :
  String.append (String.append a b) c = String.append a (String.append b c).
Proof. induction a as [|x a IH]; cbn; [done|by rewrite IH]. Qed.

Lemma str_compare_refl s : String.compare s s = Eq.
Proof.
  induction s as [|a s IH]; cbn; [done|].
  unfold Ascii.compare. by rewrite N.compare_refl.
Qed.

Lemma str_compare_trans_lt s t u :
  String.compare s t = Lt -> String.compare t u = Lt -> String.compare s u = Lt.
Proof.
  revert t u. induction s as [|a s IH]; intros [|b t] [|c u]; cbn; try done. unfold Ascii.compare.
  generalize (N_of_ascii a) (N_of_ascii b) (N_of_ascii c). intros x y z.
  destruct (N.compare_spec x y), (N.compare_spec y z), (N.compare_spec x z); intros Hst Htu; try done; try lia.
  by eapply IH.
Qed.

Lemma str_app_nil_r (a : string) : String.append a EmptyString = a.
Proof. induction a as [|x a IH]; cbn; [done|by rewrite IH]. Qed.

Lemma str_length_app (a b : string) :
  String.length (String.append a b) = (String.length a + String.length b)%nat.
Proof. induction a as [|x a IH]; cbn; [done|by rewrite IH]. Qed.
Lemma str_take_length n s : String.length (str_take n s) = Nat.min n (String.length s).
Proof. revert n. induction s as [|a s IH]; intros [|n]; cbn; [done..|]. by rewrite IH. Qed.

Lemma eq_ignore_ascii_case_refl s : eq_ignore_ascii_case s s = true.
Proof. apply String.eqb_refl. Qed.

Lemma eq_ignore_ascii_case_sym s t :
  eq_ignore_ascii_case s t = eq_ignore_ascii_case t s.
Proof. apply String.eqb_sym. Qed.

Lemma eq_ignore_ascii_case_spec s t :
  eq_ignore_ascii_case s t = true <-> to_ascii_lowercase s = to_ascii_lowercase t.
Proof. apply String.eqb_eq. Qed.

Lemma ascii_lower_idemp a : ascii_lower (ascii_lower a) = ascii_lower a.
Proof. destruct a as [[] [] [] [] [] [] [] []]; reflexivity. Qed.

Lemma to_ascii_lowercase_idemp s :
  to_ascii_lowercase (to_ascii_lowercase s) = to_ascii_lowercase s.
Proof.
  unfold to_ascii_lowercase.
  induction s as [|a s IH]; cbn; [done|by rewrite ascii_lower_idemp, IH].
Qed.

Lemma starts_with_app p s : starts_with p s = true <-> exists t, s = String.append p t.
Proof.
  revert s. induction p as [|a p IH]; intros s; cbn.
  - split; [by exists s|done].
  - destruct s as [|b s]; cbn; [split; [done|by intros [? ?]]|].
    rewrite andb_true_iff, Ascii.eqb_eq, IH. split.
    + intros [-> [t ->]]. by exists t.
    + intros [t [= -> ->]]. by eauto.
Qed.

Lemma strip_prefix_spec p s t : strip_prefix p s = Some t <-> s = String.append p t.
Proof.
  revert s. induction p as [|a p IH]; intros s; cbn; [by split; intros [= ->]|].
  destruct s as [|b s]; [done|].
  destruct (Ascii.eqb_spec a b) as [->|Hne]; [rewrite IH|]; split; congruence.
Qed.

Lemma split_on_nonempty c s : split_on c s <> [].
Proof. destruct s; cbn; [done|]. repeat break_match; done. Qed.

(** [split] is undone by [join]. *)
Lemma split_on_join c s : str_join (String c EmptyString) (split_on c s) = s.
Proof.
  induction s as [|a s IH]; [done|].
  pose proof (split_on_nonempty c s) as Hne.
  unfold str_join in *. cbn [split_on].
  destruct (Ascii.eqb_spec a c) as [->|Hac].
  - destruct (split_on c s) as [|h t]; [done|]. rewrite <- IH. done.
  - destruct (split_on c s) as [|h t]; [done|]. rewrite <- IH.
    destruct t; done.
Qed.

Lemma split_once_spec c s l r :
  split_once c s = Some (l, r) -> s = String.append l (String c r).
Proof.
  revert l r. induction s as [|a s IH]; intros l r; cbn; [done|].
  destruct (Ascii.eqb_spec a c) as [->|Hac]; [by intros [= <- <-]|].
  destruct (split_once c s) as [[l' r']|]; [|done].
  intros [= <- <-]. cbn. f_equal. by apply IH.
Qed.

(** ** Lemmas: decimal printing *)

Lemma bytes_compare_app a b x y :
  String.length a = String.length b ->
  String.compare (String.append a x) (String.append b y) =
  match String.compare a b with Eq => String.compare x y | c => c end.
Proof.
  revert b. induction a as [|c a IH]; intros [|d b]; cbn; [done..|].
  intros [= Hl]. destruct (Ascii.compare c d); [by apply IH|done..].
Qed.

Module Fixed.
(** The [w] low decimal digits of [n], most significant first. *)
Fixpoint fixw (w : nat) (n : Z) : string :=
  match w with
  | O => EmptyString
  | S k => String (digit (n / 10 ^ Z.of_nat k mod 10)) (fixw k n)
  end.

Lemma fixw_length w n : String.length (fixw w n) = w.
Proof. induction w as [|w IH]; cbn; [done|by rewrite IH]. Qed.

Lemma fixw_snoc w n :
  fixw (S w) n = String.append (fixw w (n / 10)) (String (digit (n mod 10)) "").
Proof.
  induction w as [|w IH].
  - cbn -[Z.div Z.modulo]. by rewrite Z.div_1_r.
  - cbn [fixw String.append] in *. rewrite <- IH. do 3 f_equal.
    rewrite Nat2Z.inj_succ, Z.pow_succ_r by lia.
    by rewrite Z.div_div by lia.
Qed.

Lemma dec_go_fixw f n acc :
  0 <= n < 10 ^ Z.of_nat f -> (0 < f)%nat ->
  exists k, (1 <= k <= f)%nat /\ n < 10 ^ Z.of_nat k /\ (k = 1%nat \/ 10 ^ Z.of_nat (k - 1) <= n) /\
            dec_go f n acc = String.append (fixw k n) acc.
Proof.
  revert n acc. induction f as [|f IH]; intros n acc Hn Hf; [lia|].
  cbn [dec_go]. destruct (Z.eqb_spec (n / 10) 0) as [H0|H0].
  - exists 1%nat. cbn -[Z.div Z.modulo]. rewrite Z.div_1_r.
    split; [lia|]. split; [|by eauto].
    pose proof (Z.div_mod n 10); pose proof (Z.mod_pos_bound n 10); lia.
  - assert (Hdiv : 0 <= n / 10) by (apply Z.div_pos; lia).
    assert (0 < f)%nat by (destruct f; [cbn in Hn; rewrite Z.div_small in H0; lia|lia]).
    destruct (IH (n / 10) (String (digit (n mod 10)) acc)) as (k & Hk & Hlt & Hge & ->).
    { rewrite Nat2Z.inj_succ, Z.pow_succ_r in Hn by lia.
      split; [done|]. apply Z.div_lt_upper_bound; lia. }
    { done. }
    exists (S k). rewrite fixw_snoc, str_app_assoc. split; [lia|].
    rewrite Nat2Z.inj_succ, Z.pow_succ_r by lia.
    pose proof (Z.div_mod n 10); pose proof (Z.mod_pos_bound n 10).
    split; [lia|]. split; [|done]. right.
    destruct Hge as [->|Hge]; [cbn; lia|].
    replace (S k - 1)%nat with (S (k - 1)) by lia.
    rewrite Nat2Z.inj_succ, Z.pow_succ_r by lia. lia.
Qed.

Lemma fixw_zeros w n : n = 0 -> fixw w n = zeros w.
Proof.
  intros ->. induction w as [|w IH]; cbn -[Z.div Z.modulo]; [done|].
  rewrite Z.div_0_l by lia. rewrite IH. done.
Qed.

Lemma fixw_leading k d n :
  0 <= n < 10 ^ Z.of_nat k -> fixw (d + k) n = String.append (zeros d) (fixw k n).
Proof.
  intros Hn. induction d as [|d IH]; [done|]. cbn -[Z.div Z.modulo].
  rewrite IH. f_equal. rewrite Z.div_small; [done|].
  split; [lia|]. eapply Z.lt_le_trans; [apply Hn|].
  apply Z.pow_le_mono_r; lia.
Qed.

(** Zero padding to [w] digits gives exactly the [w] low digits. *)
Lemma pad0_dec w n :
  (0 < w <= 39)%nat -> 0 <= n < 10 ^ Z.of_nat w -> pad0 w (dec n) = fixw w n.
Proof.
  intros Hw Hn. unfold dec.
  destruct (dec_go_fixw 39 n "") as (k & Hk & Hlt & Hge & ->); [|lia|].
  { split; [lia|]. eapply Z.lt_le_trans; [apply Hn|].
    apply Z.pow_le_mono_r; lia. }
  rewrite str_app_nil_r. unfold pad0. rewrite fixw_length.
  destruct (decide (k <= w)%nat) as [Hkw|Hkw].
  - replace w with ((w - k) + k)%nat at 2 by lia.
    by rewrite fixw_leading by lia.
  - destruct Hge as [->|Hge].
    + lia.
    + assert (10 ^ Z.of_nat w <= 10 ^ Z.of_nat (k - 1))
        by (apply Z.pow_le_mono_r; lia). lia.
Qed.

Lemma digit_compare d e :
  0 <= d < 10 -> 0 <= e < 10 -> Ascii.compare (digit d) (digit e) = Z.compare d e.
Proof.
  intros Hd He.
  assert (Hc : forall x, 0 <= x < 10 ->
    x = 0 \/ x = 1 \/ x = 2 \/ x = 3 \/ x = 4 \/
    x = 5 \/ x = 6 \/ x = 7 \/ x = 8 \/ x = 9) by lia.
  destruct (Hc d Hd) as [->|[->|[->|[->|[->|[->|[->|[->|[->| ->]]]]]]]]];
    destruct (Hc e He) as [->|[->|[->|[->|[->|[->|[->|[->|[->| ->]]]]]]]]];
    reflexivity.
Qed.

(** Fixed-width digits sort as the numbers do. *)
Lemma fixw_compare w m n :
  0 <= m < 10 ^ Z.of_nat w -> 0 <= n < 10 ^ Z.of_nat w ->
  String.compare (fixw w m) (fixw w n) = Z.compare m n.
Proof.
  revert m n. induction w as [|w IH]; intros m n Hm Hn.
  - cbn in *. assert (m = 0) as -> by lia. by assert (n = 0) as -> by lia.
  - rewrite Nat2Z.inj_succ, Z.pow_succ_r in Hm, Hn by lia.
    rewrite !fixw_snoc, bytes_compare_app by (by rewrite !fixw_length).
    rewrite IH; cycle 1.
    { split; [apply Z.div_pos; lia|apply Z.div_lt_upper_bound; lia]. }
    { split; [apply Z.div_pos; lia|apply Z.div_lt_upper_bound; lia]. }
    pose proof (Z.div_mod m 10); pose proof (Z.div_mod n 10).
    pose proof (Z.mod_pos_bound m 10); pose proof (Z.mod_pos_bound n 10).
    cbn [String.compare].
    rewrite digit_compare by lia.
    destruct (Z.compare_spec (m / 10) (n / 10)); symmetry.
    + destruct (Z.compare_spec (m mod 10) (n mod 10));
        [apply Z.compare_eq_iff|apply Z.compare_lt_iff|apply Z.compare_gt_iff]; lia.
    + apply Z.compare_lt_iff; lia.
    + apply Z.compare_gt_iff; lia.
Qed.
End Fixed.

(** ** Sorting by a text key *)

Section SortBy.
Context {A : Type} (key : A -> string).
(** [sort_by] on a text key: stable, in byte order. *)
Fixpoint insert_by (x : A) (l : list A) : list A :=
  match l with
  | [] => [x]
  | y :: l' => match String.compare (key x) (key y) with
               | Gt => y :: insert_by x l'
               | _ => x :: l
               end
  end.
Definition sort_by (l : list A) : list A := List.fold_right insert_by [] l.
Definition key_le (x y : A) : Prop := String.compare (key x) (key y) <> Gt.

Lemma insert_by_perm x l : Permutation (insert_by x l) (x :: l).
Proof.
  induction l as [|y l IH]; cbn; [done|]. destruct (String.compare _ _); [done..|].
  by rewrite IH, Permutation_swap.
Qed.
Lemma sort_by_perm l : Permutation (sort_by l) l.
Proof. induction l as [|x l IH]; cbn; [done|]. by rewrite insert_by_perm, IH. Qed.
Lemma elem_of_sort_by x l : x ∈ sort_by l <-> x ∈ l.
Proof. by rewrite (sort_by_perm l). Qed.
Lemma insert_by_sorted x l : Sorted key_le l -> Sorted key_le (insert_by x l).
Proof.
  induction 1 as [|y l Hs IH Hhd]; cbn; [by repeat constructor|].
  destruct (String.compare (key x) (key y)) eqn:E.
  1-2: (constructor; [by constructor|constructor; unfold key_le; by rewrite E]).
  constructor; [exact IH|]. destruct l as [|z l]; cbn.
  - constructor. unfold key_le. by rewrite String.compare_antisym, E.
  - inversion Hhd; subst. destruct (String.compare (key x) (key z)); constructor; try done.
    all: unfold key_le; by rewrite String.compare_antisym, E.
Qed.
Lemma sort_by_sorted l : Sorted key_le (sort_by l).
Proof. induction l as [|x l IH]; cbn; [constructor|by apply insert_by_sorted]. Qed.
End SortBy.
