(* ===== verification/Externals.v ===== *)
(** * Externals: what the program takes from other crates.

    Each class states the documented behaviour of one dependency the program
    relies on: header maps and values of [http], the LRU cache of [lru], the JSON
    values and the text codec of [serde_json].  The theorems are proved for every
    instance; the list-based instances at the end of each section are
    definitions, used to evaluate the model on concrete inputs. *)

From S2P Require Import Prelude.
Local Open Scope Z_scope.

(** ** [http]: header values and header maps *)

(** What a header value may hold to be read as text: visible ASCII and tab. *)
Definition visible_ascii (a : ascii) : bool :=
  let n := N_of_ascii a in ((32 <=? n) && (n <? 127) || (n =? 9))%N.
Definition list_visible : string -> bool := str_forallb visible_ascii.

(** Header names are kept lower-case, so a lookup ignores ASCII case.
    [uri_path] is [Uri::path], [hn_valid] whether [HeaderName::from_bytes] takes a name; [hm_entries] is the iteration order, [hm_get] returns the first value of a
    name, [hm_insert] replaces all of them, [hm_append] adds one. *)
Class HttpLib := {
  HeaderValue : Type;
  HeaderMap : Type;
  hv_to_str : HeaderValue -> option string;
  hv_from_str : string -> option HeaderValue;
  hv_from_static : string -> HeaderValue;
  uri_path : string -> string;
  hn_valid : string -> bool;
  hm_new : HeaderMap;
  hm_entries : HeaderMap -> list (string * HeaderValue);
  hm_get : string -> HeaderMap -> option HeaderValue;
  hm_insert : string -> HeaderValue -> HeaderMap -> HeaderMap;
  hm_append : string -> HeaderValue -> HeaderMap -> HeaderMap;
  hm_remove : string -> HeaderMap -> HeaderMap;
  hv_roundtrip s v : hv_from_str s = Some v -> forall t, hv_to_str v = Some t -> t = s;
  hv_static s : list_visible s = true -> hv_to_str (hv_from_static s) = Some s;
  hm_get_new n : hm_get n hm_new = None;
  hm_entries_new : hm_entries hm_new = [];
  hm_get_entries n h :
    hm_get n h = Assoc.get (to_ascii_lowercase n) (hm_entries h);
  hm_entries_lower h n v : (n, v) ∈ hm_entries h -> to_ascii_lowercase n = n;
  hm_get_insert n v h m :
    hm_get m (hm_insert n v h) =
    if eq_ignore_ascii_case m n then Some v else hm_get m h;
  hm_get_append n v h m :
    hm_get m (hm_append n v h) =
    match hm_get m h with
    | Some w => Some w
    | None => if eq_ignore_ascii_case m n then Some v else None
    end;
  hm_get_remove n h m :
    hm_get m (hm_remove n h) = if eq_ignore_ascii_case m n then None else hm_get m h
}.

(** A header looked up and read as text: [headers.get(n).and_then(|v| v.to_str().ok())]. *)
Definition header_str `{HttpLib} (n : string) (h : HeaderMap) : option string :=
  match hm_get n h with Some v => hv_to_str v | None => None end.

(** A header value is its bytes; [to_str] accepts visible ASCII and tab, [from_str]
    rejects the control characters. *)
Definition valid_value_byte (a : ascii) : bool :=
  let n := N_of_ascii a in ((32 <=? n) && negb (n =? 127) || (n =? 9))%N.
Definition token_char (a : ascii) : bool :=
  let n := N_of_ascii a in
  ((48 <=? n) && (n <=? 57) || (65 <=? n) && (n <=? 90) || (97 <=? n) && (n <=? 122))%N ||
  existsb (Ascii.eqb a) (String.list_ascii_of_string "!#$%&'*+-.^_`|~").
Definition list_to_str (v : string) : option string :=
  if list_visible v then Some v else None.
Definition list_from_str (s : string) : option string :=
  if str_forallb valid_value_byte s then Some s else None.
Definition list_lower (l : list (string * string)) : list (string * string) :=
  map (fun kv => (to_ascii_lowercase (fst kv), snd kv)) l.

Lemma list_lower_remove k l : list_lower (Assoc.remove k (list_lower l)) = Assoc.remove k (list_lower l).
Proof.
  unfold list_lower. induction l as [|[k' v] l IH]; cbn; [done|].
  destruct (String.eqb k (to_ascii_lowercase k')); cbn; [done|].
  by rewrite to_ascii_lowercase_idemp, IH.
Qed.

Lemma list_lower_idemp l : list_lower (list_lower l) = list_lower l.
Proof.
  unfold list_lower. induction l as [|[k' v] l IH]; cbn; [done|].
  by rewrite to_ascii_lowercase_idemp, IH.
Qed.

Definition list_http : HttpLib.
Proof.
  refine {|
    HeaderValue := string;
    HeaderMap := list (string * string);
    hv_to_str := list_to_str;
    hv_from_str := list_from_str;
    hv_from_static s := s;
    uri_path u := default u (fst <$> split_once "?" u);
    hn_valid s := negb (String.eqb s EmptyString) && str_forallb token_char s;
    hm_new := [];
    hm_entries := list_lower;
    hm_get n h := Assoc.get (to_ascii_lowercase n) (list_lower h);
    hm_insert n v h :=
      (n, v) :: Assoc.remove (to_ascii_lowercase n) (list_lower h);
    hm_append n v h := h ++ [(n, v)];
    hm_remove n h := Assoc.remove (to_ascii_lowercase n) (list_lower h)
  |}.
  - unfold list_to_str, list_from_str. intros s v Hv t Ht.
    repeat case_match; congruence.
  - intros s Hs. unfold list_to_str. by rewrite Hs.
  - done.
  - done.
  - done.
  - intros h n v (x & [= -> ->] & _)%list_elem_of_fmap. apply to_ascii_lowercase_idemp.
  - intros n v h m. cbn. rewrite list_lower_remove. unfold eq_ignore_ascii_case.
    destruct (String.eqb_spec (to_ascii_lowercase m) (to_ascii_lowercase n)); [done|].
    by rewrite Assoc.get_remove_ne.
  - intros n v h m. unfold list_lower. rewrite map_app, Assoc.get_app. done.
  - intros n h m. rewrite list_lower_remove. unfold eq_ignore_ascii_case.
    destruct (String.eqb_spec (to_ascii_lowercase m) (to_ascii_lowercase n)) as [->|Hne].
    + apply Assoc.get_remove_eq.
    + by rewrite Assoc.get_remove_ne.
Defined.

(** ** [lru]: the least-recently-used cache *)

(** [lru_entries] lists the entries, most recently used first.  [put] on a full
    cache that lacks the key drops the last entry and returns [None]. *)
Class LruLib := {
  lru : Type -> Type;
  lru_new {V} : nat -> lru V;
  lru_cap {V} : lru V -> nat;
  lru_entries {V} : lru V -> list (string * V);
  lru_get {V} : string -> lru V -> option V * lru V;
  lru_put {V} : string -> V -> lru V -> option V * lru V;
  lru_pop {V} : string -> lru V -> option V * lru V;
  lru_pop_lru {V} : lru V -> option (string * V) * lru V;
  lru_new_spec {V} n : lru_entries (lru_new (V := V) n) = [] /\ lru_cap (lru_new (V := V) n) = n;
  lru_get_spec {V} k (c : lru V) :
    fst (lru_get k c) = Assoc.get k (lru_entries c) /\
    lru_cap (snd (lru_get k c)) = lru_cap c /\
    lru_entries (snd (lru_get k c)) =
      match Assoc.get k (lru_entries c) with
      | Some v => (k, v) :: Assoc.remove k (lru_entries c)
      | None => lru_entries c
      end;
  lru_put_spec {V} k v (c : lru V) :
    fst (lru_put k v c) = Assoc.get k (lru_entries c) /\
    lru_cap (snd (lru_put k v c)) = lru_cap c /\
    lru_entries (snd (lru_put k v c)) =
      (k, v) ::
        match Assoc.get k (lru_entries c) with
        | Some _ => Assoc.remove k (lru_entries c)
        | None => if (length (lru_entries c) <? lru_cap c)%nat then lru_entries c
                  else removelast (lru_entries c)
        end;
  lru_pop_spec {V} k (c : lru V) :
    fst (lru_pop k c) = Assoc.get k (lru_entries c) /\
    lru_cap (snd (lru_pop k c)) = lru_cap c /\
    lru_entries (snd (lru_pop k c)) = Assoc.remove k (lru_entries c);
  lru_pop_lru_spec {V} (c : lru V) :
    fst (lru_pop_lru c) = last (lru_entries c) /\
    lru_cap (snd (lru_pop_lru c)) = lru_cap c /\
    lru_entries (snd (lru_pop_lru c)) = removelast (lru_entries c)
}.

#[export] Instance lru_inhabited `{LruLib} V : Inhabited (lru V) := populate (lru_new 1).

(** The cache as its capacity and its entries. *)
Definition list_lru : LruLib.
Proof.
  refine {|
    lru V := (nat * list (string * V))%type;
    lru_new V n := (n, []);
    lru_cap V c := fst c;
    lru_entries V c := snd c;
    lru_get V k c :=
      match Assoc.get k (snd c) with
      | Some v => (Some v, (fst c, (k, v) :: Assoc.remove k (snd c)))
      | None => (None, c)
      end;
    lru_put V k v c :=
      (Assoc.get k (snd c),
       (fst c,
        (k, v) ::
          match Assoc.get k (snd c) with
          | Some _ => Assoc.remove k (snd c)
          | None => if (length (snd c) <? fst c)%nat then snd c else removelast (snd c)
          end));
    lru_pop V k c := (Assoc.get k (snd c), (fst c, Assoc.remove k (snd c)));
    lru_pop_lru V c := (last (snd c), (fst c, removelast (snd c)))
  |}; [done| |done..].
  intros V k [n l]; cbn. by destruct (Assoc.get k l).
Defined.

(** ** [serde_json]: values and text *)

(** [Value]; a number is a [u64], a negative [i64] or a float, the last kept as its
    text.  An object's entries are in key order, each key once ([Map] is a
    [BTreeMap]). *)
Inductive number := PosInt (n : Z) | NegInt (n : Z) | Float (text : string).
Inductive json :=
| JNull
| JBool (b : bool)
| JNumber (n : number)
| JString (s : string)
| JArray (l : list json)
| JObject (l : list (string * json)).

(** [Map::insert]. *)
Fixpoint obj_insert {V} (k : string) (v : V) (l : list (string * V)) : list (string * V) :=
  match l with
  | [] => [(k, v)]
  | (k', v') :: l' =>
      match String.compare k k' with
      | Lt => (k, v) :: (k', v') :: l'
      | Eq => (k, v) :: l'
      | Gt => (k', v') :: obj_insert k v l'
      end
  end.
(** The map of the pairs of [json!({..})] or of a serialised struct. *)
Definition obj_of {V} (l : list (string * V)) : list (string * V) :=
  fold_left (fun m kv => obj_insert (fst kv) (snd kv) m) l [].

(** [Value::get(key)], [as_str], [as_bool], [as_u64], [as_i64], [as_object], [as_array]. *)
Definition j_get (k : string) (j : json) : option json :=
  match j with JObject l => Assoc.get k l | _ => None end.
Definition as_str (j : json) : option string :=
  match j with JString s => Some s | _ => None end.
Definition as_bool (j : json) : option bool :=
  match j with JBool b => Some b | _ => None end.
Definition as_u64 (j : json) : option Z :=
  match j with JNumber (PosInt n) => Some n | _ => None end.
Definition as_i64 (j : json) : option Z :=
  match j with
  | JNumber (PosInt n) => if n <=? Int.i64_max then Some n else None
  | JNumber (NegInt n) => Some n
  | _ => None
  end.
Definition as_object (j : json) : option (list (string * json)) :=
  match j with JObject l => Some l | _ => None end.
Definition as_array (j : json) : option (list json) :=
  match j with JArray l => Some l | _ => None end.
Definition is_object (j : json) : bool := match j with JObject _ => true | _ => false end.
Definition is_null (j : json) : bool := match j with JNull => true | _ => false end.
Definition is_array (j : json) : bool := match j with JArray _ => true | _ => false end.
Definition j_str_field (k : string) (j : json) : option string :=
  match j_get k j with Some v => as_str v | None => None end.

(** Induction through arrays and objects. *)
Section JsonInd.
Variable P : json -> Prop.
Hypothesis HNull : P JNull.
Hypothesis HBool : forall b, P (JBool b).
Hypothesis HNumber : forall n, P (JNumber n).
Hypothesis HString : forall s, P (JString s).
Hypothesis HArray : forall l, Forall P l -> P (JArray l).
Hypothesis HObject : forall l, Forall (fun kv => P (snd kv)) l -> P (JObject l).
Fixpoint json_ind' (j : json) : P j :=
  match j with
  | JNull => HNull
  | JBool b => HBool b
  | JNumber n => HNumber n
  | JString s => HString s
  | JArray l =>
      HArray l ((fix go l : Forall P l :=
                   match l with
                   | [] => List.Forall_nil _
                   | x :: l' => List.Forall_cons _ x l' (json_ind' x) (go l')
                   end) l)
  | JObject l =>
      HObject l ((fix go l : Forall (fun kv => P (snd kv)) l :=
                    match l with
                    | [] => List.Forall_nil _
                    | x :: l' => List.Forall_cons _ x l' (json_ind' (snd x)) (go l')
                    end) l)
  end.
End JsonInd.

#[export] Instance number_eq_dec : EqDecision number.
Proof. solve_decision. Defined.

(** Values as trees, for decidable equality and enumeration. *)
Definition leaf : Type := option (bool + (Z + Z + string) + string).
Definition number_to (n : number) : Z + Z + string :=
  match n with PosInt z => inl (inl z) | NegInt z => inl (inr z) | Float s => inr s end.
Definition number_of (x : Z + Z + string) : number :=
  match x with inl (inl z) => PosInt z | inl (inr z) => NegInt z | inr s => Float s end.
Fixpoint json_to_tree (j : json) : gen_tree leaf :=
  match j with
  | JNull => GenLeaf None
  | JBool b => GenLeaf (Some (inl (inl b)))
  | JNumber n => GenLeaf (Some (inl (inr (number_to n))))
  | JString s => GenLeaf (Some (inr s))
  | JArray l => GenNode 0 (map json_to_tree l)
  | JObject l =>
      GenNode 1 (map (fun kv => GenNode 2 [GenLeaf (Some (inr (fst kv))); json_to_tree (snd kv)]) l)
  end.
Fixpoint json_of_tree (t : gen_tree leaf) : json :=
  match t with
  | GenLeaf None => JNull
  | GenLeaf (Some (inl (inl b))) => JBool b
  | GenLeaf (Some (inl (inr n))) => JNumber (number_of n)
  | GenLeaf (Some (inr s)) => JString s
  | GenNode 0 l => JArray (map json_of_tree l)
  | GenNode _ l =>
      JObject (map (fun t =>
        match t with
        | GenNode _ [GenLeaf (Some (inr k)); v] => (k, json_of_tree v)
        | _ => (EmptyString, JNull)
        end) l)
  end.

Lemma json_tree_inj j : json_of_tree (json_to_tree j) = j.
Proof.
  induction j as [|b|n|s|l IH|l IH] using json_ind'; cbn; try done.
  - by destruct n.
  - f_equal. induction IH as [|x l Hx _ IHl]; cbn; [done|]. by rewrite Hx, IHl.
  - f_equal. induction IH as [|[k x] l Hx _ IHl]; cbn in *; [done|]. by rewrite Hx, IHl.
Qed.

#[export] Instance json_eq_dec : EqDecision json.
Proof.
  refine (fun a b => cast_if (decide (json_to_tree a = json_to_tree b))).
  - abstract by (rewrite <- (json_tree_inj a), <- (json_tree_inj b), e).
  - abstract congruence.
Defined.

#[export] Instance json_countable : Countable json :=
  inj_countable' json_to_tree json_of_tree json_tree_inj.

(** Values as [serde_json] keeps them: integers in range, entries in key order.
    Floats are left out: their text form is the library's affair. *)
Fixpoint keys_sorted {V} (l : list (string * V)) : bool :=
  match l with
  | (k, _) :: (((k', _) :: _) as l') =>
      match String.compare k k' with Lt => keys_sorted l' | _ => false end
  | _ => true
  end.
Fixpoint json_wf (j : json) : bool :=
  match j with
  | JNumber (PosInt n) => (0 <=? n) && (n <=? Int.u64_max)
  | JNumber (NegInt n) => (Int.i64_min <=? n) && (n <? 0)
  | JNumber (Float _) => false
  | JArray l => forallb json_wf l
  | JObject l => keys_sorted l && forallb (fun kv => json_wf (snd kv)) l
  | _ => true
  end.

(** A value whose text form is fixed: its integers are in range, and it has no floats,
    whose text is the library's affair. The members of an object are in any order. *)
Fixpoint json_plain (j : json) : bool :=
  match j with
  | JNumber (PosInt n) => (0 <=? n) && (n <=? Int.u64_max)
  | JNumber (NegInt n) => (Int.i64_min <=? n) && (n <? 0)
  | JNumber (Float _) => false
  | JArray l => forallb json_plain l
  | JObject l => forallb (fun kv => json_plain (snd kv)) l
  | _ => true
  end.
(** A value whose integers are in the range of their types. *)
Fixpoint json_typed (j : json) : bool :=
  match j with
  | JNumber (PosInt n) => (0 <=? n) && (n <=? Int.u64_max)
  | JNumber (NegInt n) => (Int.i64_min <=? n) && (n <? 0)
  | JArray l => forallb json_typed l
  | JObject l => forallb (fun kv => json_typed (snd kv)) l
  | _ => true
  end.
(** [serde_json]'s printer and its parser. [json_read] is the text as it stands, the
    members of each object in the order written, a repeated one repeated: this is what
    [derive(Deserialize)] reads. What is read has its integers in range, and what is
    printed is read back. *)
Class JsonText := {
  json_to_string : json -> string;
  json_read : string -> option json;
  json_read_typed s j : json_read s = Some j -> json_typed j = true;
  json_read_print j : json_plain j = true -> json_read (json_to_string j) = Some j
}.
(** The [Value] of a text's tree: of a repeated member the last one counts. *)
Fixpoint json_value (j : json) : json :=
  match j with
  | JArray l => JArray (map json_value l)
  | JObject l => JObject (obj_of (map (fun kv => (fst kv, json_value (snd kv))) l))
  | _ => j
  end.
(** [serde_json::from_str::<Value>]. *)
Definition json_from_str `{JsonText} (s : string) : option json := json_value <$> json_read s.

Lemma json_plain_typed j : json_plain j = true -> json_typed j = true.
Proof.
  induction j as [|b|[n|n|t]|s|l IH|l IH] using json_ind'; cbn; try done.
  - induction IH as [|x l Hx _ IHl]; cbn in *; [done|]. intros [H1 H2]%andb_true_iff. by rewrite Hx, IHl.
  - induction IH as [|[k x] l Hx _ IHl]; cbn in *; [done|]. intros [H1 H2]%andb_true_iff. by rewrite Hx, IHl.
Qed.
Lemma obj_insert_last {V} k (v : V) l : Forall (fun kv => String.compare (fst kv) k = Lt) l ->
  obj_insert k v l = (l ++ [(k, v)])%list.
Proof.
  induction 1 as [|[k' v'] l Hk Hl IH]; cbn; [done|]. cbn in Hk.
  rewrite String.compare_antisym, Hk. cbn. by rewrite IH.
Qed.
Lemma keys_sorted_cons {V} k (v : V) l : keys_sorted ((k, v) :: l) = true ->
  Forall (fun kv => String.compare k (fst kv) = Lt) l /\ keys_sorted l = true.
Proof.
  revert k v. induction l as [|[k' v'] l IH]; intros k v; [done|]. cbn -[keys_sorted].
  cbn [keys_sorted]. destruct (String.compare k k') eqn:E; try done. intros Hs.
  destruct (IH k' v' Hs) as [Hf _]. split; [|done]. constructor; [done|].
  eapply Forall_impl; [exact Hf|]. intros [k2 v2]. cbn. by apply str_compare_trans_lt.
Qed.
Lemma obj_of_sorted {V} (l : list (string * V)) : keys_sorted l = true -> obj_of l = l.
Proof.
  intros Hs. unfold obj_of.
  assert (Hgo : forall acc, Forall (fun kv => Forall (fun kv' => String.compare (fst kv') (fst kv) = Lt) acc) l ->
    fold_left (fun m kv => obj_insert (fst kv) (snd kv) m) l acc = (acc ++ l)%list); [|by apply (Hgo []), Forall_true].
  induction l as [|[k v] l IH]; intros acc Hacc; cbn; [by rewrite app_nil_r|].
  apply keys_sorted_cons in Hs as [Hf Hs]. apply Forall_cons in Hacc as [Hk Hacc].
  rewrite obj_insert_last by exact Hk. rewrite IH, <- app_assoc; [done|exact Hs|].
  rewrite Forall_forall in Hf. rewrite Forall_forall in Hacc. apply Forall_forall. intros kv Hin.
  apply Forall_app. split; [by apply Hacc|]. apply Forall_singleton. by apply Hf.
Qed.
Lemma json_value_wf j : json_wf j = true -> json_value j = j.
Proof.
  induction j as [|b|n|s|l IH|l IH] using json_ind'; cbn; try done.
  - intros Hl. f_equal. induction IH as [|x l Hx _ IHl]; cbn in *; [done|]. apply andb_true_iff in Hl as [H1 H2].
    by rewrite Hx, IHl.
  - intros [Hs Hl]%andb_true_iff. f_equal.
    assert (Hm : map (fun kv => (fst kv, json_value (snd kv))) l = l).
    { clear Hs. induction IH as [|[k x] l Hx _ IHl]; cbn in *; [done|]. apply andb_true_iff in Hl as [H1 H2].
      by rewrite Hx, IHl. }
    rewrite Hm. by apply obj_of_sorted.
Qed.
Lemma json_wf_plain j : json_wf j = true -> json_plain j = true.
Proof.
  induction j as [|b|n|s|l IH|l IH] using json_ind'; cbn; try done.
  - induction IH as [|x l Hx _ IHl]; cbn in *; [done|]. intros [H1 H2]%andb_true_iff. by rewrite Hx, IHl.
  - intros [_ Hl]%andb_true_iff. revert Hl. induction IH as [|[k x] l Hx _ IHl]; cbn in *; [done|].
    intros [H1 H2]%andb_true_iff. by rewrite Hx, IHl.
Qed.
Lemma obj_insert_sorted {V} k (v : V) l : keys_sorted l = true -> keys_sorted (obj_insert k v l) = true.
Proof.
  assert (Hcons : forall k v (l : list (string * V)), Forall (fun kv => String.compare k (fst kv) = Lt) l ->
    keys_sorted l = true -> keys_sorted ((k, v) :: l) = true).
  { intros k0 v0 [|[k1 v1] l1] Hf Hs; [done|]. apply Forall_cons in Hf as [Hk _]. cbn in Hk. cbn [keys_sorted]. by rewrite Hk. }
  assert (Hin : forall P (l : list (string * V)), Forall P l -> P (k, v) -> Forall P (obj_insert k v l)).
  { intros P l0. induction 1 as [|[k1 v1] l1 H1 Hl IH]; cbn; intros Hk; [by constructor|].
    destruct (String.compare k k1); constructor; auto. }
  induction l as [|[k' v'] l IH]; [done|]. intros Hs. pose proof (keys_sorted_cons _ _ _ Hs) as [Hf Hs'].
  cbn [obj_insert]. destruct (String.compare k k') eqn:E.
  - apply String.compare_eq_iff in E as ->. by apply Hcons.
  - apply Hcons; [|done]. constructor; [done|]. eapply Forall_impl; [exact Hf|]. intros kv. by apply str_compare_trans_lt.
  - apply Hcons; [|by apply IH]. apply Hin; [done|]. cbn. rewrite String.compare_antisym, E. done.
Qed.
Lemma obj_of_wf {V} (l : list (string * V)) : keys_sorted (obj_of l) = true /\ forall kv, kv ∈ obj_of l -> kv ∈ l.
Proof.
  assert (Hin : forall k (v : V) l kv, kv ∈ obj_insert k v l -> kv = (k, v) \/ kv ∈ l).
  { intros k v l0 kv. induction l0 as [|[k1 v1] l1 IH]; cbn; [intros ?%list_elem_of_singleton; by left|].
    destruct (String.compare k k1); rewrite ?elem_of_cons; naive_solver. }
  unfold obj_of. induction l as [|[k v] l [IHs IHi]] using rev_ind; [done|]. rewrite fold_left_app. cbn [fold_left fst snd].
  split; [by apply obj_insert_sorted|]. intros kv [->|Hkv]%Hin; apply elem_of_app; [right; by left|left; auto].
Qed.
Lemma json_value_idemp j : json_value (json_value j) = json_value j.
Proof.
  induction j as [|b|n|s|l IH|l IH] using json_ind'; cbn; try done.
  - f_equal. induction IH as [|x l Hx _ IHl]; cbn; [done|]. by rewrite Hx, IHl.
  - f_equal. destruct (obj_of_wf (map (fun kv => (fst kv, json_value (snd kv))) l)) as [Hs Hsub].
    set (m := obj_of _) in *.
    assert (Hm : map (fun kv => (fst kv, json_value (snd kv))) m = m); [|rewrite Hm; by apply obj_of_sorted].
    clear Hs. assert (Hf : Forall (fun kv => json_value (snd kv) = snd kv) m).
    { apply Forall_forall. intros kv [kv' [-> Hin]]%Hsub%list_elem_of_fmap. rewrite Forall_forall in IH. by apply IH. }
    clear Hsub. induction Hf as [|[k v] m' Hv _ IHm]; cbn in *; [done|]. by rewrite Hv, IHm.
Qed.
Lemma json_value_typed j : json_typed j = true -> json_typed (json_value j) = true.
Proof.
  induction j as [|b|n|s|l IH|l IH] using json_ind'; cbn; try done.
  - induction IH as [|x l Hx _ IHl]; cbn in *; [done|]. intros [H1 H2]%andb_true_iff. by rewrite Hx, IHl.
  - intros Hl. destruct (obj_of_wf (map (fun kv => (fst kv, json_value (snd kv))) l)) as [_ Hsub].
    apply forallb_forall. intros kv [kv' [-> Hin]]%list_elem_of_In%Hsub%list_elem_of_fmap. cbn.
    rewrite Forall_forall in IH. apply IH; [done|]. eapply forallb_forall in Hl; [exact Hl|]. by apply list_elem_of_In.
Qed.
Lemma json_roundtrip `{JsonText} j : json_wf j = true -> json_from_str (json_to_string j) = Some j.
Proof.
  intros Hj. unfold json_from_str. rewrite json_read_print by by apply json_wf_plain. cbn. by rewrite json_value_wf.
Qed.

(** Some text form with this property, for the witnesses: the bits of the value's
    number. *)
Fixpoint bits_to_string (p : positive) : string :=
  match p with
  | xH => "1"
  | xO p => String "0" (bits_to_string p)
  | xI p => String "1" (bits_to_string p)
  end.
Fixpoint bits_of_string (s : string) : option positive :=
  match s with
  | String a EmptyString => if Ascii.eqb a "1" then Some xH else None
  | String a s' =>
      match bits_of_string s' with
      | Some p => Some (if Ascii.eqb a "1" then xI p else xO p)
      | None => None
      end
  | EmptyString => None
  end.
Lemma bits_roundtrip p : bits_of_string (bits_to_string p) = Some p.
Proof.
  induction p as [p IH|p IH|]; cbn -[Ascii.eqb]; try done.
  all: destruct (bits_to_string p) eqn:E; [destruct p; discriminate|].
  all: by rewrite IH.
Qed.
Definition bits_json_text : JsonText.
Proof.
  refine {|
    json_to_string j := bits_to_string (encode j);
    json_read s :=
      match bits_of_string s with
      | Some p => match decode p with Some j => if json_typed j then Some j else None | None => None end
      | None => None
      end
  |}.
  - intros s j. repeat case_match; congruence.
  - intros j Hj. rewrite bits_roundtrip, decode_encode. by rewrite json_plain_typed.
Defined.

(** ** [regex] *)

(** [Regex::replace_all] for the pattern text; the replacement sees the captured
    groups. *)
Class RegexLib := {
  replace_all : string -> (list string -> string) -> string -> string
}.
(** A library that never matches, for the witnesses. *)
Definition no_match_regex : RegexLib := {| replace_all _ _ s := s |}.

(** ** Lemmas *)

(** Evaluates the objects whose keys are constants. *)
Ltac eval_obj :=
  repeat match goal with
  | |- context [obj_of ?L] =>
      let x := eval lazy [obj_of fold_left List.fold_left obj_insert fst snd String.compare
        Ascii.compare N_of_ascii N_of_digits N.compare N.add N.mul Pos.compare
        Pos.compare_cont Pos.add Pos.mul Pos.succ Pos.add_carry] in (obj_of L) in
      change (obj_of L) with x
  end.

Lemma obj_insert_get {V} k k' (v : V) l :
  StronglySorted (fun a b => String.compare (fst a) (fst b) = Lt) l ->
  Assoc.get k' (obj_insert k v l) = if String.eqb k' k then Some v else Assoc.get k' l.
Proof.
  induction 1 as [|[k0 v0] l Hs IH Hall]; cbn; [done|].
  destruct (String.compare k k0) eqn:E; cbn.
  - apply String.compare_eq_iff in E as ->. by destruct (String.eqb k' k0).
  - done.
  - rewrite IH. destruct (String.eqb_spec k' k0) as [->|]; [|done].
    destruct (String.eqb_spec k0 k) as [->|]; [|done].
    by rewrite str_compare_refl in E.
Qed.
