(* ===== verification/Serde.v ===== *)
(** * Serde: what [derive(Serialize, Deserialize)] makes of a type.

    A codec is a writer and a reader of a type with the values it covers: reading undoes
    writing, and what is read is covered. Codecs of structs are put together from their
    fields in the order declared, each with what the attributes say of an absent one; a
    struct is read from an object, where a known field is given at most once, or from
    an array of its fields. Internally tagged enums are split into their tag and the
    struct of the variant. *)

From S2P Require Import Prelude Externals.
Local Open Scope Z_scope.

#[local] Obligation Tactic := idtac.

Module Derive.
(** ** Codecs *)

Record codec (A : Type) := Codec {
  ser : A -> json;
  de : json -> option A;
  fits : A -> Prop;
  de_ser a : fits a -> de (ser a) = Some a;
  de_fits j a : json_typed j = true -> de j = Some a -> fits a
}.
Arguments Codec {A} _ _ _ _ _.
Arguments ser {A} _ _.
Arguments de {A} _ _.
Arguments fits {A} _ _.
Arguments de_ser {A} _ _ _.
Arguments de_fits {A} _ _ _ _ _.
(** A codec whose text form is fixed: it prints no floats. *)
Class Printable {A} (c : codec A) := ser_plain a : fits c a -> json_plain (ser c a) = true.

(** [String], [bool]. *)
Program Definition text : codec string := Codec JString as_str (fun _ => True) _ _.
Solve Obligations with done.
Program Definition flag : codec bool := Codec JBool as_bool (fun _ => True) _ _.
Solve Obligations with done.
#[export] Instance text_printable : Printable text.
Proof. done. Qed.
#[export] Instance flag_printable : Printable flag.
Proof. done. Qed.
(** An unsigned integer of [w] bits, up to 64. *)
Section Unsigned.
Variable bound : Z.
Definition de_uint (j : json) : option Z := n ← as_u64 j; if n <=? bound then Some n else None.
Lemma de_uint_ser n : 0 <= n <= bound -> de_uint (JNumber (PosInt n)) = Some n.
Proof. intros [_ Hn]. cbn. by rewrite (proj2 (Z.leb_le _ _)). Qed.
Lemma de_uint_fits j n : json_typed j = true -> de_uint j = Some n -> 0 <= n <= bound.
Proof.
  destruct j as [| |[m|m|m]| | |]; try done. cbn. intros [H0 _]%andb_true_iff. destruct (Z.leb_spec m bound); [|done].
  intros [= <-]. lia.
Qed.
Definition uint : codec Z :=
  Codec (fun n => JNumber (PosInt n)) de_uint (fun n => 0 <= n <= bound) de_uint_ser de_uint_fits.
#[export] Instance uint_printable : bound <= Int.u64_max -> Printable uint.
Proof. intros Hb n [? ?]. cbn [ser uint json_plain]. apply andb_true_iff; split; lia. Qed.
End Unsigned.
Definition u64 : codec Z := uint Int.u64_max.
Definition u32 : codec Z := uint Int.u32_max.
Definition u16 : codec Z := uint 65535.
#[export] Instance u64_printable : Printable u64.
Proof. by apply uint_printable. Qed.
#[export] Instance u32_printable : Printable u32.
Proof. by apply uint_printable. Qed.
#[export] Instance u16_printable : Printable u16.
Proof. by apply uint_printable. Qed.
(** [usize], for the lengths of lists. *)
Definition de_usize (j : json) : option nat := Z.to_nat <$> de u64 j.
Program Definition usize : codec nat :=
  Codec (fun n => JNumber (PosInt (Z.of_nat n))) de_usize (fun n => Z.of_nat n <= Int.u64_max) _ _.
Next Obligation.
  intros n Hn. unfold de_usize. change (JNumber (PosInt (Z.of_nat n))) with (ser u64 (Z.of_nat n)).
  rewrite de_ser by (cbn in *; lia). cbn. by rewrite Nat2Z.id.
Qed.
Next Obligation.
  intros j n Hj. unfold de_usize. destruct (de u64 j) as [m|] eqn:E; [|done]. intros [= <-].
  apply (de_fits u64) in E as [? ?]; [|done]. lia.
Qed.
#[export] Instance usize_printable : Printable usize.
Proof. intros n Hn. apply (ser_plain (c := u64) (Z.of_nat n)). cbn in *. lia. Qed.

(** A value sent as text is read by the other side as it was. *)
Definition travels `{JsonText} {A} (c : codec A) (a : A) : Prop := json_read (json_to_string (ser c a)) ≫= de c = Some a.
Lemma fits_travels `{JsonText} {A} (c : codec A) `{!Printable c} a : fits c a -> travels c a.
Proof. intros Ha. unfold travels. rewrite json_read_print by by apply ser_plain. by apply de_ser. Qed.

(** [Vec<T>]. *)
Section Vec.
Context {A : Type} (c : codec A).
Definition ser_vec (l : list A) : json := JArray (map (ser c) l).
Definition de_vec (j : json) : option (list A) := as_array j ≫= mapM (de c).
Lemma mapM_de_ser l : Forall (fits c) l -> mapM (de c) (map (ser c) l) = Some l.
Proof. induction 1 as [|a l Ha Hl IH]; [done|]. cbn [map mapM]. by rewrite de_ser, IH. Qed.
Lemma mapM_de_fits js l : forallb json_typed js = true -> mapM (de c) js = Some l -> Forall (fits c) l.
Proof.
  revert l. induction js as [|j js IH]; intros l; [by intros _ [= <-]|]. cbn [forallb mapM]. intros [Hj Hjs]%andb_true_iff.
  destruct (de c j) as [a|] eqn:Ea; [|done]. destruct (mapM (de c) js) as [l'|]; [|done]. intros [= <-].
  constructor; [by eapply de_fits|by apply IH].
Qed.
Program Definition vec : codec (list A) := Codec ser_vec de_vec (Forall (fits c)) mapM_de_ser _.
Next Obligation. intros j l Hj. unfold de_vec. destruct j; try done. by apply mapM_de_fits. Qed.
#[export] Instance vec_printable : Printable c -> Printable vec.
Proof. intros Hc l Hl. cbn. induction Hl as [|a l Ha Hl IH]; [done|]. cbn. by rewrite ser_plain, IH. Qed.
End Vec.

(** A pair, an array of two. *)
Section Two.
Context {A B : Type} (c : codec A) (d : codec B).
Definition ser_two (ab : A * B) : json := JArray [ser c (fst ab); ser d (snd ab)].
Definition de_two (j : json) : option (A * B) :=
  match j with JArray [x; y] => a ← de c x; b ← de d y; Some (a, b) | _ => None end.
Program Definition two : codec (A * B) := Codec ser_two de_two (fun ab => fits c (fst ab) /\ fits d (snd ab)) _ _.
Next Obligation. intros [a b] [Ha Hb]. cbn in *. by rewrite (de_ser c _ Ha), (de_ser d _ Hb). Qed.
Next Obligation.
  intros j [a b] Hj. destruct j as [| | | |[|x [|y [|z l]]]|]; try done. cbn in Hj. rewrite andb_true_r in Hj.
  apply andb_true_iff in Hj as [Hx Hy]. cbn. destruct (de c x) eqn:Ex; [|done]. destruct (de d y) eqn:Ey; [|done].
  intros [= <- <-]. split; [exact (de_fits c _ _ Hx Ex)|exact (de_fits d _ _ Hy Ey)].
Qed.
#[export] Instance two_printable : Printable c -> Printable d -> Printable two.
Proof. intros Hc Hd [a b] [Ha Hb]. cbn in *. by rewrite (Hc _ Ha), (Hd _ Hb). Qed.
End Two.

(** [Option<T>], for a type whose values are never printed as [null]. *)
Section Option.
Context {A : Type} (c : codec A) (Hsolid : forall a, ser c a <> JNull).
Definition ser_opt (o : option A) : json := match o with Some a => ser c a | None => JNull end.
Definition de_opt (j : json) : option (option A) := match j with JNull => Some None | _ => Some <$> de c j end.
Definition opt_fits (o : option A) : Prop := match o with Some a => fits c a | None => True end.
Lemma de_opt_ser o : opt_fits o -> de_opt (ser_opt o) = Some o.
Proof using Hsolid.
  destruct o as [a|]; [|done]. cbn. intros Ha. unfold de_opt. pose proof (Hsolid a) as Hs. destruct (ser c a) eqn:E; try done;
    by rewrite <- E, de_ser.
Qed.
Lemma de_opt_fits j o : json_typed j = true -> de_opt j = Some o -> opt_fits o.
Proof.
  intros Hj. unfold de_opt. destruct j; [by intros [= <-]|..]; (destruct (de c _) as [a|] eqn:E; [|done]; intros [= <-];
    by eapply de_fits).
Qed.
Definition opt : codec (option A) := Codec ser_opt de_opt opt_fits de_opt_ser de_opt_fits.
#[export] Instance opt_printable : Printable c -> Printable opt.
Proof. intros Hc [a|]; [|done]. apply Hc. Qed.
End Option.

(** [Value]: of a repeated member the last one counts. And [Option<Value>], of which a
    [null] is read as nothing. *)
Definition value_fits (j : json) : Prop := json_typed j = true /\ json_value j = j.
Program Definition value : codec json := Codec (fun j => j) (fun j => Some (json_value j)) value_fits _ _.
Next Obligation. intros j [_ Hj]. cbn. by rewrite Hj. Qed.
Next Obligation. intros j v Hj [= <-]. split; [by apply json_value_typed|apply json_value_idemp]. Qed.
Definition opt_value_fits (o : option json) : Prop :=
  match o with Some v => value_fits v /\ v <> JNull | None => True end.
Definition de_value (j : json) : option (option json) := Some (match j with JNull => None | _ => Some (json_value j) end).
Program Definition opt_value : codec (option json) := Codec (default JNull) de_value opt_value_fits _ _.
Next Obligation. intros [v|]; [|done]. intros [[_ Hv] Hn]. unfold de_value. cbn. rewrite Hv. by destruct v. Qed.
Next Obligation.
  intros j o Hj [= <-]. destruct j; (done || (split; [by apply (de_fits value _ _ Hj)|done])).
Qed.

(** A type printed and read as another. *)
Section Iso.
Context {A B : Type} (c : codec A) (to : B -> A) (back : A -> B) (Hof : forall b, back (to b) = b) (Hto : forall a, to (back a) = a).
Program Definition iso : codec B :=
  Codec (fun b => ser c (to b)) (fun j => back <$> de c j) (fun b => fits c (to b)) _ _.
Next Obligation. intros b Hb. cbn. rewrite de_ser by done. cbn. by rewrite Hof. Qed.
Next Obligation. intros j b Hj. cbn. destruct (de c j) as [a|] eqn:E; [|done]. intros [= <-]. rewrite Hto. by eapply de_fits. Qed.
#[export] Instance iso_printable : Printable c -> Printable iso.
Proof. intros Hc b. apply Hc. Qed.
End Iso.

(** ** Structs *)

(** The fields of a struct: their names, what of a value they print, and how they are
    read through a lookup of the members, from an object or ([arr]) from an array. *)
Record shape (A : Type) := Shape {
  names : list string;
  put : A -> list (string * json);
  get : bool -> (string -> option json) -> option A;
  shape_fits : A -> Prop;
  put_names a : sublist (put a).*1 names;
  get_put a (look : string -> option json) : NoDup names -> shape_fits a ->
    (forall k, k ∈ names -> look k = Assoc.get k (put a)) -> get false look = Some a;
  get_fits arr (look : string -> option json) a : (forall k v, look k = Some v -> json_typed v = true) ->
    get arr look = Some a -> shape_fits a
}.
Arguments Shape {A} _ _ _ _ _ _ _.
Arguments names {A} _.
Arguments put {A} _ _.
Arguments get {A} _ _ _.
Arguments shape_fits {A} _ _.
Arguments put_names {A} _ _.
Arguments get_put {A} _ _ _ _ _ _.
Arguments get_fits {A} _ _ _ _ _ _.
Class PrintableFields {A} (s : shape A) :=
  put_plain a : shape_fits s a -> forallb (fun kv => json_plain (snd kv)) (put s a) = true.

(** One field: [absent] when an object does not have it, [short] when an array ends
    before it; [skip] leaves it out of what is printed. *)
Section Field.
Context {A : Type} (name : string) (c : codec A) (absent short : option A) (skip : A -> bool).
Hypothesis Habsent : forall a, skip a = true -> absent = Some a.
Hypothesis Hdefaults : forall a, absent = Some a \/ short = Some a -> fits c a.
Definition put_field (a : A) : list (string * json) := if skip a then [] else [(name, ser c a)].
Definition get_field (arr : bool) (look : string -> option json) : option A :=
  match look name with Some v => de c v | None => if arr then short else absent end.
Program Definition field : shape A := Shape [name] put_field get_field (fits c) _ _ _.
Next Obligation. intros a. unfold put_field. destruct (skip a); [apply sublist_nil_l|done]. Qed.
Next Obligation.
  intros a look _ Ha Hl. unfold get_field. rewrite (Hl name) by by left. unfold put_field. destruct (skip a) eqn:Es; cbn.
  - by apply Habsent.
  - by rewrite String.eqb_refl, de_ser.
Qed.
Next Obligation.
  intros arr look a Hl. unfold get_field. destruct (look name) as [v|] eqn:E; [by apply de_fits, (Hl _ _ E)|].
  intros Ha. apply Hdefaults. destruct arr; auto.
Qed.
#[export] Instance field_printable : Printable c -> PrintableFields field.
Proof. intros Hc a Ha. cbn. unfold put_field. destruct (skip a); [done|]. cbn. by rewrite Hc. Qed.
End Field.

(** What is never printed as [null]. *)
Lemma text_solid s : ser text s <> JNull.
Proof. done. Qed.
Lemma u64_solid n : ser u64 n <> JNull.
Proof. done. Qed.
Lemma vec_solid {A} (c : codec A) l : ser (vec c) l <> JNull.
Proof. done. Qed.
(** A field that has to be given. *)
Program Definition req {A} (name : string) (c : codec A) : shape A := field name c None None (fun _ => false) _ _.
Solve Obligations with (try done; by intros ? ? ? ? [?|?]).
(** [#[serde(default)]], or [default = ..], with the value it takes. *)
Definition dflt {A} (name : string) (c : codec A) (d : A) (Hd : fits c d) : shape A :=
  field name c (Some d) (Some d) (fun _ => false) ltac:(done) ltac:(by intros a [[= <-]|[= <-]]).
(** A plain [Option]: an object may leave it out, an array may not. *)
Definition maybe {A} (name : string) (c : codec A) (Hs : forall a, ser c a <> JNull) : shape (option A) :=
  field name (opt c Hs) (Some None) None (fun _ => false) ltac:(done) ltac:(by intros a [[= <-]|?]).
(** The same with [skip_serializing_if = "Option::is_none"]. *)
Definition is_none {A} (o : option A) : bool := match o with None => true | Some _ => false end.
Definition maybe_skipped {A} (name : string) (c : codec A) (Hs : forall a, ser c a <> JNull) : shape (option A) :=
  field name (opt c Hs) (Some None) None is_none ltac:(by intros [a|]) ltac:(by intros a [[= <-]|?]).
(** The same with [#[serde(default)]] too, for a value. *)
Definition some_value (name : string) : shape (option json) :=
  field name opt_value (Some None) (Some None) is_none ltac:(by intros [a|]) ltac:(by intros a [[= <-]|[= <-]]).
Definition maybe_value (name : string) : shape (option json) :=
  field name opt_value (Some None) None (fun _ => false) ltac:(done) ltac:(by intros a [[= <-]|?]).
Definition some_text (name : string) : shape (option string) :=
  field name (opt text ltac:(done)) (Some None) (Some None) is_none ltac:(by intros [a|]) ltac:(by intros a [[= <-]|[= <-]]).
(** An [Option] with [#[serde(default)]]. *)
Definition maybe_default {A} (name : string) (c : codec A) (Hs : forall a, ser c a <> JNull) : shape (option A) :=
  dflt name (opt c Hs) None I.

#[export] Instance req_printable {A} name (c : codec A) : Printable c -> PrintableFields (req name c).
Proof. apply field_printable. Qed.
#[export] Instance dflt_printable {A} name (c : codec A) d Hd : Printable c -> PrintableFields (dflt name c d Hd).
Proof. apply field_printable. Qed.
#[export] Instance maybe_printable {A} name (c : codec A) Hs : Printable c -> PrintableFields (maybe name c Hs).
Proof. intros Hc. by apply field_printable, opt_printable. Qed.
#[export] Instance maybe_skipped_printable {A} name (c : codec A) Hs : Printable c -> PrintableFields (maybe_skipped name c Hs).
Proof. intros Hc. by apply field_printable, opt_printable. Qed.
#[export] Instance maybe_default_printable {A} name (c : codec A) Hs : Printable c -> PrintableFields (maybe_default name c Hs).
Proof. intros Hc. by apply dflt_printable, opt_printable. Qed.

#[export] Instance some_text_printable name : PrintableFields (some_text name).
Proof. apply field_printable, opt_printable, text_printable. Qed.

(** Fields one after the other. *)
Section Pair.
Context {A B : Type} (s : shape A) (t : shape B).
Definition get_pair (arr : bool) (look : string -> option json) : option (A * B) :=
  a ← get s arr look; b ← get t arr look; Some (a, b).
Lemma assoc_app_l {V} k (l l' : list (string * V)) : k ∉ l'.*1 -> Assoc.get k (l ++ l')%list = Assoc.get k l.
Proof. intros Hk. rewrite Assoc.get_app, (proj2 (Assoc.get_None _ _) Hk). by destruct (Assoc.get k l). Qed.
Lemma assoc_app_r {V} k (l l' : list (string * V)) : k ∉ l.*1 -> Assoc.get k (l ++ l')%list = Assoc.get k l'.
Proof. intros Hk. by rewrite Assoc.get_app, (proj2 (Assoc.get_None _ _) Hk). Qed.
Program Definition both : shape (A * B) :=
  Shape (names s ++ names t)%list (fun ab => put s (fst ab) ++ put t (snd ab))%list get_pair
    (fun ab => shape_fits s (fst ab) /\ shape_fits t (snd ab)) _ _ _.
Next Obligation. intros [a b]. cbn. rewrite fmap_app. apply sublist_app; apply put_names. Qed.
Next Obligation.
  intros [a b] look (Hs & Hdis & Ht)%NoDup_app [Ha Hb] Hl. cbn in *. unfold get_pair.
  rewrite (get_put s a look), (get_put t b look); try done.
  - intros k Hk. rewrite Hl by (apply elem_of_app; by right). apply assoc_app_r.
    intros Hin. apply (Hdis k); [|done]. by eapply elem_of_submseteq, sublist_submseteq, put_names.
  - intros k Hk. rewrite Hl by (apply elem_of_app; by left). apply assoc_app_l.
    intros Hin. apply (Hdis k); [done|]. by eapply elem_of_submseteq, sublist_submseteq, put_names.
Qed.
Next Obligation.
  intros arr look [a b] Hl. unfold get_pair. destruct (get s arr look) as [a'|] eqn:Ea; [|done].
  destruct (get t arr look) as [b'|] eqn:Eb; [|done]. intros [= <- <-].
  split; [exact (get_fits s _ _ _ Hl Ea)|exact (get_fits t _ _ _ Hl Eb)].
Qed.
#[export] Instance both_printable : PrintableFields s -> PrintableFields t -> PrintableFields both.
Proof. intros Hs Ht [a b] [Ha Hb]. cbn in *. by rewrite forallb_app, (Hs _ Ha), (Ht _ Hb). Qed.
End Pair.

(** The fields of a struct, from an object or, in the order declared, from an array. *)
Definition struct_field (fields : list string) (j : json) (k : string) : option json :=
  match j with
  | JObject l => Assoc.get k l
  | JArray l => Assoc.get k (combine fields l)
  | _ => None
  end.
(** Whether the members of an object are those of a struct: each known one at most
    once, the others being ignored; an array has no more elements than fields. *)
Definition is_struct (fields : list string) (j : json) : bool :=
  match j with
  | JObject l => bool_decide (NoDup (List.filter (fun k => existsb (String.eqb k) fields) l.*1))
  | JArray l => (length l <=? length fields)%nat
  | _ => false
  end.
Definition is_arr (j : json) : bool := match j with JArray _ => true | _ => false end.

(** A struct, as the tuple of its fields. *)
Section Struct.
Context {A : Type} (s : shape A).
Definition de_struct (j : json) : option A :=
  if is_struct (names s) j then get s (is_arr j) (struct_field (names s) j) else None.
Lemma filter_known (l : list (string * json)) : sublist l.*1 (names s) ->
  List.filter (fun k => existsb (String.eqb k) (names s)) l.*1 = l.*1.
Proof.
  intros Hl. assert (Hin : forall k, k ∈ l.*1 -> k ∈ names s) by (intros k Hk; by eapply elem_of_submseteq, sublist_submseteq).
  clear Hl. induction l.*1 as [|k ks IH]; [done|]. cbn. rewrite (proj2 (existsb_exists _ _)).
  - f_equal. apply IH. intros k' Hk'. apply Hin. by right.
  - exists k. split; [apply list_elem_of_In, Hin; by left|apply String.eqb_refl].
Qed.
Lemma struct_roundtrip (l : list (string * json)) a : NoDup (names s) -> shape_fits s a -> l = put s a ->
  de_struct (JObject l) = Some a.
Proof.
  intros Hnd Ha ->. unfold de_struct, is_struct. rewrite filter_known by apply put_names.
  rewrite bool_decide_true by (eapply sublist_NoDup; [done|apply put_names]). by apply get_put.
Qed.
Lemma struct_fits j a : json_typed j = true -> de_struct j = Some a -> shape_fits s a.
Proof.
  intros Hj. unfold de_struct. destruct (is_struct _ _); [|done]. apply get_fits.
  intros k v Hv. destruct j as [| | | |l|l]; try done; cbn in *; apply Assoc.get_In in Hv.
  - apply elem_of_zip_r in Hv. eapply forallb_forall in Hj; [exact Hj|]. by apply list_elem_of_In.
  - apply list_elem_of_In in Hv. by eapply forallb_forall in Hj; [|exact Hv].
Qed.
Hypothesis Hnames : bool_decide (NoDup (names s)) = true.
Program Definition struct : codec A := Codec (fun a => JObject (put s a)) de_struct (shape_fits s) _ struct_fits.
Next Obligation. intros a Ha. apply struct_roundtrip; [|done..]. by eapply bool_decide_eq_true_1. Qed.
#[export] Instance struct_printable : PrintableFields s -> Printable struct.
Proof. intros Hs a. apply Hs. Qed.
End Struct.

(** ** Internally tagged enums *)

(** [#[serde(tag = ..)]]: the variant's name, given once, and what is left; the first
    element of an array is the name. *)
Definition tagged (tag : string) (j : json) : option (string * json) :=
  match j with
  | JObject l =>
      if is_struct [tag] j then
        match Assoc.get tag l with Some (JString t) => Some (t, JObject (Assoc.remove tag l)) | _ => None end
      else None
  | JArray (JString t :: l) => Some (t, JArray l)
  | _ => None
  end.
(** A variant printed with its tag in front. *)
Definition with_tag (tag name : string) (l : list (string * json)) : json := JObject ((tag, JString name) :: l).
Lemma tagged_with tag name l : tag ∉ l.*1 -> tagged tag (with_tag tag name l) = Some (name, JObject l).
Proof.
  intros Hl. unfold tagged, with_tag, is_struct. cbn. rewrite String.eqb_refl. cbn.
  assert (Hf : List.filter (fun k => String.eqb k tag || false) l.*1 = []).
  { induction l.*1 as [|k ks IH]; [done|]. cbn. apply not_elem_of_cons in Hl as [Hk Hks].
    destruct (String.eqb_spec k tag); [congruence|]. by apply IH. }
  rewrite Hf, bool_decide_true by by apply NoDup_singleton. by rewrite Assoc.remove_None by by apply Assoc.get_None.
Qed.
End Derive.

(** Structs read as lists of fields. *)
Declare Scope serde_scope.
Delimit Scope serde_scope with serde.
Infix "***" := Derive.both (at level 41, right associativity) : serde_scope.
(** A record is the tuple of its fields. *)
Ltac tupled := intros; repeat match goal with p : (_ * _)%type |- _ => destruct p end; first [reflexivity|by case_match].
Lemma opt_text_fits (o : option string) : Derive.opt_fits Derive.text o.
Proof. by destruct o. Qed.
Lemma texts_fit (l : list string) : Forall (Derive.fits Derive.text) l.
Proof. by apply Forall_forall. Qed.
(** Shows that a record fits field by field, but for what needs an argument. *)
Ltac fields :=
  try first
    [ exact I | assumption | exact (opt_text_fits _) | exact (texts_fit _)
    | refine (conj _ _); fields ].
