(* ===== verification/Api.v ===== *)
(** * Api: the records of the administrative interface, [src/admin/api.rs].

    The bodies its clients send and the answers they get, as serde writes and reads them.
    The answers holding floating-point numbers are written where they are made, in
    [Inspector] and [Admin]. *)

From S2P Require Import Prelude Externals Serde.
Local Open Scope string_scope.
Local Open Scope serde_scope.
Import Derive.

(** ** Status and routes *)

(** [SpectraAppSummary] @admin/api.rs:{struct SpectraAppSummary} SpectraAppSummary *)
Record SpectraAppSummary := AppSummary { as_id : string; as_name : string; as_domains : list string; as_upstream : string }.
(** As serde has it. @admin/api.rs:{struct SpectraAppSummary} SpectraAppSummary::serialize *)
Definition app_summary : codec SpectraAppSummary :=
  iso (struct (req "id" text *** req "name" text *** req "domains" (vec text) *** req "upstream" text) eq_refl)
    (fun a => (as_id a, (as_name a, (as_domains a, as_upstream a)))) (fun t => let '(i, (n, (d, u))) := t in AppSummary i n d u)
    ltac:(by intros []) ltac:(tupled).

(** [AdminStatusResponse] @admin/api.rs:{struct AdminStatusResponse} AdminStatusResponse *)
Record AdminStatusResponse := StatusResponse {
  sr_version : string;
  sr_uptime_seconds : Z;
  sr_sync_enabled : bool;
  sr_sync_dispatch_policy : string;
  sr_sync_timeout_ms : Z;
  sr_async_routes_count : nat;
  sr_mode_a_enabled : bool;
  sr_mode_a_dispatch_policy : string;
  sr_mode_a_timeout_ms : Z;
  sr_mode_b_routes_count : nat;
  sr_broker_method : string;
  sr_broker_addr : string;
  sr_broker_status : string;
  sr_apps : list SpectraAppSummary;
  sr_auth_required : bool
}.
(** As serde has it. @admin/api.rs:{struct AdminStatusResponse} AdminStatusResponse::serialize *)
Definition status_response : codec AdminStatusResponse :=
  iso (struct (req "version" text *** req "uptime_seconds" u64 *** req "sync_enabled" flag ***
      req "sync_dispatch_policy" text *** req "sync_timeout_ms" u64 *** req "async_routes_count" usize ***
      req "mode_a_enabled" flag *** req "mode_a_dispatch_policy" text *** req "mode_a_timeout_ms" u64 ***
      req "mode_b_routes_count" usize *** req "broker_method" text *** req "broker_addr" text ***
      req "broker_status" text *** dflt "apps" (vec app_summary) [] ltac:(constructor) *** dflt "auth_required" flag false I) eq_refl)
    (fun r => (sr_version r, (sr_uptime_seconds r, (sr_sync_enabled r, (sr_sync_dispatch_policy r, (sr_sync_timeout_ms r,
      (sr_async_routes_count r, (sr_mode_a_enabled r, (sr_mode_a_dispatch_policy r, (sr_mode_a_timeout_ms r,
      (sr_mode_b_routes_count r, (sr_broker_method r, (sr_broker_addr r, (sr_broker_status r, (sr_apps r, sr_auth_required r)))))))))))))))
    (fun t => let '(a, (b, (c, (d, (e, (f, (g, (h, (i, (j, (k, (l, (m, (n, o)))))))))))))) := t in
      StatusResponse a b c d e f g h i j k l m n o)
    ltac:(by intros []) ltac:(tupled).

(** [AdminRouteEntry] @admin/api.rs:{struct AdminRouteEntry} AdminRouteEntry *)
Record AdminRouteEntry := RouteEntry {
  re_name : string;
  re_operation : string;
  re_mode : string;
  re_upstream : string;
  re_upstream_addr : string;
  re_receipt_status : string;
  re_enabled : bool;
  re_dispatch_policy : string;
  re_is_policy_override : bool;
  re_interceptors : list string
}.
(** @admin/api.rs:{fn default_true} default_true *)
Definition default_true : bool := true.
(** As serde has it. @admin/api.rs:{struct AdminRouteEntry} AdminRouteEntry::serialize *)
Definition route_entry_codec : codec AdminRouteEntry :=
  iso (struct (req "name" text *** req "operation" text *** req "mode" text *** req "upstream" text ***
      req "upstream_addr" text *** req "receipt_status" text *** dflt "enabled" flag default_true I ***
      dflt "dispatch_policy" text "" I *** dflt "is_policy_override" flag false I ***
      dflt "interceptors" (vec text) [] ltac:(constructor)) eq_refl)
    (fun r => (re_name r, (re_operation r, (re_mode r, (re_upstream r, (re_upstream_addr r, (re_receipt_status r,
      (re_enabled r, (re_dispatch_policy r, (re_is_policy_override r, re_interceptors r))))))))))
    (fun t => let '(a, (b, (c, (d, (e, (f, (g, (h, (i, j))))))))) := t in RouteEntry a b c d e f g h i j)
    ltac:(by intros []) ltac:(tupled).

(** [AdminNamedUpstream] @admin/api.rs:{struct AdminNamedUpstream} AdminNamedUpstream *)
Record AdminNamedUpstream := NamedUpstream { nu_name : string; nu_addr : string }.
Definition named_upstream : codec AdminNamedUpstream :=
  iso (struct (req "name" text *** req "addr" text) eq_refl) (fun u => (nu_name u, nu_addr u))
    (fun t => NamedUpstream (fst t) (snd t)) ltac:(by intros []) ltac:(tupled).
(** [AdminRoutesResponse] @admin/api.rs:{struct AdminRoutesResponse} AdminRoutesResponse *)
Record AdminRoutesResponse := RoutesResponse {
  rr_default_upstream : string;
  rr_default_upstream_addr : string;
  rr_named_upstreams : list AdminNamedUpstream;
  rr_routes : list AdminRouteEntry
}.
(** As serde has it. @admin/api.rs:{struct AdminRoutesResponse} AdminRoutesResponse::serialize *)
Definition routes_response : codec AdminRoutesResponse :=
  iso (struct (req "default_upstream" text *** req "default_upstream_addr" text ***
      req "named_upstreams" (vec named_upstream) *** req "routes" (vec route_entry_codec)) eq_refl)
    (fun r => (rr_default_upstream r, (rr_default_upstream_addr r, (rr_named_upstreams r, rr_routes r))))
    (fun t => let '(a, (b, (c, d))) := t in RoutesResponse a b c d) ltac:(by intros []) ltac:(tupled).

(** ** Figures *)

(** [AdminSubscriptionsResponse] @admin/api.rs:{struct AdminSubscriptionsResponse} AdminSubscriptionsResponse *)
Record AdminSubscriptionsResponse := SubscriptionsResponse {
  su_enabled : bool;
  su_active_connections : nat;
  su_topic_prefix : string;
  su_active_topics_count : nat;
  su_active_topics : list string
}.
Definition subscriptions_response : codec AdminSubscriptionsResponse :=
  iso (struct (req "enabled" flag *** req "active_connections" usize *** req "topic_prefix" text ***
      req "active_topics_count" usize *** req "active_topics" (vec text)) eq_refl)
    (fun r => (su_enabled r, (su_active_connections r, (su_topic_prefix r, (su_active_topics_count r, su_active_topics r)))))
    (fun t => let '(a, (b, (c, (d, e)))) := t in SubscriptionsResponse a b c d e) ltac:(by intros []) ltac:(tupled).
(** [AdminIdempotencyResponse] @admin/api.rs:{struct AdminIdempotencyResponse} AdminIdempotencyResponse *)
Record AdminIdempotencyResponse := IdempotencyResponse {
  ir_backend : string; ir_ttl_secs : Z; ir_max_capacity : Z; ir_active_records : Z }.
Definition idempotency_response : codec AdminIdempotencyResponse :=
  iso (struct (req "backend" text *** req "ttl_secs" u64 *** req "max_capacity" u64 *** req "active_records" u64) eq_refl)
    (fun r => (ir_backend r, (ir_ttl_secs r, (ir_max_capacity r, ir_active_records r))))
    (fun t => let '(a, (b, (c, d))) := t in IdempotencyResponse a b c d) ltac:(by intros []) ltac:(tupled).

(** ** The configuration *)

(** [AdminConfigResponse] @admin/api.rs:{struct AdminConfigResponse} AdminConfigResponse *)
Record AdminConfigResponse := ConfigResponse {
  cr_backend : string;
  cr_descriptor : string;
  cr_version : Z;
  cr_updated_at_epoch_ms : Z;
  cr_hash : string;
  cr_content : string
}.
Definition config_response : codec AdminConfigResponse :=
  iso (struct (req "backend" text *** req "descriptor" text *** req "version" u64 *** req "updated_at_epoch_ms" u64 ***
      req "hash" text *** req "content" text) eq_refl)
    (fun r => (cr_backend r, (cr_descriptor r, (cr_version r, (cr_updated_at_epoch_ms r, (cr_hash r, cr_content r))))))
    (fun t => let '(a, (b, (c, (d, (e, f))))) := t in ConfigResponse a b c d e f) ltac:(by intros []) ltac:(tupled).
(** [AdminConfigValidateRequest] @admin/api.rs:{struct AdminConfigValidateRequest} AdminConfigValidateRequest *)
Definition validate_request : codec string := struct (req "content" text) eq_refl.
(** [AdminConfigSummary] @admin/api.rs:{struct AdminConfigSummary} AdminConfigSummary *)
Record AdminConfigSummary := ConfigSummary {
  cs_apps_count : nat;
  cs_routes_count : nat;
  cs_named_upstreams_count : nat;
  cs_interceptors_count : nat;
  cs_broker_method : string;
  cs_broker_addr : string
}.
Definition config_summary : codec AdminConfigSummary :=
  iso (struct (req "apps_count" usize *** req "routes_count" usize *** req "named_upstreams_count" usize ***
      req "interceptors_count" usize *** req "broker_method" text *** req "broker_addr" text) eq_refl)
    (fun r => (cs_apps_count r, (cs_routes_count r, (cs_named_upstreams_count r, (cs_interceptors_count r,
      (cs_broker_method r, cs_broker_addr r))))))
    (fun t => let '(a, (b, (c, (d, (e, f))))) := t in ConfigSummary a b c d e f) ltac:(by intros []) ltac:(tupled).
Lemma config_summary_solid r : ser config_summary r <> JNull.
Proof. done. Qed.
(** [AdminConfigValidateResponse] @admin/api.rs:{struct AdminConfigValidateResponse} AdminConfigValidateResponse *)
Record AdminConfigValidateResponse := ValidateResponse {
  vr_valid : bool; vr_errors : list string; vr_warnings : list string; vr_summary : option AdminConfigSummary }.
(** As serde has it. @admin/api.rs:{struct AdminConfigValidateResponse} AdminConfigValidateResponse::serialize *)
Definition validate_response : codec AdminConfigValidateResponse :=
  iso (struct (req "valid" flag *** dflt "errors" (vec text) [] ltac:(constructor) ***
      dflt "warnings" (vec text) [] ltac:(constructor) *** maybe "summary" config_summary config_summary_solid) eq_refl)
    (fun r => (vr_valid r, (vr_errors r, (vr_warnings r, vr_summary r))))
    (fun t => let '(a, (b, (c, d))) := t in ValidateResponse a b c d) ltac:(by intros []) ltac:(tupled).
(** [AdminConfigUpdateRequest]: the content, and whether to reload, as by default.
    @admin/api.rs:{struct AdminConfigUpdateRequest} AdminConfigUpdateRequest *)
Definition update_request : codec (string * bool) := struct (req "content" text *** dflt "reload" flag default_true I) eq_refl.
(** [AdminConfigUpdateResponse], and [AdminConfigReloadResponse], which has the same fields.
    @admin/api.rs:{struct AdminConfigUpdateResponse} AdminConfigUpdateResponse *)
Record AdminConfigUpdateResponse := UpdateResponse {
  ur_success : bool;
  ur_version : Z;
  ur_hash : string;
  ur_updated_at_epoch_ms : Z;
  ur_reloaded : bool;
  ur_message : string
}.
(** As serde has them. @admin/api.rs:{struct AdminConfigReloadResponse} AdminConfigReloadResponse *)
Definition update_response : codec AdminConfigUpdateResponse :=
  iso (struct (req "success" flag *** req "version" u64 *** req "hash" text *** req "updated_at_epoch_ms" u64 ***
      req "reloaded" flag *** req "message" text) eq_refl)
    (fun r => (ur_success r, (ur_version r, (ur_hash r, (ur_updated_at_epoch_ms r, (ur_reloaded r, ur_message r))))))
    (fun t => let '(a, (b, (c, (d, (e, f))))) := t in UpdateResponse a b c d e f) ltac:(by intros []) ltac:(tupled).

(** ** DNS *)

(** [AdminDnsUpstreamEntry] @admin/api.rs:{struct AdminDnsUpstreamEntry} AdminDnsUpstreamEntry *)
Record dns_entry := DnsEntry {
  de_name : string; de_target : string; current_addr : string; previous_addr : option string; changed : bool }.
Definition dns_entry_codec : codec dns_entry :=
  iso (struct (req "name" text *** req "target" text *** req "current_addr" text *** maybe "previous_addr" text text_solid ***
      req "changed" flag) eq_refl)
    (fun d => (de_name d, (de_target d, (current_addr d, (previous_addr d, changed d)))))
    (fun t => let '(a, (b, (c, (d, e)))) := t in DnsEntry a b c d e) ltac:(by intros []) ltac:(tupled).
(** [AdminDnsStatusResponse] @admin/api.rs:{struct AdminDnsStatusResponse} AdminDnsStatusResponse *)
Record AdminDnsStatusResponse := DnsStatusResponse {
  ds_enabled : bool; ds_interval_secs : Z; ds_total_upstreams : nat; ds_upstreams : list dns_entry }.
Definition dns_status_response : codec AdminDnsStatusResponse :=
  iso (struct (req "enabled" flag *** req "interval_secs" u64 *** req "total_upstreams" usize ***
      req "upstreams" (vec dns_entry_codec)) eq_refl)
    (fun r => (ds_enabled r, (ds_interval_secs r, (ds_total_upstreams r, ds_upstreams r))))
    (fun t => let '(a, (b, (c, d))) := t in DnsStatusResponse a b c d) ltac:(by intros []) ltac:(tupled).

(** ** Their text *)

#[export] Instance app_summary_printable : Printable app_summary.
Proof. unfold app_summary. apply _. Qed.
#[export] Instance status_response_printable : Printable status_response.
Proof. unfold status_response. apply _. Qed.
#[export] Instance route_entry_codec_printable : Printable route_entry_codec.
Proof. unfold route_entry_codec. apply _. Qed.
#[export] Instance named_upstream_printable : Printable named_upstream.
Proof. unfold named_upstream. apply _. Qed.
#[export] Instance routes_response_printable : Printable routes_response.
Proof. unfold routes_response. apply _. Qed.
#[export] Instance subscriptions_response_printable : Printable subscriptions_response.
Proof. unfold subscriptions_response. apply _. Qed.
#[export] Instance idempotency_response_printable : Printable idempotency_response.
Proof. unfold idempotency_response. apply _. Qed.
#[export] Instance config_response_printable : Printable config_response.
Proof. unfold config_response. apply _. Qed.
#[export] Instance validate_request_printable : Printable validate_request.
Proof. unfold validate_request. apply _. Qed.
#[export] Instance config_summary_printable : Printable config_summary.
Proof. unfold config_summary. apply _. Qed.
#[export] Instance validate_response_printable : Printable validate_response.
Proof. unfold validate_response. apply _. Qed.
#[export] Instance update_request_printable : Printable update_request.
Proof. unfold update_request. apply _. Qed.
#[export] Instance update_response_printable : Printable update_response.
Proof. unfold update_response. apply _. Qed.
#[export] Instance dns_entry_codec_printable : Printable dns_entry_codec.
Proof. unfold dns_entry_codec. apply _. Qed.
#[export] Instance dns_status_response_printable : Printable dns_status_response.
Proof. unfold dns_status_response. apply _. Qed.
