(* ===== verification/Clock.v ===== *)
(** * Clock: the hybrid logical clock of [src/core/clock.rs].

    [HlcTimestamp] with its derived lexicographic order and its two printed
    forms; [HlcClock], whose whole state is one 64-bit word (48 bits of physical
    milliseconds, 16 bits of logical counter); the value one iteration of the
    compare-and-swap loops of [now] and [update] proposes; and the concurrent
    machine in which any number of threads run these loops over the shared word.
    Physical time is an input: nothing is assumed of the system clock, which may
    go backwards. *)

From S2P Require Import Prelude.
Local Open Scope Z_scope.

(** ** Timestamps *)

(** [HlcTimestamp] @core/clock.rs:12-18 HlcTimestamp *)
Record HlcTimestamp := HLC { physical : Z; logical : Z }.

#[export] Instance HlcTimestamp_eq_dec : EqDecision HlcTimestamp.
Proof. solve_decision. Defined.

(** The derived [Ord]: fields in order. @core/clock.rs:12-18 HlcTimestamp::cmp *)
Definition hlc_compare (a b : HlcTimestamp) : comparison :=
  match Z.compare (physical a) (physical b) with
  | Eq => Z.compare (logical a) (logical b)
  | c => c
  end.
Definition hlc_lt (a b : HlcTimestamp) : Prop := hlc_compare a b = Lt.

(** [HlcTimestamp::to_compact_string] @core/clock.rs:25-28 HlcTimestamp::to_compact_string *)
Definition to_compact_string (t : HlcTimestamp) : string :=
  String.append (pad0 13 (dec (physical t)))
    (String.append "-" (pad0 6 (dec (logical t)))).

(** [Display] @core/clock.rs:37-41 HlcTimestamp::fmt *)
Definition hlc_display (t : HlcTimestamp) : string :=
  String.append (pad0 13 (dec (physical t)))
    (String.append "." (pad0 6 (dec (logical t)))).

(** ** The packed word *)

(** @core/clock.rs:53-53 HlcClock::MAX_ALLOWED_CLOCK_DRIFT_MS *)
Definition MAX_ALLOWED_CLOCK_DRIFT_MS : Z := 60000.
(** @core/clock.rs:54-54 HlcClock::LOGICAL_MASK *)
Definition LOGICAL_MASK : Z := 65535.
(** @core/clock.rs:55-55 HlcClock::MAX_LOGICAL *)
Definition MAX_LOGICAL : Z := 65535.

(** [HlcClock::new]: the initial word, from the wall clock. @core/clock.rs:57-63 HlcClock::new *)
Definition new_word (initial_physical : Z) : Z :=
  Z.land (Int.wrap 64 (Z.shiftl initial_physical 16)) (Int.u64_max - LOGICAL_MASK).

(** The two fields read back from the word. @core/clock.rs:78-79 HlcClock::now *)
Definition unpack (current : Z) : HlcTimestamp :=
  HLC (Z.shiftr current 16) (Z.land current LOGICAL_MASK).

(** The word a loop iteration tries to store. @core/clock.rs:91-91 HlcClock::now *)
Definition pack (next : HlcTimestamp) : Z :=
  Z.lor (Int.wrap 64 (Z.shiftl (physical next) 16))
        (Z.land (logical next) LOGICAL_MASK).

(** ** One iteration of the loops *)

(** [HlcClock::now], one iteration. @core/clock.rs:72-103 HlcClock::now *)
Definition now_next (physical_now current : Z) : HlcTimestamp :=
  let curr_physical := physical (unpack current) in
  let curr_logical := logical (unpack current) in
  if physical_now >? curr_physical then HLC physical_now 0
  else if curr_logical <? MAX_LOGICAL then HLC curr_physical (curr_logical + 1)
  else HLC (Int.saturating_add_u64 curr_physical 1) 0.

(** [checked_add(1)] capped at [MAX_LOGICAL], else the next millisecond: the match
    the three arms of [update] share. @core/clock.rs:131-137 HlcClock::update *)
Definition bump (new_physical l : Z) : HlcTimestamp :=
  match Int.checked_add_u32 l 1 with
  | Some val =>
      if val <=? MAX_LOGICAL then HLC new_physical val
      else HLC (Int.saturating_add_u64 new_physical 1) 0
  | None => HLC (Int.saturating_add_u64 new_physical 1) 0
  end.

(** The remote physical time [update] accepts. @core/clock.rs:109-122 HlcClock::update *)
Definition safe_remote_physical (physical_now : Z) (remote : HlcTimestamp) : Z :=
  let max_tolerated_physical :=
    Int.saturating_add_u64 physical_now MAX_ALLOWED_CLOCK_DRIFT_MS in
  if physical remote >? max_tolerated_physical then max_tolerated_physical
  else physical remote.

(** [HlcClock::update], one iteration. @core/clock.rs:107-167 HlcClock::update *)
Definition update_next (physical_now : Z) (remote : HlcTimestamp) (current : Z) :
    HlcTimestamp :=
  let safe_remote := safe_remote_physical physical_now remote in
  let curr_physical := physical (unpack current) in
  let curr_logical := logical (unpack current) in
  let new_physical := Z.max (Z.max physical_now curr_physical) safe_remote in
  if (new_physical =? curr_physical) && (new_physical =? safe_remote) then
    bump new_physical (Z.max curr_logical (logical remote))
  else if new_physical =? curr_physical then bump new_physical curr_logical
  else if new_physical =? safe_remote then bump new_physical (logical remote)
  else HLC new_physical 0.

(** ** The shared clock *)

(** A call in progress: which method, the wall-clock reading it took, and the
    word it last saw. *)
Inductive clock_op :=
| OpNow
| OpUpdate (remote : HlcTimestamp).

(** What the method's loop proposes for the word it saw. @core/clock.rs:72-167 HlcClock::now, HlcClock::update *)
Definition op_next (op : clock_op) (physical_now current : Z) : HlcTimestamp :=
  match op with
  | OpNow => now_next physical_now current
  | OpUpdate remote => update_next physical_now remote current
  end.

Record call := Call { c_op : clock_op; c_physical_now : Z; c_current : Z }.

(** The shared word, the calls in their loops, and the timestamps returned so
    far, newest first. @core/clock.rs:49-51 HlcClock *)
Record machine := Machine {
  state : Z;
  calls : gmap nat call;
  issued : list HlcTimestamp
}.

(** A [u64] reading and a [u32] remote counter. *)
Definition valid_input (op : clock_op) (physical_now : Z) : Prop :=
  0 <= physical_now <= Int.u64_max /\
  match op with
  | OpNow => True
  | OpUpdate r => 0 <= physical r <= Int.u64_max /\ 0 <= logical r <= Int.u32_max
  end.

(** The steps of the loops: enter with the wall-clock reading and the first
    [load]; a [compare_exchange_weak] that succeeds, which needs the word to be
    the one seen; one that fails (also spuriously) and reloads the word. @core/clock.rs:72-104 HlcClock::now *)
Inductive step : machine -> machine -> Prop :=
| step_enter m t op pn :
    calls m !! t = None ->
    valid_input op pn ->
    step m (Machine (state m) (<[t := Call op pn (state m)]> (calls m)) (issued m))
| step_cas_ok m t c next :
    calls m !! t = Some c ->
    c_current c = state m ->
    next = op_next (c_op c) (c_physical_now c) (c_current c) ->
    step m (Machine (pack next) (delete t (calls m)) (next :: issued m))
| step_cas_fail m t c :
    calls m !! t = Some c ->
    step m (Machine (state m)
              (<[t := Call (c_op c) (c_physical_now c) (state m)]> (calls m))
              (issued m)).

(** A clock just made by [HlcClock::new]. @core/clock.rs:57-63 HlcClock::new *)
Definition initial (initial_physical : Z) : machine :=
  Machine (new_word initial_physical) ∅ [].

(** Timestamps whose physical part still fits its 48 bits (until the year 10889). *)
Definition fits (t : HlcTimestamp) : Prop :=
  0 <= physical t < 2 ^ 48 /\ 0 <= logical t < 2 ^ 16.

(** ** Lemmas: order *)

Lemma hlc_lt_iff a b :
  hlc_lt a b <->
  physical a < physical b \/ (physical a = physical b /\ logical a < logical b).
Proof.
  unfold hlc_lt, hlc_compare.
  destruct (Z.compare_spec (physical a) (physical b)); rewrite ?Z.compare_lt_iff;
    split; try (intros; lia); try done; intros [?|[? ?]]; lia.
Qed.

#[export] Instance hlc_lt_transitive : Transitive hlc_lt.
Proof. intros a b c. rewrite !hlc_lt_iff. lia. Qed.

#[export] Instance hlc_lt_irreflexive : Irreflexive hlc_lt.
Proof. intros a. unfold complement. rewrite hlc_lt_iff. lia. Qed.

(** ** Lemmas: the packed word *)

Lemma testbit_above n k i : 0 <= n < 2 ^ k -> 0 <= k <= i -> Z.testbit n i = false.
Proof.
  intros Hn Hk. apply (proj1 (Z.bounded_iff_bits_nonneg k n ltac:(lia) ltac:(lia))); lia.
Qed.

Lemma mul_pow2_land_low p l k : 0 <= k -> 0 <= l < 2 ^ k -> Z.land (p * 2 ^ k) l = 0.
Proof.
  intros Hk Hl. apply Z.bits_inj'. intros n Hn. rewrite Z.land_spec, Z.bits_0.
  destruct (Z.ltb_spec n k); [by rewrite Z.mul_pow2_bits_low by lia|].
  rewrite (testbit_above l k) by lia. apply andb_false_r.
Qed.

Lemma pack_arith t : fits t -> pack t = physical t * 2 ^ 16 + logical t.
Proof.
  intros [Hp Hl]. unfold pack.
  rewrite Z.shiftl_mul_pow2, Int.wrap_small by lia.
  change LOGICAL_MASK with (Z.ones 16).
  rewrite Z.land_ones, Z.mod_small by lia. symmetry.
  apply Z.add_nocarry_lor, mul_pow2_land_low; lia.
Qed.

Lemma unpack_pack t : fits t -> unpack (pack t) = t.
Proof.
  intros Ht. pose proof Ht as [Hp Hl]. rewrite pack_arith by done.
  unfold unpack. destruct t as [p l]; cbn [physical logical] in *. f_equal.
  - rewrite Z.shiftr_div_pow2 by lia.
    rewrite Z.div_add_l, Z.div_small by lia. lia.
  - change LOGICAL_MASK with (Z.ones 16). rewrite Z.land_ones by lia.
    rewrite Z.add_comm, Z.mod_add, Z.mod_small by lia. done.
Qed.

Lemma pack_range t : fits t -> 0 <= pack t <= Int.u64_max.
Proof.
  intros Ht. rewrite pack_arith by done. destruct Ht. unfold Int.u64_max. lia.
Qed.

Lemma new_word_pack p : 0 <= p < 2 ^ 48 -> new_word p = pack (HLC p 0).
Proof.
  intros Hp. rewrite pack_arith by (split; cbn; lia). cbn [physical logical].
  unfold new_word. rewrite Z.shiftl_mul_pow2, Int.wrap_small by lia.
  rewrite Z.add_0_r. apply Z.bits_inj'. intros n Hn. rewrite Z.land_spec.
  replace (Int.u64_max - LOGICAL_MASK) with (Z.ones 48 * 2 ^ 16) by reflexivity.
  destruct (Z.ltb_spec n 16).
  - by rewrite !Z.mul_pow2_bits_low by lia.
  - rewrite !Z.mul_pow2_bits by lia.
    destruct (Z.ltb_spec (n - 16) 48).
    + rewrite Z.ones_spec_low by lia. apply andb_true_r.
    + by rewrite (testbit_above p 48) by lia.
Qed.

Lemma unpack_fits w : 0 <= w <= Int.u64_max -> fits (unpack w).
Proof.
  unfold Int.u64_max. intros Hw. unfold fits, unpack; cbn [physical logical].
  change LOGICAL_MASK with (Z.ones 16). rewrite Z.land_ones by lia.
  rewrite Z.shiftr_div_pow2 by lia. split; [|apply Z.mod_pos_bound; lia].
  split; [apply Z.div_pos; lia|apply Z.div_lt_upper_bound; lia].
Qed.

(** ** Lemmas: one iteration *)

Lemma now_next_gt pn w :
  0 <= w <= Int.u64_max -> hlc_lt (unpack w) (now_next pn w).
Proof.
  intros Hw%unpack_fits. destruct Hw as [Hp Hl].
  rewrite hlc_lt_iff. unfold now_next, MAX_LOGICAL, Int.saturating_add_u64, Int.u64_max.
  repeat case_match; to_prop; cbn [physical logical]; lia.
Qed.

(** [bump p l] is the least timestamp the code knows above [(p, l)]. *)
Lemma bump_spec p l :
  0 <= p < Int.u64_max -> 0 <= l <= Int.u32_max ->
  (physical (bump p l) = p /\ logical (bump p l) = l + 1 /\ l < MAX_LOGICAL) \/
  (physical (bump p l) = p + 1 /\ logical (bump p l) = 0 /\ MAX_LOGICAL <= l).
Proof.
  unfold bump, Int.checked_add_u32, Int.saturating_add_u64, Int.u64_max, Int.u32_max,
    MAX_LOGICAL. intros Hp Hl.
  repeat case_match; simplify_eq; to_prop; cbn [physical logical]; lia.
Qed.

Lemma update_next_cases pn r w :
  let m := Z.max (Z.max pn (physical (unpack w))) (safe_remote_physical pn r) in
  (exists l, update_next pn r w = bump m l /\
     (m = physical (unpack w) -> logical (unpack w) <= l) /\
     (m = safe_remote_physical pn r -> logical r <= l) /\
     (l = logical (unpack w) \/ l = logical r)) \/
  (update_next pn r w = HLC m 0 /\ m <> physical (unpack w) /\
   m <> safe_remote_physical pn r).
Proof.
  cbv zeta. unfold update_next.
  set (cp := physical (unpack w)). set (sr := safe_remote_physical pn r).
  set (m := Z.max (Z.max pn cp) sr).
  destruct (Z.eqb_spec m cp) as [E1|E1], (Z.eqb_spec m sr) as [E2|E2]; cbn [andb].
  - left. exists (Z.max (logical (unpack w)) (logical r)). split; [done|lia].
  - left. eexists; split; [done|lia].
  - left. eexists; split; [done|lia].
  - right. done.
Qed.

Lemma update_next_spec pn r w :
  0 <= w <= Int.u64_max -> valid_input (OpUpdate r) pn ->
  pn + MAX_ALLOWED_CLOCK_DRIFT_MS < Int.u64_max ->
  let next := update_next pn r w in
  hlc_lt (unpack w) next /\
  (physical r <= pn + MAX_ALLOWED_CLOCK_DRIFT_MS -> hlc_lt r next) /\
  pn <= physical next <=
    Z.max (physical (unpack w)) (pn + MAX_ALLOWED_CLOCK_DRIFT_MS) + 1 /\
  0 <= logical next <= MAX_LOGICAL.
Proof.
  intros Hw%unpack_fits [Hpn [Hr Hrl]] Hsmall next. destruct Hw as [Hp Hl].
  pose proof (update_next_cases pn r w) as Hcases. cbv zeta in Hcases.
  assert (Hsr : safe_remote_physical pn r =
                Z.min (physical r) (pn + MAX_ALLOWED_CLOCK_DRIFT_MS)).
  { unfold safe_remote_physical, Int.saturating_add_u64. case_match; to_prop; lia. }
  rewrite Hsr in Hcases. rewrite !hlc_lt_iff. subst next.
  unfold MAX_ALLOWED_CLOCK_DRIFT_MS, Int.u64_max, MAX_LOGICAL in *.
  destruct Hcases as [(l & -> & Hl1 & Hl2 & Hl3)|(-> & Hn1 & Hn2)];
    [|cbn [physical logical]; lia].
  assert (0 <= l <= Int.u32_max) by (unfold Int.u32_max in *; lia).
  pose proof (bump_spec (Z.max (Z.max pn (physical (unpack w)))
    (Z.min (physical r) (pn + 60000))) l) as Hb.
  unfold Int.u64_max, MAX_LOGICAL in Hb. lia.
Qed.

Lemma safe_remote_range pn r :
  0 <= pn <= Int.u64_max -> 0 <= physical r <= Int.u64_max ->
  0 <= safe_remote_physical pn r <= Int.u64_max.
Proof.
  unfold safe_remote_physical, Int.saturating_add_u64, MAX_ALLOWED_CLOCK_DRIFT_MS,
    Int.u64_max. intros. repeat case_match; to_prop; lia.
Qed.

(** Whatever the input, a proposal that fits its word is above the word seen. *)
Lemma op_next_gt op pn w :
  0 <= w <= Int.u64_max -> valid_input op pn ->
  physical (op_next op pn w) < 2 ^ 48 ->
  hlc_lt (unpack w) (op_next op pn w) /\ fits (op_next op pn w).
Proof.
  intros Hw Hv Hfit. pose proof (unpack_fits w Hw) as [Hp Hl].
  destruct op as [|r]; cbn [op_next] in *.
  - split; [by apply now_next_gt|]. destruct Hv as [Hpn _]. revert Hfit.
    unfold fits, now_next, MAX_LOGICAL, Int.saturating_add_u64, Int.u64_max.
    repeat case_match; to_prop; cbn [physical logical]; lia.
  - destruct Hv as [Hpn [Hr Hrl]].
    pose proof (safe_remote_range pn r Hpn Hr) as Hsr.
    pose proof (update_next_cases pn r w) as Hcases. cbv zeta in Hcases.
    unfold fits. rewrite hlc_lt_iff.
    destruct Hcases as [(l & Heq & Hl1 & Hl2 & Hl3)|(Heq & Hn1 & Hn2)];
      rewrite Heq in *; [|cbn [physical logical] in *; lia].
    set (m := Z.max (Z.max pn (physical (unpack w))) (safe_remote_physical pn r)) in *.
    assert (0 <= l <= Int.u32_max) by (unfold Int.u32_max in *; lia).
    assert (m < Int.u64_max).
    { revert Hfit. unfold bump, Int.saturating_add_u64, Int.u64_max.
      repeat case_match; cbn [physical logical]; lia. }
    pose proof (bump_spec m l ltac:(lia) ltac:(done)) as Hb. unfold MAX_LOGICAL in Hb. lia.
Qed.

(** ** Lemmas: the machine *)

(** The word is what the last returned timestamp packs to, and every call in a
    loop has seen a value of the word. *)
Definition last_issued (p0 : Z) (m : machine) : HlcTimestamp :=
  match issued m with [] => HLC p0 0 | t :: _ => t end.

Definition machine_inv (p0 : Z) (m : machine) : Prop :=
  Forall (fun t => physical t < 2 ^ 48) (issued m) ->
  state m = pack (last_issued p0 m) /\
  fits (last_issued p0 m) /\
  StronglySorted (flip hlc_lt) (issued m) /\
  map_Forall (fun _ c => valid_input (c_op c) (c_physical_now c)) (calls m).

Lemma machine_inv_initial p0 : 0 <= p0 < 2 ^ 48 -> machine_inv p0 (initial p0).
Proof.
  intros Hp _. cbn. split; [by apply new_word_pack|].
  split; [split; cbn; lia|]. split; [constructor|apply map_Forall_empty].
Qed.

Lemma sorted_push (t h : HlcTimestamp) l :
  StronglySorted (flip hlc_lt) (h :: l) -> hlc_lt h t ->
  StronglySorted (flip hlc_lt) (t :: h :: l).
Proof.
  intros Hs Ht. constructor; [done|]. apply StronglySorted_inv in Hs as [_ Hall].
  constructor; [done|]. eapply Forall_impl; [exact Hall|].
  intros x Hx. unfold flip in *. by trans h.
Qed.

Lemma machine_inv_step p0 m m' : machine_inv p0 m -> step m m' -> machine_inv p0 m'.
Proof.
  intros Hinv Hstep. destruct Hstep as [m t op pn Hc Hv|m t c next Hc Hcur Hnext|m t c Hc].
  - intros Hfit. destruct (Hinv Hfit) as (Hs & Hf & Ho & Hcalls). do 3 (split; [done|]).
    apply map_Forall_insert_2; [exact Hv|exact Hcalls].
  - unfold machine_inv. cbn [issued state calls last_issued].
    intros [Hn Hfit]%Forall_cons.
    destruct (Hinv Hfit) as (Hst & Hlf & Hs & Hcalls).
    pose proof (Hcalls _ _ Hc) as Hv; cbn in Hv.
    rewrite Hcur, Hst in Hnext. subst next.
    destruct (op_next_gt (c_op c) (c_physical_now c) (pack (last_issued p0 m)))
      as [Hgt Hf]; [by apply pack_range|done|done|].
    rewrite unpack_pack in Hgt by done.
    split; [done|]. split; [done|]. split; [|by apply map_Forall_delete].
    unfold last_issued in *. destruct (issued m); [by repeat constructor|].
    by apply sorted_push.
  - intros Hfit. destruct (Hinv Hfit) as (Hs & Hf & Ho & Hcalls). do 3 (split; [done|]).
    apply map_Forall_insert_2; [|done]. exact (Hcalls _ _ Hc).
Qed.

Lemma machine_inv_reachable p0 m :
  0 <= p0 < 2 ^ 48 -> rtc step (initial p0) m -> machine_inv p0 m.
Proof.
  intros Hp Hr.
  enough (forall m0, machine_inv p0 m0 -> rtc step m0 m -> machine_inv p0 m)
    by (eauto using machine_inv_initial).
  clear Hr. induction 2; eauto using machine_inv_step.
Qed.

(** A run in which no wall-clock reading is above [W]. *)
Definition step_below (W : Z) (m m' : machine) : Prop :=
  step m m' /\ map_Forall (fun _ c => c_physical_now c <= W) (calls m').

Definition drift_inv (W : Z) (p0 : Z) (m : machine) : Prop :=
  Forall (fun t => physical t < 2 ^ 48) (issued m) ->
  physical (last_issued p0 m) <=
    W + MAX_ALLOWED_CLOCK_DRIFT_MS + Z.of_nat (length (issued m)) /\
  map_Forall (fun _ c => c_physical_now c <= W) (calls m).

Lemma now_next_le pn w :
  0 <= w <= Int.u64_max ->
  physical (now_next pn w) <= Z.max (physical (unpack w)) pn + 1.
Proof.
  intros Hw%unpack_fits. destruct Hw as [Hp Hl].
  unfold now_next, MAX_LOGICAL, Int.saturating_add_u64, Int.u64_max.
  repeat case_match; to_prop; cbn [physical logical]; lia.
Qed.

Lemma op_next_le op pn w W :
  0 <= w <= Int.u64_max -> valid_input op pn -> pn <= W ->
  W + MAX_ALLOWED_CLOCK_DRIFT_MS < Int.u64_max ->
  physical (op_next op pn w) <=
    Z.max (physical (unpack w)) (W + MAX_ALLOWED_CLOCK_DRIFT_MS) + 1.
Proof.
  intros Hw Hv HpW HW. destruct op as [|r]; cbn [op_next].
  - pose proof (now_next_le pn w Hw). unfold MAX_ALLOWED_CLOCK_DRIFT_MS in *. lia.
  - pose proof (update_next_spec pn r w Hw Hv ltac:(lia)) as H. cbv zeta in H. lia.
Qed.

Lemma drift_reachable W p0 m :
  0 <= p0 < 2 ^ 48 -> p0 <= W -> W + MAX_ALLOWED_CLOCK_DRIFT_MS < Int.u64_max ->
  rtc (step_below W) (initial p0) m -> machine_inv p0 m /\ drift_inv W p0 m.
Proof.
  intros Hp0 Hp HW Hr.
  enough (forall m0, machine_inv p0 m0 -> drift_inv W p0 m0 ->
            rtc (step_below W) m0 m -> machine_inv p0 m /\ drift_inv W p0 m) as H.
  { apply (H (initial p0)); [by apply machine_inv_initial| |done].
    intros _. cbn. unfold MAX_ALLOWED_CLOCK_DRIFT_MS. split; [lia|apply map_Forall_empty]. }
  clear Hr. intros m0 Hi Hd Hr. induction Hr as [m0|m0 m1 m2 [Hs Hb] _ IH]; [done|].
  apply IH; [by eapply machine_inv_step|].
  destruct Hs as [m0 t op pn Hc Hv|m0 t c next Hc Hcur Hnext|m0 t c Hc].
  - intros Hfit. destruct (Hd Hfit). split; done.
  - unfold drift_inv. cbn [issued last_issued]. intros [Hn Hfit]%Forall_cons.
    split; [|done]. destruct (Hi Hfit) as (Hst & Hlf & _ & Hcalls).
    destruct (Hd Hfit) as [Hle Hcw].
    rewrite Hcur, Hst in Hnext.
    pose proof (op_next_le (c_op c) (c_physical_now c) (pack (last_issued p0 m0)) W
      ltac:(by apply pack_range) (Hcalls _ _ Hc) (Hcw _ _ Hc) HW) as Hup.
    rewrite unpack_pack in Hup by done. subst next. unfold last_issued. cbn [issued].
    cbn [length]. unfold last_issued in Hup, Hle.
    destruct (issued m0); cbn [length] in *; lia.
  - intros Hfit. destruct (Hd Hfit). split; done.
Qed.

(** As long as the readings and the number of returned timestamps leave room,
    physical time fits its 48 bits whatever the remote timestamps were. *)
Lemma drift_fits W p0 m :
  0 <= p0 <= W -> W + MAX_ALLOWED_CLOCK_DRIFT_MS + Z.of_nat (length (issued m)) < 2 ^ 48 ->
  rtc (step_below W) (initial p0) m ->
  Forall (fun t => physical t < 2 ^ 48) (issued m).
Proof.
  intros Hp Hroom Hr. revert m Hr Hroom.
  refine (rtc_ind_r (fun m => _ -> Forall _ (issued m)) _ _ _); [intros _; apply Forall_nil_2|].
  intros m m' Hr [Hs Hb] IH Hroom. unfold MAX_ALLOWED_CLOCK_DRIFT_MS in *.
  assert (HW : W + MAX_ALLOWED_CLOCK_DRIFT_MS < Int.u64_max)
    by (unfold MAX_ALLOWED_CLOCK_DRIFT_MS, Int.u64_max; lia).
  destruct (drift_reachable W p0 m ltac:(lia) ltac:(lia) HW Hr) as [Hi Hd].
  destruct Hs as [m t op pn Hc Hv|m t c next Hc Hcur Hnext|m t c Hc]; cbn [issued] in *;
    [by apply IH| |by apply IH].
  cbn [length] in Hroom. assert (Hfit : Forall (fun t => physical t < 2 ^ 48) (issued m))
    by (apply IH; lia).
  apply Forall_cons; split; [|done].
  destruct (Hi Hfit) as (Hst & Hlf & _ & Hcalls), (Hd Hfit) as [Hle Hcw].
  rewrite Hcur, Hst in Hnext.
  pose proof (op_next_le (c_op c) (c_physical_now c) (pack (last_issued p0 m)) W
    ltac:(by apply pack_range) (Hcalls _ _ Hc) (Hcw _ _ Hc) HW) as Hup.
  rewrite unpack_pack in Hup by done. subst next.
  unfold MAX_ALLOWED_CLOCK_DRIFT_MS in *. lia.
Qed.

(** ** Properties *)

(** C27. The timestamps all threads get from one clock, under any interleaving of
    the compare-and-swap loops of [now] and [update] and any wall-clock
    readings (going backwards included), are strictly increasing in the order
    the swaps succeed: none is handed out twice and none is below an earlier
    one, as long as physical time fits its 48 bits. *)
Theorem hlc_concurrent_monotonicity p0 m :
  0 <= p0 < 2 ^ 48 -> rtc step (initial p0) m ->
  Forall (fun t => physical t < 2 ^ 48) (issued m) ->
  StronglySorted (flip hlc_lt) (issued m) /\ NoDup (issued m).
Proof.
  intros Hp Hr Hfit. destruct (machine_inv_reachable p0 m Hp Hr Hfit) as (_ & _ & Hs & _).
  split; [done|]. induction Hs as [|t l Hs IH Hall]; [constructor|].
  apply Forall_cons in Hfit as [_ Hfit]. constructor; [|auto].
  intros Hin. rewrite Forall_forall in Hall.
  by destruct (hlc_lt_irreflexive t (Hall t Hin)).
Qed.

(** Two threads race: both load the word, one swap fails, and both still get
    distinct timestamps. *)
Definition race : machine :=
  Machine (pack (HLC 1000 1)) ∅ [HLC 1000 1; HLC 1000 0].

Lemma race_reachable : rtc step (initial 999) race.
Proof.
  assert (Hv : valid_input OpNow 1000) by (unfold valid_input, Int.u64_max; lia).
  eapply rtc_l; [by apply (step_enter _ 1%nat OpNow 1000)|].
  eapply rtc_l; [by apply (step_enter _ 2%nat OpNow 1000)|].
  eapply rtc_l; [by eapply (step_cas_ok _ 1%nat)|].
  eapply rtc_l; [by eapply (step_cas_fail _ 2%nat)|].
  replace race with
    (Machine (pack (HLC 1000 1))
       (delete 2%nat {[2%nat := Call OpNow 1000 (pack (HLC 1000 0))]})
       [HLC 1000 1; HLC 1000 0]) by reflexivity.
  apply rtc_once. cbn.
  by eapply (step_cas_ok (Machine _ _ _) 2%nat).
Qed.

Lemma hlc_concurrent_monotonicity_witness :
  StronglySorted (flip hlc_lt) (issued race) /\ NoDup (issued race).
Proof.
  apply (hlc_concurrent_monotonicity 999); [lia|exact race_reachable|].
  cbn. repeat constructor; cbn; lia.
Defined.

(** Receiving a remote timestamp: whatever the local word, the timestamp
    [update] proposes is above the local one and, when the remote clock is at
    most the tolerated drift ahead, above the remote one; it is never further
    ahead than the local clock or the tolerated drift plus one millisecond, and
    its counter fits its 16 bits. *)
Theorem hlc_update_causality pn r w :
  0 <= w <= Int.u64_max -> valid_input (OpUpdate r) pn ->
  pn + MAX_ALLOWED_CLOCK_DRIFT_MS < Int.u64_max ->
  hlc_lt (unpack w) (update_next pn r w) /\
  (physical r <= pn + MAX_ALLOWED_CLOCK_DRIFT_MS -> hlc_lt r (update_next pn r w)) /\
  pn <= physical (update_next pn r w) <=
    Z.max (physical (unpack w)) (pn + MAX_ALLOWED_CLOCK_DRIFT_MS) + 1 /\
  0 <= logical (update_next pn r w) <= MAX_LOGICAL.
Proof. apply update_next_spec. Qed.

Lemma hlc_update_causality_witness :
  hlc_lt (HLC 11000 5) (update_next 1000 (HLC 11000 5) (pack (HLC 1000 3))) /\
  update_next 1000 (HLC 11000 5) (pack (HLC 1000 3)) = HLC 11000 6.
Proof.
  split; [|reflexivity].
  apply (hlc_update_causality 1000 (HLC 11000 5) (pack (HLC 1000 3))); z_compute.
Defined.

(** C28. Remote nodes cannot poison the clock: if neither its first reading nor any
    wall-clock reading of a run is above [W], then after [n] returned
    timestamps no timestamp is more than [n] milliseconds past [W] plus the
    tolerated drift of a minute, whatever the remote timestamps were. The
    bound on the run is on the readings alone: [W], the drift and [n] together
    fit the 48 bits of physical time (until the year 10889); that the
    timestamps themselves fit is then proved, not supposed. *)
Theorem hlc_drift_capping W p0 m t :
  0 <= p0 <= W -> W + MAX_ALLOWED_CLOCK_DRIFT_MS + Z.of_nat (length (issued m)) < 2 ^ 48 ->
  rtc (step_below W) (initial p0) m -> t ∈ issued m ->
  physical t <= W + MAX_ALLOWED_CLOCK_DRIFT_MS + Z.of_nat (length (issued m)).
Proof.
  intros Hp Hroom Hr Hin. pose proof (drift_fits W p0 m Hp Hroom Hr) as Hfit.
  destruct (drift_reachable W p0 m) as [Hi Hd];
    [unfold MAX_ALLOWED_CLOCK_DRIFT_MS, Int.u64_max in *; lia..|done|].
  destruct (Hi Hfit) as (_ & _ & Hs & _), (Hd Hfit) as [Hle _].
  unfold last_issued in Hle. destruct (issued m) as [|h l]; [by apply not_elem_of_nil in Hin|].
  apply StronglySorted_inv in Hs as [_ Hall]. rewrite Forall_forall in Hall.
  apply elem_of_cons in Hin as [->|Hin]; [done|].
  pose proof (Hall t Hin) as Hlt. unfold flip in Hlt. rewrite hlc_lt_iff in Hlt. lia.
Qed.

(** A peer an hour ahead is capped at one minute. *)
Definition poisoned : machine :=
  Machine (pack (HLC 61000 43)) ∅ [HLC 61000 43].

Lemma hlc_drift_capping_witness :
  physical (HLC 61000 43) <= 1000 + MAX_ALLOWED_CLOCK_DRIFT_MS + 1.
Proof.
  apply (hlc_drift_capping 1000 1000 poisoned); [lia|reflexivity| |].
  - eapply rtc_l.
    { split; [apply (step_enter _ 1%nat (OpUpdate (HLC 3601000 42)) 1000)|].
      - reflexivity.
      - z_compute.
      - cbn. apply map_Forall_insert_2; [cbn; lia|apply map_Forall_empty]. }
    apply rtc_once. split; [|apply map_Forall_empty].
    replace poisoned with
      (Machine (pack (HLC 61000 43))
         (delete 1%nat {[1%nat := Call (OpUpdate (HLC 3601000 42)) 1000 (new_word 1000)]})
         [HLC 61000 43]) by reflexivity.
    by eapply (step_cas_ok (Machine _ _ _) 1%nat).
  - cbn. by constructor.
Defined.

(** The loops are lock-free: from any machine, a thread left to run alone
    returns after at most two attempts (one reload, one swap). *)
Theorem hlc_loop_terminates m t c :
  calls m !! t = Some c ->
  exists m1 next,
    step m m1 /\ next = op_next (c_op c) (c_physical_now c) (state m) /\
    step m1 (Machine (pack next) (delete t (calls m)) (next :: issued m)).
Proof.
  intros Hc.
  eexists _, _. split; [by apply (step_cas_fail m t c)|]. split; [done|].
  replace (delete t (calls m))
    with (delete t (<[t := Call (c_op c) (c_physical_now c) (state m)]> (calls m)))
    by apply delete_insert_eq.
  apply (step_cas_ok (Machine _ _ _) t (Call (c_op c) (c_physical_now c) (state m)));
    cbn; [apply lookup_insert_eq|done|done].
Qed.

Lemma hlc_loop_terminates_witness :
  exists m1, step m1 (Machine (pack (HLC 8 0)) (delete 1%nat {[1%nat := Call OpNow 8 3]}) [HLC 8 0]).
Proof.
  destruct (hlc_loop_terminates (Machine (pack (HLC 7 7)) {[1%nat := Call OpNow 8 3]} []) 1%nat
              (Call OpNow 8 3)) as (m1 & next & _ & -> & H); [reflexivity|].
  exists m1. exact H.
Defined.

(** C29. [to_compact_string] is a sortable encoding: comparing the strings byte by
    byte is comparing the timestamps, while the milliseconds have at most 13
    digits (until the year 2286) and the counter at most 6. *)
Theorem to_compact_string_sortable a b :
  0 <= physical a < 10 ^ 13 -> 0 <= logical a < 10 ^ 6 ->
  0 <= physical b < 10 ^ 13 -> 0 <= logical b < 10 ^ 6 ->
  String.compare (to_compact_string a) (to_compact_string b) = hlc_compare a b.
Proof.
  intros Hpa Hla Hpb Hlb. unfold to_compact_string, hlc_compare.
  rewrite !Fixed.pad0_dec by lia.
  rewrite bytes_compare_app, Fixed.fixw_compare by (rewrite ?Fixed.fixw_length; done || lia).
  destruct (physical a ?= physical b); [|done..]. cbn [String.append].
  change (String "-" ?s) with (String.append "-" s).
  by rewrite (bytes_compare_app "-" "-"), Fixed.fixw_compare by (done || lia).
Qed.

Lemma to_compact_string_sortable_witness :
  String.compare (to_compact_string (HLC 1700000000000 9))
    (to_compact_string (HLC 1700000000000 10)) = Lt.
Proof. apply (to_compact_string_sortable (HLC 1700000000000 9) (HLC 1700000000000 10)); cbn; lia. Defined.

(** The unit tests of [clock.rs] on concrete words. *)
Example hlc_overflow_protection :
  now_next 500 (Z.lor (Z.shiftl 500 16) 65535) = HLC 501 0.
Proof. reflexivity. Qed.
Example to_compact_string_example :
  to_compact_string (HLC 1700000000000 7) = "1700000000000-000007".
Proof. reflexivity. Qed.

(** Past 13 digits the printed form no longer sorts. *)
Example to_compact_string_unsorted :
  String.compare (to_compact_string (HLC (10 ^ 13) 0))
    (to_compact_string (HLC (10 ^ 13 - 1) 0)) = Lt.
Proof. reflexivity. Qed.
