(* ===== verification/Types.v ===== *)
(** * Types: the execution strategies and outcomes of [src/core/types.rs].

    Each enumeration with the names [serde] reads and prints for it. *)

From S2P Require Import Prelude.
Local Open Scope string_scope.

(** [ExecutionStrategy] @core/types.rs:{enum ExecutionStrategy} ExecutionStrategy *)
Inductive ExecutionStrategy := SyncUpstreamExecution | AsyncCommandReceipt.
(** [ModeADispatchPolicy] @core/types.rs:{enum ModeADispatchPolicy} ModeADispatchPolicy *)
Inductive ModeADispatchPolicy := ResponseWithFailure | ResponseOnly | RawAudit | NoDispatch.
(** [OperationOutcome] @core/types.rs:{enum OperationOutcome} OperationOutcome *)
Inductive OperationOutcome := Success | Failed | Rejected.

#[export] Instance ExecutionStrategy_eq_dec : EqDecision ExecutionStrategy.
Proof. solve_decision. Defined.
#[export] Instance ModeADispatchPolicy_eq_dec : EqDecision ModeADispatchPolicy.
Proof. solve_decision. Defined.
#[export] Instance OperationOutcome_eq_dec : EqDecision OperationOutcome.
Proof. solve_decision. Defined.

Definition sync_names : list string :=
  ["sync"; "SYNC"; "sync_upstream_execution"; "SYNC_UPSTREAM_EXECUTION"; "synchronous";
   "proxy"; "upstream"; "UPSTREAM"; "SyncUpstreamExecution"; "A"; "a"].
Definition async_names : list string :=
  ["async"; "ASYNC"; "AsyncCommandReceipt"; "async_command_receipt"; "ASYNC_COMMAND_RECEIPT";
   "async_edge_command"; "ASYNC_EDGE_COMMAND"; "asynchronous"; "receipt"; "queue"; "QUEUE";
   "B"; "b"].
Definition one_of (s : string) (names : list string) : bool := existsb (String.eqb s) names.

(** What the derived deserialiser accepts, aliases included. @core/types.rs:5-39 ExecutionStrategy::deserialize *)
Definition strategy_of_str (s : string) : option ExecutionStrategy :=
  if one_of s sync_names then Some SyncUpstreamExecution
  else if one_of s async_names then Some AsyncCommandReceipt
  else None.
(** @core/types.rs:5-39 ExecutionStrategy::serialize *)
Definition strategy_to_str (s : ExecutionStrategy) : string :=
  match s with SyncUpstreamExecution => "sync" | AsyncCommandReceipt => "async" end.

(** [is_async_command_receipt], [is_async_edge_command] @core/types.rs:48-54 ExecutionStrategy::is_async_command_receipt *)
Definition is_async_command_receipt (s : ExecutionStrategy) : bool :=
  match s with AsyncCommandReceipt => true | _ => false end.
(** @core/types.rs:{fn is_sync_upstream_execution} ExecutionStrategy::is_sync_upstream_execution *)
Definition is_sync_upstream_execution (s : ExecutionStrategy) : bool :=
  match s with SyncUpstreamExecution => true | _ => false end.
(** @core/types.rs:{fn display_name} ExecutionStrategy::display_name *)
Definition display_name (s : ExecutionStrategy) : string :=
  match s with SyncUpstreamExecution => "Sync" | AsyncCommandReceipt => "Async" end.

(** @core/types.rs:{fn as_str} ModeADispatchPolicy::as_str *)
Definition policy_as_str (p : ModeADispatchPolicy) : string :=
  match p with
  | ResponseWithFailure => "response_with_failure"
  | ResponseOnly => "response_only"
  | RawAudit => "raw_audit"
  | NoDispatch => "none"
  end.
(** The [snake_case] names of the derived deserialiser. @core/types.rs:69-77 ModeADispatchPolicy::deserialize *)
Definition policy_of_str (s : string) : option ModeADispatchPolicy :=
  if String.eqb s "response_with_failure" then Some ResponseWithFailure
  else if String.eqb s "response_only" then Some ResponseOnly
  else if String.eqb s "raw_audit" then Some RawAudit
  else if String.eqb s "none" then Some NoDispatch
  else None.

(** The [SCREAMING_SNAKE_CASE] names. @core/types.rs:94-100 OperationOutcome::serialize *)
Definition outcome_as_str (o : OperationOutcome) : string :=
  match o with Success => "SUCCESS" | Failed => "FAILED" | Rejected => "REJECTED" end.

Lemma policy_roundtrip p : policy_of_str (policy_as_str p) = Some p.
Proof. by destruct p. Qed.
Lemma strategy_roundtrip s : strategy_of_str (strategy_to_str s) = Some s.
Proof. by destruct s. Qed.
