(* ===== verification/Idempotency.v ===== *)
(** * Idempotency: the deduplication and replay cache of [src/idempotency/mod.rs].

    Part one is the engine as written: 32 LRU shards picked by the key's hash, a
    shared counter, a time-to-live, and the Redis backend with its failing-open
    error paths.  Part two is the abstract cache it implements: a finite map of
    records with one check-and-claim operation.  The refinement theorem says an
    operation of the engine is the operation of the map, except that a claim at
    capacity, or the completion in a full shard of a key no longer held, may
    drop one other key. *)

From S2P Require Import Prelude Externals Serde Clock.
Local Open Scope Z_scope.

(** ** Records and outcomes *)

(** [IdempotencyRecord] @idempotency/mod.rs:22-37 IdempotencyRecord *)
Inductive IdempotencyRecord :=
| InProgress (hlc : HlcTimestamp) (started_at_secs : Z)
| Completed (hlc : HlcTimestamp) (status_code : Z) (headers : list (string * string))
    (body : string) (completed_at_secs : Z).

(** [IdempotencyOutcome] @idempotency/mod.rs:46-61 IdempotencyOutcome *)
Inductive IdempotencyOutcome :=
| New
| Conflict (hlc : HlcTimestamp)
| Replay (hlc : HlcTimestamp) (status_code : Z) (headers : list (string * string))
    (body : string).

#[export] Instance IdempotencyRecord_eq_dec : EqDecision IdempotencyRecord.
Proof. solve_decision. Defined.
#[export] Instance IdempotencyOutcome_eq_dec : EqDecision IdempotencyOutcome.
Proof. solve_decision. Defined.

(** @idempotency/mod.rs:12-13 DEFAULT_IDEMPOTENCY_TTL, DEFAULT_MAX_CAPACITY *)
Definition DEFAULT_IDEMPOTENCY_TTL : Z := 300.
(** @idempotency/mod.rs:13-13 DEFAULT_MAX_CAPACITY *)
Definition DEFAULT_MAX_CAPACITY : Z := 10000.
(** @idempotency/mod.rs:14-14 DEFAULT_REDIS_KEY_PREFIX *)
Definition DEFAULT_REDIS_KEY_PREFIX : string := "spectra:idempotency".
(** @idempotency/mod.rs:15-15 NUM_MEMORY_SHARDS *)
Definition NUM_MEMORY_SHARDS : nat := 32.
(** @idempotency/mod.rs:17-17 IDEMPOTENCY_KEY_HEADER *)
Definition IDEMPOTENCY_KEY_HEADER : string := "idempotency-key".
(** @idempotency/mod.rs:18-18 ALT_IDEMPOTENCY_KEY_HEADER *)
Definition ALT_IDEMPOTENCY_KEY_HEADER : string := "x-idempotency-key".
(** @idempotency/mod.rs:19-19 REPLAY_HEADER *)
Definition REPLAY_HEADER : string := "x-spectra-idempotent-replay".

(** The test both arms of the lookup share, [ttl.as_secs().max(1)] included. @idempotency/mod.rs:137-147 IdempotencyEngine::check_or_insert *)
Definition fresh (ttl now_secs at_secs : Z) : bool :=
  Int.saturating_sub_u64 now_secs at_secs <? Z.max ttl 1.

(** What a record still in its window answers: a conflict for an operation in
    flight, the stored response for a finished one. @idempotency/mod.rs:141-165 IdempotencyEngine::check_or_insert *)
Definition answer (ttl now_secs : Z) (r : IdempotencyRecord) : option IdempotencyOutcome :=
  match r with
  | InProgress hlc started_at_secs =>
      if fresh ttl now_secs started_at_secs then Some (Conflict hlc) else None
  | Completed hlc status_code headers body completed_at_secs =>
      if fresh ttl now_secs completed_at_secs
      then Some (Replay hlc status_code headers body) else None
  end.

(** ** The in-memory engine *)

Section Memory.
Context `{LruLib}.
(** [DefaultHasher] on the key. *)
Variable hash : string -> Z.

(** [get_shard_index] @idempotency/mod.rs:{fn get_shard_index} get_shard_index *)
Definition get_shard_index (key : string) : nat :=
  Z.to_nat (hash key mod Z.of_nat NUM_MEMORY_SHARDS).

(** [IdempotencyEngine] with the [Memory] backend @idempotency/mod.rs:83-100 IdempotencyEngine, IdempotencyBackend::Memory *)
Record engine := Engine {
  shards : list (lru IdempotencyRecord);
  max_capacity : Z;
  len : Z;
  ttl : Z
}.

(** [IdempotencyEngine::new] and [MemoryShard::new] @idempotency/mod.rs:{fn new#2} IdempotencyEngine::new *)
Definition engine_new (ttl max_capacity : Z) : engine :=
  Engine (replicate NUM_MEMORY_SHARDS (lru_new (Z.to_nat (Z.max max_capacity 1))))
    max_capacity 0 ttl.

(** The counter's atomic updates. @idempotency/mod.rs:171-193 IdempotencyEngine::check_or_insert *)
Definition fetch_add (n : Z) : Z := Int.wrap 64 (n + 1).
Definition fetch_sub (n : Z) : Z := Int.wrap 64 (n - 1).

(** The scan for a victim in the other shards; [busy i] says the [try_lock] of
    shard [i] fails.  Returns whether an entry was dropped. @idempotency/mod.rs:173-182 IdempotencyEngine::check_or_insert *)
Fixpoint evict_other (busy : nat -> bool) (shard_idx : nat) (js : list nat)
    (ss : list (lru IdempotencyRecord)) : bool * list (lru IdempotencyRecord) :=
  match js with
  | [] => (false, ss)
  | i :: js' =>
      if negb (Nat.eqb i shard_idx) && negb (busy i) then
        let '(popped, other) := lru_pop_lru (ss !!! i) in
        match popped with
        | Some _ => (true, <[i := other]> ss)
        | None => evict_other busy shard_idx js' (<[i := other]> ss)
        end
      else evict_other busy shard_idx js' ss
  end.

(** The capacity check. @idempotency/mod.rs:167-184 IdempotencyEngine::check_or_insert *)
Definition evict (busy : nat -> bool) (shard_idx : nat) (e : engine) : engine :=
  if max_capacity e <=? len e then
    let '(popped, guard) := lru_pop_lru (shards e !!! shard_idx) in
    let ss := <[shard_idx := guard]> (shards e) in
    match popped with
    | Some _ => Engine ss (max_capacity e) (fetch_sub (len e)) (ttl e)
    | None =>
        let '(dropped, ss') := evict_other busy shard_idx (seq 0 NUM_MEMORY_SHARDS) ss in
        Engine ss' (max_capacity e) (if dropped then fetch_sub (len e) else len e) (ttl e)
    end
  else e.

(** The [put] both writers end with. @idempotency/mod.rs:186-194 IdempotencyEngine::check_or_insert *)
Definition put_record (key : string) (r : IdempotencyRecord) (e : engine) : engine :=
  let i := get_shard_index key in
  let '(old, guard) := lru_put key r (shards e !!! i) in
  Engine (<[i := guard]> (shards e)) (max_capacity e)
    (match old with None => fetch_add (len e) | Some _ => len e end) (ttl e).

(** [IdempotencyEngine::check_or_insert], [Memory] arm: the shard is locked from
    the lookup to the end. @idempotency/mod.rs:133-197 IdempotencyEngine::check_or_insert *)
Definition check_or_insert (busy : nat -> bool) (now_secs : Z) (key : string)
    (hlc : HlcTimestamp) (e : engine) : IdempotencyOutcome * engine :=
  let shard_idx := get_shard_index key in
  let '(found, guard) := lru_get key (shards e !!! shard_idx) in
  let e1 := Engine (<[shard_idx := guard]> (shards e)) (max_capacity e) (len e) (ttl e) in
  match match found with Some r => answer (ttl e) now_secs r | None => None end with
  | Some outcome => (outcome, e1)
  | None => (New, put_record key (InProgress hlc now_secs) (evict busy shard_idx e1))
  end.

(** [IdempotencyEngine::complete], [Memory] arm, on the filtered headers. @idempotency/mod.rs:299-314 IdempotencyEngine::complete *)
Definition complete (now_secs : Z) (key : string) (hlc : HlcTimestamp) (status_code : Z)
    (header_pairs : list (string * string)) (body : string) (e : engine) : engine :=
  put_record key (Completed hlc status_code header_pairs body now_secs) e.

(** [IdempotencyEngine::remove], [Memory] arm. @idempotency/mod.rs:337-345 IdempotencyEngine::remove *)
Definition remove (key : string) (e : engine) : engine :=
  let i := get_shard_index key in
  let '(old, guard) := lru_pop key (shards e !!! i) in
  Engine (<[i := guard]> (shards e)) (max_capacity e)
    (match old with Some _ => fetch_sub (len e) | None => len e end) (ttl e).

(** [IdempotencyEngine::active_record_count] @idempotency/mod.rs:{fn active_record_count} IdempotencyEngine::active_record_count *)
Definition active_record_count (e : engine) : Z := len e.
End Memory.

Arguments engine {_}.
Arguments Engine {_} _ _ _ _.

(** ** Headers, keys and fingerprints *)

(** The headers a finished operation stores: hop-by-hop headers and values that
    are not text are dropped. @idempotency/mod.rs:285-296 IdempotencyEngine::complete *)
Definition header_pairs `{HttpLib} `{Unicode} (headers : HeaderMap) : list (string * string) :=
  omap (fun kv =>
    let name := to_lowercase (fst kv) in
    if String.eqb name "connection" || String.eqb name "keep-alive" ||
       String.eqb name "transfer-encoding" then None
    else match hv_to_str (snd kv) with Some val => Some (name, val) | None => None end)
  (hm_entries headers).

(** One of the two header lookups. @idempotency/mod.rs:390-397 IdempotencyEngine::extract_idempotency_key *)
Definition key_from_header `{HttpLib} (name : string) (headers : HeaderMap) : option string :=
  match hm_get name headers with
  | Some val =>
      match hv_to_str val with
      | Some s => let trimmed := trim s in
                  if String.eqb trimmed "" then None else Some trimmed
      | None => None
      end
  | None => None
  end.

(** [IdempotencyEngine::extract_idempotency_key] @idempotency/mod.rs:{fn extract_idempotency_key} IdempotencyEngine::extract_idempotency_key *)
Definition extract_idempotency_key `{HttpLib} (headers : HeaderMap) : option string :=
  match key_from_header IDEMPOTENCY_KEY_HEADER headers with
  | Some k => Some k
  | None => key_from_header ALT_IDEMPOTENCY_KEY_HEADER headers
  end.

(** [IdempotencyEngine::compute_fingerprint]; [sha256_hex] is the digest in hex. @idempotency/mod.rs:{fn compute_fingerprint} IdempotencyEngine::compute_fingerprint *)
Definition compute_fingerprint (sha256_hex : string -> string) (client_id : string)
    (operation_name : option string) (body : string) : string :=
  String.append "sha256:"
    (sha256_hex (str_concat
      [client_id; ":"; default "anonymous" operation_name; ":"; body])).

(** ** The Redis backend *)

(** [HlcTimestamp] as serde has it. @core/clock.rs:{struct HlcTimestamp} HlcTimestamp::serialize *)
Definition hlc_codec : Derive.codec HlcTimestamp :=
  Derive.iso
    (Derive.struct (Derive.both (Derive.req "physical" Derive.u64) (Derive.req "logical" Derive.u32)) eq_refl)
    (fun h => (physical h, logical h)) (fun pl => HLC (fst pl) (snd pl)) ltac:(by intros []) ltac:(by intros []).
#[export] Instance hlc_printable : Derive.Printable hlc_codec.
Proof. apply Derive.iso_printable, Derive.struct_printable, Derive.both_printable; apply Derive.req_printable; apply Derive.uint_printable; done. Qed.
Definition in_progress_shape : Derive.shape (HlcTimestamp * Z) :=
  Derive.both (Derive.req "hlc" hlc_codec) (Derive.dflt "started_at_secs" Derive.u64 0 ltac:(done)).
Definition completed_shape : Derive.shape (HlcTimestamp * (Z * (list (string * string) * (string * Z)))) :=
  Derive.both (Derive.req "hlc" hlc_codec)
    (Derive.both (Derive.req "status_code" Derive.u16)
      (Derive.both (Derive.req "headers" (Derive.vec (Derive.two Derive.text Derive.text)))
        (Derive.both (Derive.req "body" Derive.text) (Derive.dflt "completed_at_secs" Derive.u64 0 ltac:(done))))).
(** A record as serde's internally tagged JSON. @idempotency/mod.rs:20-37 IdempotencyRecord::serialize *)
Definition record_to_json (r : IdempotencyRecord) : json :=
  match r with
  | InProgress hlc started => Derive.with_tag "state" "in_progress" (Derive.put in_progress_shape (hlc, started))
  | Completed hlc status headers body completed =>
      Derive.with_tag "state" "completed" (Derive.put completed_shape (hlc, (status, (headers, (body, completed)))))
  end.
(** @idempotency/mod.rs:20-37 IdempotencyRecord::deserialize *)
Definition record_of_json (j : json) : option IdempotencyRecord :=
  '(state, content) ← Derive.tagged "state" j;
  if String.eqb state "in_progress" then
    (fun hs => InProgress (fst hs) (snd hs)) <$> Derive.de_struct in_progress_shape content
  else if String.eqb state "completed" then
    (fun c => let '(hlc, (status, (headers, (body, completed)))) := c in Completed hlc status headers body completed)
      <$> Derive.de_struct completed_shape content
  else None.

(** The server's data: values with their expiry second.  A command may fail
    before or after it took effect. *)
Abbreviation redis_store := (gmap string (string * Z)).
Inductive reply := Done | LostRequest | LostReply.

Definition redis_get (now : Z) (k : string) (s : redis_store) : option string :=
  match s !! k with Some (v, exp) => if now <? exp then Some v else None | None => None end.

Section Redis.
Context `{JsonText}.
Variable key_prefix : string.
Variable ttl_secs : Z.

(** @idempotency/mod.rs:199-199 IdempotencyEngine::check_or_insert *)
Definition redis_key (key : string) : string :=
  String.append key_prefix (String.append ":" key).

(** The outcome read from an existing key; there is no expiry test here, Redis
    drops expired keys. @idempotency/mod.rs:240-265 IdempotencyEngine::check_or_insert *)
Definition redis_answer (raw : option string) : IdempotencyOutcome :=
  match raw with
  | Some raw_json =>
      match json_read raw_json ≫= record_of_json with
      | Some (InProgress hlc _) => Conflict hlc
      | Some (Completed hlc status headers body _) => Replay hlc status headers body
      | None => New
      end
  | None => New
  end.

(** [IdempotencyEngine::check_or_insert], [Redis] arm: [SET NX EX], then [GET].
    Every failure fails open. @idempotency/mod.rs:198-272 IdempotencyEngine::check_or_insert *)
Definition redis_check_or_insert (connected : bool) (set_reply : reply) (get_ok : bool)
    (now_set now_get now_secs : Z) (key : string) (hlc : HlcTimestamp) (s : redis_store) :
    IdempotencyOutcome * redis_store :=
  let k := redis_key key in
  let in_progress_json := json_to_string (record_to_json (InProgress hlc now_secs)) in
  if negb connected then (New, s) else
  let set_nx :=
    match redis_get now_set k s with
    | Some _ => (false, s)
    | None => (true, <[k := (in_progress_json, now_set + Z.max ttl_secs 1)]> s)
    end in
  match set_reply with
  | LostRequest => (New, s)
  | LostReply => (New, snd set_nx)
  | Done =>
      if fst set_nx then (New, snd set_nx)
      else if get_ok then (redis_answer (redis_get now_get k s), s)
      else (New, s)
  end.

(** [IdempotencyEngine::complete], [Redis] arm. @idempotency/mod.rs:315-332 IdempotencyEngine::complete *)
Definition redis_complete (connected : bool) (set_reply : reply) (now_set now_secs : Z)
    (key : string) (hlc : HlcTimestamp) (status_code : Z)
    (headers : list (string * string)) (body : string) (s : redis_store) : redis_store :=
  let json_str := json_to_string (record_to_json (Completed hlc status_code headers body now_secs)) in
  if negb connected then s
  else match set_reply with
       | LostRequest => s
       | _ => <[redis_key key := (json_str, now_set + Z.max ttl_secs 1)]> s
       end.

(** [IdempotencyEngine::remove], [Redis] arm. @idempotency/mod.rs:346-353 IdempotencyEngine::remove *)
Definition redis_remove (connected : bool) (del_reply : reply) (key : string)
    (s : redis_store) : redis_store :=
  if negb connected then s
  else match del_reply with LostRequest => s | _ => delete (redis_key key) s end.
End Redis.

(** ** Lemmas: shards *)

Section Shards.
Context `{LruLib}.
Variable hash : string -> Z.
Local Abbreviation idx := (get_shard_index hash).
Local Abbreviation rec := IdempotencyRecord.

Lemma idx_lt key : (idx key < NUM_MEMORY_SHARDS)%nat.
Proof.
  unfold get_shard_index, NUM_MEMORY_SHARDS.
  pose proof (Z.mod_pos_bound (hash key) (Z.of_nat 32)). lia.
Qed.

(** A shard: distinct keys, each with this shard's index, at most [cap] of them. *)
Definition shard_ok (cap i : nat) (c : lru rec) : Prop :=
  lru_cap c = cap /\ (length (lru_entries c) <= cap)%nat /\
  NoDup (lru_entries c).*1 /\ forall k, k ∈ (lru_entries c).*1 -> idx k = i.

Definition shards_ok (cap : nat) (ss : list (lru rec)) : Prop :=
  length ss = NUM_MEMORY_SHARDS /\
  forall i, (i < NUM_MEMORY_SHARDS)%nat -> shard_ok cap i (ss !!! i).

(** The record of a key, and the number of records. *)
Definition view (ss : list (lru rec)) (key : string) : option rec :=
  Assoc.get key (lru_entries (ss !!! idx key)).
Definition total (ss : list (lru rec)) : nat :=
  sum_list_with (fun c => length (lru_entries c)) ss.

Lemma total_split i c0 (ss : list (lru rec)) :
  ss !! i = Some c0 ->
  exists n, total ss = (n + length (lru_entries c0))%nat /\
            forall c, total (<[i := c]> ss) = (n + length (lru_entries c))%nat.
Proof.
  revert i. unfold total. induction ss as [|d ss IH]; intros [|i] Hi; cbn in *; try done.
  - simplify_eq. exists (sum_list_with (fun c => length (lru_entries c)) ss).
    split; [|intros]; apply Nat.add_comm.
  - destruct (IH i Hi) as (n & Ht & Hins).
    exists (length (lru_entries d) + n)%nat. split; [|intros c; rewrite Hins]; lia.
Qed.

Lemma total_insert i c (ss : list (lru rec)) :
  (i < length ss)%nat ->
  (total (<[i := c]> ss) + length (lru_entries (ss !!! i)) =
   total ss + length (lru_entries c))%nat.
Proof.
  intros Hi. destruct (total_split i (ss !!! i) ss) as (n & -> & ->); [|lia].
  by apply list_lookup_lookup_total_lt.
Qed.

Lemma total_ge i (ss : list (lru rec)) :
  (i < length ss)%nat -> (length (lru_entries (ss !!! i)) <= total ss)%nat.
Proof.
  intros Hi. destruct (total_split i (ss !!! i) ss) as (n & -> & _); [|lia].
  by apply list_lookup_lookup_total_lt.
Qed.

Lemma shards_ok_insert cap i c ss :
  shards_ok cap ss -> (i < NUM_MEMORY_SHARDS)%nat -> shard_ok cap i c ->
  shards_ok cap (<[i := c]> ss).
Proof.
  intros [Hl Hs] Hi Hc. split; [by rewrite length_insert|].
  intros j Hj. destruct (decide (i = j)) as [->|].
  - rewrite list_lookup_total_insert_eq; [done|lia].
  - rewrite list_lookup_total_insert_ne; auto.
Qed.

Lemma view_insert cap i c ss key :
  shards_ok cap ss -> (i < NUM_MEMORY_SHARDS)%nat ->
  view (<[i := c]> ss) key =
  if decide (idx key = i) then Assoc.get key (lru_entries c) else view ss key.
Proof.
  intros [Hl _] Hi. unfold view. case_decide as Hk.
  - subst i. rewrite list_lookup_total_insert_eq; [done|lia].
  - rewrite list_lookup_total_insert_ne; auto.
Qed.

(** What an LRU call does to a shard. *)
Lemma shard_get cap i key c :
  shard_ok cap i c ->
  shard_ok cap i (snd (lru_get key c)) /\
  length (lru_entries (snd (lru_get key c))) = length (lru_entries c) /\
  forall k, Assoc.get k (lru_entries (snd (lru_get key c))) = Assoc.get k (lru_entries c).
Proof.
  intros (Hcap & Hlen & Hnd & Hi).
  destruct (lru_get_spec key c) as (_ & Hc & He).
  unfold shard_ok. rewrite Hc, He. destruct (Assoc.get key (lru_entries c)) as [v|] eqn:Hg;
    [|by split_and!].
  pose proof (Assoc.remove_length _ _ _ Hnd Hg) as Hrl.
  split; [split_and!|]; cbn.
  - done.
  - lia.
  - apply NoDup_cons; split; [|by apply Assoc.remove_NoDup].
    rewrite Assoc.remove_keys. naive_solver.
  - intros k [->|Hk]%elem_of_cons.
    + apply Hi, list_elem_of_fmap. exists (key, v). split; [done|by apply Assoc.get_In].
    + apply Hi. by apply Assoc.remove_keys in Hk as [? _].
  - split; [lia|]. intros k. destruct (String.eqb_spec k key) as [->|]; [done|].
    by apply Assoc.get_remove_ne.
Qed.

Lemma shard_pop cap i key c :
  shard_ok cap i c ->
  shard_ok cap i (snd (lru_pop key c)) /\
  (length (lru_entries (snd (lru_pop key c))) +
     (match fst (lru_pop key c) with Some _ => 1 | None => 0 end) = length (lru_entries c))%nat /\
  forall k, Assoc.get k (lru_entries (snd (lru_pop key c))) =
            if String.eqb k key then None else Assoc.get k (lru_entries c).
Proof.
  intros (Hcap & Hlen & Hnd & Hi).
  destruct (lru_pop_spec key c) as (Hf & Hc & He).
  assert (Hrl : (length (Assoc.remove key (lru_entries c)) +
     (match Assoc.get key (lru_entries c) with Some _ => 1 | None => 0 end) = length (lru_entries c))%nat).
  { destruct (Assoc.get key (lru_entries c)) as [v|] eqn:Hg.
    - rewrite (Assoc.remove_length _ _ _ Hnd Hg). lia.
    - rewrite Assoc.remove_None by done. lia. }
  unfold shard_ok. rewrite Hc, He, Hf.
  split; [split_and!|]; [done|lia|by apply Assoc.remove_NoDup| |].
  - intros k Hk. apply Hi. by apply Assoc.remove_keys in Hk as [? _].
  - split; [done|]. intros k. destruct (String.eqb_spec k key) as [->|].
    + apply Assoc.get_remove_eq.
    + by apply Assoc.get_remove_ne.
Qed.

Lemma shard_pop_lru cap i c :
  shard_ok cap i c ->
  shard_ok cap i (snd (lru_pop_lru c)) /\
  match fst (lru_pop_lru c) with
  | Some (ev, _) =>
      S (length (lru_entries (snd (lru_pop_lru c)))) = length (lru_entries c) /\
      idx ev = i /\
      forall k, Assoc.get k (lru_entries (snd (lru_pop_lru c))) =
                if String.eqb k ev then None else Assoc.get k (lru_entries c)
  | None => lru_entries (snd (lru_pop_lru c)) = [] /\ lru_entries c = []
  end.
Proof.
  intros (Hcap & Hlen & Hnd & Hi).
  destruct (lru_pop_lru_spec c) as (Hf & Hc & He).
  unfold shard_ok. rewrite Hc, He, Hf.
  destruct (last (lru_entries c)) as [[ev r]|] eqn:Hl.
  - pose proof (Assoc.removelast_last _ _ Hl) as Heq.
    assert (Hsub : forall k, k ∈ (removelast (lru_entries c)).*1 -> k ∈ (lru_entries c).*1).
    { intros k Hk. rewrite Heq, fmap_app. apply elem_of_app. by left. }
    assert (Hlen' : S (length (removelast (lru_entries c))) = length (lru_entries c)).
    { rewrite Heq at 2. rewrite length_app. cbn. lia. }
    assert (Hnd' : NoDup (removelast (lru_entries c)).*1).
    { rewrite Heq, fmap_app in Hnd. by apply NoDup_app in Hnd as [? _]. }
    split; [split_and!|split_and!]; [done|lia|done|auto|done| |].
    + apply Hi. rewrite Heq, fmap_app. apply elem_of_app. right. by left.
    + intros k. by eapply Assoc.get_removelast.
  - apply last_None in Hl. rewrite Hl in *. cbn. split_and!; [done|lia|done|done|done|done].
Qed.

(** A [put] with room for a new key keeps every other entry. *)
Lemma shard_put cap i key r c :
  shard_ok cap i c -> idx key = i ->
  (Assoc.get key (lru_entries c) <> None \/ (length (lru_entries c) < cap)%nat) ->
  shard_ok cap i (snd (lru_put key r c)) /\
  fst (lru_put key r c) = Assoc.get key (lru_entries c) /\
  length (lru_entries (snd (lru_put key r c))) =
    (length (lru_entries c) + (match Assoc.get key (lru_entries c) with Some _ => 0 | None => 1 end))%nat /\
  forall k, Assoc.get k (lru_entries (snd (lru_put key r c))) =
            if String.eqb k key then Some r else Assoc.get k (lru_entries c).
Proof.
  intros (Hcap & Hlen & Hnd & Hi) Hidx Hroom.
  destruct (lru_put_spec key r c) as (Hf & Hc & He).
  unfold shard_ok. rewrite Hc, He, Hf, Hcap.
  destruct (Assoc.get key (lru_entries c)) as [v|] eqn:Hg.
  - pose proof (Assoc.remove_length _ _ _ Hnd Hg) as Hrl. cbn.
    split; [split_and!|split_and!]; [done|lia| | |done|lia|].
    + apply NoDup_cons; split; [|by apply Assoc.remove_NoDup].
      rewrite Assoc.remove_keys. naive_solver.
    + intros k [->|Hk]%elem_of_cons; [done|].
      apply Hi. by apply Assoc.remove_keys in Hk as [? _].
    + intros k. destruct (String.eqb_spec k key) as [->|]; [done|].
      by apply Assoc.get_remove_ne.
  - destruct Hroom as [[]|Hroom]; [done|].
    assert ((length (lru_entries c) <? cap)%nat = true) as -> by (by apply Nat.ltb_lt).
    apply Assoc.get_None in Hg. cbn.
    split; [split_and!|split_and!]; [done|lia|by apply NoDup_cons| |done|lia|done].
    intros k [->|Hk]%elem_of_cons; auto.
Qed.

(** A [put] of a new key into a full shard drops its oldest entry. *)
Lemma shard_put_full cap i key r c :
  shard_ok cap i c -> idx key = i -> (0 < cap)%nat ->
  Assoc.get key (lru_entries c) = None -> length (lru_entries c) = cap ->
  shard_ok cap i (snd (lru_put key r c)) /\ fst (lru_put key r c) = None /\
  length (lru_entries (snd (lru_put key r c))) = cap /\
  exists ev, ev <> key /\ idx ev = i /\
    forall k, Assoc.get k (lru_entries (snd (lru_put key r c))) =
              if String.eqb k key then Some r else if String.eqb k ev then None else Assoc.get k (lru_entries c).
Proof.
  intros Hok Hidx Hpos Hg Hfull. destruct (shard_pop_lru cap i c Hok) as [Hpok Hpop].
  destruct (lru_put_spec key r c) as (Hf & Hc & He), (lru_pop_lru_spec c) as (Hlast & _ & Hpe).
  pose proof Hok as (Hcap & _ & _ & Hi).
  rewrite Hg, Hcap, Hfull, Nat.ltb_irrefl in He.
  destruct (fst (lru_pop_lru c)) as [[ev r']|] eqn:Hp; [|destruct Hpop as [_ Hemp]; rewrite Hemp in Hfull; cbn in Hfull; lia].
  destruct Hpop as (Hlen & Hev & Hget), Hpok as (_ & Hple & Hnd & Hpi).
  assert (Hse : removelast (lru_entries c) = lru_entries (snd (lru_pop_lru c))).
  { rewrite Hpe. by destruct (last (lru_entries c)) as [[]|]. }
  rewrite Hse in He. unfold shard_ok. rewrite Hf, Hc, He. cbn [length fmap list_fmap fst].
  apply Assoc.get_None in Hg as Hni.
  assert (Hni' : key ∉ (lru_entries (snd (lru_pop_lru c))).*1).
  { apply Assoc.get_None. rewrite Hget, Hg. by case_match. }
  split_and!; [done|lia|by apply NoDup_cons| |done|lia|].
  - intros k [->|Hk]%elem_of_cons; auto.
  - exists ev. split; [|split; [done|]].
    + intros ->. apply Hni. symmetry in Hlast. apply last_Some in Hlast as [l' ->].
      rewrite fmap_app. apply elem_of_app. right. by left.
    + intros k. cbn. by rewrite Hget.
Qed.

Lemma total_zero (ss : list (lru rec)) :
  (forall i, (i < length ss)%nat -> lru_entries (ss !!! i) = []) -> total ss = 0%nat.
Proof.
  unfold total. induction ss as [|d ss IH]; intros Hall; cbn; [done|].
  pose proof (Hall 0%nat ltac:(cbn; lia)) as Hd. cbn in Hd. rewrite Hd. cbn.
  apply IH. intros i Hi. apply (Hall (S i)). cbn; lia.
Qed.

Lemma total_le cap (ss : list (lru rec)) :
  shards_ok cap ss -> (total ss <= NUM_MEMORY_SHARDS * cap)%nat.
Proof.
  intros [Hl Hs]. rewrite <- Hl.
  assert (Hs' : forall i, (i < length ss)%nat -> (length (lru_entries (ss !!! i)) <= cap)%nat).
  { intros i Hi. rewrite Hl in Hi. by destruct (Hs i Hi) as (_ & ? & _). }
  clear Hl Hs. unfold total. induction ss as [|d ss IH]; cbn; [lia|].
  pose proof (Hs' 0%nat ltac:(cbn; lia)) as Hd. cbn in Hd.
  assert (sum_list_with (fun c => length (lru_entries c)) ss <= length ss * cap)%nat; [|lia].
  apply IH. intros i Hi. apply (Hs' (S i)). cbn; lia.
Qed.

(** One entry at most is dropped by the scan, and none is kept where it could
    look. *)
Lemma evict_other_spec cap busy i0 js ss d ss' :
  shards_ok cap ss -> Forall (fun j => (j < NUM_MEMORY_SHARDS)%nat) js ->
  evict_other busy i0 js ss = (d, ss') ->
  shards_ok cap ss' /\ lru_entries (ss' !!! i0) = lru_entries (ss !!! i0) /\
  if d then
    exists ev, total ss = S (total ss') /\
      forall k, view ss' k = if String.eqb k ev then None else view ss k
  else
    total ss' = total ss /\ (forall k, view ss' k = view ss k) /\
    forall j, j ∈ js -> j <> i0 -> busy j = false -> lru_entries (ss !!! j) = [].
Proof.
  intros Hok Hjs. revert ss Hok.
  induction Hjs as [|j js Hj Hjs IH]; intros ss Hok; cbn [evict_other].
  { intros [= <- <-]. split_and!; try done. by intros ? ?%elem_of_nil. }
  destruct (negb (j =? i0)%nat && negb (busy j)) eqn:Hcond.
  - apply andb_true_iff in Hcond as [Hne%negb_true_iff%Nat.eqb_neq Hb%negb_true_iff].
    pose proof Hok as [Hl Hs].
    destruct (shard_pop_lru cap j (ss !!! j) (Hs j Hj)) as [Hok' Hpop].
    destruct (lru_pop_lru (ss !!! j)) as [[[ev r]|] other]; cbn [fst snd] in *.
    + intros [= <- <-]. destruct Hpop as (Hlen & Hidx & Hget).
      split; [by apply shards_ok_insert|].
      rewrite list_lookup_total_insert_ne by done. split; [done|]. exists ev. split.
      * pose proof (total_insert j other ss ltac:(lia)). lia.
      * intros k. rewrite (view_insert cap) by done. case_decide as Hk.
        -- rewrite Hget. unfold view. by rewrite Hk.
        -- destruct (String.eqb_spec k ev) as [->|]; [congruence|done].
    + destruct Hpop as [He Hemp]. intros Hrec.
      apply IH in Hrec as (Hok2 & Hi0 & Hd); [|by apply shards_ok_insert].
      rewrite list_lookup_total_insert_ne in Hi0 by done.
      assert (Hv : forall k, view (<[j := other]> ss) k = view ss k).
      { intros k. rewrite (view_insert cap) by done. case_decide as Hk; [|done].
        unfold view. by rewrite Hk, He, Hemp. }
      pose proof (total_insert j other ss ltac:(lia)) as Ht.
      rewrite He, Hemp in Ht. cbn in Ht.
      split; [done|]. split; [done|]. destruct d.
      * destruct Hd as (ev & Htot & Hview). exists ev. split; [lia|].
        intros k. by rewrite Hview, Hv.
      * destruct Hd as (Htot & Hview & Hall). split_and!; [lia| |].
        -- intros k. by rewrite Hview, Hv.
        -- intros j' [->|Hj']%elem_of_cons Hne' Hb'; [done|].
           specialize (Hall j' Hj' Hne' Hb').
           destruct (decide (j = j')) as [->|]; [done|].
           by rewrite list_lookup_total_insert_ne in Hall.
  - intros Hrec. apply IH in Hrec as (Hok2 & Hi0 & Hd); [|done].
    split; [done|]. split; [done|]. destruct d; [done|].
    destruct Hd as (? & ? & Hall). split_and!; [done..|].
    intros j' [->|Hj']%elem_of_cons Hne' Hb'; [|by apply Hall].
    rewrite Hb' in Hcond. apply Nat.eqb_neq in Hne'. by rewrite Hne' in Hcond.
Qed.

(** ** The engine's invariant *)

(** The shards are well formed and the counter is [d] ahead of their records. *)
Definition engine_at (d : Z) (e : engine) : Prop :=
  0 <= d < 2 ^ 63 /\ 0 <= max_capacity e < 2 ^ 58 /\
  shards_ok (Z.to_nat (Z.max (max_capacity e) 1)) (shards e) /\
  len e = Z.of_nat (total (shards e)) + d.
(** The counter counts the records. *)
Definition engine_ok (e : engine) : Prop :=
  0 <= max_capacity e < 2 ^ 58 /\
  shards_ok (Z.to_nat (Z.max (max_capacity e) 1)) (shards e) /\
  len e = Z.of_nat (total (shards e)).
Lemma engine_ok_at e : engine_ok e <-> engine_at 0 e.
Proof. unfold engine_ok, engine_at. rewrite Z.add_0_r. intuition lia. Qed.

Lemma engine_ok_new ttl cap : 0 <= cap < 2 ^ 58 -> engine_ok (engine_new ttl cap).
Proof.
  intros Hcap. unfold engine_new, engine_ok. cbn [max_capacity shards len].
  assert (Hlk : forall i, (i < NUM_MEMORY_SHARDS)%nat ->
    (replicate NUM_MEMORY_SHARDS (lru_new (Z.to_nat (Z.max cap 1))) !!! i : lru rec) =
    lru_new (Z.to_nat (Z.max cap 1))).
  { intros i Hi. by apply lookup_total_replicate_2. }
  split; [done|]. split; [split|].
  - apply length_replicate.
  - intros i Hi. rewrite Hlk by done.
    destruct (lru_new_spec (V := rec) (Z.to_nat (Z.max cap 1))) as [He Hc].
    unfold shard_ok. rewrite He, Hc. cbn.
    split_and!; [done|lia|constructor|by intros ? ?%elem_of_nil].
  - rewrite total_zero; [done|]. rewrite length_replicate. intros i Hi. rewrite Hlk by done.
    apply lru_new_spec.
Qed.

Lemma engine_ok_len e : engine_ok e -> 0 <= len e < 2 ^ 63.
Proof.
  intros (Hc & Hs & ->). pose proof (total_le _ _ Hs) as Ht.
  unfold NUM_MEMORY_SHARDS in Ht. lia.
Qed.

Lemma engine_at_len d e : engine_at d e -> d <= len e < d + 2 ^ 63 /\ 0 <= len e < Int.u64_max.
Proof.
  intros (Hd & Hc & Hs & ->). pose proof (total_le _ _ Hs) as Ht.
  unfold NUM_MEMORY_SHARDS, Int.u64_max in *. lia.
Qed.

(** What making room in front of shard [i] leaves of an engine: at most one key is lost,
    only at capacity, and one is lost then unless other shards are busy; the shard has
    room. *)
Definition evicted (d : Z) (busy : nat -> bool) (i : nat) (e e' : engine) : Prop :=
  engine_at d e' /\ max_capacity e' = max_capacity e /\ ttl e' = ttl e /\
  (length (lru_entries (shards e' !!! i)) < Z.to_nat (Z.max (max_capacity e) 1))%nat /\
  exists ev : option string,
    (forall k, view (shards e') k = if decide (ev = Some k) then None else view (shards e) k) /\
    len e' = len e - (match ev with Some _ => 1 | None => 0 end) /\
    (ev <> None -> max_capacity e <= len e) /\
    (max_capacity e <= len e -> d < len e -> (forall j, busy j = false) -> ev <> None).
(** The shard's own oldest key goes. *)
Lemma evict_own d busy i e ev r guard : engine_at d e -> (i < NUM_MEMORY_SHARDS)%nat -> max_capacity e <= len e ->
  lru_pop_lru (shards e !!! i) = (Some (ev, r), guard) ->
  evicted d busy i e (Engine (<[i := guard]> (shards e)) (max_capacity e) (fetch_sub (len e)) (ttl e)).
Proof.
  intros Hok Hi Hfull Hp. pose proof (engine_at_len d e Hok) as Hb. destruct Hok as (Hd & Hc & Hs & Hlen). pose proof Hs as [Hl Hsi].
  unfold Int.u64_max in Hb.
  destruct (shard_pop_lru _ i _ (Hsi i Hi)) as [Hok' Hpop]. rewrite Hp in Hok', Hpop. cbn [fst snd] in *.
  destruct Hpop as (Hlen' & Hidx & Hget). unfold evicted, engine_at. cbn [shards max_capacity len ttl].
  pose proof (total_insert i guard (shards e) ltac:(lia)) as Ht. destruct (Hsi i Hi) as (_ & Hle & _).
  unfold fetch_sub. rewrite Int.wrap_small by lia.
  split; [split_and!; [lia..|by apply shards_ok_insert|lia]|]. split; [done|]. split; [done|].
  rewrite list_lookup_total_insert_eq by lia. split; [lia|]. exists (Some ev). split_and!; [|done..].
  intros k. rewrite (view_insert _ i guard _ k Hs Hi). destruct (decide (Some ev = Some k)) as [[= ->]|Hne].
  - rewrite decide_True by done. by rewrite Hget, String.eqb_refl.
  - case_decide as Hk; [|done]. rewrite Hget. destruct (String.eqb_spec k ev); [congruence|]. unfold view. by rewrite Hk.
Qed.
(** The shard is empty, and another one's oldest key goes, if one can be locked. *)
Lemma evict_elsewhere dr busy i e guard d ss' : engine_at dr e -> (i < NUM_MEMORY_SHARDS)%nat -> max_capacity e <= len e ->
  lru_pop_lru (shards e !!! i) = (None, guard) ->
  evict_other busy i (seq 0 NUM_MEMORY_SHARDS) (<[i := guard]> (shards e)) = (d, ss') ->
  evicted dr busy i e (Engine ss' (max_capacity e) (if d then fetch_sub (len e) else len e) (ttl e)).
Proof.
  intros Hok Hi Hfull Hp Hev. pose proof (engine_at_len dr e Hok) as Hb. destruct Hok as (Hdr & Hc & Hs & Hlen). pose proof Hs as [Hl Hsi].
  unfold Int.u64_max in Hb.
  destruct (shard_pop_lru _ i _ (Hsi i Hi)) as [Hok' Hpop]. rewrite Hp in Hok', Hpop. cbn [fst snd] in *. destruct Hpop as [He Hemp].
  unfold evicted, engine_at. cbn [shards max_capacity len ttl]. pose proof (shards_ok_insert _ i guard _ Hs Hi Hok') as Hs1.
  apply (evict_other_spec (Z.to_nat (Z.max (max_capacity e) 1))) in Hev
    as (Hs' & Hi0 & Hd); [|done|apply Forall_forall; intros j Hj%elem_of_seq; lia].
  rewrite list_lookup_total_insert_eq in Hi0 by lia. rewrite Hi0, He.
  pose proof (total_insert i guard (shards e) ltac:(lia)) as Ht. rewrite He, Hemp in Ht. cbn [length] in Ht |- *.
  assert (Hv : forall k, view (<[i := guard]> (shards e)) k = view (shards e) k).
  { intros k. rewrite (view_insert _ i guard _ k Hs Hi). case_decide as Hk; [|done]. unfold view. by rewrite Hk, He, Hemp. }
  destruct d.
  - destruct Hd as (ev & Htot & Hview). unfold fetch_sub. rewrite Int.wrap_small by lia.
    split; [split_and!; [lia..|done|lia]|]. split; [done|]. split; [done|]. split; [lia|].
    exists (Some ev). split_and!; [|lia|done|done].
    intros k. rewrite Hview, Hv. destruct (String.eqb_spec k ev) as [->|]; [by rewrite decide_True|by rewrite decide_False by congruence].
  - destruct Hd as (Htot & Hview & Hall). split; [split_and!; [lia..|done|lia]|]. split; [done|]. split; [done|]. split; [lia|].
    exists None. split_and!; [intros k; by rewrite Hview, Hv, decide_False|lia|done|].
    intros _ Hpos Hbusy. exfalso. assert (total (<[i := guard]> (shards e)) = 0%nat); [|lia].
    apply total_zero. rewrite length_insert, Hl. intros j Hj.
    destruct (decide (i = j)) as [->|Hij]; [by rewrite list_lookup_total_insert_eq by lia|].
    apply Hall; [apply elem_of_seq; lia|congruence|apply Hbusy].
Qed.
Lemma evict_spec d busy i e : engine_at d e -> (i < NUM_MEMORY_SHARDS)%nat -> evicted d busy i e (evict busy i e).
Proof.
  intros Hok Hi. unfold evict. destruct (Z.leb_spec (max_capacity e) (len e)) as [Hfull|Hfree].
  - destruct (lru_pop_lru (shards e !!! i)) as [[[ev r]|] guard] eqn:Hp; cbv zeta; [by eapply evict_own|].
    destruct (evict_other _ _ _ _) as [b ss'] eqn:Hev. by eapply evict_elsewhere.
  - split; [done|]. split; [done|]. split; [done|]. pose proof (engine_at_len d e Hok). destruct Hok as (Hd & Hc & [Hl _] & Hlen).
    pose proof (total_ge i (shards e) ltac:(lia)). split; [lia|].
    exists None. split_and!; [|lia|done|lia]. intros k. by rewrite decide_False.
Qed.

Lemma put_record_at d key r e :
  engine_at d e ->
  view (shards e) key <> None \/
    (length (lru_entries (shards e !!! idx key)) < Z.to_nat (Z.max (max_capacity e) 1))%nat ->
  let e' := put_record hash key r e in
  engine_at d e' /\ max_capacity e' = max_capacity e /\ ttl e' = ttl e /\
  (forall k, view (shards e') k = if String.eqb k key then Some r else view (shards e) k) /\
  len e' = len e + (match view (shards e) key with Some _ => 0 | None => 1 end).
Proof.
  intros Hok Hroom. pose proof (engine_at_len d e Hok) as Hb. destruct Hok as (Hd & Hc & Hs & Hlen).
  unfold Int.u64_max in Hb.
  pose proof Hs as [Hl Hsi]. pose proof (idx_lt key) as Hi. unfold put_record, engine_at.
  destruct (shard_put _ (idx key) key r _ (Hsi _ Hi) eq_refl Hroom)
    as (Hok' & Hold & Hlen' & Hget).
  destruct (lru_put key r (shards e !!! idx key)) as [old guard]; cbn [fst snd] in *.
  cbv zeta. cbn [shards max_capacity len ttl].
  pose proof (total_insert (idx key) guard (shards e) ltac:(lia)) as Ht.
  fold (view (shards e) key) in *. rewrite Hold. unfold fetch_add.
  split; [split_and!; [lia..|by apply shards_ok_insert|]|].
  { destruct (view (shards e) key); [lia|]. rewrite Int.wrap_small by lia. lia. }
  split; [done|]. split; [done|]. split.
  - intros k. rewrite (view_insert _ _ guard _ k Hs Hi). case_decide as Hk.
    + rewrite Hget. unfold view. by rewrite Hk.
    + destruct (String.eqb_spec k key) as [->|]; done.
  - destruct (view (shards e) key); [lia|]. rewrite Int.wrap_small; lia.
Qed.

Lemma put_record_spec key r e :
  engine_ok e ->
  view (shards e) key <> None \/
    (length (lru_entries (shards e !!! idx key)) < Z.to_nat (Z.max (max_capacity e) 1))%nat ->
  let e' := put_record hash key r e in
  engine_ok e' /\ max_capacity e' = max_capacity e /\ ttl e' = ttl e /\
  (forall k, view (shards e') k = if String.eqb k key then Some r else view (shards e) k) /\
  len e' = len e + (match view (shards e) key with Some _ => 0 | None => 1 end).
Proof. cbv zeta. rewrite !engine_ok_at. apply put_record_at. Qed.

(** A new record in a full shard: another key of it goes and the counter does not
    notice. *)
Lemma put_record_full d key r e :
  engine_at d e -> d + 1 < 2 ^ 63 -> view (shards e) key = None ->
  ~ (length (lru_entries (shards e !!! idx key)) < Z.to_nat (Z.max (max_capacity e) 1))%nat ->
  let e' := put_record hash key r e in
  engine_at (d + 1) e' /\ max_capacity e' = max_capacity e /\ ttl e' = ttl e /\
  exists ev, ev <> key /\
    forall k, view (shards e') k =
              if String.eqb k key then Some r else if String.eqb k ev then None else view (shards e) k.
Proof.
  intros Hok Hd1 Hnone Hfull. pose proof (engine_at_len d e Hok) as Hb. destruct Hok as (Hd & Hc & Hs & Hlen).
  unfold Int.u64_max in Hb. pose proof Hs as [Hl Hsi]. pose proof (idx_lt key) as Hi.
  destruct (Hsi _ Hi) as (_ & Hle & _). unfold put_record, engine_at.
  destruct (shard_put_full _ (idx key) key r _ (Hsi _ Hi) eq_refl ltac:(lia) Hnone ltac:(lia))
    as (Hok' & Hold & Hlen' & ev & Hne & Hev & Hget).
  destruct (lru_put key r (shards e !!! idx key)) as [old guard]; cbn [fst snd] in *. subst old.
  cbv zeta. cbn [shards max_capacity len ttl].
  pose proof (total_insert (idx key) guard (shards e) ltac:(lia)) as Ht.
  unfold fetch_add. rewrite Int.wrap_small by lia.
  split; [split_and!; [lia..|by apply shards_ok_insert|lia]|]. do 2 (split; [done|]).
  exists ev. split; [done|]. intros k. rewrite (view_insert _ _ guard _ k Hs Hi). case_decide as Hk.
  - rewrite Hget. unfold view. by rewrite Hk.
  - destruct (String.eqb_spec k key) as [->|]; [done|].
    destruct (String.eqb_spec k ev) as [->|]; [congruence|done].
Qed.

Lemma remove_at d key e :
  engine_at d e ->
  let e' := remove hash key e in
  engine_at d e' /\ max_capacity e' = max_capacity e /\ ttl e' = ttl e /\
  (forall k, view (shards e') k = if String.eqb k key then None else view (shards e) k) /\
  len e' = len e - (match view (shards e) key with Some _ => 1 | None => 0 end).
Proof.
  intros Hok. pose proof (engine_at_len d e Hok) as Hb. destruct Hok as (Hd & Hc & Hs & Hlen).
  unfold Int.u64_max in Hb.
  pose proof Hs as [Hl Hsi]. pose proof (idx_lt key) as Hi. unfold remove, engine_at.
  destruct (shard_pop _ (idx key) key _ (Hsi _ Hi)) as (Hok' & Hlen' & Hget).
  destruct (lru_pop_spec key (shards e !!! idx key)) as [Hold _].
  destruct (lru_pop key (shards e !!! idx key)) as [old guard]; cbn [fst snd] in *.
  cbv zeta. cbn [shards max_capacity len ttl].
  pose proof (total_insert (idx key) guard (shards e) ltac:(lia)) as Ht.
  fold (view (shards e) key) in Hold. rewrite Hold in *. unfold fetch_sub.
  split; [split_and!; [lia..|by apply shards_ok_insert|]|].
  { destruct (view (shards e) key); [|lia]. rewrite Int.wrap_small by lia. lia. }
  split; [done|]. split; [done|]. split.
  - intros k. rewrite (view_insert _ _ guard _ k Hs Hi). case_decide as Hk.
    + rewrite Hget. unfold view. by rewrite Hk.
    + destruct (String.eqb_spec k key) as [->|]; done.
  - destruct (view (shards e) key); [|lia]. rewrite Int.wrap_small; lia.
Qed.
Lemma remove_spec key e :
  engine_ok e ->
  let e' := remove hash key e in
  engine_ok e' /\ max_capacity e' = max_capacity e /\ ttl e' = ttl e /\
  (forall k, view (shards e') k = if String.eqb k key then None else view (shards e) k) /\
  len e' = len e - (match view (shards e) key with Some _ => 1 | None => 0 end).
Proof. cbv zeta. rewrite !engine_ok_at. apply remove_at. Qed.
End Shards.

(** ** The abstract cache *)

(** A finite map of records.  Claiming a key answers from a record in its window
    and otherwise starts a new operation. *)
Abbreviation cache := (gmap string IdempotencyRecord).
Definition spec_check (ttl now_secs : Z) (key : string) (hlc : HlcTimestamp) (m : cache) :
    IdempotencyOutcome * cache :=
  match m !! key ≫= answer ttl now_secs with
  | Some o => (o, m)
  | None => (New, <[key := InProgress hlc now_secs]> m)
  end.

(** The operations, with the wall clock and the contention each one meets. *)
Inductive operation :=
| OpCheck (busy : nat -> bool) (now_secs : Z) (key : string) (hlc : HlcTimestamp)
| OpComplete (now_secs : Z) (key : string) (hlc : HlcTimestamp) (status_code : Z)
    (headers : list (string * string)) (body : string)
| OpRemove (key : string).

Definition run_op `{LruLib} (hash : string -> Z) (op : operation) (e : engine) :
    option IdempotencyOutcome * engine :=
  match op with
  | OpCheck busy now key hlc =>
      let '(o, e') := check_or_insert hash busy now key hlc e in (Some o, e')
  | OpComplete now key hlc status headers body =>
      (None, complete hash now key hlc status headers body e)
  | OpRemove key => (None, remove hash key e)
  end.
Definition run_ops `{LruLib} (hash : string -> Z) (ops : list operation) (e : engine) : engine :=
  fold_left (fun e op => snd (run_op hash op e)) ops e.

Definition spec_op (ttl : Z) (op : operation) (m : cache) : option IdempotencyOutcome * cache :=
  match op with
  | OpCheck _ now key hlc => let '(o, m') := spec_check ttl now key hlc m in (Some o, m')
  | OpComplete now key hlc status headers body =>
      (None, <[key := Completed hlc status headers body now]> m)
  | OpRemove key => (None, delete key m)
  end.

Section Refinement.
Context `{LruLib}.
Variable hash : string -> Z.

(** The engine's state stands for the map of its records; its counter is [d] ahead. *)
Definition represents (d : Z) (e : engine) (m : cache) : Prop :=
  engine_at hash d e /\ forall k, m !! k = view hash (shards e) k.

(** [complete] finds its key, or at least room in the key's shard. *)
Definition has_room (op : operation) (e : engine) : Prop :=
  match op with
  | OpComplete _ key _ _ _ _ =>
      view hash (shards e) key <> None \/
      (length (lru_entries (shards e !!! get_shard_index hash key)) <
       Z.to_nat (Z.max (max_capacity e) 1))%nat
  | _ => True
  end.

#[export] Instance has_room_dec op e : Decision (has_room op e).
Proof. destruct op; cbn; apply _. Defined.
Definition key_touched (op : operation) : string :=
  match op with OpCheck _ _ k _ | OpComplete _ k _ _ _ _ | OpRemove k => k end.
(** The abstract map with at most one key dropped. *)
Definition drop (dropped : option string) (m : cache) : cache :=
  match dropped with Some k => delete k m | None => m end.

Lemma lookup_drop_insert (m : cache) (f : string -> option IdempotencyRecord) key r ev k :
  (forall k, m !! k = f k) -> ev <> Some key ->
  drop ev (<[key := r]> m) !! k =
  if String.eqb k key then Some r else if decide (ev = Some k) then None else f k.
Proof.
  intros Hf Hne. destruct ev as [ek|]; cbn [drop]; rewrite ?lookup_delete, lookup_insert;
    destruct (String.eqb_spec k key) as [->|Hk];
    rewrite ?(decide_True (P := key = key)), ?(decide_False (P := key = k)) by congruence.
  - by rewrite decide_False by congruence.
  - rewrite Hf. destruct (decide (ek = k)) as [->|];
      [by rewrite decide_True|by rewrite decide_False by congruence].
  - done.
  - by rewrite decide_False by congruence.
Qed.

Lemma check_at d busy now key hlc e :
  engine_at hash d e ->
  let r := view hash (shards e) key in
  let '(o, e') := check_or_insert hash busy now key hlc e in
  engine_at hash d e' /\ max_capacity e' = max_capacity e /\ ttl e' = ttl e /\
  match r ≫= answer (ttl e) now with
  | Some o' => o = o' /\ len e' = len e /\
      forall k, view hash (shards e') k = view hash (shards e) k
  | None =>
      o = New /\
      exists ev : option string,
        (ev <> None -> max_capacity e <= len e) /\
        (max_capacity e <= len e -> d < len e -> (forall j, busy j = false) -> ev <> None) /\
        len e' = len e - (match ev with Some _ => 1 | None => 0 end) +
                 (if decide (ev = Some key) then 1 else match r with Some _ => 0 | None => 1 end) /\
        forall k, view hash (shards e') k =
          if String.eqb k key then Some (InProgress hlc now)
          else if decide (ev = Some k) then None else view hash (shards e) k
  end.
Proof.
  intros Hok. pose proof Hok as (Hd & Hc & Hs & Hlen). pose proof Hs as [Hl Hsi].
  pose proof (idx_lt hash key) as Hi. cbv zeta. unfold check_or_insert.
  destruct (shard_get hash _ _ key _ (Hsi _ Hi)) as (Hok' & Hlen' & Hget).
  destruct (lru_get_spec key (shards e !!! get_shard_index hash key)) as [Hf _].
  destruct (lru_get key (shards e !!! get_shard_index hash key)) as [found guard].
  cbn [fst snd] in *. fold (view hash (shards e) key) in Hf. subst found.
  set (e1 := Engine _ _ _ _).
  pose proof (total_insert (get_shard_index hash key) guard (shards e) ltac:(lia)) as Ht.
  assert (Hv : forall k, view hash (shards e1) k = view hash (shards e) k).
  { intros k. cbn [e1 shards]. rewrite (view_insert hash _ _ guard _ k Hs Hi).
    case_decide as Hk; [|done]. rewrite Hget. unfold view. by rewrite Hk. }
  assert (Hok1 : engine_at hash d e1).
  { do 2 (split; [done|]). cbn [e1 shards max_capacity len]. split; [by apply shards_ok_insert|lia]. }
  change (match view hash (shards e) key with Some r => answer (ttl e) now r | None => None end)
    with (view hash (shards e) key ≫= answer (ttl e) now).
  destruct (view hash (shards e) key ≫= answer (ttl e) now) as [o'|] eqn:Ha.
  - split; [done|]. split; [done|]. split; [done|]. split; [done|]. split; [done|exact Hv].
  - destruct (evict_spec hash d busy _ e1 Hok1 Hi)
      as (Hok2 & Hm2 & Ht2 & Hroom & ev & Hv2 & Hl2 & Hev1 & Hev2).
    destruct (put_record_at hash d key (InProgress hlc now) _ Hok2) as (Hok3 & Hm3 & Ht3 & Hv3 & Hl3).
    { right. by rewrite Hm2. }
    split; [done|]. rewrite Hm3, Ht3. split; [done|]. split; [done|]. split; [done|].
    exists ev. split; [done|]. split; [done|]. split.
    + rewrite Hl3, Hl2, Hv2, Hv. cbn [e1 len].
      destruct (decide (ev = Some key)); [lia|]. destruct (view hash (shards e) key); lia.
    + intros k. rewrite Hv3, Hv2, Hv. done.
Qed.

Lemma check_spec busy now key hlc e :
  engine_ok hash e ->
  let r := view hash (shards e) key in
  let '(o, e') := check_or_insert hash busy now key hlc e in
  engine_ok hash e' /\ max_capacity e' = max_capacity e /\ ttl e' = ttl e /\
  match r ≫= answer (ttl e) now with
  | Some o' => o = o' /\ len e' = len e /\
      forall k, view hash (shards e') k = view hash (shards e) k
  | None =>
      o = New /\
      exists ev : option string,
        (ev <> None -> max_capacity e <= len e) /\
        (max_capacity e <= len e -> 0 < len e -> (forall j, busy j = false) -> ev <> None) /\
        len e' = len e - (match ev with Some _ => 1 | None => 0 end) +
                 (if decide (ev = Some key) then 1 else match r with Some _ => 0 | None => 1 end) /\
        forall k, view hash (shards e') k =
          if String.eqb k key then Some (InProgress hlc now)
          else if decide (ev = Some k) then None else view hash (shards e) k
  end.
Proof.
  intros Hok. pose proof (check_at 0 busy now key hlc e (proj1 (engine_ok_at _ _) Hok)) as Hc.
  cbv zeta in *. destruct (check_or_insert hash busy now key hlc e) as [o e']. by rewrite engine_ok_at.
Qed.

(** A record no operation touches stays: operations on other keys keep it while
    the engine is below capacity, and claims of its own key that find it fresh
    only read it. *)
Fixpoint quiet (key : string) (t1 : Z) (ops : list operation) (e : engine) : Prop :=
  match ops with
  | [] => True
  | op :: ops' =>
      match op with
      | OpCheck _ now k _ => if String.eqb k key then now <= t1 else len e < max_capacity e
      | OpComplete _ k _ _ _ _ => k <> key /\ has_room op e
      | OpRemove k => k <> key
      end /\ quiet key t1 ops' (snd (run_op hash op e))
  end.

Lemma fresh_mono ttl t t' at_secs : t' <= t -> fresh ttl t at_secs = true -> fresh ttl t' at_secs = true.
Proof. unfold fresh, Int.saturating_sub_u64. intros. to_prop. lia. Qed.

Lemma answer_mono ttl t t' r : t' <= t -> answer ttl t r <> None -> answer ttl t' r = answer ttl t r.
Proof.
  intros Ht. destruct r as [h s|h st hd b s]; cbn.
  all: destruct (fresh ttl t s) eqn:E; [|done].
  all: by rewrite (fresh_mono _ _ _ _ Ht E).
Qed.

Lemma record_persists key t1 r ops e :
  engine_ok hash e -> view hash (shards e) key = Some r -> answer (ttl e) t1 r <> None ->
  quiet key t1 ops e ->
  let e' := run_ops hash ops e in
  engine_ok hash e' /\ ttl e' = ttl e /\ view hash (shards e') key = Some r.
Proof.
  cbv zeta. revert e. induction ops as [|op ops IH]; intros e Hok Hview Hans; [done|].
  cbn [quiet run_ops fold_left]. intros [Hop Hq].
  assert (Hstep : engine_ok hash (snd (run_op hash op e)) /\ ttl (snd (run_op hash op e)) = ttl e /\
                  view hash (shards (snd (run_op hash op e))) key = Some r).
  { destruct op as [busy now k hlc|now k hlc st hd b|k]; cbn [run_op].
    - pose proof (check_spec busy now k hlc e Hok) as Hchk. cbv zeta in Hchk.
      destruct (check_or_insert hash busy now k hlc e) as [o e']. cbn [snd].
      destruct Hchk as (Hok' & Hm & Ht & Hcase). split; [done|]. split; [done|].
      destruct (String.eqb_spec k key) as [->|Hne].
      + rewrite Hview in Hcase. cbn in Hcase.
        rewrite (answer_mono _ t1) in Hcase by done.
        destruct (answer (ttl e) t1 r); [|done].
        destruct Hcase as (_ & _ & ->). done.
      + destruct (view hash (shards e) k ≫= answer (ttl e) now).
        * destruct Hcase as (_ & _ & ->). done.
        * destruct Hcase as (_ & ev & Hev & _ & _ & ->).
          assert (ev = None) as ->.
          { destruct ev; [|done]. specialize (Hev ltac:(done)). lia. }
          rewrite decide_False by done. by destruct (String.eqb_spec key k).
    - destruct Hop as [Hne Hroom].
      destruct (put_record_spec hash k (Completed hlc st hd b now) e Hok Hroom)
        as (? & ? & ? & Hv & _).
      split; [done|]. split; [done|]. cbn. unfold complete. rewrite Hv.
      by destruct (String.eqb_spec key k).
    - destruct (remove_spec hash k e Hok) as (? & ? & ? & Hv & _).
      split; [done|]. split; [done|]. cbn. rewrite Hv. by destruct (String.eqb_spec key k). }
  destruct Hstep as (Hok' & Ht & Hv). fold (run_ops hash ops (snd (run_op hash op e))).
  rewrite <- Ht. apply IH; [done|done|by rewrite Ht|done].
Qed.
End Refinement.

(** ** Lemmas: the Redis record codec *)

(** The ranges of the Rust fields. *)
Definition hlc_wf (h : HlcTimestamp) : bool :=
  (0 <=? physical h) && (physical h <=? Int.u64_max) &&
  (0 <=? logical h) && (logical h <=? Int.u32_max).
Definition record_wf (r : IdempotencyRecord) : bool :=
  match r with
  | InProgress h s => hlc_wf h && (0 <=? s) && (s <=? Int.u64_max)
  | Completed h st _ _ s =>
      hlc_wf h && (0 <=? s) && (s <=? Int.u64_max) && (0 <=? st) && (st <=? 65535)
  end.

Lemma hlc_fits h : hlc_wf h = true <-> Derive.fits hlc_codec h.
Proof.
  destruct h as [p l]. cbn -[Int.u64_max Int.u32_max]. unfold hlc_wf. cbn [physical logical].
  split; [intros Hwf; to_prop; lia|]. intros [[? ?] [? ?]]. repeat (apply andb_true_iff; split); lia.
Qed.
Lemma record_fits r : record_wf r = true ->
  match r with
  | InProgress h s => Derive.shape_fits in_progress_shape (h, s)
  | Completed h st hd b s => Derive.shape_fits completed_shape (h, (st, (hd, (b, s))))
  end.
Proof.
  destruct r as [h s|h st hd b s]; unfold record_wf; intros Hwf; to_prop.
  - split; [apply hlc_fits; naive_solver|cbn in *; lia].
  - split; [apply hlc_fits; naive_solver|]. split; [cbn in *; lia|]. split; [|split; [done|cbn in *; lia]].
    apply Forall_forall. by intros.
Qed.
Lemma record_json_roundtrip r : record_wf r = true -> record_of_json (record_to_json r) = Some r.
Proof.
  intros Hwf%record_fits. unfold record_of_json, record_to_json.
  destruct r as [h s|h st hd b s]; rewrite Derive.tagged_with by (by apply (bool_decide_eq_true_1 _)); cbn [mbind option_bind];
    cbv beta iota; rewrite ?String.eqb_refl.
  - by rewrite (Derive.struct_roundtrip in_progress_shape _ (h, s)) by (done || by apply (bool_decide_eq_true_1 _)).
  - change (String.eqb "completed" "in_progress") with false. cbv iota.
    by rewrite (Derive.struct_roundtrip completed_shape _ (h, (st, (hd, (b, s))))) by (done || by apply (bool_decide_eq_true_1 _)).
Qed.
#[local] Instance in_progress_printable : Derive.PrintableFields in_progress_shape.
Proof. apply Derive.both_printable; [apply Derive.req_printable, _|apply Derive.dflt_printable, Derive.u64_printable]. Qed.
#[local] Instance completed_printable : Derive.PrintableFields completed_shape.
Proof.
  repeat apply Derive.both_printable; [apply Derive.req_printable..|apply Derive.dflt_printable]; first
    [apply _|apply Derive.u16_printable|apply Derive.u64_printable|apply Derive.text_printable|idtac].
  by apply Derive.vec_printable, Derive.two_printable.
Qed.
Lemma record_json_plain r : record_wf r = true -> json_plain (record_to_json r) = true.
Proof.
  intros Hwf%record_fits. destruct r as [h s|h st hd b s]; cbn [record_to_json Derive.with_tag json_plain forallb snd andb];
    by apply Derive.put_plain.
Qed.
Lemma record_text_roundtrip `{JsonText} r : record_wf r = true ->
  json_read (json_to_string (record_to_json r)) ≫= record_of_json = Some r.
Proof. intros Hwf. rewrite json_read_print by by apply record_json_plain. by apply record_json_roundtrip. Qed.

(** ** Properties *)

Section Properties.
Context `{LruLib}.
Variable hash : string -> Z.

(** C30. The engine refines the abstract cache: each operation answers what the
    map's operation answers, and leaves the engine standing for the map's
    result with at most one key dropped, never the one the operation is about.
    A key is dropped in two cases only: by a new claim made at capacity, and by
    the completion of a key that is no longer held when its shard is full
    ([has_room] fails). In the second case, and no other, the engine's counter
    gets one further ahead of its records (it starts exact), so this holds for
    any sequence of operations with fewer than 2^63 completions of that kind. *)
Theorem engine_refines_cache d op e m :
  represents hash d e m -> d + 1 < 2 ^ 63 ->
  let '(o, e') := run_op hash op e in
  let '(o', m') := spec_op (ttl e) op m in
  o = o' /\ ttl e' = ttl e /\ max_capacity e' = max_capacity e /\
  exists dropped : option string,
    represents hash (if decide (has_room hash op e) then d else d + 1) e' (drop dropped m') /\
    dropped <> Some (key_touched op) /\
    (dropped <> None -> max_capacity e <= len e /\ o = Some New \/ ~ has_room hash op e).
Proof.
  intros [Hok Hrep] Hd.
  destruct op as [busy now key hlc|now key hlc st hd b|key]; cbn [run_op spec_op key_touched].
  - rewrite decide_True by done. pose proof (check_at hash d busy now key hlc e Hok) as Hchk. cbv zeta in Hchk.
    destruct (check_or_insert hash busy now key hlc e) as [o e'].
    destruct Hchk as (Hok' & Hm & Ht & Hcase). unfold spec_check. rewrite Hrep.
    destruct (view hash (shards e) key ≫= answer (ttl e) now) as [o'|].
    + destruct Hcase as (-> & _ & Hv). do 3 (split; [done|]). exists None.
      split; [split; [done|]; intros k; by rewrite Hv|done].
    + destruct Hcase as (-> & ev & Hev & _ & _ & Hv). do 3 (split; [done|]).
      exists (if decide (ev = Some key) then None else ev).
      split; [split; [done|]|split; [by case_decide|case_decide; [done|]; auto]].
      intros k. rewrite Hv. case_decide as Hd'; rewrite (lookup_drop_insert _ (view hash (shards e))) by done; [|done].
      destruct (String.eqb_spec k key); [done|]. by rewrite !decide_False by congruence.
  - do 1 (split; [done|]). unfold complete. destruct (decide (has_room hash (OpComplete now key hlc st hd b) e)) as [Hroom|Hfull].
    + destruct (put_record_at hash d key (Completed hlc st hd b now) e Hok Hroom) as (Hok' & Hm & Ht & Hv & _).
      do 2 (split; [done|]). exists None. split; [split; [done|]|done].
      intros k. rewrite Hv, (lookup_drop_insert _ (view hash (shards e))) by done.
      by rewrite decide_False by congruence.
    + cbn [has_room] in Hfull.
      destruct (put_record_full hash d key (Completed hlc st hd b now) e Hok Hd) as (Hok' & Hm & Ht & ev & Hne & Hv).
      { destruct (view hash (shards e) key) eqn:E; [|done]. destruct Hfull. by left. }
      { intros Hlt. apply Hfull. by right. }
      do 2 (split; [done|]). exists (Some ev). split; [split; [done|]|split; [congruence|by right]].
      intros k. rewrite Hv, (lookup_drop_insert _ (view hash (shards e))) by (done || congruence).
      destruct (String.eqb k key); [done|]. by destruct (String.eqb_spec k ev) as [->|];
        [rewrite decide_True|rewrite decide_False by congruence].
  - rewrite decide_True by done. split; [done|].
    destruct (remove_at hash d key e Hok) as (Hok' & Hm & Ht & Hv & _).
    do 2 (split; [done|]). exists None. split; [split; [done|]|done].
    intros k. rewrite Hv. cbn [drop]. rewrite lookup_delete.
    destruct (String.eqb_spec k key) as [->|Hne]; [by rewrite decide_True|].
    rewrite decide_False by congruence. apply Hrep.
Qed.

(** One operation per key at a time: once a claim of a key answered [New], every
    claim of it inside the window answers [Conflict] with the first claim's
    timestamp, whatever other operations ran in between (any keys, any shards,
    any contention), as long as nobody completed or removed the key and no other
    claim was made at capacity. *)
Theorem idempotency_mutual_exclusion busy t0 key hlc0 e e1 ops t1 busy' hlc1 :
  engine_ok hash e ->
  check_or_insert hash busy t0 key hlc0 e = (New, e1) ->
  quiet hash key t1 ops e1 -> t1 - t0 < Z.max (ttl e) 1 ->
  fst (check_or_insert hash busy' t1 key hlc1 (run_ops hash ops e1)) = Conflict hlc0.
Proof.
  intros Hok Hchk Hq Hwin.
  pose proof (check_spec hash busy t0 key hlc0 e Hok) as H1. cbv zeta in H1.
  rewrite Hchk in H1. destruct H1 as (Hok1 & _ & Ht1 & Hcase).
  assert (Hv1 : view hash (shards e1) key = Some (InProgress hlc0 t0)).
  { destruct (view hash (shards e) key ≫= answer (ttl e) t0) as [o|] eqn:Ha.
    - destruct Hcase as (Ho & _ & _). subst o.
      destruct (view hash (shards e) key) as [[h s|h st hd b s]|]; cbn in Ha;
        repeat case_match; simplify_eq.
    - destruct Hcase as (_ & ev & _ & _ & _ & ->). by rewrite String.eqb_refl. }
  assert (Hans : answer (ttl e1) t1 (InProgress hlc0 t0) = Some (Conflict hlc0)).
  { rewrite Ht1. cbn. unfold fresh, Int.saturating_sub_u64.
    rewrite (proj2 (Z.ltb_lt _ _)); [done|lia]. }
  destruct (record_persists hash key t1 _ ops e1 Hok1 Hv1) as (Hok2 & Ht2 & Hv2);
    [by rewrite Hans|done|].
  pose proof (check_spec hash busy' t1 key hlc1 _ Hok2) as H2. cbv zeta in H2.
  destruct (check_or_insert hash busy' t1 key hlc1 _) as [o e2].
  destruct H2 as (_ & _ & _ & H2). rewrite Hv2 in H2. cbn in H2. rewrite Ht2 in H2.
  cbn in Hans. rewrite Hans in H2. by destruct H2 as (-> & _ & _).
Qed.

(** A finished operation is replayed: after [complete] of a claimed key every
    claim inside the window gets back exactly the status, the filtered headers and
    the body that were stored. *)
Theorem idempotency_replay t0 key hlc0 status headers body e ops t1 busy hlc1 :
  engine_ok hash e -> view hash (shards e) key <> None ->
  quiet hash key t1 ops (complete hash t0 key hlc0 status headers body e) ->
  t1 - t0 < Z.max (ttl e) 1 ->
  fst (check_or_insert hash busy t1 key hlc1
         (run_ops hash ops (complete hash t0 key hlc0 status headers body e)))
  = Replay hlc0 status headers body.
Proof.
  intros Hok Hkey Hq Hwin.
  destruct (put_record_spec hash key (Completed hlc0 status headers body t0) e Hok)
    as (Hok1 & _ & Ht1 & Hv1 & _); [by left|].
  fold (complete hash t0 key hlc0 status headers body e) in Hok1, Ht1, Hv1.
  specialize (Hv1 key). rewrite String.eqb_refl in Hv1.
  assert (Hans : answer (ttl (complete hash t0 key hlc0 status headers body e)) t1
                   (Completed hlc0 status headers body t0)
                 = Some (Replay hlc0 status headers body)).
  { rewrite Ht1. cbn. unfold fresh, Int.saturating_sub_u64.
    rewrite (proj2 (Z.ltb_lt _ _)); [done|lia]. }
  destruct (record_persists hash key t1 _ ops _ Hok1 Hv1) as (Hok2 & Ht2 & Hv2);
    [by rewrite Hans|done|].
  pose proof (check_spec hash busy t1 key hlc1 _ Hok2) as H2. cbv zeta in H2.
  destruct (check_or_insert hash busy t1 key hlc1 _) as [o e2].
  destruct H2 as (_ & _ & _ & H2). rewrite Hv2, Ht2 in H2. cbn in H2, Hans.
  rewrite Hans in H2. by destruct H2 as (-> & _ & _).
Qed.

(** The operations of a gateway that completes only keys it holds, with no
    contended shard. *)
Inductive reachable (ttl cap : Z) : engine -> Prop :=
| reachable_new : reachable ttl cap (engine_new ttl cap)
| reachable_op op e :
    reachable ttl cap e ->
    match op with
    | OpCheck busy _ _ _ => forall i, busy i = false
    | OpComplete _ key _ _ _ _ => view hash (shards e) key <> None
    | OpRemove _ => True
    end ->
    reachable ttl cap (snd (run_op hash op e)).

(** The cache is bounded: the counter is the number of records, and it never
    exceeds the configured capacity (one record when that is zero). *)
Theorem idempotency_capacity_bound ttl0 cap e :
  0 <= cap < 2 ^ 58 -> reachable ttl0 cap e ->
  active_record_count e = Z.of_nat (total (shards e)) /\
  active_record_count e <= Z.max cap 1.
Proof.
  intros Hcap Hr.
  assert (engine_ok hash e /\ max_capacity e = cap /\ len e <= Z.max cap 1) as (Hok & _ & Hb);
    [|by destruct Hok as (_ & _ & ?)].
  induction Hr as [|op e Hr (Hok & Hm & Hb) Hop].
  { pose proof (engine_ok_new hash ttl0 cap Hcap). split_and!; [done|done|cbn; lia]. }
  destruct op as [busy now key hlc|now key hlc st hd b|key]; cbn [run_op].
  - pose proof (check_spec hash busy now key hlc e Hok) as H1. cbv zeta in H1.
    destruct (check_or_insert hash busy now key hlc e) as [o e']. cbn [snd].
    destruct H1 as (Hok' & Hm' & _ & Hcase). split; [done|]. split; [congruence|].
    destruct (view hash (shards e) key ≫= answer (ttl e) now).
    + destruct Hcase as (_ & -> & _). done.
    + destruct Hcase as (_ & ev & Hev & Hev' & Hl & _). rewrite Hl.
      pose proof (engine_ok_len hash e Hok).
      destruct ev as [ek|].
      * destruct (decide (Some ek = Some key)); [lia|]. destruct (view hash (shards e) key); lia.
      * rewrite decide_False by done.
        assert (len e < cap \/ len e = 0).
        { destruct (decide (len e < cap)); [by left|right].
          destruct (decide (len e = 0)); [done|].
          destruct (Hev' ltac:(lia) ltac:(lia) Hop). done. }
        destruct (view hash (shards e) key); lia.
  - destruct (put_record_spec hash key (Completed hlc st hd b now) e Hok) as (Hok' & Hm' & _ & _ & Hl);
      [by left|]. cbn. unfold complete.
    split; [done|]. split; [congruence|]. rewrite Hl. destruct (view hash (shards e) key); [lia|done].
  - destruct (remove_spec hash key e Hok) as (Hok' & Hm' & _ & _ & Hl). cbn.
    split; [done|]. split; [congruence|]. rewrite Hl. destruct (view hash (shards e) key); lia.
Qed.

(** [complete] of a key that is no longer held, on a shard that is full, drops the
    shard's oldest record without accounting for it: the counter and the
    number of records part. *)
Theorem complete_full_shard_drift now key hlc status headers body e :
  engine_ok hash e -> view hash (shards e) key = None ->
  length (lru_entries (shards e !!! get_shard_index hash key)) =
    Z.to_nat (Z.max (max_capacity e) 1) ->
  let e' := complete hash now key hlc status headers body e in
  len e' = len e + 1 /\ total (shards e') = total (shards e).
Proof.
  intros Hok Hview Hfull. pose proof (engine_ok_len hash e Hok) as Hb.
  destruct Hok as (Hc & Hs & Hlen). pose proof Hs as [Hl Hsi].
  pose proof (idx_lt hash key) as Hi. destruct (Hsi _ Hi) as (Hcap & _ & _).
  unfold complete, put_record.
  destruct (lru_put_spec key (Completed hlc status headers body now)
    (shards e !!! get_shard_index hash key)) as (Hf & _ & He).
  destruct (lru_put key _ (shards e !!! get_shard_index hash key)) as [old guard].
  cbn [fst snd] in *. cbv zeta. cbn [len shards].
  fold (view hash (shards e) key) in Hf, He. rewrite Hview in Hf, He. subst old.
  unfold fetch_add. rewrite Int.wrap_small by lia. split; [done|].
  pose proof (total_insert (get_shard_index hash key) guard (shards e) ltac:(lia)) as Ht.
  rewrite He, Hcap, Hfull, Nat.ltb_irrefl in Ht. cbn [length] in Ht.
  destruct (lru_entries (shards e !!! get_shard_index hash key)) as [|x l] eqn:Hes;
    [cbn in Hfull; lia|].
  rewrite removelast_firstn_len, length_take in Ht. cbn [length Nat.pred] in Ht, Hfull. lia.
Qed.
End Properties.

(** The commands of gateways that share one Redis server, with the server's clock
    and the fault each one meets. *)
Inductive redis_op :=
| RCheck (connected : bool) (set_reply : reply) (get_ok : bool)
    (now_set now_get now_secs : Z) (key : string) (hlc : HlcTimestamp)
| RComplete (connected : bool) (set_reply : reply) (now_set now_secs : Z) (key : string)
    (hlc : HlcTimestamp) (status_code : Z) (headers : list (string * string)) (body : string)
| RRemove (connected : bool) (del_reply : reply) (key : string).

Section RedisProperties.
Context `{JsonText}.
Variable key_prefix : string.
Variable ttl_secs : Z.

Definition redis_run (op : redis_op) (s : redis_store) : redis_store :=
  match op with
  | RCheck c r g ts tg now key hlc =>
      snd (redis_check_or_insert key_prefix ttl_secs c r g ts tg now key hlc s)
  | RComplete c r ts now key hlc status headers body =>
      redis_complete key_prefix ttl_secs c r ts now key hlc status headers body s
  | RRemove c r key => redis_remove key_prefix c r key s
  end.

(** Nobody completes or removes [key], and claims of it reach the server before
    second [exp]. *)
Definition leaves (key : string) (exp : Z) (op : redis_op) : Prop :=
  match op with
  | RCheck _ _ _ ts _ _ k _ => k = key -> ts < exp
  | RComplete _ _ _ _ k _ _ _ _ => k <> key
  | RRemove _ _ k => k <> key
  end.

Lemma redis_key_inj k k' : redis_key key_prefix k = redis_key key_prefix k' -> k = k'.
Proof.
  unfold redis_key. intros Heq.
  assert (Hinj : forall p x y, String.append p x = String.append p y -> x = y).
  { intros p. induction p as [|a p IH]; intros x y; cbn; [done|]. intros [= Hp]; auto. }
  apply Hinj in Heq. by injection Heq.
Qed.

Lemma redis_run_leaves key exp v op s :
  leaves key exp op -> s !! redis_key key_prefix key = Some (v, exp) ->
  redis_run op s !! redis_key key_prefix key = Some (v, exp).
Proof.
  intros Hl Hs.
  assert (Hne : forall k, k <> key -> redis_key key_prefix k <> redis_key key_prefix key)
    by (intros k Hk Heq; by apply redis_key_inj in Heq).
  destruct op as [c r g ts tg now k hlc|c r ts now k hlc st hd b|c r k];
    cbn [redis_run leaves] in *.
  - unfold redis_check_or_insert. destruct c; [|done].
    assert (Hnx : snd (match redis_get ts (redis_key key_prefix k) s with
                       | Some _ => (false, s)
                       | None => (true, <[redis_key key_prefix k :=
                           (json_to_string (record_to_json (InProgress hlc now)),
                            ts + Z.max ttl_secs 1)]> s)
                       end) !! redis_key key_prefix key = Some (v, exp)).
    { destruct (decide (k = key)) as [->|Hk].
      - unfold redis_get. rewrite Hs. rewrite (proj2 (Z.ltb_lt ts exp)) by auto. done.
      - case_match; [done|]. cbn. rewrite lookup_insert_ne; auto. }
    destruct r; cbn [negb snd]; [|done|exact Hnx].
    repeat case_match; cbn [snd]; try done; exact Hnx.
  - unfold redis_complete. destruct c, r; cbn [negb]; try done;
      rewrite lookup_insert_ne; auto.
  - unfold redis_remove. destruct c, r; cbn [negb]; try done;
      rewrite lookup_delete_ne; auto.
Qed.

(** The distributed backend: a claim that took the key's lock on the server makes
    every fault-free claim of it, from any gateway, answer [Conflict] with the
    winner's timestamp until the key expires, whatever was run in between (faults
    included) that did not complete or remove the key. *)
Theorem redis_mutual_exclusion t0 t0' now0 key hlc0 s s1 ops t1 t1' now1 hlc1 :
  record_wf (InProgress hlc0 now0) = true ->
  redis_get t0 (redis_key key_prefix key) s = None ->
  redis_check_or_insert key_prefix ttl_secs true Done true t0 t0' now0 key hlc0 s = (New, s1) ->
  Forall (leaves key (t0 + Z.max ttl_secs 1)) ops ->
  t1 < t0 + Z.max ttl_secs 1 -> t1' < t0 + Z.max ttl_secs 1 ->
  fst (redis_check_or_insert key_prefix ttl_secs true Done true t1 t1' now1 key hlc1
         (fold_left (fun s op => redis_run op s) ops s1)) = Conflict hlc0.
Proof.
  intros Hwf Hget Hchk Hops Ht1 Ht1'.
  unfold redis_check_or_insert in Hchk. cbn [negb] in Hchk. rewrite Hget in Hchk.
  cbn in Hchk. injection Hchk as Hs1.
  assert (Hlk : forall s0, s0 !! redis_key key_prefix key = s1 !! redis_key key_prefix key ->
    fold_left (fun s op => redis_run op s) ops s0 !! redis_key key_prefix key =
    Some (json_to_string (record_to_json (InProgress hlc0 now0)), t0 + Z.max ttl_secs 1)).
  { assert (Hs1k : s1 !! redis_key key_prefix key =
      Some (json_to_string (record_to_json (InProgress hlc0 now0)), t0 + Z.max ttl_secs 1))
      by (rewrite <- Hs1; apply lookup_insert_eq).
    rewrite Hs1k. clear -Hops. induction Hops as [|op ops Hop Hops IH]; intros s0 Hs0; [done|].
    cbn [fold_left]. by apply IH, redis_run_leaves. }
  specialize (Hlk s1 eq_refl).
  unfold redis_check_or_insert. cbn [negb].
  assert (Hg : forall t, t < t0 + Z.max ttl_secs 1 ->
    redis_get t (redis_key key_prefix key) (fold_left (fun s op => redis_run op s) ops s1) =
    Some (json_to_string (record_to_json (InProgress hlc0 now0)))).
  { intros t Ht. unfold redis_get. rewrite Hlk. by rewrite (proj2 (Z.ltb_lt _ _) Ht). }
  rewrite !Hg by done. cbn [fst]. unfold redis_answer.
  by rewrite record_text_roundtrip.
Qed.
End RedisProperties.

(** The witnesses run on the list cache, all keys in one shard. *)
Definition hash0 (_ : string) : Z := 0.
Definition free (_ : nat) : bool := false.
Local Abbreviation t0 := (HLC 1000 0).
#[local] Existing Instance list_lru.

(** A first claim; and, in an engine of capacity one that holds "b", the completion of
    "a", whose record a claim dropped: "b" is dropped and the counter gets ahead. *)
Definition one_held : engine :=
  snd (check_or_insert hash0 free 6 "b" t0 (snd (check_or_insert hash0 free 5 "a" t0 (engine_new 60 1)))).
Lemma one_held_represents : represents hash0 0 one_held {["b" := InProgress t0 6]}.
Proof.
  split.
  - apply engine_ok_at. pose proof (check_spec hash0 free 5 "a" t0 (engine_new 60 1) ltac:(by apply engine_ok_new)) as H1.
    pose proof (check_spec hash0 free 6 "b" t0 (snd (check_or_insert hash0 free 5 "a" t0 (engine_new 60 1)))) as H2.
    unfold one_held. apply H2, H1.
  - intros k. rewrite lookup_singleton. unfold view.
    replace (lru_entries (shards one_held !!! get_shard_index hash0 k)) with [("b", InProgress t0 6)]
      by (change (get_shard_index hash0 k) with (get_shard_index hash0 "b"); by vm_compute).
    cbn [Assoc.get]. destruct (String.eqb_spec k "b") as [->|]; [done|by rewrite decide_False by congruence].
Qed.
Lemma engine_refines_cache_witness :
  (let '(o, e') := run_op hash0 (OpCheck free 5 "k" t0) (engine_new 60 100) in
   let '(o', m') := spec_op 60 (OpCheck free 5 "k" t0) ∅ in
   o = o' /\ ttl e' = 60 /\ max_capacity e' = 100 /\
   exists dropped : option string,
     represents hash0 0 e' (drop dropped m') /\ dropped <> Some "k" /\
     (dropped <> None -> 100 <= 0 /\ o = Some New \/ ~ True)) /\
  (let '(o, e') := run_op hash0 (OpComplete 7 "a" t0 200 [] "{}") one_held in
   let '(o', m') := spec_op 60 (OpComplete 7 "a" t0 200 [] "{}") {["b" := InProgress t0 6]} in
   o = o' /\ ttl e' = 60 /\ max_capacity e' = 1 /\
   exists dropped : option string,
     represents hash0 1 e' (drop dropped m') /\ dropped <> Some "a" /\
     (dropped <> None -> 1 <= 1 /\ o = Some New \/ ~ has_room hash0 (OpComplete 7 "a" t0 200 [] "{}") one_held)).
Proof.
  split.
  - apply (engine_refines_cache hash0 0 (OpCheck free 5 "k" t0) (engine_new 60 100) ∅); [|done].
    split; [by apply engine_ok_at, engine_ok_new|]. intros k. rewrite lookup_empty. by vm_compute.
  - apply (engine_refines_cache hash0 0 (OpComplete 7 "a" t0 200 [] "{}") one_held
             {["b" := InProgress t0 6]}); [exact one_held_represents|done].
Defined.

Lemma idempotency_mutual_exclusion_witness :
  fst (check_or_insert hash0 free 30 "key-1" (HLC 1030 0)
    (run_ops hash0 [OpCheck free 10 "key-2" (HLC 1010 0); OpCheck free 20 "key-1" t0]
       (snd (check_or_insert hash0 free 5 "key-1" t0 (engine_new 60 100))))) = Conflict t0.
Proof.
  apply (idempotency_mutual_exclusion hash0 free 5 "key-1" t0 (engine_new 60 100)).
  - by apply engine_ok_new.
  - reflexivity.
  - repeat split; vm_compute; first [reflexivity|discriminate].
  - reflexivity.
Defined.

Lemma idempotency_replay_witness :
  fst (check_or_insert hash0 free 30 "key-1" (HLC 1030 0)
    (run_ops hash0 [OpRemove "key-2"]
       (complete hash0 6 "key-1" t0 200 [("content-type", "application/json")] "{}"
         (snd (check_or_insert hash0 free 5 "key-1" t0 (engine_new 60 100))))))
  = Replay t0 200 [("content-type", "application/json")] "{}".
Proof.
  apply idempotency_replay.
  - pose proof (check_spec hash0 free 5 "key-1" t0 (engine_new 60 100)
      ltac:(by apply engine_ok_new)) as H.
    apply H.
  - by vm_compute.
  - by repeat split.
  - reflexivity.
Defined.

Lemma idempotency_capacity_bound_witness :
  active_record_count
    (snd (run_op hash0 (OpCheck free 7 "b" t0)
      (snd (run_op hash0 (OpCheck free 5 "a" t0) (engine_new 60 1))))) <= Z.max 1 1.
Proof.
  apply (idempotency_capacity_bound hash0 60 1); [lia|].
  repeat (apply reachable_op; [|done]). apply reachable_new.
Defined.

(** A capacity of one: the key was evicted by another claim, then completed. *)
Lemma complete_full_shard_drift_witness :
  let e := snd (check_or_insert hash0 free 6 "b" t0
             (snd (check_or_insert hash0 free 5 "a" t0 (engine_new 60 1)))) in
  let e' := complete hash0 7 "a" t0 200 [] "{}" e in
  len e' = len e + 1 /\ total (shards e') = total (shards e).
Proof.
  apply (complete_full_shard_drift hash0 7 "a" t0 200 [] "{}"); [|by vm_compute..].
  pose proof (check_spec hash0 free 5 "a" t0 (engine_new 60 1) ltac:(by apply engine_ok_new)) as H.
  cbv zeta in H.
  pose proof (check_spec hash0 free 6 "b" t0
    (snd (check_or_insert hash0 free 5 "a" t0 (engine_new 60 1)))) as H2.
  apply H2, H.
Defined.

Lemma redis_mutual_exclusion_witness :
  fst (@redis_check_or_insert bits_json_text "spectra" 300 true Done true 20 20 20 "k" (HLC 20 0)
    (fold_left (fun s op => @redis_run bits_json_text "spectra" 300 op s)
       [RCheck true LostReply true 12 12 12 "other" (HLC 12 0); RRemove true Done "other"]
       (snd (@redis_check_or_insert bits_json_text "spectra" 300 true Done true 10 10 10 "k" t0 ∅))))
  = Conflict t0.
Proof.
  apply (@redis_mutual_exclusion bits_json_text "spectra" 300 10 10 10 "k" t0 ∅ _
           [RCheck true LostReply true 12 12 12 "other" (HLC 12 0); RRemove true Done "other"]);
    [reflexivity..| |lia|lia].
  apply Forall_cons; split; [done|]. by apply Forall_singleton.
Defined.
