(* ===== verification/Sanitizer.v ===== *)
(** * Sanitizer: redaction of sensitive data, [src/interceptors/sanitizer.rs].

    The test for sensitive keys (whole key, camel-case and separator tokens,
    windows of tokens), the recursive redaction of JSON values with its depth
    limit, and the redaction of query text (by regular expressions, which belong to
    the [regex] crate).  The main theorem is non-interference: what is written
    to event streams does not depend on the contents of sensitive fields. *)

From S2P Require Import Prelude Externals.
Local Open Scope nat_scope.

(** @interceptors/sanitizer.rs:4-19 DEFAULT_SENSITIVE_KEYS *)
Definition DEFAULT_SENSITIVE_KEYS : list string :=
  ["password"; "pass"; "token"; "secret"; "apikey"; "api_key"; "creditcard";
   "credit_card"; "cvv"; "cvc"; "ssn"; "pin"; "auth"; "authorization"]%string.
(** @interceptors/sanitizer.rs:21-21 REDACTED_PLACEHOLDER *)
Definition REDACTED_PLACEHOLDER : string := "[REDACTED]".
(** @interceptors/sanitizer.rs:128-128 Sanitizer::sanitize_value_depth *)
Definition BEARER_REDACTED : string := String.append "Bearer " REDACTED_PLACEHOLDER.

(** ** Sensitive keys *)

Section Keys.
Context `{Unicode}.

(** The scanner of [split_key_tokens]: finished tokens (newest first), the current
    token, whether the last character was not upper-case. @interceptors/sanitizer.rs:31-33 split_key_tokens *)
Record tokenizer := Tokenizer {
  tokens_rev : list string;
  current : string;
  prev_is_lower : bool
}.

Definition push_current (s : tokenizer) : list string :=
  if String.eqb (current s) "" then tokens_rev s else to_lowercase (current s) :: tokens_rev s.
Definition is_separator (ch : string) : bool :=
  String.eqb ch "_" || String.eqb ch "-" || String.eqb ch "." || String.eqb ch " ".

(** One character of the loop. @interceptors/sanitizer.rs:35-53 split_key_tokens *)
Definition token_step (s : tokenizer) (ch : string) : tokenizer :=
  if is_separator ch then Tokenizer (push_current s) "" false
  else if char_is_uppercase ch then
    if prev_is_lower s && negb (String.eqb (current s) "")
    then Tokenizer (to_lowercase (current s) :: tokens_rev s) ch false
    else Tokenizer (tokens_rev s) (String.append (current s) ch) false
  else Tokenizer (tokens_rev s) (String.append (current s) ch) true.

(** [split_key_tokens] @interceptors/sanitizer.rs:{fn split_key_tokens} split_key_tokens *)
Definition split_key_tokens (key : string) : list string :=
  rev (push_current (fold_left token_step (chars key) (Tokenizer [] "" false))).

(** [Sanitizer::new]: the set of lower-cased keys. @interceptors/sanitizer.rs:61-72 Sanitizer::new *)
Definition sanitizer_new (custom_keys : option (list string)) : list string :=
  map to_lowercase (DEFAULT_SENSITIVE_KEYS ++ default [] custom_keys).

Variable sensitive_keys : list string.

(** [k.replace(['-', '_'], "")] *)
Definition norm (k : string) : string := replace_chars ["-"; "_"]%char "" k.
Definition matches_any (s : string) : bool :=
  existsb (fun k => String.eqb s (norm k)) sensitive_keys.

(** The windows [tokens[i..j]] the third pass tries. @interceptors/sanitizer.rs:96-99 Sanitizer::is_sensitive_key *)
Definition windows (tokens : list string) : list (nat * nat) :=
  let max_window := Nat.min 4 (length tokens) in
  i ← seq 0 (length tokens);
  j ← seq (i + 1) (Nat.min (i + max_window) (length tokens) - i);
  [(i, j)].
Definition slice (tokens : list string) (ij : nat * nat) : list string :=
  take (snd ij - fst ij) (drop (fst ij) tokens).

(** [Sanitizer::is_sensitive_key], three passes. @interceptors/sanitizer.rs:{fn is_sensitive_key} Sanitizer::is_sensitive_key *)
Definition is_sensitive_key (key : string) : bool :=
  let normalized := norm (to_lowercase key) in
  if matches_any normalized then true
  else let tokens := split_key_tokens key in
  if existsb matches_any tokens then true
  else existsb (fun ij => matches_any (str_concat (slice tokens ij))) (windows tokens).

(** ** Values and text *)

Context `{RegexLib, JsonText}.

(** @interceptors/sanitizer.rs:127-127 Sanitizer::sanitize_value_depth *)
Definition starts_bearer (s : string) : bool := starts_with "bearer " (to_lowercase s).

Definition INLINE_PATTERN : string :=
  String.append
    "(?i)(password|pass|token|secret|apikey|api_key|creditcard|credit_card|cvv|cvc|ssn|pin)\s*:\s*"
    (String "034" (String.append "[^" (String "034" (String.append "]*" (String "034" ""))))).
Definition BEARER_PATTERN : string := "(?i)Bearer\s+[A-Za-z0-9\-_.~+/=]+".

(** [Sanitizer::sanitize_gql_query_str] @interceptors/sanitizer.rs:{fn sanitize_gql_query_str} Sanitizer::sanitize_gql_query_str *)
Definition sanitize_gql_query_str (query : string) : string :=
  let res := replace_all INLINE_PATTERN
    (fun caps => str_concat
       [default "" (caps !! 1); ": "; String "034" REDACTED_PLACEHOLDER; String "034" ""]) query in
  replace_all BEARER_PATTERN (fun _ => BEARER_REDACTED) res.

(** The value a sensitive key is left with. @interceptors/sanitizer.rs:125-132 Sanitizer::sanitize_value_depth *)
Definition redact (v : json) : json :=
  match v with
  | JString s => if starts_bearer s then JString BEARER_REDACTED else JString REDACTED_PLACEHOLDER
  | _ => JString REDACTED_PLACEHOLDER
  end.

Definition is_bearer (v : json) : bool :=
  match v with JString s => starts_bearer s | _ => false end.

(** [Sanitizer::sanitize_value_depth] @interceptors/sanitizer.rs:{fn sanitize_value_depth} Sanitizer::sanitize_value_depth *)
Fixpoint sanitize_value_depth (depth : nat) (value : json) {struct value} : json :=
  if 64 <? depth then value
  else match value with
  | JObject m =>
      JObject (map (fun kv =>
        let '(k, v) := kv in
        (k, if is_sensitive_key k then redact v
            else if String.eqb (to_lowercase k) "query" then
              match v with JString q => JString (sanitize_gql_query_str q) | _ => v end
            else sanitize_value_depth (S depth) v)) m)
  | JArray arr => JArray (map (sanitize_value_depth (S depth)) arr)
  | JString s => if starts_bearer s then JString BEARER_REDACTED else JString s
  | _ => value
  end.

(** [Sanitizer::sanitize_value] @interceptors/sanitizer.rs:{fn sanitize_value} Sanitizer::sanitize_value *)
Definition sanitize_value (value : json) : json := sanitize_value_depth 0 value.

(** [Sanitizer::sanitize_json_str] @interceptors/sanitizer.rs:{fn sanitize_json_str} Sanitizer::sanitize_json_str *)
Definition sanitize_json_str (raw : string) : string :=
  match json_from_str raw with
  | Some val => json_to_string (sanitize_value val)
  | None => sanitize_gql_query_str raw
  end.
End Keys.

(** [Sanitizer::default_sanitizer] @interceptors/sanitizer.rs:{fn default_sanitizer} Sanitizer::default_sanitizer *)
Definition default_sanitizer `{Unicode} : list string := sanitizer_new None.

(** ** Properties: which keys are sensitive *)

Section Properties.
Context `{Unicode}.
Variable sensitive_keys : list string.
Local Abbreviation sensitive := (is_sensitive_key sensitive_keys).

(** The reference definition: the whole key, or some run of at most four of its
    tokens, spells a sensitive key. *)
Definition spells (key : string) : Prop :=
  exists k, k ∈ sensitive_keys /\
    (norm (to_lowercase key) = norm k \/
     exists pre run post, split_key_tokens key = pre ++ run ++ post /\
       1 <= length run <= 4 /\ str_concat run = norm k).

Lemma matches_any_spec s :
  matches_any sensitive_keys s = true <-> exists k, k ∈ sensitive_keys /\ s = norm k.
Proof.
  unfold matches_any. rewrite existsb_exists.
  split; intros (k & Hk & Heq); exists k; rewrite ?list_elem_of_In in *.
  - by apply String.eqb_eq in Heq.
  - split; [done|]. by apply String.eqb_eq.
Qed.

Lemma windows_spec tokens i j :
  (i, j) ∈ windows tokens <->
  i < j /\ j <= length tokens /\ j <= i + 4.
Proof.
  unfold windows. rewrite list_elem_of_bind. split.
  - intros (i' & Hin & Hi'). rewrite list_elem_of_bind in Hin.
    destruct Hin as (j' & Hin & Hj'). apply list_elem_of_singleton in Hin as [= -> ->].
    rewrite elem_of_seq in Hi', Hj'. lia.
  - intros (Hij & Hj & Hw). exists i. rewrite list_elem_of_bind, elem_of_seq. split; [|lia].
    exists j. rewrite elem_of_seq. split; [by left|lia].
Qed.

Lemma slice_split tokens i j :
  i < j -> j <= length tokens ->
  tokens = take i tokens ++ slice tokens (i, j) ++ drop j tokens /\
  length (slice tokens (i, j)) = j - i.
Proof.
  intros Hij Hj. unfold slice. cbn [fst snd]. split.
  - rewrite <- (take_drop i tokens) at 1. f_equal.
    rewrite <- (take_drop (j - i) (drop i tokens)) at 1. f_equal.
    rewrite drop_drop. f_equal. lia.
  - rewrite length_take, length_drop. lia.
Qed.

Lemma slice_app (pre run post : list string) :
  slice (pre ++ run ++ post) (length pre, length pre + length run) = run.
Proof.
  unfold slice. cbn [fst snd]. rewrite drop_app_length.
  replace (length pre + length run - length pre) with (length run) by lia.
  apply take_app_length.
Qed.

Lemma str_concat_single (s : string) : str_concat [s] = s.
Proof. done. Qed.

(** The three passes decide the reference definition: a key is sensitive exactly
    when, ignoring case, dashes and underscores, it spells a sensitive key, or
    some run of one to four consecutive tokens of it does. *)
Theorem is_sensitive_key_spec key : sensitive key = true <-> spells key.
Proof.
  unfold is_sensitive_key, spells.
  destruct (matches_any sensitive_keys (norm (to_lowercase key))) eqn:E1.
  { split; [|done]. intros _. apply matches_any_spec in E1 as (k & ? & ?). eauto. }
  assert (Hno : forall k, k ∈ sensitive_keys -> norm (to_lowercase key) <> norm k).
  { intros k Hk Heq. assert (matches_any sensitive_keys (norm (to_lowercase key)) = true);
      [|congruence]. apply matches_any_spec. eauto. }
  set (tokens := split_key_tokens key).
  assert (Hrun : forall run k, k ∈ sensitive_keys -> str_concat run = norm k ->
            matches_any sensitive_keys (str_concat run) = true)
    by (intros run k ? ?; apply matches_any_spec; eauto).
  split.
  - destruct (existsb (matches_any sensitive_keys) tokens) eqn:E2; intros E3.
    + apply existsb_exists in E2 as (t & Ht & Hm). rewrite <- list_elem_of_In in Ht.
      apply matches_any_spec in Hm as (k & Hk & Heq). exists k. split; [done|]. right.
      apply list_elem_of_split in Ht as (pre & post & Htok).
      exists pre, [t], post. split_and!; [done|cbn; lia|cbn; lia|done].
    + apply existsb_exists in E3 as ([i j] & Hij & Hm). rewrite <- list_elem_of_In in Hij.
      apply windows_spec in Hij as (Hij & Hj & Hw).
      apply matches_any_spec in Hm as (k & Hk & Heq). exists k. split; [done|]. right.
      destruct (slice_split tokens i j Hij Hj) as [Htok Hlen].
      exists (take i tokens), (slice tokens (i, j)), (drop j tokens).
      split_and!; [done|lia|lia|done].
  - intros (k & Hk & [Heq|(pre & run & post & Htok & Hlen & Heq)]); [by destruct (Hno k Hk)|].
    case_match; [done|]. apply existsb_exists.
    exists (length pre, length pre + length run). rewrite <- list_elem_of_In, windows_spec.
    split.
    + fold tokens in Htok. rewrite Htok, !length_app. lia.
    + fold tokens in Htok. rewrite Htok, slice_app. by eapply Hrun.
Qed.

(** ** Properties: what redaction hides *)

Context `{RegexLib, JsonText}.

(** Two values that an observer may not tell apart: they differ only below
    sensitive keys and in the rest of bearer strings, down to the depth limit. *)
Inductive low_eq (depth : nat) : json -> json -> Prop :=
| low_refl j : low_eq depth j j
| low_bearer s1 s2 :
    depth <= 64 -> starts_bearer s1 = true -> starts_bearer s2 = true ->
    low_eq depth (JString s1) (JString s2)
| low_array l1 l2 :
    depth <= 64 -> Forall2 (low_eq (S depth)) l1 l2 ->
    low_eq depth (JArray l1) (JArray l2)
| low_object l1 l2 :
    depth <= 64 -> Forall2 (low_entry depth) l1 l2 ->
    low_eq depth (JObject l1) (JObject l2)
with low_entry (depth : nat) : string * json -> string * json -> Prop :=
| low_sensitive k v1 v2 :
    sensitive k = true -> is_bearer v1 = is_bearer v2 -> low_entry depth (k, v1) (k, v2)
| low_query k v : to_lowercase k = "query" -> low_entry depth (k, v) (k, v)
| low_plain k v1 v2 :
    to_lowercase k <> "query" -> low_eq (S depth) v1 v2 -> low_entry depth (k, v1) (k, v2).

Lemma redact_bearer v1 v2 : is_bearer v1 = is_bearer v2 -> redact v1 = redact v2.
Proof. destruct v1, v2; cbn [redact is_bearer]; intros Hb; rewrite ?Hb, <- ?Hb; done. Qed.

Lemma low_eq_bearer depth v1 v2 : low_eq depth v1 v2 -> is_bearer v1 = is_bearer v2.
Proof. destruct 1; cbn [is_bearer]; congruence. Qed.

Lemma sanitize_low_eq j1 depth j2 :
  low_eq depth j1 j2 ->
  sanitize_value_depth sensitive_keys depth j1 = sanitize_value_depth sensitive_keys depth j2.
Proof.
  revert depth j2. induction j1 as [|b|n|s|l IH|l IH] using json_ind';
    intros depth j2 Hlow; inversion Hlow as [|s1 s2 Hd Hb1 Hb2|l1 l2 Hd Hall|l1 l2 Hd Hall];
    subst; try done; cbn [sanitize_value_depth];
    assert ((64 <? depth) = false) as -> by (by apply Nat.ltb_ge).
  - by rewrite Hb1, Hb2.
  - f_equal. clear Hlow. induction Hall as [|x y l1 l2 Hxy Hall IHall]; cbn; [done|].
    apply Forall_cons in IH as [Hx IH]. by rewrite (Hx _ _ Hxy), IHall.
  - f_equal. clear Hlow. induction Hall as [|x y l1 l2 Hxy Hall IHall]; cbn; [done|].
    apply Forall_cons in IH as [Hx IH]. rewrite IHall by done. f_equal.
    destruct Hxy as [k v1 v2 Hs Hb|k v Hq|k v1 v2 Hq Hv].
    + by rewrite Hs, (redact_bearer v1 v2).
    + done.
    + apply String.eqb_neq in Hq. rewrite Hq, (redact_bearer v1 v2) by by eapply low_eq_bearer.
      cbn [snd] in Hx. by rewrite (Hx _ _ Hv).
Qed.

(** C31. Non-interference, for what redaction looks at: two JSON payloads are
    redacted to the same value, so nothing downstream can depend on where they
    differ, if they differ only in the values of fields with sensitive keys
    (both of the two values or neither a bearer string, which is marked as
    such) and in what follows the prefix of bearer strings, no deeper than
    64 levels. Where redaction does not look they have to be equal: below 64
    levels, and under a key spelling "query", whose text is only searched by
    the query's own patterns and whose objects and arrays are not searched at
    all ([deep_secret_not_redacted], [query_object_not_redacted]). *)
Theorem sanitize_noninterference j1 j2 :
  low_eq 0 j1 j2 -> sanitize_value sensitive_keys j1 = sanitize_value sensitive_keys j2.
Proof. apply sanitize_low_eq. Qed.

(** A value with nothing to hide. *)
Fixpoint plain (j : json) : bool :=
  match j with
  | JString s => negb (starts_bearer s)
  | JArray l => forallb plain l
  | JObject l =>
      forallb (fun kv => negb (sensitive (fst kv)) &&
                         negb (String.eqb (to_lowercase (fst kv)) "query") &&
                         plain (snd kv)) l
  | _ => true
  end.

Lemma sanitize_plain_depth j depth :
  plain j = true -> sanitize_value_depth sensitive_keys depth j = j.
Proof.
  revert depth. induction j as [|b|n|s|l IH|l IH] using json_ind'; intros depth Hp;
    cbn [sanitize_value_depth]; destruct (64 <? depth); try done; cbn [plain] in Hp.
  - by apply negb_true_iff in Hp as ->.
  - f_equal. induction IH as [|x l Hx _ IHl]; cbn [map forallb] in *; [done|].
    apply andb_true_iff in Hp as [Hpx Hp]. by rewrite Hx, IHl.
  - f_equal. induction IH as [|[k v] l Hx _ IHl]; cbn [map forallb fst snd] in *; [done|].
    to_prop. destruct Hp as [[[Hs Hq] Hpx] Hp]. rewrite IHl by done.
    apply String.eqb_neq in Hq. by rewrite Hs, Hq, Hx.
Qed.

(** Redaction leaves a payload with nothing to hide untouched. *)
Theorem sanitize_transparent j :
  plain j = true -> sanitize_value sensitive_keys j = j.
Proof. apply sanitize_plain_depth. Qed.

(** The object under a key spelling "query" is not searched: its sensitive fields
    stay, whatever they hold. *)
Theorem query_object_not_redacted k v rest :
  to_lowercase k = "query" -> sensitive k = false -> (forall s, v <> JString s) ->
  j_get k (sanitize_value sensitive_keys (JObject ((k, v) :: rest))) = Some v.
Proof.
  intros Hk Hs Hv. cbn. rewrite Hs, Hk. cbn. rewrite String.eqb_refl.
  destruct v; try done. by destruct (Hv s).
Qed.
End Properties.

(** A secret 65 levels down is not redacted. *)
Fixpoint nest (n : nat) (j : json) : json :=
  match n with O => j | S n' => JObject [("nested", nest n' j)] end.
Theorem deep_secret_not_redacted `{Unicode, RegexLib, JsonText} keys n secret :
  64 < n -> is_sensitive_key keys "nested" = false ->
  sanitize_value keys (nest n (JObject [("password", secret)])) =
  nest n (JObject [("password", secret)]).
Proof.
  intros Hn Hkey. unfold sanitize_value.
  enough (forall m d, 64 < d + m ->
    sanitize_value_depth keys d (nest m (JObject [("password", secret)])) =
    nest m (JObject [("password", secret)])) by auto with lia.
  induction m as [|m IH]; intros d Hd; cbn [nest sanitize_value_depth].
  - by rewrite (proj2 (Nat.ltb_lt _ _)) by lia.
  - case_match; [done|]. cbn. rewrite Hkey.
    rewrite to_lowercase_ascii by reflexivity. cbn. rewrite IH by lia. done.
Qed.

(** ** Examples on the ASCII tables *)

#[local] Existing Instances ascii_tables no_match_regex bits_json_text.
Local Abbreviation default_keys := (sanitizer_new None).

Example tokens_camel : split_key_tokens "userAccessToken" = ["user"; "access"; "token"].
Proof. reflexivity. Qed.
Example sensitive_examples :
  map (is_sensitive_key default_keys)
    ["user_password"; "accessToken"; "adminPin"; "creditCard"; "Credit-Card"; "username"; "pinned"] =
  [true; true; true; true; true; false; false].
Proof. vm_compute. reflexivity. Qed.

Lemma sanitize_noninterference_witness :
  sanitize_value default_keys
    (JObject [("token", JString "jwt_a"); ("user", JObject [("password", JString "one")])]) =
  sanitize_value default_keys
    (JObject [("token", JString "jwt_b"); ("user", JObject [("password", JNumber (PosInt 2))])]).
Proof.
  apply sanitize_noninterference. apply low_object; [lia|].
  constructor; [by apply low_sensitive; vm_compute|].
  constructor; [|constructor]. apply low_plain; [done|].
  apply low_object; [lia|]. constructor; [by apply low_sensitive; vm_compute|constructor].
Defined.

Lemma sanitize_transparent_witness :
  sanitize_value default_keys (JObject [("username", JString "alice")]) =
  JObject [("username", JString "alice")].
Proof. apply sanitize_transparent. vm_compute. reflexivity. Defined.

Lemma query_object_not_redacted_witness :
  j_get "query" (sanitize_value default_keys
    (JObject [("query", JObject [("password", JString "hunter2")])])) =
  Some (JObject [("password", JString "hunter2")]).
Proof. apply query_object_not_redacted; [reflexivity|vm_compute; reflexivity|done]. Defined.

Lemma deep_secret_not_redacted_witness :
  sanitize_value default_keys (nest 65 (JObject [("password", JString "hunter2")])) =
  nest 65 (JObject [("password", JString "hunter2")]).
Proof. apply deep_secret_not_redacted; [lia|vm_compute; reflexivity]. Defined.
