(* ===== verification/Protocol.v ===== *)
(** * Protocol: GraphQL and HTTP requests, [src/protocol].

    Operation selection over the syntax tree of [apollo-parser] (a parameter), the
    request body and its decoding, error envelopes, response bodies, the
    request record and its redaction, and the typestate that keeps unredacted
    requests out of events. *)

From S2P Require Import Prelude Externals Clock Sanitizer.
Local Open Scope string_scope.

(** ** Operations *)

(** [GraphQLOperationType] @protocol/gql_request.rs:{enum GraphQLOperationType} GraphQLOperationType *)
Inductive GraphQLOperationType := Query | Mutation | Subscription | Unknown.
#[export] Instance GraphQLOperationType_eq_dec : EqDecision GraphQLOperationType.
Proof. solve_decision. Defined.

(** [Display] and [FromStr] of [strum]. @protocol/gql_request.rs:39-51 GraphQLOperationType::fmt *)
Definition op_type_to_string (t : GraphQLOperationType) : string :=
  match t with
  | Query => "Query" | Mutation => "Mutation"
  | Subscription => "Subscription" | Unknown => "Unknown"
  end.
(** @protocol/gql_request.rs:39-51 GraphQLOperationType::from_str *)
Definition op_type_of_str (s : string) : option GraphQLOperationType :=
  if eq_ignore_ascii_case s "Query" then Some Query
  else if eq_ignore_ascii_case s "Mutation" then Some Mutation
  else if eq_ignore_ascii_case s "Subscription" then Some Subscription
  else if eq_ignore_ascii_case s "Unknown" then Some Unknown
  else None.

(** The part of [apollo-parser]'s tree the program reads.  An operation type node
    says which of its three tokens are present. *)
Record cst_op_type := CstOpType {
  query_token : bool; mutation_token : bool; subscription_token : bool }.
Inductive cst_value :=
| VarValue (name : option string)
| StringValue (source : string)
| IntValue (source : string)
| EnumValue (name : option string)
| OtherValue.
Inductive cst_selection :=
| SelField (alias : option string) (name : option string) (arguments : list (option string * option cst_value))
| SelFragmentSpread (name : option string)
| SelInlineFragment.
Record cst_operation := CstOperation {
  cst_type : option cst_op_type;
  cst_name : option string;
  cst_selections : option (list cst_selection) }.
Inductive cst_definition :=
| OperationDefinition (op : cst_operation)
| OtherDefinition.

(** [apollo_parser::Parser::new(text).parse()]: the messages of the syntax errors
    and the definitions of the document. *)
Class GqlParser := { gql_parse : string -> list string * list cst_definition }.

(** [ParsedGraphQLOperation] @protocol/parser.rs:{struct ParsedGraphQLOperation} ParsedGraphQLOperation *)
Record ParsedGraphQLOperation := Parsed {
  p_operation_type : GraphQLOperationType;
  p_operation_name : option string;
  p_root_fields : list string
}.
#[export] Instance ParsedGraphQLOperation_eq_dec : EqDecision ParsedGraphQLOperation.
Proof. solve_decision. Defined.

(** The two methods [matches_operation]. @protocol/parser.rs:16-23 ParsedGraphQLOperation::matches_operation *)
Definition matches_name (operation_name : option string) (root_fields : list string)
    (target : string) : bool :=
  match operation_name with
  | Some name => eq_ignore_ascii_case name target
  | None => false
  end || existsb (fun f => eq_ignore_ascii_case f target) root_fields.

(** One operation of the document. @protocol/parser.rs:49-81 parse_graphql_operation_with_name *)
Definition parsed_of (op : cst_operation) : ParsedGraphQLOperation :=
  let operation_type :=
    match cst_type op with
    | Some op_type =>
        if query_token op_type then Query
        else if mutation_token op_type then Mutation
        else if subscription_token op_type then Subscription
        else Unknown
    | None => Query
    end in
  let root_fields :=
    match cst_selections op with
    | Some selections =>
        omap (fun sel => match sel with SelField _ name _ => name | _ => None end) selections
    | None => []
    end in
  Parsed operation_type (cst_name op) root_fields.

(** The loop over the definitions, with its two variables and its [break]s. @protocol/parser.rs:44-99 parse_graphql_operation_with_name *)
Fixpoint select_loop (target : option string) (defs : list cst_definition)
    (first_op : option ParsedGraphQLOperation) :
    option ParsedGraphQLOperation * option ParsedGraphQLOperation :=
  match defs with
  | [] => (None, first_op)
  | OtherDefinition :: defs' => select_loop target defs' first_op
  | OperationDefinition op :: defs' =>
      let parsed := parsed_of op in
      let go_on :=
        select_loop target defs' (match first_op with None => Some parsed | f => f end) in
      match target with
      | Some t =>
          match cst_name op with
          | Some name => if eq_ignore_ascii_case name t then (Some parsed, first_op) else go_on
          | None => go_on
          end
      | None => match first_op with None => (None, Some parsed) | Some _ => go_on end
      end
  end.

Section Parser.
Context `{GqlParser}.

(** [parse_graphql_operation_with_name] @protocol/parser.rs:{fn parse_graphql_operation_with_name} parse_graphql_operation_with_name *)
Definition parse_graphql_operation_with_name (query_str : string) (target_op_name : option string) :
    result string ParsedGraphQLOperation :=
  let '(errors, defs) := gql_parse query_str in
  match errors with
  | _ :: _ => Err (String.append "GraphQL syntax error: " (str_join "; " errors))
  | [] =>
      let '(matching_op, first_op) := select_loop target_op_name defs None in
      match matching_op with
      | Some op => Ok op
      | None =>
          match target_op_name with
          | Some target =>
              Err (str_concat ["Operation '"; target; "' not found in GraphQL document"])
          | None => ok_or "No operation definition found in GraphQL query" first_op
          end
      end
  end.

(** [parse_graphql_operation] @protocol/parser.rs:{fn parse_graphql_operation} parse_graphql_operation *)
Definition parse_graphql_operation (query_str : string) : result string ParsedGraphQLOperation :=
  parse_graphql_operation_with_name query_str None.
End Parser.

(** ** Request bodies *)

(** [GraphQLRequestBody] @protocol/gql_request.rs:{struct GraphQLRequestBody} GraphQLRequestBody *)
Record GraphQLRequestBody := RequestBody {
  query : string;
  b_operation_name : option string;
  variables : option json;
  extensions : option json
}.

(** [GraphQLRequestInfo] @protocol/gql_request.rs:{struct GraphQLRequestInfo} GraphQLRequestInfo *)
Record GraphQLRequestInfo := GqlInfo {
  operation_type : GraphQLOperationType;
  operation_name : option string;
  root_fields : list string;
  raw_body : option string;
  json_body : json;
  parsed_body : option GraphQLRequestBody
}.

(** The body read from a JSON value. @protocol/gql_request.rs:93-102 GraphQLRequestInfo::set_request_json *)
Definition body_of_json (val : json) : GraphQLRequestBody :=
  RequestBody (default "" (j_str_field "query" val)) (j_str_field "operationName" val)
    (j_get "variables" val) (j_get "extensions" val).

Section Requests.
Context `{Unicode, RegexLib, JsonText}.

(** [set_request_json]: text that is not JSON only sets the raw body. @protocol/gql_request.rs:{fn set_request_json} GraphQLRequestInfo::set_request_json *)
Definition set_request_json (request_json : string) (g : GraphQLRequestInfo) : GraphQLRequestInfo :=
  match json_from_str request_json with
  | Some val =>
      GqlInfo (operation_type g) (operation_name g) (root_fields g) (Some request_json) val
        (Some (body_of_json val))
  | None =>
      GqlInfo (operation_type g) (operation_name g) (root_fields g) (Some request_json)
        (json_body g) (parsed_body g)
  end.

(** [GraphQLRequestInfo::new] @protocol/gql_request.rs:66-79 GraphQLRequestInfo::new *)
Definition gql_info_new (request_json : string) : GraphQLRequestInfo :=
  set_request_json request_json (GqlInfo Unknown None [] None JNull None).

(** @protocol/gql_request.rs:{fn matches_operation} GraphQLRequestInfo::matches_operation *)
Definition matches_operation (g : GraphQLRequestInfo) (target : string) : bool :=
  matches_name (operation_name g) (root_fields g) target.

(** [gql_request_body] @protocol/gql_request.rs:{fn gql_request_body} GraphQLRequestInfo::gql_request_body *)
Definition gql_request_body (g : GraphQLRequestInfo) : result string GraphQLRequestBody :=
  ok_or "Request body has not been set or is invalid JSON." (parsed_body g).

(** [GraphQLRequestInfo::sanitize] @protocol/gql_request.rs:{fn sanitize} GraphQLRequestInfo::sanitize *)
Definition gql_info_sanitize (keys : list string) (g : GraphQLRequestInfo) : GraphQLRequestInfo :=
  GqlInfo (operation_type g) (operation_name g) (root_fields g)
    (sanitize_json_str keys <$> raw_body g)
    (if is_null (json_body g) then json_body g else sanitize_value keys (json_body g))
    ((fun b => RequestBody (query b) (b_operation_name b)
                 (sanitize_value keys <$> variables b) (extensions b)) <$> parsed_body g).
End Requests.

(** ** Request and response records *)

Section Info.
Context `{HttpLib, Unicode, RegexLib, JsonText, GqlParser}.

(** [HttpRequestInfo], which keeps every part of [http::request::Parts] but the
    extensions. @protocol/http_request.rs:{struct HttpRequestInfo} HttpRequestInfo *)
Record HttpRequestInfo := HttpInfo {
  method : string;
  uri : string;
  version : string;
  headers : HeaderMap
}.

(** [PayloadType] @protocol/mod.rs:{enum PayloadType} PayloadType *)
Inductive PayloadType := PRequest | PResponse.

(** [RequestInfo] @protocol/request_info.rs:{struct RequestInfo} RequestInfo *)
Record RequestInfo := ReqInfo {
  request_id : string;
  hlc : HlcTimestamp;
  http : HttpRequestInfo;
  gql : option GraphQLRequestInfo;
  raw_request_body : option string;
  payload_type : PayloadType;
  info_version : Z
}.

(** [RequestInfo::new] @protocol/request_info.rs:25-39 RequestInfo::new *)
Definition request_info_new (id : string) (h : HlcTimestamp) (parts : HttpRequestInfo) : RequestInfo :=
  ReqInfo id h parts None None PRequest 1.

(** One header of [sanitize]. @protocol/request_info.rs:46-60 RequestInfo::sanitize *)
Definition sanitize_header (keys : list string) (acc : HeaderMap) (kv : string * HeaderValue) : HeaderMap :=
  let '(k, v) := kv in
  if is_sensitive_key keys k then
    match hv_to_str v with
    | Some s =>
        if starts_bearer s then hm_insert k (hv_from_static "Bearer [REDACTED]") acc
        else hm_insert k (hv_from_static "[REDACTED]") acc
    | None => hm_insert k (hv_from_static "[REDACTED]") acc
    end
  else hm_insert k v acc.
Definition sanitize_headers (keys : list string) (h : HeaderMap) : HeaderMap :=
  fold_left (sanitize_header keys) (hm_entries h) hm_new.

(** [RequestInfo::sanitize] @protocol/request_info.rs:{fn sanitize} RequestInfo::sanitize *)
Definition request_info_sanitize (r : RequestInfo) : RequestInfo :=
  let sanitizer := default_sanitizer in
  ReqInfo (request_id r) (hlc r)
    (HttpInfo (method (http r)) (uri (http r)) (version (http r))
       (sanitize_headers sanitizer (headers (http r))))
    (gql_info_sanitize sanitizer <$> gql r)
    ((fun body => if utf8_valid body then sanitize_json_str sanitizer body else body)
       <$> raw_request_body r)
    (payload_type r) (info_version r).

(** [Display] of a request. @protocol/request_info.rs:83-96 RequestInfo::fmt *)
Definition request_info_display (r : RequestInfo) : string :=
  match gql r with
  | Some g =>
      let op_type := to_lowercase (op_type_to_string (operation_type g)) in
      match operation_name g with
      | Some name => str_concat [op_type; "."; to_lowercase name]
      | None => String.append op_type ".anonymous"
      end
  | None => String.append "HTTP " (method (http r))
  end.

(** [ResponseBody]: [json] is the text of a [RawValue]. @protocol/response_body.rs:{struct ResponseBody} ResponseBody *)
Record ResponseBody := RespBody { rb_json : string; rb_text : option string }.

(** [ResponseBody::new] @protocol/response_body.rs:{fn new} ResponseBody::new *)
Definition response_body_new (http_headers : HeaderMap) (raw_body : string) : ResponseBody :=
  let content_type := default "" (header_str "content-type" http_headers) in
  let is_json_candidate :=
    str_contains "json" content_type || starts_with "{" (trim raw_body) ||
    starts_with "[" (trim raw_body) in
  if is_json_candidate then
    match json_from_str raw_body with
    | Some val => RespBody (json_to_string val) None
    | None => RespBody "null" (Some raw_body)
    end
  else RespBody "null" (Some raw_body).

(** [ResponseInfo] @protocol/response_info.rs:{struct ResponseInfo} ResponseInfo *)
Record ResponseInfo := RespInfo {
  r_request_id : string;
  r_hlc : HlcTimestamp;
  http_response_headers : HeaderMap;
  response_body : ResponseBody;
  r_payload_type : PayloadType;
  r_version : Z
}.
(** @protocol/response_info.rs:{fn new} ResponseInfo::new *)
Definition response_info_new (id : string) (h : HlcTimestamp) (body : ResponseBody)
    (hs : HeaderMap) : ResponseInfo :=
  RespInfo id h hs body PResponse 1.

(** ** Decoders *)

(** [GraphQLDecoder::try_new], the list of operation types to dispatch. @protocol/decoder.rs:{fn try_new} GraphQLDecoder::try_new *)
Fixpoint ops_of_list (l : list string) : result string (list GraphQLOperationType) :=
  match l with
  | [] => Ok []
  | s :: l' =>
      let trimmed := trim s in
      if String.eqb trimmed "" then ops_of_list l'
      else match op_type_of_str trimmed with
           | Some op =>
               ops ← ops_of_list l';
               Ok (if bool_decide (op ∈ ops) then ops else op :: ops)
           | None => Err (str_concat ["Invalid GraphQL operation type '"; trimmed;
                                      "': Matching variant not found"])
           end
  end.
Definition decoder_try_new (ops_to_dispatch : string) : result string (list GraphQLOperationType) :=
  ops_of_list (split_on "," ops_to_dispatch).
(** [GraphQLDecoder::new] @protocol/decoder.rs:{fn new} GraphQLDecoder::new *)
Definition decoder_new (ops_to_dispatch : string) : list GraphQLOperationType :=
  match decoder_try_new ops_to_dispatch with Ok ops => ops | Err _ => [Mutation] end.

(** [ProtocolDecoder] @protocol/decoder.rs:{enum ProtocolDecoder} ProtocolDecoder *)
Inductive ProtocolDecoder :=
| GraphQLDecoder (ops_to_dispatch : list GraphQLOperationType)
| HttpDecoder.

(** [GraphQLDecoder::decode_request] @protocol/decoder.rs:51-72 GraphQLDecoder::decode_request *)
Definition decode_gql (id : string) (h : HlcTimestamp) (parts : HttpRequestInfo)
    (body : string) : result string RequestInfo :=
  let gql_request_info := gql_info_new body in
  gql_request_body ← gql_request_body gql_request_info;
  parsed_op ← parse_graphql_operation_with_name (query gql_request_body)
                (b_operation_name gql_request_body);
  Ok (ReqInfo id h parts
        (Some (GqlInfo (p_operation_type parsed_op) (p_operation_name parsed_op)
                 (p_root_fields parsed_op) (raw_body gql_request_info)
                 (json_body gql_request_info) (parsed_body gql_request_info)))
        None PRequest 1).

(** [ProtocolDecoder::decode_request] @protocol/decoder.rs:84-101 ProtocolDecoder::decode_request *)
Definition decode_request (d : ProtocolDecoder) (id : string) (h : HlcTimestamp)
    (parts : HttpRequestInfo) (body : string) : result string RequestInfo :=
  match d with
  | GraphQLDecoder _ => decode_gql id h parts body
  | HttpDecoder => Ok (request_info_new id h parts)
  end.
End Info.

(** ** Error envelopes *)

(** [GraphQLError] @protocol/error.rs:3-20 GraphQLError *)
Record GraphQLError := GqlError {
  e_message : string;
  e_locations : option (list (Z * Z));
  e_path : option (list string);
  e_extensions : option (list (string * json))
}.
(** [GraphQLErrorResponse] @protocol/error.rs:{struct GraphQLErrorResponse} GraphQLErrorResponse *)
Record GraphQLErrorResponse := GqlErrorResponse {
  er_errors : list GraphQLError;
  er_data : option json
}.

(** @protocol/error.rs:{fn new} GraphQLError::new *)
Definition error_new (message : string) : GraphQLError := GqlError message None None None.
(** @protocol/error.rs:{fn with_extension} GraphQLError::with_extension *)
Definition with_extension (key : string) (value : json) (e : GraphQLError) : GraphQLError :=
  GqlError (e_message e) (e_locations e) (e_path e)
    (Some (obj_insert key value (default [] (e_extensions e)))).
(** @protocol/error.rs:{fn with_code} GraphQLError::with_code *)
Definition with_code (code : string) (e : GraphQLError) : GraphQLError :=
  with_extension "code" (JString code) e.
(** @protocol/error.rs:{fn single} GraphQLErrorResponse::single *)
Definition error_single (e : GraphQLError) : GraphQLErrorResponse := GqlErrorResponse [e] None.
(** @protocol/error.rs:{fn error} GraphQLErrorResponse::error *)
Definition error_response (code message : string) : GraphQLErrorResponse :=
  error_single (with_code code (error_new message)).
(** [GraphQLErrorResponse::conflict] @protocol/error.rs:{fn conflict} GraphQLErrorResponse::conflict *)
Definition error_conflict (key : option string) (conflict_hlc : HlcTimestamp) : GraphQLErrorResponse :=
  let msg :=
    match key with
    | Some k => str_concat ["A mutation with idempotency key '"; k; "' is currently in flight"]
    | None => "A mutation with idempotency key is currently in flight"
    end in
  error_single (with_extension "hlc" (JString (to_compact_string conflict_hlc))
    (with_code "CONFLICT" (error_new msg))).

(** The serialised fields, absent options left out. @protocol/error.rs:10-29 GraphQLErrorResponse::serialize *)
Definition error_to_json (e : GraphQLError) : json :=
  JObject (obj_of
    ([("message", JString (e_message e))] ++
     match e_locations e with
     | Some ls => [("locations", JArray (map (fun l =>
         JObject (obj_of [("line", JNumber (PosInt (fst l)));
                          ("column", JNumber (PosInt (snd l)))])) ls))]
     | None => []
     end ++
     match e_path e with Some p => [("path", JArray (map JString p))] | None => [] end ++
     match e_extensions e with Some x => [("extensions", JObject x)] | None => [] end)).
(** [GraphQLErrorResponse::to_json_string] @protocol/error.rs:{fn to_json_string} GraphQLErrorResponse::to_json_string *)
Definition error_response_json (r : GraphQLErrorResponse) : json :=
  JObject (obj_of
    ([("errors", JArray (map error_to_json (er_errors r)))] ++
     match er_data r with Some d => [("data", d)] | None => [] end)).
Definition error_to_json_string `{JsonText} (r : GraphQLErrorResponse) : string :=
  json_to_string (error_response_json r).

(** ** Typestate *)

(** Phantom states. @protocol/typestate.rs:7-13 Raw, Sanitized *)
Inductive payload_state := Raw | Sanitized.

(** [GuardedPayload]; the state is a type index, as in the source. @protocol/typestate.rs:15-28 GuardedPayload *)
Record GuardedPayload (T : Type) (state : payload_state) := Guarded { payload : T }.
Arguments Guarded {T state} _.
Arguments payload {T state} _.
Definition RawPayload (T : Type) : Type := GuardedPayload T Raw.
Definition SanitizedPayload (T : Type) : Type := GuardedPayload T Sanitized.

(** @protocol/typestate.rs:31-47 GuardedPayload::new, GuardedPayload::into_inner *)
Definition raw_new {T} (p : T) : RawPayload T := Guarded p.
(** @protocol/typestate.rs:58-65 GuardedPayload::new_unchecked *)
Definition new_unchecked {T} (p : T) : SanitizedPayload T := Guarded p.
(** @protocol/typestate.rs:{fn sanitize_with} GuardedPayload::sanitize_with *)
Definition sanitize_with {T} (f : T -> T) (p : RawPayload T) : SanitizedPayload T :=
  new_unchecked (f (payload p)).
(** The conversion every unredacted request goes through. @protocol/typestate.rs:108-127 SanitizedPayload::from *)
Definition sanitized_of_request `{HttpLib, Unicode, RegexLib, JsonText} (r : RequestInfo) :
    SanitizedPayload RequestInfo :=
  new_unchecked (request_info_sanitize r).
(** @protocol/typestate.rs:{fn sanitize} RawPayload::sanitize *)
Definition raw_sanitize `{HttpLib, Unicode, RegexLib, JsonText} (r : RawPayload RequestInfo) :
    SanitizedPayload RequestInfo :=
  sanitized_of_request (payload r).

(** ** Properties: operation selection *)

(** The operations of a document, and the one a request selects. *)
Definition operations (defs : list cst_definition) : list cst_operation :=
  omap (fun d => match d with OperationDefinition op => Some op | OtherDefinition => None end) defs.
Definition named (target : string) (op : cst_operation) : bool :=
  match cst_name op with Some name => eq_ignore_ascii_case name target | None => false end.
Definition spec_select (defs : list cst_definition) (target : option string) : option cst_operation :=
  match target with
  | Some t => List.find (named t) (operations defs)
  | None => head (operations defs)
  end.

Lemma select_loop_target t defs first_op :
  fst (select_loop (Some t) defs first_op) =
  parsed_of <$> List.find (named t) (operations defs).
Proof.
  revert first_op. induction defs as [|[op|] defs IH]; intros first_op; cbn; [done| |apply IH].
  unfold operations, named in *. cbn.
  destruct (cst_name op) as [name|]; [|apply IH].
  destruct (eq_ignore_ascii_case name t); [done|apply IH].
Qed.

Lemma select_loop_first defs :
  select_loop None defs None = (None, parsed_of <$> head (operations defs)).
Proof. induction defs as [|[op|] defs IH]; [reflexivity|reflexivity|exact IH]. Qed.

(** C32. Operation selection: a document with syntax errors is refused; with a requested
    name the first operation of that name (ignoring case) is selected, and there
    must be one; without, the first operation of the document. *)
Theorem parse_operation_spec `{GqlParser} query_str target :
  parse_graphql_operation_with_name query_str target =
  match fst (gql_parse query_str) with
  | (_ :: _) as errors => Err (String.append "GraphQL syntax error: " (str_join "; " errors))
  | [] =>
      match spec_select (snd (gql_parse query_str)) target, target with
      | Some op, _ => Ok (parsed_of op)
      | None, Some t => Err (str_concat ["Operation '"; t; "' not found in GraphQL document"])
      | None, None => Err "No operation definition found in GraphQL query"
      end
  end.
Proof.
  unfold parse_graphql_operation_with_name. destruct (gql_parse query_str) as [errors defs].
  cbn [fst snd]. destruct errors; [|done]. destruct target as [t|]; cbn [spec_select].
  - pose proof (select_loop_target t defs None) as Hs.
    destruct (select_loop (Some t) defs None) as [m f]. cbn in Hs. subst m.
    by destruct (List.find (named t) (operations defs)).
  - rewrite select_loop_first. by destruct (head (operations defs)).
Qed.

(** ** Lemmas: what redaction of a request hides *)

Section Low.
Context `{HttpLib, Unicode, RegexLib, JsonText}.
Local Abbreviation keys := default_sanitizer.

Definition value_is_bearer (v : HeaderValue) : bool :=
  match hv_to_str v with Some s => starts_bearer s | None => false end.
(** Headers that may differ: sensitive ones, both or neither bearer tokens. *)
Definition low_header (a b : string * HeaderValue) : Prop :=
  fst a = fst b /\
  if is_sensitive_key keys (fst a) then value_is_bearer (snd a) = value_is_bearer (snd b)
  else snd a = snd b.
(** Texts that may differ: JSON texts of values that may. *)
Definition low_text (s1 s2 : string) : Prop :=
  s1 = s2 \/
  exists v1 v2, json_from_str s1 = Some v1 /\ json_from_str s2 = Some v2 /\ low_eq keys 0 v1 v2.
Definition low_gql (g1 g2 : GraphQLRequestInfo) : Prop :=
  operation_type g1 = operation_type g2 /\ operation_name g1 = operation_name g2 /\
  root_fields g1 = root_fields g2 /\ option_Forall2 low_text (raw_body g1) (raw_body g2) /\
  low_eq keys 0 (json_body g1) (json_body g2).
(** Requests that differ only in secrets. *)
Record low_request (r1 r2 : RequestInfo) : Prop := {
  low_id : request_id r1 = request_id r2;
  low_hlc : hlc r1 = hlc r2;
  low_method : method (http r1) = method (http r2);
  low_uri : uri (http r1) = uri (http r2);
  low_version : version (http r1) = version (http r2);
  low_headers : Forall2 low_header (hm_entries (headers (http r1))) (hm_entries (headers (http r2)));
  low_gql_info : option_Forall2 low_gql (gql r1) (gql r2);
  low_body : option_Forall2
    (fun b1 b2 => b1 = b2 \/ utf8_valid b1 = true /\ utf8_valid b2 = true /\ low_text b1 b2)
    (raw_request_body r1) (raw_request_body r2);
  low_type : payload_type r1 = payload_type r2;
  low_info_version : info_version r1 = info_version r2
}.

Lemma sanitize_headers_low h1 h2 :
  Forall2 low_header (hm_entries h1) (hm_entries h2) ->
  sanitize_headers keys h1 = sanitize_headers keys h2.
Proof.
  unfold sanitize_headers. generalize (hm_new : HeaderMap). intros acc Hall. revert acc.
  induction Hall as [|[k1 v1] [k2 v2] l1 l2 [Hk Hv] Hall IH]; intros acc; cbn [fold_left]; [done|].
  rewrite IH. f_equal. cbn [fst snd] in *. subst k2. unfold sanitize_header.
  destruct (is_sensitive_key keys k1); [|by subst].
  unfold value_is_bearer in Hv. destruct (hv_to_str v1), (hv_to_str v2); rewrite ?Hv, <- ?Hv; done.
Qed.

Lemma sanitize_text_low s1 s2 :
  low_text s1 s2 -> sanitize_json_str keys s1 = sanitize_json_str keys s2.
Proof.
  intros [->|(v1 & v2 & H1' & H2' & Hlow)]; [done|].
  unfold sanitize_json_str, sanitize_value. rewrite H1', H2'. by rewrite (sanitize_low_eq _ _ _ _ Hlow).
Qed.

Lemma low_eq_null v1 v2 : low_eq keys 0 v1 v2 -> is_null v1 = is_null v2.
Proof. by destruct 1. Qed.
End Low.
