(* ===== verification/Telemetry.v ===== *)
(** * Telemetry: events and their dispatch, [src/telemetry].

    Topics, the completion event and its JSON, the choice of a broker by name, and
    what each broker adapter sends for a request, a terminal event or a raw
    payload.  A connection is a function from messages to the error the broker
    answers with, if any; an adapter's method returns its result and the messages
    it tried to send, in order. *)

From S2P Require Import Prelude Externals Clock Types Sanitizer Protocol.
Local Open Scope string_scope.

(** ** Topics *)

Section Topics.
Context `{HttpLib, Unicode}.
(** [str::to_uppercase], used on method names. *)
Variable to_uppercase : string -> string.

(** [TopicResolver::resolve_dispatch_topic] @telemetry/topic.rs:{fn resolve_dispatch_topic} TopicResolver::resolve_dispatch_topic *)
Definition resolve_dispatch_topic (r : RequestInfo) : string :=
  match gql r with
  | Some g =>
      let op_name :=
        match operation_name g with
        | Some n => n
        | None => match root_fields g with f :: _ => f | [] => "anonymous" end
        end in
      to_lowercase (str_concat [op_type_to_string (operation_type g); "."; op_name])
  | None =>
      str_concat [to_uppercase (method (http r)); ".";
                  to_lowercase (replace_chars ["."%char] "_" (uri (http r)))]
  end.
End Topics.

(** @telemetry/topic.rs:{fn failed_topic} TopicResolver::failed_topic *)
Definition failed_topic (primary_topic : string) : string := String.append primary_topic ".failed".
(** @telemetry/topic.rs:{fn rejection_topic} TopicResolver::rejection_topic *)
Definition rejection_topic `{Unicode} (operation_name : string) : string :=
  String.append "interceptors.rejected." (to_lowercase operation_name).

(** ** Events *)

Section Events.
Context `{HttpLib, Unicode, RegexLib, JsonText}.
(** [http_serde]'s form of a header map. *)
Variable headers_json : HeaderMap -> json.

(** [CompletionEvent] @telemetry/event.rs:{struct CompletionEvent} CompletionEvent *)
Record CompletionEvent := Completion {
  ev_id : string;
  ev_hlc : HlcTimestamp;
  ev_status : OperationOutcome;
  ev_duration_ms : Z;
  ev_operation_name : option string;
  ev_request : SanitizedPayload RequestInfo;
  ev_response : option ResponseInfo;
  ev_error : option string;
  ev_payload_type : PayloadType
}.

(** [CompletionEvent::success] @telemetry/event.rs:{fn success} CompletionEvent::success *)
Definition event_success (id : string) (h : HlcTimestamp) (duration_ms : Z)
    (name : option string) (request : SanitizedPayload RequestInfo) (response : ResponseInfo) :
    CompletionEvent :=
  Completion id h Success duration_ms name request (Some response) None PResponse.
(** [CompletionEvent::failure] @telemetry/event.rs:{fn failure} CompletionEvent::failure *)
Definition event_failure (id : string) (h : HlcTimestamp) (duration_ms : Z)
    (name : option string) (request : SanitizedPayload RequestInfo)
    (response : option ResponseInfo) (error : string) : CompletionEvent :=
  Completion id h Failed duration_ms name request response (Some error) PResponse.
(** [CompletionEvent::rejected] @telemetry/event.rs:{fn rejected} CompletionEvent::rejected *)
Definition event_rejected (id : string) (h : HlcTimestamp) (duration_ms : Z)
    (name : option string) (request : SanitizedPayload RequestInfo) (reason : string) :
    CompletionEvent :=
  Completion id h Rejected duration_ms name request None (Some reason) PResponse.

(** *** Their JSON *)

Definition uint_json (n : Z) : json := JNumber (PosInt n).
Definition opt_json {A} (f : A -> json) (o : option A) : json :=
  match o with Some a => f a | None => JNull end.
(** [uuid::serde::simple] *)
Definition uuid_simple (id : string) : string := replace_chars ["-"%char] "" id.
Definition hlc_json (h : HlcTimestamp) : json :=
  JObject (obj_of [("physical", uint_json (physical h)); ("logical", uint_json (logical h))]).
Definition payload_type_json (t : PayloadType) : json :=
  JString (match t with PRequest => "Request" | PResponse => "Response" end).
Definition bytes_json (s : string) : json := JArray (map uint_json (as_bytes s)).

(** @protocol/gql_request.rs:53-63 GraphQLRequestInfo::serialize *)
Definition gql_info_json (g : GraphQLRequestInfo) : json :=
  JObject (obj_of
    [("operationType", JString (op_type_to_string (operation_type g)));
     ("operationName", opt_json JString (operation_name g));
     ("rootFields", JArray (map JString (root_fields g)));
     ("rawBody", opt_json JString (raw_body g));
     ("jsonBody", json_body g)]).
(** @protocol/http_request.rs:4-14 HttpRequestInfo::serialize *)
Definition http_info_json (h : HttpRequestInfo) : json :=
  JObject (obj_of
    [("method", JString (method h)); ("uri", JString (uri h));
     ("version", JString (version h)); ("headers", headers_json (headers h))]).
(** @protocol/request_info.rs:9-22 RequestInfo::serialize *)
Definition request_info_json (r : RequestInfo) : json :=
  JObject (obj_of
    [("requestId", JString (uuid_simple (request_id r)));
     ("hlc", hlc_json (hlc r)); ("http", http_info_json (http r));
     ("gql", opt_json gql_info_json (gql r));
     ("rawRequestBody", opt_json bytes_json (raw_request_body r));
     ("type", payload_type_json (payload_type r)); ("version", uint_json (info_version r))]).
(** A [RawValue] is written as the text it holds; here, the value of that text. @protocol/response_info.rs:9-22 ResponseInfo::serialize *)
Definition response_info_json (r : ResponseInfo) : json :=
  JObject (obj_of
    [("requestId", JString (uuid_simple (r_request_id r))); ("hlc", hlc_json (r_hlc r));
     ("httpResponseHeaders", headers_json (http_response_headers r));
     ("responseBody", JObject (obj_of
        [("json", default JNull (json_from_str (rb_json (response_body r))));
         ("text", opt_json JString (rb_text (response_body r)))]));
     ("type", payload_type_json (r_payload_type r)); ("version", uint_json (r_version r))]).
(** @telemetry/event.rs:8-24 CompletionEvent::serialize *)
Definition completion_json (e : CompletionEvent) : json :=
  JObject (obj_of
    [("id", JString (uuid_simple (ev_id e))); ("hlc", hlc_json (ev_hlc e));
     ("status", JString (outcome_as_str (ev_status e)));
     ("durationMs", uint_json (ev_duration_ms e));
     ("operationName", opt_json JString (ev_operation_name e));
     ("request", request_info_json (payload (ev_request e)));
     ("response", opt_json response_info_json (ev_response e));
     ("error", opt_json JString (ev_error e));
     ("type", payload_type_json (ev_payload_type e))]).

(** [JsonEventEncoder]; serialising these types cannot fail. @telemetry/sink.rs:31-42 JsonEventEncoder::encode_request *)
Definition encode_request (r : RequestInfo) : string := json_to_string (request_info_json r).
(** @telemetry/sink.rs:44-53 JsonEventEncoder::encode_completion *)
Definition encode_completion (e : CompletionEvent) : string := json_to_string (completion_json e).
End Events.

(** ** Brokers *)

(** The adapters with the fields that decide where messages go. @telemetry/mod.rs:{enum DispatchMethod} DispatchMethod *)
Inductive DispatchMethod :=
| Iggy (url stream topic_prefix : string)
| Kafka (hosts : list string) (topic_prefix : string) (partition : Z)
| NatsJetstream (addr : string)
| RabbitMq (url exchange routing_prefix : string)
| RedisStreams (addr stream_prefix : string)
| SierraDb (addr stream_prefix : string)
| Webhook (url : string).

(** [normalize_redis_url] @telemetry/resp.rs:{fn normalize_redis_url} normalize_redis_url *)
Definition normalize_redis_url (addr : string) : string :=
  let trimmed := trim addr in
  if starts_with "redis://" trimmed || starts_with "rediss://" trimmed then trimmed
  else match strip_prefix "sierradb://" trimmed with
  | Some stripped => String.append "redis://" stripped
  | None => match strip_prefix "valkey://" trimmed with
            | Some stripped => String.append "redis://" stripped
            | None => String.append "redis://" trimmed
            end
  end.
(** [normalize_kafka_hosts] @telemetry/kafka.rs:{fn normalize_kafka_hosts} normalize_kafka_hosts *)
Definition normalize_kafka_hosts (addr : string) : list string :=
  let trimmed := trim addr in
  let stripped :=
    match strip_prefix "kafka://" trimmed with
    | Some s => s
    | None => default trimmed (strip_prefix "redpanda://" trimmed)
    end in
  List.filter (fun h => negb (String.eqb h "")) (map trim (split_on "," stripped)).
(** [normalize_amqp_url] @telemetry/rabbitmq.rs:{fn normalize_amqp_url} normalize_amqp_url *)
Definition normalize_amqp_url (addr : string) : string :=
  let trimmed := trim addr in
  if starts_with "amqp://" trimmed || starts_with "amqps://" trimmed then trimmed
  else match strip_prefix "rabbitmq://" trimmed with
  | Some stripped => String.append "amqp://" stripped
  | None => String.append "amqp://" trimmed
  end.
(** [normalize_iggy_url] @telemetry/iggy.rs:{fn normalize_iggy_url} normalize_iggy_url *)
Definition normalize_iggy_url (addr : string) : string :=
  let trimmed := trim addr in
  if starts_with "iggy://" trimmed || starts_with "iggy+tcp://" trimmed ||
     starts_with "iggy+http://" trimmed then trimmed
  else String.append "iggy://" trimmed.

Definition is_one_of (m : string) (names : list string) : bool := existsb (String.eqb m) names.
(** @telemetry/nats.rs:{fn supports_dispatch_method} NatsDispatch::supports_dispatch_method *)
Definition nats_supports (method : string) : bool :=
  str_contains "nats" (to_ascii_lowercase method).
(** @telemetry/redis_streams.rs:{fn supports_dispatch_method} RedisStreamsDispatch::supports_dispatch_method *)
Definition redis_supports (method : string) : bool :=
  is_one_of (to_ascii_lowercase method) ["redis"; "redis_streams"; "redis-streams"; "valkey"; "dragonfly"].
(** @telemetry/sierradb.rs:{fn supports_dispatch_method} SierraDbDispatch::supports_dispatch_method *)
Definition sierradb_supports (method : string) : bool :=
  is_one_of (to_ascii_lowercase method) ["sierradb"; "sierra"; "sierra-db"].
(** @telemetry/kafka.rs:{fn supports_dispatch_method} KafkaDispatch::supports_dispatch_method *)
Definition kafka_supports (method : string) : bool :=
  is_one_of (to_ascii_lowercase method) ["kafka"; "redpanda"; "kafka-cluster"].
(** @telemetry/rabbitmq.rs:{fn supports_dispatch_method} RabbitMqDispatch::supports_dispatch_method *)
Definition rabbitmq_supports (method : string) : bool :=
  is_one_of (to_ascii_lowercase method) ["rabbitmq"; "rabbit"; "amqp"; "amqps"].
(** @telemetry/iggy.rs:{fn supports_dispatch_method} IggyDispatch::supports_dispatch_method *)
Definition iggy_supports (method : string) : bool :=
  is_one_of (to_ascii_lowercase method) ["iggy"; "apache-iggy"; "apache_iggy"].
(** @telemetry/webhook.rs:{fn supports_dispatch_method} WebhookDispatch::supports_dispatch_method *)
Definition webhook_supports (method : string) : bool :=
  let m := to_ascii_lowercase method in str_contains "webhook" m || str_contains "http" m.

(** The constructors' defaults. @telemetry/kafka.rs:41-57 KafkaDispatch::new *)
Definition kafka_new (addr : string) : DispatchMethod := Kafka (normalize_kafka_hosts addr) "spectra" 0%Z.
(** @telemetry/rabbitmq.rs:32-48 RabbitMqDispatch::new *)
Definition rabbitmq_new (addr : string) : DispatchMethod :=
  RabbitMq (normalize_amqp_url addr) "amq.topic" "spectra".
(** @telemetry/iggy.rs:31-48 IggyDispatch::new *)
Definition iggy_new (addr : string) : DispatchMethod :=
  Iggy (normalize_iggy_url addr) "spectra" "spectra".

(** [find_dispatch_handler_by_method] @telemetry/mod.rs:{fn find_dispatch_handler_by_method} find_dispatch_handler_by_method *)
Definition find_dispatch_handler_by_method (method endpoint : string) : result string DispatchMethod :=
  if nats_supports method then Ok (NatsJetstream endpoint)
  else if redis_supports method then Ok (RedisStreams (normalize_redis_url endpoint) "spectra")
  else if sierradb_supports method then Ok (SierraDb (normalize_redis_url endpoint) "spectra")
  else if kafka_supports method then Ok (kafka_new endpoint)
  else if rabbitmq_supports method then Ok (rabbitmq_new endpoint)
  else if iggy_supports method then Ok (iggy_new endpoint)
  else if webhook_supports method then Ok (Webhook endpoint)
  else Err (String.append "Unsupported dispatch method: " method).

(** ** What the adapters send *)

(** A message as handed to a broker's client: where to, its key, its named fields
    (record headers, stream fields or HTTP headers) and its body. *)
Record message := Msg {
  destination : string;
  msg_key : option string;
  fields : list (string * string);
  body : string
}.
#[export] Instance message_eq_dec : EqDecision message.
Proof. solve_decision. Defined.

Section Adapters.
Context `{HttpLib, Unicode, RegexLib, JsonText}.
Variable headers_json : HeaderMap -> json.
Variable to_uppercase : string -> string.
(** The broker: the error a message meets, if any (connection, channel, write or
    acknowledgement). *)
Variable send : message -> option string.

Definition sent : Type := result string unit * list message.
Definition try_send (m : message) : sent :=
  (match send m with None => Ok tt | Some e => Err e end, [m]).

(** Destination names. @telemetry/kafka.rs:{fn kafka_topic} KafkaDispatch::kafka_topic *)
Definition kafka_topic (topic_prefix topic : string) : string :=
  str_concat [topic_prefix; "."; replace_chars [":"%char] "." topic].
(** @telemetry/rabbitmq.rs:{fn routing_key} RabbitMqDispatch::routing_key *)
Definition routing_key (routing_prefix topic : string) : string :=
  str_concat [routing_prefix; "."; replace_chars [":"%char] "." topic].
(** @telemetry/redis_streams.rs:{fn stream_key} RedisStreamsDispatch::stream_key *)
Definition stream_key (stream_prefix topic : string) : string :=
  str_concat [stream_prefix; ":"; replace_chars ["."%char] ":" topic].
(** @telemetry/sierradb.rs:{fn stream_id} SierraDbDispatch::stream_id *)
Definition stream_id (stream_prefix topic : string) : string :=
  str_concat [stream_prefix; ":"; replace_chars ["."%char] ":" topic].
(** [topic_id]; [Identifier::named] accepts the names built here. @telemetry/iggy.rs:{fn topic_id} IggyDispatch::topic_id *)
Definition topic_id (topic_prefix topic : string) : string :=
  str_concat [topic_prefix; "."; replace_chars [":"%char] "." topic].

(** [from_utf8(payload).unwrap_or("")] *)
Definition lossy_or_empty (payload : string) : string := if utf8_valid payload then payload else "".
(** The fields of an [EAPPEND]. @telemetry/sierradb.rs:{fn build_eappend_cmd} SierraDbDispatch::build_eappend_cmd *)
Definition eappend (stream event_type payload : string) : message :=
  Msg stream None [("event_type", event_type); ("EXPECTED_VERSION", "any")] payload.

(** [EventSink::publish], adapter by adapter. @telemetry/nats.rs:212-220 NatsDispatch::publish *)
Definition nats_publish (topic payload : string) : sent :=
  if utf8_valid payload then try_send (Msg topic None [] payload)
  else (Err "Invalid UTF-8 payload", []).
(** @telemetry/webhook.rs:30-72 WebhookDispatch::publish *)
Definition webhook_publish (url topic payload : string) : sent :=
  if utf8_valid payload then
    try_send (Msg url None [("content-type", "application/json"); ("x-spectra-topic", topic)] payload)
  else (Err "Invalid UTF-8 payload", []).
(** @telemetry/redis_streams.rs:72-80 RedisStreamsDispatch::publish *)
Definition redis_publish (prefix topic payload : string) : sent :=
  try_send (Msg (stream_key prefix topic) None
    [("event_type", "Event"); ("payload", lossy_or_empty payload)] "").
(** @telemetry/sierradb.rs:86-90 SierraDbDispatch::publish *)
Definition sierradb_publish (prefix topic payload : string) : sent :=
  try_send (eappend (stream_id prefix topic) "Event" (lossy_or_empty payload)).
(** @telemetry/kafka.rs:137-142 KafkaDispatch::publish *)
Definition kafka_publish (prefix topic payload : string) : sent :=
  try_send (Msg (kafka_topic prefix topic) None [] (lossy_or_empty payload)).
(** @telemetry/rabbitmq.rs:146-151 RabbitMqDispatch::publish *)
Definition rabbitmq_publish (prefix topic payload : string) : sent :=
  try_send (Msg (routing_key prefix topic) None [] (lossy_or_empty payload)).
(** @telemetry/iggy.rs:111-120 IggyDispatch::publish *)
Definition iggy_publish (prefix topic payload : string) : sent :=
  try_send (Msg (topic_id prefix topic) None [] (lossy_or_empty payload)).

(** [DispatchMethod::publish] @telemetry/mod.rs:{fn publish} DispatchMethod::publish *)
Definition publish (d : DispatchMethod) (topic payload : string) : sent :=
  match d with
  | Iggy _ _ prefix => iggy_publish prefix topic payload
  | Kafka _ prefix _ => kafka_publish prefix topic payload
  | NatsJetstream _ => nats_publish topic payload
  | RabbitMq _ _ prefix => rabbitmq_publish prefix topic payload
  | RedisStreams _ prefix => redis_publish prefix topic payload
  | SierraDb _ prefix => sierradb_publish prefix topic payload
  | Webhook url => webhook_publish url topic payload
  end.

(** *** Requests *)

Definition request_operation (r : RequestInfo) (dflt : string) : string :=
  match gql r with Some g => default dflt (operation_name g) | None => dflt end.
(** @telemetry/kafka.rs:150-171 KafkaDispatch::dispatch_request_info *)
Definition kafka_dispatch_request (prefix : string) (r : RequestInfo) : sent :=
  try_send (Msg (kafka_topic prefix (resolve_dispatch_topic to_uppercase r)) (Some (request_id r))
    [("event_type", "Command"); ("request_id", request_id r);
     ("hlc", to_compact_string (hlc r)); ("operation", request_operation r "unknown")]
    (encode_request headers_json r)).
(** @telemetry/rabbitmq.rs:159-180 RabbitMqDispatch::dispatch_request_info *)
Definition rabbitmq_dispatch_request (prefix : string) (r : RequestInfo) : sent :=
  try_send (Msg (routing_key prefix (resolve_dispatch_topic to_uppercase r)) None
    [("event_type", "Command"); ("request_id", request_id r);
     ("hlc", to_compact_string (hlc r)); ("operation", request_operation r "unknown")]
    (encode_request headers_json r)).
(** @telemetry/redis_streams.rs:88-111 RedisStreamsDispatch::dispatch_request_info *)
Definition redis_dispatch_request (prefix : string) (r : RequestInfo) : sent :=
  try_send (Msg (stream_key prefix (resolve_dispatch_topic to_uppercase r)) None
    [("event_type", "Command"); ("request_id", request_id r);
     ("hlc", to_compact_string (hlc r)); ("operation", request_operation r "unknown");
     ("payload", encode_request headers_json r)] "").
(** @telemetry/sierradb.rs:98-111 SierraDbDispatch::dispatch_request_info *)
Definition sierradb_dispatch_request (prefix : string) (r : RequestInfo) : sent :=
  try_send (eappend (stream_id prefix (resolve_dispatch_topic to_uppercase r))
    (request_operation r "Command") (encode_request headers_json r)).
(** The adapters that publish the encoded request on its topic. @telemetry/nats.rs:228-234 NatsDispatch::dispatch_request_info *)
Definition plain_dispatch_request (d : DispatchMethod) (r : RequestInfo) : sent :=
  publish d (resolve_dispatch_topic to_uppercase r) (encode_request headers_json r).
Definition dispatch_request_info (d : DispatchMethod) (r : RequestInfo) : sent :=
  match d with
  | Kafka _ prefix _ => kafka_dispatch_request prefix r
  | RabbitMq _ _ prefix => rabbitmq_dispatch_request prefix r
  | RedisStreams _ prefix => redis_dispatch_request prefix r
  | SierraDb _ prefix => sierradb_dispatch_request prefix r
  | Iggy _ _ _ | NatsJetstream _ | Webhook _ => plain_dispatch_request d r
  end.

(** *** Responses *)

(** The adapters that pass a failed send on. @telemetry/kafka.rs:173-193 KafkaDispatch::dispatch_response_info *)
Definition kafka_dispatch_response (prefix topic : string) (r : ResponseInfo) : sent :=
  try_send (Msg (kafka_topic prefix topic) (Some (r_request_id r))
    [("event_type", "Response"); ("request_id", r_request_id r);
     ("hlc", to_compact_string (r_hlc r))]
    (json_to_string (response_info_json headers_json r))).
(** @telemetry/rabbitmq.rs:182-202 RabbitMqDispatch::dispatch_response_info *)
Definition rabbitmq_dispatch_response (prefix topic : string) (r : ResponseInfo) : sent :=
  try_send (Msg (routing_key prefix topic) None
    [("event_type", "Response"); ("request_id", r_request_id r);
     ("hlc", to_compact_string (r_hlc r))]
    (json_to_string (response_info_json headers_json r))).
(** @telemetry/redis_streams.rs:113-133 RedisStreamsDispatch::dispatch_response_info *)
Definition redis_dispatch_response (prefix topic : string) (r : ResponseInfo) : sent :=
  try_send (Msg (stream_key prefix topic) None
    [("event_type", "Response"); ("request_id", r_request_id r);
     ("hlc", to_compact_string (r_hlc r));
     ("payload", json_to_string (response_info_json headers_json r))] "").
(** @telemetry/sierradb.rs:113-123 SierraDbDispatch::dispatch_response_info *)
Definition sierradb_dispatch_response (prefix topic : string) (r : ResponseInfo) : sent :=
  try_send (eappend (stream_id prefix topic) "Response"
    (json_to_string (response_info_json headers_json r))).
(** The adapters that log a failed send and answer [Ok]. @telemetry/nats.rs:236-257 NatsDispatch::dispatch_response_info *)
Definition plain_dispatch_response (d : DispatchMethod) (topic : string) (r : ResponseInfo) : sent :=
  (Ok tt, snd (publish d topic (json_to_string (response_info_json headers_json r)))).
Definition dispatch_response_info (d : DispatchMethod) (topic : string) (r : ResponseInfo) : sent :=
  match d with
  | Kafka _ prefix _ => kafka_dispatch_response prefix topic r
  | RabbitMq _ _ prefix => rabbitmq_dispatch_response prefix topic r
  | RedisStreams _ prefix => redis_dispatch_response prefix topic r
  | SierraDb _ prefix => sierradb_dispatch_response prefix topic r
  | Iggy _ _ _ | NatsJetstream _ | Webhook _ => plain_dispatch_response d topic r
  end.

(** *** Terminal events *)

Definition outcome_debug (o : OperationOutcome) : string :=
  match o with Success => "Success" | Failed => "Failed" | Rejected => "Rejected" end.
Definition terminal_fields (e : CompletionEvent) : list (string * string) :=
  [("event_type", "TerminalEvent"); ("status", outcome_debug (ev_status e));
   ("request_id", request_id (payload (ev_request e)));
   ("hlc", to_compact_string (ev_hlc e));
   ("operation", default "unknown" (ev_operation_name e));
   ("duration_ms", dec (ev_duration_ms e))].
(** @telemetry/kafka.rs:195-220 KafkaDispatch::dispatch_terminal_event *)
Definition kafka_dispatch_terminal (prefix topic : string) (e : CompletionEvent) : sent :=
  try_send (Msg (kafka_topic prefix topic) (Some (request_id (payload (ev_request e))))
    (terminal_fields e) (encode_completion headers_json e)).
(** @telemetry/rabbitmq.rs:204-229 RabbitMqDispatch::dispatch_terminal_event *)
Definition rabbitmq_dispatch_terminal (prefix topic : string) (e : CompletionEvent) : sent :=
  try_send (Msg (routing_key prefix topic) None (terminal_fields e)
    (encode_completion headers_json e)).
(** @telemetry/redis_streams.rs:135-160 RedisStreamsDispatch::dispatch_terminal_event *)
Definition redis_dispatch_terminal (prefix topic : string) (e : CompletionEvent) : sent :=
  try_send (Msg (stream_key prefix topic) None
    (terminal_fields e ++ [("payload", encode_completion headers_json e)])%list "").
(** @telemetry/sierradb.rs:125-135 SierraDbDispatch::dispatch_terminal_event *)
Definition sierradb_dispatch_terminal (prefix topic : string) (e : CompletionEvent) : sent :=
  try_send (eappend (stream_id prefix topic)
    (String.append "TerminalEvent:" (outcome_debug (ev_status e)))
    (encode_completion headers_json e)).
(** A failed event is also sent to the failed topic, whose error is ignored. @telemetry/nats.rs:259-276 NatsDispatch::dispatch_terminal_event *)
Definition nats_dispatch_terminal (topic : string) (e : CompletionEvent) : sent :=
  let payload := encode_completion headers_json e in
  let '(primary, msgs) := nats_publish topic payload in
  match primary with
  | Err err => (Err err, msgs)
  | Ok _ =>
      match ev_status e with
      | Failed => (Ok tt, (msgs ++ snd (nats_publish (failed_topic topic) payload))%list)
      | _ => (Ok tt, msgs)
      end
  end.
(** @telemetry/iggy.rs:146-153 IggyDispatch::dispatch_terminal_event *)
Definition iggy_dispatch_terminal (prefix topic : string) (e : CompletionEvent) : sent :=
  iggy_publish prefix topic (encode_completion headers_json e).
(** Every failure is only logged. @telemetry/webhook.rs:98-137 WebhookDispatch::dispatch_terminal_event *)
Definition webhook_dispatch_terminal (url topic : string) (e : CompletionEvent) : sent :=
  (Ok tt, snd (try_send (Msg url None
    [("content-type", "application/json"); ("x-spectra-topic", topic);
     ("x-spectra-id", ev_id e); ("x-spectra-hlc", to_compact_string (ev_hlc e));
     ("x-spectra-status", outcome_as_str (ev_status e))] (encode_completion headers_json e)))).

(** [DispatchHandler::dispatch_terminal_event] @telemetry/mod.rs:{trait DispatchHandler} DispatchHandler::dispatch_terminal_event *)
Definition dispatch_terminal_event (d : DispatchMethod) (topic : string) (e : CompletionEvent) : sent :=
  match d with
  | Iggy _ _ prefix => iggy_dispatch_terminal prefix topic e
  | Kafka _ prefix _ => kafka_dispatch_terminal prefix topic e
  | NatsJetstream _ => nats_dispatch_terminal topic e
  | RabbitMq _ _ prefix => rabbitmq_dispatch_terminal prefix topic e
  | RedisStreams _ prefix => redis_dispatch_terminal prefix topic e
  | SierraDb _ prefix => sierradb_dispatch_terminal prefix topic e
  | Webhook url => webhook_dispatch_terminal url topic e
  end.
(** @telemetry/nats.rs:278-280 NatsDispatch::dispatch_payload *)
Definition dispatch_payload (d : DispatchMethod) (topic payload : string) : sent :=
  match d with
  | RabbitMq _ _ prefix => try_send (Msg (routing_key prefix topic) None [] payload)
  | _ => publish d topic payload
  end.
End Adapters.

(** ** Properties *)

Section Properties.
Context `{HttpLib, Unicode, RegexLib, JsonText}.
Variable headers_json : HeaderMap -> json.

Lemma sanitized_json_low r1 r2 :
  low_request r1 r2 ->
  request_info_json headers_json (request_info_sanitize r1) =
  request_info_json headers_json (request_info_sanitize r2).
Proof.
  intros []. unfold request_info_json, request_info_sanitize, http_info_json.
  cbn [request_id hlc http method uri version headers gql raw_request_body payload_type info_version].
  rewrite low_id, low_hlc, low_method, low_uri, low_version, low_type, low_info_version.
  rewrite (sanitize_headers_low _ _ low_headers).
  assert (opt_json gql_info_json (gql_info_sanitize default_sanitizer <$> gql r1) =
          opt_json gql_info_json (gql_info_sanitize default_sanitizer <$> gql r2)) as ->.
  { destruct low_gql_info as [g1 g2 (Ht & Hn & Hf & Hr & Hj)|]; [|done].
    unfold gql_info_json, gql_info_sanitize. cbn [opt_json fmap option_fmap option_map operation_type operation_name root_fields raw_body json_body].
    rewrite Ht, Hn, Hf.
    rewrite (low_eq_null _ _ Hj).
    assert (opt_json JString (sanitize_json_str default_sanitizer <$> raw_body g1) =
            opt_json JString (sanitize_json_str default_sanitizer <$> raw_body g2)) as ->.
    { destruct Hr as [s1 s2 Hs|]; [|done]. cbn. by rewrite (sanitize_text_low _ _ Hs). }
    unfold sanitize_value. rewrite (sanitize_low_eq _ _ _ _ Hj).
    destruct (is_null (json_body g2)) eqn:Hnull; [|done].
    pose proof (low_eq_null _ _ Hj) as Hnull1. rewrite Hnull in Hnull1.
    by destruct (json_body g1), (json_body g2). }
  destruct low_body as [b1 b2 Hb|]; [|done]. cbn.
  destruct Hb as [->|(Hu1 & Hu2 & Hb)]; [done|].
  by rewrite Hu1, Hu2, (sanitize_text_low _ _ Hb).
Qed.

(** C33. The terminal events of completed, failed and rejected operations hide
    what the sanitizer redacts: two requests that differ only in the values of
    sensitive headers (both or neither bearer tokens), in sensitive fields of
    their JSON bodies and in the rest of bearer strings there make
    [dispatch_terminal_event] send the same messages and answer the same, on
    every adapter. The bodies have to be equal where the sanitizer does not
    look: under a key spelling "query", deeper than 64 levels, and altogether
    when they are not JSON text ([Sanitizer.query_object_not_redacted],
    [Sanitizer.deep_secret_not_redacted]). The request's secrets only: the
    response of a success is any text. The message the gateway itself sends of
    a rejection, with previews as they came ([Gateway.rejection_payload]), is
    not a terminal event. *)
Theorem terminal_events_hide_secrets send d topic id h ms name r1 r2 response resp_opt error reason :
  low_request r1 r2 ->
  let dispatch := dispatch_terminal_event headers_json send d topic in
  dispatch (event_success id h ms name (sanitized_of_request r1) response) =
    dispatch (event_success id h ms name (sanitized_of_request r2) response) /\
  dispatch (event_failure id h ms name (sanitized_of_request r1) resp_opt error) =
    dispatch (event_failure id h ms name (sanitized_of_request r2) resp_opt error) /\
  dispatch (event_rejected id h ms name (sanitized_of_request r1) reason) =
    dispatch (event_rejected id h ms name (sanitized_of_request r2) reason).
Proof.
  intros Hlow. cbv zeta.
  pose proof (sanitized_json_low r1 r2 Hlow) as Hj. pose proof (low_id _ _ Hlow) as Hid.
  assert (Henc : forall st o resp err,
    encode_completion headers_json (Completion id h st ms o (sanitized_of_request r1) resp err PResponse) =
    encode_completion headers_json (Completion id h st ms o (sanitized_of_request r2) resp err PResponse)).
  { intros. unfold encode_completion, completion_json. cbn. by rewrite Hj. }
  assert (Hall : forall st o resp err,
    dispatch_terminal_event headers_json send d topic
      (Completion id h st ms o (sanitized_of_request r1) resp err PResponse) =
    dispatch_terminal_event headers_json send d topic
      (Completion id h st ms o (sanitized_of_request r2) resp err PResponse)).
  { intros. unfold dispatch_terminal_event, iggy_dispatch_terminal, kafka_dispatch_terminal,
      nats_dispatch_terminal, rabbitmq_dispatch_terminal, redis_dispatch_terminal,
      sierradb_dispatch_terminal, webhook_dispatch_terminal, terminal_fields.
    rewrite !Henc. cbn [payload sanitized_of_request new_unchecked request_id request_info_sanitize
      ev_request]. by rewrite Hid. }
  split_and!; apply Hall.
Qed.

(** A failed event on NATS: the primary topic is tried first and alone decides the
    result; the failed topic is tried exactly when the primary send succeeded and
    the event is a failure. *)
Theorem nats_failed_topic_routing send topic e :
  utf8_valid (encode_completion headers_json e) = true ->
  let m t := Msg t None [] (encode_completion headers_json e) in
  nats_dispatch_terminal headers_json send topic e =
  match send (m topic) with
  | Some err => (Err err, [m topic])
  | None => (Ok tt, m topic :: if decide (ev_status e = Failed) then [m (failed_topic topic)] else [])
  end.
Proof.
  intros Hutf. cbv zeta. unfold nats_dispatch_terminal, nats_publish. rewrite Hutf. cbn.
  destruct (send _); [done|]. by destruct (ev_status e).
Qed.

(** The choice of a broker ignores ASCII case and fails exactly on names no adapter
    supports. *)
Theorem find_dispatch_spec method method' endpoint :
  (eq_ignore_ascii_case method method' = true ->
   ok (find_dispatch_handler_by_method method endpoint) =
   ok (find_dispatch_handler_by_method method' endpoint)) /\
  (is_ok (find_dispatch_handler_by_method method endpoint) =
   nats_supports method || redis_supports method || sierradb_supports method ||
   kafka_supports method || rabbitmq_supports method || iggy_supports method ||
   webhook_supports method).
Proof.
  unfold find_dispatch_handler_by_method, nats_supports, redis_supports, sierradb_supports,
    kafka_supports, rabbitmq_supports, iggy_supports, webhook_supports.
  split.
  - intros ->%eq_ignore_ascii_case_spec. by repeat case_match.
  - by repeat case_match.
Qed.
End Properties.

#[local] Existing Instances list_http ascii_tables no_match_regex bits_json_text.

Definition login (token body : string) : RequestInfo :=
  ReqInfo "0190-1" (HLC 1 0)
    (HttpInfo "POST" "/graphql" "HTTP/1.1" [("authorization", token); ("accept", "*/*")])
    None (Some body) PRequest 1.
Definition body_with (secret : string) : string :=
  json_to_string (JObject [("password", JString secret)]).

Lemma terminal_events_hide_secrets_witness :
  let dispatch := dispatch_terminal_event (fun _ => JNull) (fun _ => None) (kafka_new "k:9092") "t" in
  dispatch (event_rejected "1" (HLC 1 0) 5 None (sanitized_of_request (login "Bearer abc" (body_with "one"))) "no") =
  dispatch (event_rejected "1" (HLC 1 0) 5 None (sanitized_of_request (login "Bearer xyz" (body_with "two"))) "no").
Proof.
  apply (terminal_events_hide_secrets (fun _ => JNull) (fun _ => None) (kafka_new "k:9092") "t"
           "1" (HLC 1 0) 5 None (login "Bearer abc" (body_with "one"))
           (login "Bearer xyz" (body_with "two"))
           (response_info_new "1" (HLC 1 0) (RespBody "null" None) hm_new) None "" "no").
  constructor; try reflexivity.
  - constructor; [split; vm_compute; reflexivity|].
    constructor; [split; vm_compute; reflexivity|constructor].
  - constructor.
  - constructor. right. split; [vm_compute; reflexivity|]. split; [vm_compute; reflexivity|].
    right. exists (JObject [("password", JString "one")]), (JObject [("password", JString "two")]).
    split; [apply json_roundtrip; reflexivity|]. split; [apply json_roundtrip; reflexivity|].
    apply low_object; [lia|]. constructor; [|constructor].
    apply low_sensitive; vm_compute; reflexivity.
Defined.

Lemma nats_failed_topic_routing_witness :
  length (snd (nats_dispatch_terminal (fun _ => JNull) (fun _ => None) "mutation.vote"
    (event_failure "1" (HLC 1 0) 5 None (sanitized_of_request (login "" "")) None "down"))) = 2%nat.
Proof.
  rewrite (nats_failed_topic_routing (fun _ => JNull)); [reflexivity|vm_compute; reflexivity].
Defined.

Lemma find_dispatch_spec_witness :
  ok (find_dispatch_handler_by_method "NATS" "h:1") = ok (find_dispatch_handler_by_method "nats" "h:1").
Proof. apply (find_dispatch_spec "NATS" "nats" "h:1"). reflexivity. Defined.
