(* ===== verification/Connections.v ===== *)
(** * Connections: how the adapters hold on to their broker,
    [src/telemetry/nats.rs], [rabbitmq.rs], [kafka.rs], [iggy.rs], [redis_streams.rs],
    [sierradb.rs] and [resp.rs].

    The NATS adapter caches its client in an atomic cell, connects under a lock and
    drops the client when a publish fails; its calls run concurrently, so they are a
    machine that takes one step of one call at a time. The other adapters keep theirs
    in a cell that is written once. What crosses the wire is [Telemetry]'s [message]. *)

From S2P Require Import Prelude Externals Types Protocol Telemetry.
Local Open Scope string_scope.

(** [pingora::Error], as far as the adapters build it. *)
Inductive error_type := ConnectError | WriteError.
Record perror := Explain { etype : error_type; explanation : string }.
#[export] Instance error_type_eq_dec : EqDecision error_type.
Proof. solve_decision. Defined.
#[export] Instance perror_eq_dec : EqDecision perror.
Proof. solve_decision. Defined.

(** [map_err] of a client's error. *)
Definition explained {A} (ty : error_type) (what : string) (r : result string A) : result perror A :=
  match r with Ok a => Ok a | Err e => Err (Explain ty (String.append what e)) end.

(** ** NATS: the delay between reconnections *)

(** [1u64.checked_shl]: none when the shift is not below the width. *)
Definition checked_shl_u64 (x k : Z) : option Z :=
  if (k <? 64)%Z then Some (Int.wrap 64 (Z.shiftl x k)) else None.
Definition saturating_mul_u64 (x y : Z) : Z := Z.min Int.u64_max (x * y).
(** Milliseconds before the next attempt. @telemetry/nats.rs:57-61 NatsDispatch::get_jetstream *)
Definition reconnect_delay (initial_ms max_ms attempts : Z) : Z :=
  let factor := default 64%Z (checked_shl_u64 1 (Z.min attempts 6)) in
  Z.min (saturating_mul_u64 initial_ms factor) max_ms.
(** @telemetry/nats.rs:20-24 NatsDispatch::new *)
Definition nats_delays (is_tty : bool) : Z * Z := if is_tty then (250, 5000)%Z else (10, 2000)%Z.

Lemma reconnect_delay_bounds initial_ms max_ms a a' :
  (0 <= a <= a' -> 0 <= initial_ms ->
   reconnect_delay initial_ms max_ms a <= reconnect_delay initial_ms max_ms a' <= max_ms)%Z.
Proof.
  intros Ha Hi. unfold reconnect_delay, checked_shl_u64, saturating_mul_u64.
  rewrite !(proj2 (Z.ltb_lt _ 64)) by lia. unfold id. cbn [default].
  rewrite !Z.shiftl_mul_pow2, !Z.mul_1_l by lia.
  assert (Hp : (2 ^ Z.min a 6 <= 2 ^ Z.min a' 6)%Z) by (apply Z.pow_le_mono_r; lia).
  assert (Hq : (2 ^ Z.min a' 6 <= 2 ^ 6)%Z) by (apply Z.pow_le_mono_r; lia).
  assert (Hz : (0 <= 2 ^ Z.min a 6)%Z) by (apply Z.pow_nonneg; lia).
  change (2 ^ 6)%Z with 64%Z in Hq. rewrite !Int.wrap_small by lia. unfold id.
  pose proof (Z.mul_le_mono_nonneg_l _ _ initial_ms Hi Hp) as Hm. revert Hm.
  generalize (initial_ms * 2 ^ Z.min a 6)%Z (initial_ms * 2 ^ Z.min a' 6)%Z Int.u64_max. lia.
Qed.
Example reconnect_delays :
  map (reconnect_delay 10 2000) [0; 1; 5; 6; 7; 64; 1000]%Z = [10; 20; 320; 640; 640; 640; 640]%Z /\
  map (reconnect_delay 250 5000) [0; 4; 5; 100]%Z = [250; 4000; 5000; 5000]%Z.
Proof. vm_compute. done. Qed.

(** ** NATS: the stream *)

Inductive storage_type := FileStorage | MemoryStorage.
(** [stream::Config]: the fields the adapter names, and the rest. *)
Record stream_config := StreamConfig {
  st_name : string;
  st_description : option string;
  st_subjects : list string;
  max_message_size : Z;
  storage : storage_type;
  st_rest : list (string * string)
}.
Definition with_subjects (l : list string) (c : stream_config) : stream_config :=
  StreamConfig (st_name c) (st_description c) l (max_message_size c) (storage c) (st_rest c).
Definition with_storage (s : storage_type) (c : stream_config) : stream_config :=
  StreamConfig (st_name c) (st_description c) (st_subjects c) (max_message_size c) s (st_rest c).

(** What the client asks the server. [get_stream] is the stream and its info;
    [held] is what the server has, seen or not. The laws are those of the JetStream
    API: an answer seen is held, an update that succeeds is held, and
    [get_or_create_stream] leaves a stream that exists as it is. *)
Class JetStream (B : Type) := {
  held : string -> B -> option stream_config;
  get_stream : string -> B -> option stream_config;
  update_stream : stream_config -> B -> bool * B;
  get_or_create_stream : stream_config -> B -> bool * B;
  get_held n b c : get_stream n b = Some c -> held n b = Some c /\ st_name c = n;
  update_held c b n : held n (snd (update_stream c b)) =
    if fst (update_stream c b) then (if String.eqb n (st_name c) then Some c else held n b) else held n b;
  create_held c b n : held n (snd (get_or_create_stream c b)) =
    if fst (get_or_create_stream c b) then
      (if String.eqb n (st_name c) then Some (default c (held n b)) else held n b)
    else held n b
}.

Definition MUTATIONS : string := "mutations".
Definition target_subjects : list string := ["mutation.>"; "query.>"; "subscription.>"; "spectra.>"; "interceptors.>"].
Definition contains (l : list string) (s : string) : bool := existsb (String.eqb s) l.
(** The loop over the target subjects. @telemetry/nats.rs:100-107 NatsDispatch::ensure_default_streams *)
Definition add_subjects (targets l : list string) : list string * bool :=
  fold_left (fun '(l, needs_update) subj =>
    if contains l subj then (l, needs_update) else ((l ++ [subj])%list, true)) targets (l, false).
(** @telemetry/nats.rs:131-137 NatsDispatch::ensure_default_streams *)
Definition default_stream : stream_config :=
  StreamConfig MUTATIONS (Some "SpectraGQL mutation and telemetry stream") target_subjects (4 * 1024 * 1024)
    FileStorage [].
(** @telemetry/nats.rs:{fn ensure_default_streams} NatsDispatch::ensure_default_streams *)
Definition ensure_default_streams `{JetStream B} (b : B) : B :=
  match get_stream MUTATIONS b with
  | Some info =>
      let '(subjects, needs_update) := add_subjects target_subjects (st_subjects info) in
      if needs_update then snd (update_stream (with_subjects subjects info) b) else b
  | None =>
      let '(created, b) := get_or_create_stream default_stream b in
      if created then b else snd (get_or_create_stream (with_storage MemoryStorage default_stream) b)
  end.

Lemma add_subjects_fold targets l u :
  let '(l', u') := fold_left (fun '(l, needs_update) subj =>
    if contains l subj then (l, needs_update) else ((l ++ [subj])%list, true)) targets (l, u) in
  (exists new, l' = (l ++ new)%list /\ Forall (fun s => s ∈ targets) new) /\
  Forall (fun s => s ∈ l') targets /\ (u' = false -> l' = l /\ u = false).
Proof.
  revert l u. induction targets as [|t targets IH]; intros l u; cbn [fold_left].
  { split; [exists []; by rewrite app_nil_r|done]. }
  assert (Hfar : forall new : list string, Forall (fun s => s ∈ targets) new -> Forall (fun s => s ∈ t :: targets) new)
    by (intros new Hn; eapply Forall_impl; [exact Hn|]; intros s; apply list_elem_of_further).
  destruct (contains l t) eqn:Ec.
  - specialize (IH l u). destruct (fold_left _ _ _) as [l' u']. destruct IH as ((new & -> & Hn) & Hall & Hu).
    split_and!; [|constructor; [|exact Hall]|exact Hu]; [by exists new; auto|].
    apply existsb_exists in Ec as (s & Hs & ->%String.eqb_eq). apply elem_of_app. left. by apply list_elem_of_In.
  - specialize (IH (l ++ [t])%list true). destruct (fold_left _ _ _) as [l' u'].
    destruct IH as ((new & -> & Hn) & Hall & Hu). split_and!.
    + exists (t :: new). split; [by rewrite <- app_assoc|]. constructor; [left|auto].
    + constructor; [|exact Hall]. rewrite !elem_of_app. left. right. left.
    + by intros [_ ?]%Hu.
Qed.

(** After the set-up the server holds the default stream's subjects on the stream, when
    the call that was to put them there succeeded; a stream that existed keeps its
    configuration and every subject it had; other streams are as before. *)
Definition grown (c c' : stream_config) : Prop :=
  exists new, c' = with_subjects (st_subjects c ++ new)%list c /\ Forall (fun s => s ∈ target_subjects) new.
Lemma grown_refl c : grown c c.
Proof. exists []. rewrite app_nil_r. by destruct c. Qed.

Lemma provisioned_stream `{JetStream B} (b : B) :
  (forall n, n <> MUTATIONS -> held n (ensure_default_streams b) = held n b) /\
  match held MUTATIONS b with
  | Some c => exists c', held MUTATIONS (ensure_default_streams b) = Some c' /\ grown c c'
  | None => held MUTATIONS (ensure_default_streams b) = None \/
            exists s, held MUTATIONS (ensure_default_streams b) = Some (with_storage s default_stream)
  end.
Proof.
  unfold ensure_default_streams. destruct (get_stream MUTATIONS b) as [info|] eqn:Eg.
  - apply get_held in Eg as [Hh Hname]. rewrite Hh. unfold add_subjects.
    pose proof (add_subjects_fold target_subjects (st_subjects info) false) as Hf.
    destruct (fold_left _ _ _) as [subjects u]. destruct Hf as ((new & -> & Hnew) & _ & _).
    destruct u; [|split; [done|]; exists info; split; [done|apply grown_refl]].
    split.
    + intros n Hn. rewrite update_held. change (st_name (with_subjects _ info)) with (st_name info). rewrite Hname, (proj2 (String.eqb_neq n MUTATIONS) Hn). by destruct (fst _).
    + rewrite update_held. change (st_name (with_subjects _ info)) with (st_name info). rewrite Hname, String.eqb_refl.
      destruct (fst _); [by eexists; split; [|exists new]|].
      exists info. split; [exact Hh|apply grown_refl].
  - assert (Hname : forall n, n <> MUTATIONS -> String.eqb n MUTATIONS = false) by (intros n; apply String.eqb_neq).
    destruct (get_or_create_stream default_stream b) as [created b1] eqn:Ec. rewrite (surjective_pairing (_ default_stream b)) in Ec.
    injection Ec as <- <-.
    assert (H1 : forall n, held n (snd (get_or_create_stream default_stream b)) = _) by (intros n; apply create_held).
    destruct (fst (get_or_create_stream default_stream b)).
    + split; [intros n Hn; rewrite H1; change (st_name default_stream) with MUTATIONS; by rewrite Hname|].
      rewrite H1, String.eqb_refl.
      destruct (held MUTATIONS b) as [c|]; [|by right; exists FileStorage]. exists c. split; [done|apply grown_refl].
    + split; [intros n Hn; rewrite create_held, !H1; change (st_name (with_storage _ default_stream)) with MUTATIONS;
        change (st_name default_stream) with MUTATIONS; rewrite Hname by done; by destruct (fst _)|].
      rewrite create_held, !H1. change (st_name (with_storage _ default_stream)) with MUTATIONS.
      change (st_name default_stream) with MUTATIONS. rewrite String.eqb_refl. destruct (fst _).
      * destruct (held MUTATIONS b) as [c|]; [|by right; exists MemoryStorage]. exists c. split; [done|apply grown_refl].
      * destruct (held MUTATIONS b) as [c|]; [|by left]. exists c. split; [done|apply grown_refl].
Qed.

(** ** NATS: the calls *)

(** Where a call of [write_to_nats] stands; clients are numbered in the order they were
    opened. [Waiting] for the lock, [Locked] before the second look at the cell,
    [Connecting], [Provisioning] the stream, [Caching] the client, [Stored] before the
    lock is given back, [Ready] to publish, [Acking], and [Evicting] after a publish
    that failed. *)
Inductive stage :=
| Arriving
| Waiting
| Locked
| Connecting
| Provisioning (js : nat)
| Caching (js : nat)
| Stored (js : nat)
| Ready (js : nat)
| Acking (js : nat)
| Evicting (js : nat) (e : string).
Record call := Call { subject : string; data : string; at_stage : stage }.
Record outcome := Outcome { o_call : call; o_result : result perror unit }.

(** The adapter and its calls; what follows [calls] is history: the clients opened, those
    dropped by an eviction and by a call that was cancelled, those over which the stream's
    set-up was attempted and those over which it succeeded, what clients accepted, and what
    calls returned. @telemetry/nats.rs:{struct NatsDispatch} NatsDispatch *)
Record machine := Machine {
  jetstream : option nat;
  connect_lock : option nat;
  calls : gmap nat call;
  opened : nat;
  evicted : nat;
  abandoned : nat;
  attempted : gset nat;
  prepared : gset nat;
  accepted : list (nat * (string * string));
  outcomes : list outcome
}.
(** @telemetry/nats.rs:26-34 NatsDispatch::new_with_options *)
Definition nats_new : machine := Machine None None ∅ 0 0 0 ∅ ∅ [] [].

Definition goto (t : nat) (c : call) (s : stage) (m : machine) : machine :=
  Machine (jetstream m) (connect_lock m) (<[t := Call (subject c) (data c) s]> (calls m))
    (opened m) (evicted m) (abandoned m) (attempted m) (prepared m) (accepted m) (outcomes m).
Definition set_lock (o : option nat) (m : machine) : machine :=
  Machine (jetstream m) o (calls m) (opened m) (evicted m) (abandoned m) (attempted m) (prepared m) (accepted m) (outcomes m).
Definition set_cell (o : option nat) (m : machine) : machine :=
  Machine o (connect_lock m) (calls m) (opened m) (evicted m) (abandoned m) (attempted m) (prepared m) (accepted m) (outcomes m).
Definition open_client (m : machine) : machine :=
  Machine (jetstream m) (connect_lock m) (calls m) (S (opened m)) (evicted m) (abandoned m) (attempted m) (prepared m)
    (accepted m) (outcomes m).
Definition set_up (js : nat) (prepares : bool) (m : machine) : machine :=
  Machine (jetstream m) (connect_lock m) (calls m) (opened m) (evicted m) (abandoned m) ({[js]} ∪ attempted m) (if prepares then {[js]} ∪ prepared m else prepared m)
    (accepted m) (outcomes m).
Definition accept (js : nat) (subj payload : string) (m : machine) : machine :=
  Machine (jetstream m) (connect_lock m) (calls m) (opened m) (evicted m) (abandoned m) (attempted m) (prepared m)
    ((js, (subj, payload)) :: accepted m) (outcomes m).
Definition report (c : call) (r : result perror unit) (m : machine) : machine :=
  Machine (jetstream m) (connect_lock m) (calls m) (opened m) (evicted m) (abandoned m) (attempted m) (prepared m)
    (accepted m) (Outcome c r :: outcomes m).
Definition leave (t : nat) (m : machine) : machine :=
  Machine (jetstream m) (connect_lock m) (delete t (calls m)) (opened m) (evicted m) (abandoned m) (attempted m) (prepared m)
    (accepted m) (outcomes m).
Definition finish (t : nat) (c : call) (r : result perror unit) (m : machine) : machine := report c r (leave t m).
(** @telemetry/nats.rs:{fn evict_client} NatsDispatch::evict_client *)
Definition evict_client (m : machine) : machine :=
  match jetstream m with
  | Some _ => Machine None (connect_lock m) (calls m) (opened m) (S (evicted m)) (abandoned m) (attempted m) (prepared m)
                (accepted m) (outcomes m)
  | None => m
  end.

(** One step of a call of [get_jetstream]; the answer is the client library's, where the
    step asks it. Whether the stream could be set up is logged and forgotten: the client is
    cached either way. @telemetry/nats.rs:{fn get_jetstream} NatsDispatch::get_jetstream *)
Definition get_jetstream (t : nat) (c : call) (a : result string unit) (m : machine) : option machine :=
  match at_stage c with
  | Arriving => Some (goto t c (match jetstream m with Some js => Ready js | None => Waiting end) m)
  | Waiting => match connect_lock m with
               | None => Some (set_lock (Some t) (goto t c Locked m))
               | Some _ => None
               end
  | Locked => Some (match jetstream m with
                    | Some js => set_lock None (goto t c (Ready js) m)
                    | None => goto t c Connecting m
                    end)
  | Connecting => Some (match a with
                        | Ok _ => goto t c (Provisioning (opened m)) (open_client m)
                        | Err e => set_lock None (finish t c (Err (Explain ConnectError (String.append "NATS connect error: " e))) m)
                        end)
  | Provisioning js => Some (goto t c (Caching js) (set_up js (is_ok a) m))
  | Caching js => Some (goto t c (Stored js) (set_cell (Some js) m))
  | Stored js => Some (set_lock None (goto t c (Ready js) m))
  | _ => None
  end.
(** One step of a call once it has a client. @telemetry/nats.rs:{fn write_to_nats} NatsDispatch::write_to_nats *)
Definition publish_step (t : nat) (c : call) (a : result string unit) (m : machine) : option machine :=
  match at_stage c with
  | Ready js => Some (match a with
                      | Ok _ => goto t c (Acking js) (accept js (subject c) (data c) m)
                      | Err e => goto t c (Evicting js e) m
                      end)
  | Acking js => Some (finish t c (explained WriteError "NATS ack error: " a) m)
  | Evicting js e =>
      Some (finish t c (Err (Explain WriteError (String.append "NATS publish error: " e))) (evict_client m))
  | _ => None
  end.
Definition turn (t : nat) (a : result string unit) (m : machine) : option machine :=
  match calls m !! t with
  | None => None
  | Some c => match get_jetstream t c a m with Some m' => Some m' | None => publish_step t c a m end
  end.

Definition abandon (m : machine) : machine :=
  Machine (jetstream m) (connect_lock m) (calls m) (opened m) (evicted m) (S (abandoned m)) (attempted m) (prepared m)
    (accepted m) (outcomes m).
(** A call is dropped where it awaits: its lock is given back, and a client it was
    setting up is closed. *)
Definition cancel (t : nat) (m : machine) : option machine :=
  match calls m !! t with
  | Some c =>
      let gone := leave t m in
      match at_stage c with
      | Waiting | Ready _ | Acking _ => Some gone
      | Connecting => Some (set_lock None gone)
      | Provisioning _ => Some (set_lock None (abandon gone))
      | _ => None
      end
  | None => None
  end.
Definition arrive (t : nat) (subj payload : string) (m : machine) : machine :=
  Machine (jetstream m) (connect_lock m) (<[t := Call subj payload Arriving]> (calls m)) (opened m) (evicted m)
    (abandoned m) (attempted m) (prepared m) (accepted m) (outcomes m).

(** Any interleaving of calls. *)
Inductive step : machine -> machine -> Prop :=
| step_arrive m t subj payload : calls m !! t = None -> step m (arrive t subj payload m)
| step_turn m m' t a : turn t a m = Some m' -> step m m'
| step_cancel m m' t : cancel t m = Some m' -> step m m'.

(** *** What holds of every interleaving *)

(** The stages between taking the lock and giving it back, those at which the cell is
    known to be empty, those with a client not yet cached, and the client at hand. *)
Definition critical (s : stage) : bool :=
  match s with Locked | Connecting | Provisioning _ | Caching _ | Stored _ => true | _ => false end.
Definition empty_seen (s : stage) : bool :=
  match s with Connecting | Provisioning _ | Caching _ => true | _ => false end.
Definition uncached (s : stage) : bool := match s with Provisioning _ | Caching _ => true | _ => false end.
Definition at_hand (s : stage) : option nat :=
  match s with Caching js | Stored js | Ready js | Acking js | Evicting js _ => Some js | _ => None end.
(** A client opened under the lock and not yet cached. *)
Definition underway (m : machine) : nat :=
  match connect_lock m ≫= fun t => calls m !! t with
  | Some c => if uncached (at_stage c) then 1 else 0
  | None => 0
  end.
Definition cached (m : machine) : nat := match jetstream m with Some _ => 1 | None => 0 end.

Record nats_inv (m : machine) : Prop := NatsInv {
  inv_lock t c : calls m !! t = Some c -> (critical (at_stage c) = true <-> connect_lock m = Some t);
  inv_owner t : connect_lock m = Some t -> is_Some (calls m !! t);
  inv_empty t c : calls m !! t = Some c -> empty_seen (at_stage c) = true -> jetstream m = None;
  inv_cell js : jetstream m = Some js -> js ∈ attempted m;
  inv_hand t c js : calls m !! t = Some c -> at_hand (at_stage c) = Some js -> js ∈ attempted m;
  inv_ack t c js : calls m !! t = Some c -> at_stage c = Acking js -> (js, (subject c, data c)) ∈ accepted m;
  inv_accepted js p : (js, p) ∈ accepted m -> js ∈ attempted m;
  inv_ok o : o ∈ outcomes m -> o_result o = Ok tt -> exists js, (js, (subject (o_call o), data (o_call o))) ∈ accepted m;
  inv_count : (opened m = evicted m + abandoned m + cached m + underway m)%nat
}.

(** Lookups in the calls after one of them moved. *)
Ltac lookups := repeat match goal with
  | H : <[?t := _]> _ !! ?u = _ |- _ =>
      destruct (decide (u = t)) as [->|]; [rewrite lookup_insert_eq in H|rewrite lookup_insert_ne in H by done]
  | H : delete ?t _ !! ?u = _ |- _ =>
      destruct (decide (u = t)) as [->|]; [rewrite lookup_delete_eq in H|rewrite lookup_delete_ne in H by done]
  end; simplify_eq/=.

Section Step.
Context (m : machine) (t : nat) (c : call) (I : nats_inv m) (Hc : calls m !! t = Some c).

Lemma owner_iff : critical (at_stage c) = true <-> connect_lock m = Some t.
Proof using I Hc. by apply (inv_lock m I). Qed.
(** While a call holds the lock no other call is in its critical part. *)
Lemma only_owner u d : connect_lock m = Some t -> calls m !! u = Some d -> u <> t -> critical (at_stage d) = false.
Proof using I.
  intros Hl Hd Hne. destruct (critical (at_stage d)) eqn:E; [|done]. apply (inv_lock m I u d Hd) in E. congruence.
Qed.
Lemma empty_critical s : empty_seen s = true -> critical s = true.
Proof. by destruct s. Qed.

(** A call moves between stages outside the lock, or inside it, without opening or
    caching a client. *)
Lemma move_inv s :
  critical s = critical (at_stage c) -> uncached s = uncached (at_stage c) ->
  (empty_seen s = true -> jetstream m = None) ->
  (forall js, at_hand s = Some js -> js ∈ attempted m) ->
  (forall js, s = Acking js -> (js, (subject c, data c)) ∈ accepted m) ->
  nats_inv (goto t c s m).
Proof using I Hc.
  intros Hcr Hun He Hh Ha. pose proof owner_iff as Ho. destruct I. split; cbn; intros; lookups; eauto.
  - by rewrite Hcr.
  - destruct (decide (t0 = t)) as [->|]; [by rewrite lookup_insert_eq|rewrite lookup_insert_ne by done; eauto].
  - rewrite inv_count0. f_equal. unfold underway. cbn. destruct (connect_lock m) as [u|] eqn:El; [|done]. cbn.
    destruct (decide (u = t)) as [->|]; [by rewrite lookup_insert_eq, Hc; cbn; rewrite Hun|by rewrite lookup_insert_ne].
Qed.

(** A call outside the lock goes. *)
Lemma leave_inv : critical (at_stage c) = false -> nats_inv (leave t m).
Proof using I Hc.
  intros Hn. assert (Hl : connect_lock m <> Some t) by (intros ?%owner_iff; congruence).
  destruct I. split; cbn; intros; lookups; eauto.
  - destruct (decide (t0 = t)) as [->|]; [done|rewrite lookup_delete_ne by done; eauto].
  - rewrite inv_count0. f_equal. unfold underway. cbn. destruct (connect_lock m) as [u|] eqn:El; [|done]. cbn.
    by rewrite lookup_delete_ne by congruence.
Qed.
(** A call takes the lock. *)
Lemma acquire_inv : at_stage c = Waiting -> connect_lock m = None -> nats_inv (set_lock (Some t) (goto t c Locked m)).
Proof using I Hc.
  intros Hs Hl. destruct I. split; cbn; intros; lookups; eauto.
  - done.
  - split; [|congruence]. intros Hcr. apply (inv_lock0 _ _ H) in Hcr. congruence.
  - by rewrite lookup_insert_eq.
  - rewrite inv_count0. f_equal. unfold underway. cbn. by rewrite Hl, lookup_insert_eq.
Qed.
(** A call in the lock, with no client of its own to cache, gives it back. *)
Lemma release_inv js : critical (at_stage c) = true -> uncached (at_stage c) = false -> js ∈ attempted m ->
  nats_inv (set_lock None (goto t c (Ready js) m)).
Proof using I Hc.
  intros Hcr%owner_iff Hun Hj. pose proof (fun u d => only_owner u d Hcr) as Ho. destruct I.
  split; cbn; intros; lookups; eauto.
  - by split.
  - split; [|done]. intros Hcr'. specialize (Ho _ _ H n). congruence.
  - rewrite inv_count0. f_equal. unfold underway. cbn. by rewrite Hcr; cbn; rewrite Hc, Hun.
Qed.
Lemma give_up_inv : critical (at_stage c) = true -> uncached (at_stage c) = false ->
  nats_inv (set_lock None (leave t m)).
Proof using I Hc.
  intros Hcr%owner_iff Hun. pose proof (fun u d => only_owner u d Hcr) as Ho. destruct I.
  split; cbn; intros; lookups; eauto.
  - split; [|done]. intros Hcr'. specialize (Ho _ _ H n). congruence.
  - rewrite inv_count0. f_equal. unfold underway. cbn. by rewrite Hcr; cbn; rewrite Hc, Hun.
Qed.
Lemma abandon_inv js : at_stage c = Provisioning js -> nats_inv (set_lock None (abandon (leave t m))).
Proof using I Hc.
  intros Hs. assert (Hcr : critical (at_stage c) = true) by by rewrite Hs.
  apply owner_iff in Hcr. pose proof (fun u d => only_owner u d Hcr) as Ho. destruct I.
  split; cbn; intros; lookups; eauto.
  - split; [|done]. intros Hcr'. specialize (Ho _ _ H n). congruence.
  - unfold underway, cached in *. cbn. rewrite Hcr in inv_count0. cbn in *. rewrite Hc in inv_count0. rewrite Hs in inv_count0. cbn in *. lia.
Qed.
(** The lock's owner opens a client. *)
Lemma open_inv : at_stage c = Connecting -> nats_inv (goto t c (Provisioning (opened m)) (open_client m)).
Proof using I Hc.
  intros Hs. assert (Hcr : critical (at_stage c) = true) by by rewrite Hs.
  pose proof Hcr as Hl. apply owner_iff in Hl. destruct I.
  split; cbn; intros; lookups; eauto.
  - done.
  - by rewrite lookup_insert_eq.
  - apply (inv_empty0 t c Hc). by rewrite Hs.
  - unfold underway, cached in *. cbn in *. rewrite Hl in *. cbn in *. rewrite Hc in *. rewrite lookup_insert_eq. rewrite Hs in *. cbn in *. lia.
Qed.
(** It caches the client, which is set up. *)
Lemma cache_inv js : at_stage c = Caching js -> nats_inv (goto t c (Stored js) (set_cell (Some js) m)).
Proof using I Hc.
  intros Hs. assert (Hcr : critical (at_stage c) = true) by by rewrite Hs.
  pose proof Hcr as Hl. apply owner_iff in Hl. pose proof (fun u d => only_owner u d Hl) as Ho.
  assert (He : jetstream m = None) by (apply (inv_empty m I t c Hc); by rewrite Hs).
  assert (Hj : js ∈ attempted m) by (apply (inv_hand m I t c js Hc); by rewrite Hs).
  destruct I. split; cbn; intros; lookups; eauto.
  - done.
  - by rewrite lookup_insert_eq.
  - exfalso. specialize (Ho _ _ H n). apply empty_critical in H0. congruence.
  - unfold underway, cached in *. cbn in *. rewrite Hl in *. cbn in *. rewrite Hc in *. rewrite lookup_insert_eq. rewrite Hs, He in *. cbn in *. lia.
Qed.
End Step.

Lemma set_up_inv m js prepares : nats_inv m -> nats_inv (set_up js prepares m).
Proof. intros []. split; cbn; intros; try apply elem_of_union_r; eauto. Qed.
Lemma accept_inv m js subj payload : nats_inv m -> js ∈ attempted m -> nats_inv (accept js subj payload m).
Proof.
  intros [] Hj. split; cbn; intros; eauto.
  - right. eauto.
  - apply elem_of_cons in H as [?|?]; simplify_eq; eauto.
  - destruct (inv_ok0 _ H H0) as [js' ?]. exists js'. by right.
Qed.
Lemma evict_inv m : nats_inv m -> nats_inv (evict_client m).
Proof.
  intros I. unfold evict_client. destruct (jetstream m) as [js|] eqn:E; [|done]. destruct I.
  split; cbn; intros; eauto; [done|]. unfold cached in *. rewrite E in inv_count0. unfold underway in *. cbn. lia.
Qed.
Lemma report_inv m c r : nats_inv m ->
  (r = Ok tt -> exists js, (js, (subject c, data c)) ∈ accepted m) -> nats_inv (report c r m).
Proof.
  intros [] Hr. split; cbn; intros; eauto. apply elem_of_cons in H as [->|?]; eauto.
Qed.
Lemma arrive_inv m t subj payload : nats_inv m -> calls m !! t = None -> nats_inv (arrive t subj payload m).
Proof.
  intros [] Hn. assert (Hl : connect_lock m <> Some t) by (intros [? ?]%inv_owner0; congruence).
  split; cbn; intros; lookups; eauto.
  - by split.
  - destruct (decide (t0 = t)) as [->|]; [done|by rewrite lookup_insert_ne; eauto].
  - rewrite inv_count0. f_equal. unfold underway. cbn. destruct (connect_lock m) as [u|]; [|done]. cbn.
    by rewrite lookup_insert_ne by congruence.
Qed.

(** Every step keeps the invariant. *)
Lemma turn_inv m m' t a : nats_inv m -> turn t a m = Some m' -> nats_inv m'.
Proof.
  intros I. unfold turn. destruct (calls m !! t) as [c|] eqn:Hc; [|done].
  destruct (at_stage c) as [| | | |js|js|js|js|js|js e] eqn:Hs; unfold get_jetstream, publish_step; rewrite Hs.
  - intros [= <-]. destruct (jetstream m) as [js|] eqn:Ej; apply move_inv; rewrite ?Hs; try done.
    intros js' [= <-]. by apply (inv_cell m I).
  - destruct (connect_lock m) eqn:El; [done|]. intros [= <-]. by apply acquire_inv.
  - intros [= <-]. destruct (jetstream m) as [js|] eqn:Ej; [|by apply move_inv; rewrite ?Hs].
    apply release_inv; rewrite ?Hs; try done. by apply (inv_cell m I).
  - destruct a as [u|e]; intros [= <-]; [by apply open_inv|].
    apply (report_inv (set_lock None (leave t m)) c); [|done]. by apply (give_up_inv m t c I Hc); rewrite ?Hs.
  - intros [= <-]. apply (move_inv (set_up js (is_ok a) m) t c); rewrite ?Hs; try done; [by apply set_up_inv|..].
    + intros _. apply (inv_empty m I t c Hc). by rewrite Hs.
    + intros js' [= <-]. cbn. set_solver.
  - intros [= <-]. by apply cache_inv.
  - intros [= <-]. apply release_inv; rewrite ?Hs; try done. apply (inv_hand m I t c js Hc). by rewrite Hs.
  - assert (Hj : js ∈ attempted m) by (apply (inv_hand m I t c js Hc); by rewrite Hs).
    destruct a as [u|e]; intros [= <-].
    + apply move_inv; rewrite ?Hs; try done; [by apply accept_inv|by intros js' [= <-]|intros js' [= <-]; left].
    + apply move_inv; rewrite ?Hs; try done. by intros js' [= <-].
  - intros [= <-]. apply report_inv; [by apply (leave_inv m t c I Hc); rewrite Hs|].
    intros _. exists js. by apply (inv_ack m I t c js Hc).
  - intros [= <-]. apply report_inv; [|done]. apply (leave_inv _ t c); [by apply evict_inv| |by rewrite Hs].
    unfold evict_client. by destruct (jetstream m).
Qed.
Lemma cancel_inv m m' t : nats_inv m -> cancel t m = Some m' -> nats_inv m'.
Proof.
  intros I. unfold cancel. destruct (calls m !! t) as [c|] eqn:Hc; [|done].
  destruct (at_stage c) as [| | | |js|js|js|js|js|js e] eqn:Hs; try done; intros [= <-].
  1,4,5: by apply (leave_inv m t c I Hc); rewrite Hs.
  - by apply (give_up_inv m t c I Hc); rewrite ?Hs.
  - by apply (abandon_inv m t c I Hc js).
Qed.
Lemma nats_new_inv : nats_inv nats_new.
Proof. by split; cbn; intros; rewrite ?lookup_empty in *; try inversion H. Qed.
Lemma step_inv m m' : step m m' -> nats_inv m -> nats_inv m'.
Proof.
  intros [m0 t subj payload|m0 m1 t a|m0 m1 t] I; [by apply arrive_inv|by eapply turn_inv|by eapply cancel_inv].
Qed.
Lemma nats_reachable m : rtc step nats_new m -> nats_inv m.
Proof. apply (rtc_ind_r nats_inv); [exact nats_new_inv|eauto using step_inv]. Qed.

(** *** A call that nothing disturbs *)

(** What the client library answers it. *)
Record answers := Answers {
  on_connect : result string unit;
  on_setup : result string unit;
  on_publish : result string unit;
  on_ack : result string unit
}.
Definition answer_at (r : answers) (s : stage) : result string unit :=
  match s with Connecting => on_connect r | Provisioning _ => on_setup r | Acking _ => on_ack r | _ => on_publish r end.
Fixpoint run_call (fuel : nat) (t : nat) (r : answers) (m : machine) : machine :=
  match fuel, calls m !! t with
  | S fuel, Some c =>
      match turn t (answer_at r (at_stage c)) m with Some m' => run_call fuel t r m' | None => m end
  | _, _ => m
  end.
(** A call takes at most nine steps of its own. *)
Definition write_to_nats (t : nat) (subj payload : string) (r : answers) (m : machine) : machine :=
  run_call 9 t r (arrive t subj payload m).

(** What the call returns over a client, and what it leaves in the cell. *)
Definition over_client (r : answers) : result perror unit :=
  match on_publish r with
  | Err e => Err (Explain WriteError (String.append "NATS publish error: " e))
  | Ok _ => explained WriteError "NATS ack error: " (on_ack r)
  end.
Definition kept (r : answers) (js : nat) : option nat := match on_publish r with Err _ => None | Ok _ => Some js end.

Lemma run_turn fuel t r m c m' : calls m !! t = Some c -> turn t (answer_at r (at_stage c)) m = Some m' ->
  run_call (S fuel) t r m = run_call fuel t r m'.
Proof. intros Hc Ht. cbn. by rewrite Hc, Ht. Qed.
Lemma run_gone fuel t r m : calls m !! t = None -> run_call fuel t r m = m.
Proof. intros Hc. destruct fuel; cbn; by rewrite ?Hc. Qed.

(** From a client at hand the call ends in two steps. *)
Lemma run_ready fuel t r m c js : calls m !! t = Some c -> at_stage c = Ready js -> jetstream m = Some js ->
  let m' := run_call (S (S fuel)) t r m in
  calls m' = delete t (calls m) /\ connect_lock m' = connect_lock m /\ jetstream m' = kept r js /\
  opened m' = opened m /\
  exists o, outcomes m' = o :: outcomes m /\ subject (o_call o) = subject c /\ data (o_call o) = data c /\
    o_result o = over_client r.
Proof.
  intros Hc Hs Hj. cbv zeta. unfold over_client, kept.
  destruct (on_publish r) as [[]|e] eqn:Ep.
  - erewrite run_turn; [|exact Hc|unfold turn, get_jetstream, publish_step; by rewrite Hc, Hs; cbn; rewrite Ep].
    erewrite run_turn; [|by cbn; rewrite lookup_insert_eq|unfold turn; cbn; by rewrite lookup_insert_eq].
    rewrite run_gone by by cbn; rewrite lookup_delete_eq. cbn. rewrite delete_insert_eq. by split_and!; [..|eexists; split_and!].
  - erewrite run_turn; [|exact Hc|unfold turn, get_jetstream, publish_step; by rewrite Hc, Hs; cbn; rewrite Ep].
    erewrite run_turn; [|by cbn; rewrite lookup_insert_eq|unfold turn; cbn; by rewrite lookup_insert_eq].
    unfold evict_client. cbn. rewrite Hj.
    rewrite run_gone by by cbn; rewrite lookup_delete_eq. cbn. rewrite delete_insert_eq. by split_and!; [..|eexists; split_and!].
Qed.

(** One more turn of the call just moved, looking at the machine's lock and cell. *)
Ltac turn_once Hj Hl := erewrite run_turn;
  [|by cbn; rewrite lookup_insert_eq
   |unfold turn; cbn; rewrite lookup_insert_eq; cbn; rewrite ?Hl, ?Hj; reflexivity].

Lemma write_to_nats_cached t subj payload r m js : jetstream m = Some js ->
  let m' := write_to_nats t subj payload r m in
  calls m' = delete t (calls m) /\ connect_lock m' = connect_lock m /\ jetstream m' = kept r js /\
  opened m' = opened m /\
  exists o, outcomes m' = o :: outcomes m /\ subject (o_call o) = subj /\ data (o_call o) = payload /\
    o_result o = over_client r.
Proof.
  intros Hj. unfold write_to_nats. turn_once Hj Hj.
  match goal with |- context [run_call 8 t r ?M] =>
    destruct (run_ready 6 t r M (Call subj payload (Ready js)) js) as (-> & -> & -> & -> & Ho) end.
  - cbn. by rewrite lookup_insert_eq.
  - done.
  - by cbn; rewrite Hj.
  - split_and!; [|done..|exact Ho]. cbn. by rewrite insert_insert_eq, delete_insert_eq.
Qed.
Lemma write_to_nats_connects t subj payload r m : jetstream m = None -> connect_lock m = None ->
  let m' := write_to_nats t subj payload r m in
  calls m' = delete t (calls m) /\ connect_lock m' = None /\
  exists o, outcomes m' = o :: outcomes m /\ subject (o_call o) = subj /\ data (o_call o) = payload /\
    match on_connect r with
    | Err e => jetstream m' = None /\ opened m' = opened m /\
        o_result o = Err (Explain ConnectError (String.append "NATS connect error: " e))
    | Ok _ => jetstream m' = kept r (opened m) /\ opened m' = S (opened m) /\ o_result o = over_client r
    end.
Proof.
  intros Hj Hl. unfold write_to_nats. do 3 turn_once Hj Hl. destruct (on_connect r) as [u|e] eqn:Ec.
  - erewrite run_turn;
      [|by cbn; rewrite lookup_insert_eq|unfold turn; cbn; rewrite lookup_insert_eq; cbn; rewrite Ec; reflexivity].
    do 3 turn_once Hj Hl.
    match goal with |- context [run_call 2 t r ?M] =>
      destruct (run_ready 0 t r M (Call subj payload (Ready (opened m))) (opened m)) as (-> & -> & -> & -> & Ho) end.
    + cbn. by rewrite lookup_insert_eq.
    + done.
    + done.
    + split_and!; [|done|]; [|destruct Ho as (o & -> & Hs & Hd & Hr); by exists o].
      cbn. by rewrite !insert_insert_eq, delete_insert_eq.
  - erewrite run_turn;
      [|by cbn; rewrite lookup_insert_eq|unfold turn; cbn; rewrite lookup_insert_eq; cbn; rewrite Ec; reflexivity].
    rewrite run_gone by by cbn; rewrite lookup_delete_eq. cbn. rewrite !insert_insert_eq, delete_insert_eq.
    split_and!; [done..|]. by eexists; split_and!.
Qed.

(** An eviction does not look at which client it drops: a publish that failed on the old
    client also drops the one opened since, which then is opened again. *)
Definition turns_of (l : list (nat * result string unit)) (m : machine) : option machine :=
  fold_left (fun o ta => o ≫= turn (fst ta) (snd ta)) l (Some m).
Example stale_eviction :
  let lost : result string unit := Err "connection closed" in
  let fine : result string unit := Ok tt in
  let m0 := write_to_nats 1 "mutation.a" "{}" (Answers fine fine fine fine) nats_new in
  let m1 := arrive 2 "mutation.b" "{}" (arrive 3 "mutation.c" "{}" m0) in
  (fun m => (jetstream m, opened m, evicted m, map o_result (outcomes m))) <$>
    turns_of [(2, fine); (3, fine); (2, lost); (3, lost); (2, fine)] m1 =
    Some (None, 1, 1, [Err (Explain WriteError "NATS publish error: connection closed"); Ok tt]) /\
  (fun m => (jetstream m, opened m, evicted m)) <$>
    (turns_of [(2, fine); (3, fine); (2, lost); (3, lost); (2, fine)] m1 ≫= fun m =>
     turns_of [(3, fine)] (write_to_nats 4 "mutation.d" "{}" (Answers fine fine fine fine) m)) = Some (None, 2, 2).
Proof. vm_compute. done. Qed.

(** ** The other adapters: a cell written once *)

Section OnceCell.
Context {C : Type}.

(** tokio's [get_or_try_init]: an initializer that fails leaves the cell empty. *)
Definition get_or_try_init (init : result string C) (cell : option C) : result string C * option C :=
  match cell with
  | Some c => (Ok c, cell)
  | None => match init with Ok c => (Ok c, Some c) | Err e => (Err e, None) end
  end.
(** A client is taken from the cell and used. *)
Definition over (what : string) (got : result string C * option C) (use : C -> result perror unit) :
    result perror unit * option C :=
  (match explained ConnectError what (fst got) with Ok c => use c | Err e => Err e end, snd got).

(** *** RabbitMQ *)

(** [BasicProperties], as far as they are set. *)
Record basic_properties := Properties { content_type : string; delivery_mode : Z; headers_table : gmap string string }.
(** @telemetry/rabbitmq.rs:{fn build_properties} RabbitMqDispatch::build_properties *)
Definition build_properties (ct : string) (headers : list (string * string)) : basic_properties :=
  Properties ct 2 (fold_left (fun t kv => <[fst kv := snd kv]> t) headers ∅).
(** What lapin answers: a connection to a URL, a channel on it, a publish, and the
    broker's confirmation. *)
Record lapin := Lapin {
  lapin_connect : string -> result string C;
  create_channel : C -> result string unit;
  basic_publish : C -> string -> string -> string -> basic_properties -> result string unit;
  confirmed : C -> bool
}.
(** @telemetry/rabbitmq.rs:{fn get_connection} RabbitMqDispatch::get_connection *)
Definition get_connection (url : string) (b : lapin) (cell : option C) : result string C * option C :=
  get_or_try_init
    (match lapin_connect b url with
     | Ok c => Ok c
     | Err e => Err (str_concat ["Failed to connect to RabbitMQ at "; url; ": "; e])
     end) cell.
(** @telemetry/rabbitmq.rs:{fn publish_raw} RabbitMqDispatch::publish_raw *)
Definition publish_raw (url exchange : string) (b : lapin) (m : message) (cell : option C) :
    result perror unit * option C :=
  over "RabbitMQ connection error: " (get_connection url b cell) (fun conn =>
    match explained ConnectError "RabbitMQ channel error: " (create_channel b conn) with
    | Err e => Err e
    | Ok _ =>
        match explained WriteError "RabbitMQ publish error: "
                (basic_publish b conn exchange (destination m) (body m)
                   (build_properties "application/json" (fields m))) with
        | Err e => Err e
        | Ok _ => let _ := confirmed b conn in Ok tt
        end
    end).

(** *** Kafka *)

(** [Record]: its headers are a tree map, and its timestamp is the clock's. *)
Record kafka_record := KRecord { k_key : option string; k_value : string; k_headers : gmap string string }.
(** @telemetry/kafka.rs:{fn build_record} KafkaDispatch::build_record *)
Definition build_record (key : option string) (payload : string) (headers : list (string * string)) : kafka_record :=
  KRecord key payload (fold_left (fun t kv => <[fst kv := snd kv]> t) headers ∅).
Record rskafka := Rskafka {
  build_client : list string -> result string C;
  partition_client : C -> string -> Z -> result string unit;
  produce : C -> string -> Z -> list kafka_record -> result string unit
}.
(** The host list is printed by [Debug]. @telemetry/kafka.rs:{fn get_client} KafkaDispatch::get_client *)
Definition kafka_get_client (hosts : list string) (hosts_text : string) (b : rskafka) (cell : option C) :
    result string C * option C :=
  get_or_try_init
    (match build_client b hosts with
     | Ok c => Ok c
     | Err e => Err (str_concat ["Failed to connect to Kafka/Redpanda at "; hosts_text; ": "; e])
     end) cell.
(** @telemetry/kafka.rs:{fn produce_record} KafkaDispatch::produce_record *)
Definition produce_record (hosts : list string) (hosts_text : string) (partition : Z) (b : rskafka) (m : message)
    (cell : option C) : result perror unit * option C :=
  over "Kafka connection error: " (kafka_get_client hosts hosts_text b cell) (fun client =>
    match explained ConnectError "Kafka partition error: " (partition_client b client (destination m) partition) with
    | Err e => Err e
    | Ok _ => explained WriteError "Kafka produce error: "
                (produce b client (destination m) partition [build_record (msg_key m) (body m) (fields m)])
    end).

(** *** Iggy *)

Record iggy_client := IggyLib {
  from_connection_string : string -> result string C;
  iggy_connect : C -> result string unit;
  send_messages : C -> string -> string -> string -> result string unit
}.
(** @telemetry/iggy.rs:{fn get_client} IggyDispatch::get_client *)
Definition iggy_get_client (url : string) (b : iggy_client) (cell : option C) : result string C * option C :=
  get_or_try_init
    (match from_connection_string b url with
     | Err e => Err (str_concat ["Failed to parse Iggy connection string "; url; ": "; e])
     | Ok c => match iggy_connect b c with
               | Ok _ => Ok c
               | Err e => Err (str_concat ["Failed to connect to Iggy at "; url; ": "; e])
               end
     end) cell.
(** @telemetry/iggy.rs:{fn send_message} IggyDispatch::send_message *)
Definition send_message (url stream : string) (b : iggy_client) (m : message) (cell : option C) :
    result perror unit * option C :=
  over "Iggy connection error: " (iggy_get_client url b cell) (fun client =>
    explained WriteError "Iggy send error: " (send_messages b client stream (destination m) (body m))).

(** *** RESP: Redis Streams and SierraDB *)

Record resp_client := RespLib {
  resp_open : string -> result string unit;
  manager_new : string -> result string C;
  query : C -> list string -> result string string
}.
(** @telemetry/resp.rs:{fn get_connection} RespClient::get_connection *)
Definition resp_get_connection (addr : string) (b : resp_client) (cell : option C) : result string C * option C :=
  get_or_try_init
    (match resp_open b addr with
     | Err e => Err (str_concat ["Failed to create RESP client for "; addr; ": "; e])
     | Ok _ => match manager_new b addr with
               | Ok c => Ok c
               | Err e => Err (str_concat ["Failed to initialize RESP ConnectionManager for "; addr; ": "; e])
               end
     end) cell.
(** @telemetry/redis_streams.rs:{fn build_xadd_cmd} RedisStreamsDispatch::build_xadd_cmd *)
Definition build_xadd_cmd (stream : string) (fields : list (string * string)) : list string :=
  ["XADD"; stream; "*"] ++ flat_map (fun kv => [fst kv; snd kv]) fields.
(** @telemetry/redis_streams.rs:{fn write_to_stream} RedisStreamsDispatch::write_to_stream *)
Definition write_to_stream (addr : string) (b : resp_client) (m : message) (cell : option C) :
    result perror unit * option C :=
  over "Redis connection error: " (resp_get_connection addr b cell) (fun conn =>
    match explained WriteError "Redis XADD error: " (query b conn (build_xadd_cmd (destination m) (fields m))) with
    | Ok _ => Ok tt
    | Err e => Err e
    end).
(** @telemetry/sierradb.rs:{fn build_eappend_cmd} SierraDbDispatch::build_eappend_cmd *)
Definition build_eappend_cmd (stream event_type payload : string) : list string :=
  ["EAPPEND"; stream; event_type; "EXPECTED_VERSION"; "any"; "PAYLOAD"; payload].
(** @telemetry/sierradb.rs:{fn append_event} SierraDbDispatch::append_event *)
Definition append_event (addr : string) (b : resp_client) (m : message) (cell : option C) :
    result perror unit * option C :=
  over "SierraDB connection error: " (resp_get_connection addr b cell) (fun conn =>
    match explained WriteError "SierraDB EAPPEND error: "
            (query b conn (build_eappend_cmd (destination m)
               (default EmptyString (Assoc.get "event_type" (fields m))) (body m))) with
    | Ok _ => Ok tt
    | Err e => Err e
    end).

(** *** A run of sends *)

(** What a broker's client answers at one send, adapter by adapter. *)
Inductive adapter :=
| ToRabbit (url exchange : string) (b : lapin)
| ToKafka (hosts : list string) (hosts_text : string) (partition : Z) (b : rskafka)
| ToIggy (url stream : string) (b : iggy_client)
| ToRedis (addr : string) (b : resp_client)
| ToSierra (addr : string) (b : resp_client).
Definition deliver (a : adapter) : message -> option C -> result perror unit * option C :=
  match a with
  | ToRabbit url exchange b => publish_raw url exchange b
  | ToKafka hosts text partition b => produce_record hosts text partition b
  | ToIggy url stream b => send_message url stream b
  | ToRedis addr b => write_to_stream addr b
  | ToSierra addr b => append_event addr b
  end.
(** How a client is made, and how a message goes over it. *)
Definition connects (a : adapter) : result string C :=
  match a with
  | ToRabbit url _ b => fst (get_connection url b None)
  | ToKafka hosts text _ b => fst (kafka_get_client hosts text b None)
  | ToIggy url _ b => fst (iggy_get_client url b None)
  | ToRedis addr b | ToSierra addr b => fst (resp_get_connection addr b None)
  end.
Definition connection_error (a : adapter) : string :=
  match a with
  | ToRabbit _ _ _ => "RabbitMQ connection error: "
  | ToKafka _ _ _ _ => "Kafka connection error: "
  | ToIggy _ _ _ => "Iggy connection error: "
  | ToRedis _ _ => "Redis connection error: "
  | ToSierra _ _ => "SierraDB connection error: "
  end.
Definition sends_over (a : adapter) (c : C) (m : message) : result perror unit := fst (deliver a m (Some c)).
Fixpoint deliver_all (l : list (adapter * message)) (cell : option C) : list (result perror unit) * option C :=
  match l with
  | [] => ([], cell)
  | (a, m) :: l => let '(r, cell) := deliver a m cell in
                   let '(rs, cell) := deliver_all l cell in (r :: rs, cell)
  end.

(** Every adapter takes its client from the cell and uses it. *)
Lemma over_get what init use (cell : option C) :
  over what (get_or_try_init init cell) use =
  match cell with
  | Some c => (use c, Some c)
  | None => match init with Ok c => (use c, Some c) | Err e => (Err (Explain ConnectError (String.append what e)), None) end
  end.
Proof. destruct cell as [c|]; [done|]. by destruct init. Qed.
Lemma deliver_spec a m cell : deliver a m cell =
  match cell with
  | Some c => (sends_over a c m, Some c)
  | None => match connects a with
            | Ok c => (sends_over a c m, Some c)
            | Err e => (Err (Explain ConnectError (String.append (connection_error a) e)), None)
            end
  end.
Proof.
  unfold sends_over, deliver, connects, connection_error.
  destruct a as [url ex b|hosts tx p b|url s b|addr b|addr b];
    unfold publish_raw, produce_record, send_message, write_to_stream, append_event,
      get_connection, kafka_get_client, iggy_get_client, resp_get_connection; rewrite !over_get;
    (destruct cell as [c|]; [done|]); unfold get_or_try_init;
    match goal with |- context [fst (match ?i with Ok _ => _ | Err _ => _ end)] => by destruct i end.
Qed.
Lemma deliver_all_kept l c : deliver_all l (Some c) = (map (fun am => sends_over (fst am) c (snd am)) l, Some c).
Proof. induction l as [|[a m] l IH]; [done|]. cbn [deliver_all]. by rewrite deliver_spec, IH. Qed.
End OnceCell.

(** A server of streams that never fails. *)
#[local] Instance streams : JetStream (gmap string stream_config).
Proof.
  refine {|
    held n b := b !! n;
    get_stream n b := match b !! n with Some c => if String.eqb (st_name c) n then Some c else None | None => None end;
    update_stream c b := (true, <[st_name c := c]> b);
    get_or_create_stream c b := (true, <[st_name c := default c (b !! st_name c)]> b)
  |}; cbn.
  - intros n b c. destruct (b !! n) as [d|]; [|done]. destruct (String.eqb_spec (st_name d) n); [|done]. by intros [= <-].
  - intros c b n. destruct (String.eqb_spec n (st_name c)) as [->|]; [by rewrite lookup_insert_eq|by rewrite lookup_insert_ne].
  - intros c b n. destruct (String.eqb_spec n (st_name c)) as [->|]; [by rewrite lookup_insert_eq|by rewrite lookup_insert_ne].
Defined.
Example stream_set_up :
  let mine := StreamConfig MUTATIONS None ["mutation.>"; "orders.*"] 1024 FileStorage [("max_age", "60")] in
  st_subjects <$> ensure_default_streams (∅ : gmap string stream_config) !! MUTATIONS = Some target_subjects /\
  ensure_default_streams {[MUTATIONS := mine]} !! MUTATIONS =
    Some (with_subjects ["mutation.>"; "orders.*"; "query.>"; "subscription.>"; "spectra.>"; "interceptors.>"] mine).
Proof. vm_compute. done. Qed.

(** ** Properties *)

(** C17. Calls of the NATS adapter open one client at a time: in any interleaving of calls,
    cancelled ones included, at most one call is between taking the connection lock and
    giving it back; every client ever opened was evicted, was abandoned by the call that
    opened it, is the one cached, or is being set up by the lock's owner; a message only
    goes over a client over which the stream's set-up was attempted before, successfully
    or not (a set-up that fails is only logged, [unprepared_client_is_used]); and a call
    that returns without an error had its message accepted by such a client. *)
Theorem nats_single_flight m : rtc step nats_new m ->
  (forall t u c d, calls m !! t = Some c -> calls m !! u = Some d ->
     critical (at_stage c) = true -> critical (at_stage d) = true -> t = u) /\
  opened m = (evicted m + abandoned m + cached m + underway m)%nat /\
  (forall js p, (js, p) ∈ accepted m -> js ∈ attempted m) /\
  (forall o, o ∈ outcomes m -> o_result o = Ok tt ->
     exists js, js ∈ attempted m /\ (js, (subject (o_call o), data (o_call o))) ∈ accepted m).
Proof.
  intros I%nats_reachable. split_and!.
  - intros t u c d Hc Hd Ht Hu. apply (inv_lock m I _ _ Hc) in Ht. apply (inv_lock m I _ _ Hd) in Hu. congruence.
  - apply (inv_count m I).
  - apply (inv_accepted m I).
  - intros o Ho Hr. destruct (inv_ok m I o Ho Hr) as [js Hj]. exists js. split; [by eapply (inv_accepted m I)|done].
Qed.

(** C23. A call of the NATS adapter that finds the connection lock free and runs undisturbed
    returns within nine steps and gives the lock back. Over the cached client it
    connects nothing; without one it connects once, and a failure to connect is its
    answer and leaves nothing cached. Whether the stream could be set up changes neither
    what the call returns nor what it caches. A publish that fails empties the cell, so the
    next call connects anew; a missing acknowledgement does not. *)
Theorem nats_call_spec t subj payload r m : calls m !! t = None -> connect_lock m = None ->
  let m' := write_to_nats t subj payload r m in
  calls m' = calls m /\ connect_lock m' = None /\
  exists o, outcomes m' = o :: outcomes m /\ subject (o_call o) = subj /\ data (o_call o) = payload /\
    match jetstream m, on_connect r with
    | Some js, _ => jetstream m' = kept r js /\ opened m' = opened m /\ o_result o = over_client r
    | None, Ok _ => jetstream m' = kept r (opened m) /\ opened m' = S (opened m) /\ o_result o = over_client r
    | None, Err e => jetstream m' = None /\ opened m' = opened m /\
        o_result o = Err (Explain ConnectError (String.append "NATS connect error: " e))
    end.
Proof.
  intros Ht Hl. cbv zeta. destruct (jetstream m) as [js|] eqn:Ej.
  - destruct (write_to_nats_cached t subj payload r m js Ej) as (-> & -> & -> & -> & o & -> & Ho).
    rewrite delete_id by done. split_and!; [done..|]. exists o. by destruct Ho as (-> & -> & ->).
  - destruct (write_to_nats_connects t subj payload r m Ej Hl) as (-> & -> & o & -> & Ho).
    rewrite delete_id by done. split_and!; [done..|]. by exists o.
Qed.
Lemma nats_call_spec_witness :
  let m' := write_to_nats 0 "mutation.pay" "{}" (Answers (Ok tt) (Err "no space") (Err "closed") (Ok tt)) nats_new in
  calls m' = ∅ /\ connect_lock m' = None /\
  exists o, outcomes m' = [o] /\ subject (o_call o) = "mutation.pay" /\ data (o_call o) = "{}" /\
    jetstream m' = None /\ opened m' = 1%nat /\ o_result o = Err (Explain WriteError "NATS publish error: closed").
Proof. exact (nats_call_spec 0 "mutation.pay" "{}" (Answers (Ok tt) (Err "no space") (Err "closed") (Ok tt)) nats_new eq_refl eq_refl). Defined.

(** Two calls at once: the first connects and cannot set the stream up, the second waits for
    the lock and finds the client; both have their messages taken. *)
Definition together : list (nat * result string unit) :=
  let fine : result string unit := Ok tt in
  [(0, fine); (1, fine); (0, fine); (0, fine); (0, fine); (0, Err "no space"); (0, fine); (0, fine); (1, fine); (1, fine);
   (1, fine); (0, fine); (1, fine); (0, fine)]%nat.
Definition both_arrived : machine := arrive 1 "query.b" "{}" (arrive 0 "mutation.a" "{}" nats_new).
Lemma turns_reach l : forall m m', turns_of l m = Some m' -> rtc step m m'.
Proof.
  unfold turns_of. induction l as [|[t a] l IH]; intros m m'; cbn [fold_left]; [by intros [= <-]|]. cbn [mbind option_bind fst snd].
  destruct (turn t a m) as [m1|] eqn:Et.
  - intros Hl. eapply rtc_l; [by eapply step_turn|]. by apply IH.
  - intros Hn. exfalso. clear -Hn. induction l as [|x l IH]; [done|]. by apply IH.
Qed.
Example unprepared_client_is_used :
  (fun m => (jetstream m, opened m, accepted m, map o_result (outcomes m), bool_decide (prepared m = ∅))) <$>
    turns_of together both_arrived =
  Some (Some 0, 1, [(0, ("mutation.a", "{}")); (0, ("query.b", "{}"))], [Ok tt; Ok tt], true)%nat.
Proof. vm_compute. reflexivity. Qed.
Lemma nats_single_flight_witness : exists m, turns_of together both_arrived = Some m /\
  opened m = 1%nat /\ opened m = (evicted m + abandoned m + cached m + underway m)%nat /\
  exists js, js ∈ attempted m /\ (js, ("query.b", "{}")) ∈ accepted m.
Proof.
  destruct (turns_of together both_arrived) as [m|] eqn:Em.
  2: { assert (Hs : bool_decide (is_Some (turns_of together both_arrived)) = true) by (vm_compute; reflexivity).
       rewrite Em in Hs. discriminate Hs. }
  exists m. split; [reflexivity|].
  assert (Hr : rtc step nats_new m).
  { eapply rtc_l; [by apply (step_arrive _ 0 "mutation.a" "{}")|]. eapply rtc_l; [by apply (step_arrive _ 1 "query.b" "{}")|].
    by apply turns_reach in Em. }
  destruct (nats_single_flight m Hr) as (_ & Hn & _ & Hok).
  assert (Hopen : opened <$> turns_of together both_arrived = Some 1%nat) by (vm_compute; reflexivity).
  rewrite Em in Hopen. split; [by injection Hopen|]. split; [exact Hn|].
  assert (Hout : (outcomes <$> turns_of together both_arrived) ≫= (fun l => l !! 1%nat) =
    Some (Outcome (Call "query.b" "{}" (Acking 0)) (Ok tt))) by (vm_compute; reflexivity).
  rewrite Em in Hout. apply list_elem_of_lookup_2 in Hout. exact (Hok _ Hout eq_refl).
Defined.

(** The adapters other than NATS keep the first client they manage to make: until then
    every send answers why there is no connection; from then on every send goes over that
    client, whatever later connections would give, and its answer is that client's. *)
Theorem first_client_is_kept {C} (l : list (adapter (C := C) * message)) :
  let '(rs, cell) := deliver_all l None in
  exists before after refusals, l = (before ++ after)%list /\
    Forall2 (fun am r => exists e, connects (fst am) = Err e /\
      r = Err (Explain ConnectError (String.append (connection_error (fst am)) e))) before refusals /\
    match after with
    | [] => cell = None /\ rs = refusals
    | (a, _) :: _ => exists c, connects a = Ok c /\ cell = Some c /\
        rs = (refusals ++ map (fun am => sends_over (fst am) c (snd am)) after)%list
    end.
Proof.
  induction l as [|[a m] l IH]; [by exists [], [], []|]. cbn [deliver_all]. rewrite deliver_spec.
  destruct (connects a) as [c|e] eqn:Ec.
  - rewrite deliver_all_kept. exists [], ((a, m) :: l), []. split_and!; [done..|]. by exists c.
  - destruct (deliver_all l None) as [rs cell]. destruct IH as (before & after & refusals & -> & Hb & Ha).
    eexists ((a, m) :: before), after, (_ :: refusals). split_and!; [done|constructor; [by exists e|exact Hb]|].
    destruct after as [|[a' m'] after]; [by destruct Ha as [-> ->]|].
    destruct Ha as (c & Hc & -> & ->). by exists c.
Qed.

(** A RabbitMQ connection that was lost stays lost: the broker takes connections again,
    but the adapter goes on over the closed one. *)
Example lost_connection_stays :
  let up := Lapin (fun _ => Ok 1%nat) (fun _ => Ok tt) (fun _ _ _ _ _ => Ok tt) (fun _ => true) in
  let restarted := Lapin (fun _ => Ok 2%nat) (fun c => if (c =? 2)%nat then Ok tt else Err "invalid connection state")
                     (fun _ _ _ _ _ => Ok tt) (fun _ => true) in
  let m := Msg "spectra.mutation.pay" None [] "{}" in
  let to b := (ToRabbit "amqp://mq" "amq.topic" b, m) in
  deliver_all [to up; to restarted; to restarted] None =
    ([Ok tt; Err (Explain ConnectError "RabbitMQ channel error: invalid connection state");
      Err (Explain ConnectError "RabbitMQ channel error: invalid connection state")], Some 1%nat).
Proof. vm_compute. done. Qed.
