(* ===== verification/Config.v ===== *)
(** * Config: the configuration of [src/core/config.rs].

    The records with their defaults, those set before any source, the choice of configuration sources, the
    fallbacks from gateway sections to the global ones, the table of upstream
    addresses and the resolution of a request to an application.  A [HashMap] is
    the list of its entries in the order its iterator visits them, keys distinct. *)

From S2P Require Import Prelude Types.
Local Open Scope string_scope.
Local Open Scope Z_scope.

(** ** Records and defaults *)

(** @core/config.rs:{fn default_true} default_true *)
Definition default_true : bool := true.
(** @core/config.rs:{fn default_timeout_ms} default_timeout_ms *)
Definition default_timeout_ms' : Z := 3000.
(** @core/config.rs:{fn default_receipt_status} default_receipt_status *)
Definition default_receipt_status : string := "ACCEPTED".
(** @core/config.rs:{fn default_upstream_name} default_upstream_name *)
Definition default_upstream_name : string := "default".
(** [SpectraModeAConfig] @core/config.rs:26-34 SpectraModeAConfig *)
Record SpectraModeAConfig := ModeA {
  ma_enabled : bool;
  ma_dispatch_policy : ModeADispatchPolicy;
  ma_timeout_ms : Z
}.
(** @core/config.rs:36-44 SpectraModeAConfig::default *)
Definition mode_a_default : SpectraModeAConfig := ModeA true ResponseWithFailure default_timeout_ms'.

(** [SpectraRouteConfig] @core/config.rs:48-62 SpectraRouteConfig *)
Record SpectraRouteConfig := Route {
  operation : string;
  mode : ExecutionStrategy;
  rt_enabled : bool;
  rt_upstream : option string;
  receipt_status : string;
  rt_interceptors : list string;
  rt_dispatch_policy : option ModeADispatchPolicy
}.
(** @core/config.rs:64-68 SpectraRouteConfig::strategy *)
Definition strategy (r : SpectraRouteConfig) : ExecutionStrategy := mode r.

(** @core/config.rs:70-75 InterceptorStage *)
Inductive InterceptorStage := StRequest | StResponse.
(** @core/config.rs:77-85 InterceptorType *)
Inductive InterceptorType := TCel | TWasm | TNative | TRbac | TAuth.
(** @interceptors/evaluators/wasm.rs:{enum FailMode} FailMode *)
Inductive FailMode := FailOpen | FailClosed.
#[export] Instance InterceptorStage_eq_dec : EqDecision InterceptorStage.
Proof. solve_decision. Defined.
#[export] Instance InterceptorType_eq_dec : EqDecision InterceptorType.
Proof. solve_decision. Defined.
#[export] Instance FailMode_eq_dec : EqDecision FailMode.
Proof. solve_decision. Defined.

(** [InterceptorConfig] @core/config.rs:87-124 InterceptorConfig *)
Record InterceptorConfig := Interceptor {
  interceptor_type : InterceptorType;
  stage : InterceptorStage;
  expression : option string;
  status_code : option Z;
  code : option string;
  ic_message : option string;
  action : option string;
  tag : option string;
  path : option string;
  timeout_ms : option Z;
  fail_mode : option FailMode;
  failure_threshold : option Z;
  cooloff_duration_secs : option Z;
  kind : option string;
  token : option string;
  provider : option string;
  jwks_url : option string;
  secret : option string;
  mutations_default : option string;
  queries_default : option string;
  unauthenticated_ops : option (list string);
  roles : option (list (string * list string));
  subject_path : option string;
  tenant_path : option string;
  roles_path : option string;
  permissions_path : option string
}.

(** @core/config.rs:{fn default_epoch_tick_interval_ms} default_epoch_tick_interval_ms *)
Definition default_epoch_tick_interval_ms : Z := 1.
(** @core/config.rs:{fn default_wasm_timeout_ms} default_wasm_timeout_ms *)
Definition default_wasm_timeout_ms : Z := 25.
(** [SpectraWasmConfig] @core/config.rs:134-144 SpectraWasmConfig *)
Record SpectraWasmConfig := WasmCfg {
  strict_aot : bool; allow_jit : bool; epoch_tick_interval_ms : Z; default_timeout_ms : Z }.
(** @core/config.rs:146-155 SpectraWasmConfig::default *)
Definition wasm_default : SpectraWasmConfig := WasmCfg true false default_epoch_tick_interval_ms default_wasm_timeout_ms.

(** [SpectraUpstreamConfig] @core/config.rs:157-163 SpectraUpstreamConfig *)
Record SpectraUpstreamConfig := Upstream {
  up_name : string; up_description : option string; up_addr : string }.

(** @core/config.rs:165-171 IdempotencyBackendType *)
Inductive IdempotencyBackendType := BackendMemory | BackendRedis.
(** @core/config.rs:{fn default_idempotency_ttl_secs} default_idempotency_ttl_secs *)
Definition default_idempotency_ttl_secs : Z := 300.
(** @core/config.rs:{fn default_max_capacity} default_max_capacity *)
Definition default_max_capacity : Z := 10000.
(** @core/config.rs:{fn default_sub_prefix} default_sub_prefix *)
Definition default_sub_prefix : string := "spectra".
(** @core/config.rs:{fn default_keepalive_secs} default_keepalive_secs *)
Definition default_keepalive_secs : Z := 25.
(** @core/config.rs:{fn default_client_buffer_capacity} default_client_buffer_capacity *)
Definition default_client_buffer_capacity : Z := 256.
(** [SpectraSubscriptionsConfig] @core/config.rs:193-203 SpectraSubscriptionsConfig *)
Record SpectraSubscriptionsConfig := SubsCfg {
  sub_enabled : bool; topic_prefix : string; keepalive_secs : Z; client_buffer_capacity : Z }.
(** @core/config.rs:205-214 SpectraSubscriptionsConfig::default *)
Definition subscriptions_default : SpectraSubscriptionsConfig := SubsCfg true default_sub_prefix default_keepalive_secs default_client_buffer_capacity.
(** [SpectraIdempotencyConfig] @core/config.rs:216-225 SpectraIdempotencyConfig *)
Record SpectraIdempotencyConfig := IdemCfg {
  backend : IdempotencyBackendType; id_addr : option string; ttl_secs : Z; id_max_capacity : Z }.
(** @core/config.rs:227-236 SpectraIdempotencyConfig::default *)
Definition idempotency_default : SpectraIdempotencyConfig := IdemCfg BackendMemory None default_idempotency_ttl_secs default_max_capacity.
(** @core/config.rs:{fn default_error_max_body_bytes} default_error_max_body_bytes *)
Definition default_error_max_body_bytes : Z := 4096.
(** [ErrorCaptureConfig] @core/config.rs:242-257 ErrorCaptureConfig *)
Record ErrorCaptureConfig := ErrCfg { ec_enabled : bool; max_body_bytes : Z }.
(** @core/config.rs:250-257 ErrorCaptureConfig::default *)
Definition error_capture_default : ErrorCaptureConfig := ErrCfg true default_error_max_body_bytes.
(** @core/config.rs:{fn default_dns_interval_secs} default_dns_interval_secs *)
Definition default_dns_interval_secs : Z := 15.
(** [SpectraDnsConfig] @core/config.rs:269-275 SpectraDnsConfig *)
Record SpectraDnsConfig := DnsCfg { dns_enabled : bool; interval_secs : Z }.
(** @core/config.rs:277-284 SpectraDnsConfig::default *)
Definition dns_default : SpectraDnsConfig := DnsCfg true default_dns_interval_secs.

(** [SpectraDispatchConfig] @core/config.rs:286-298 SpectraDispatchConfig *)
Record SpectraDispatchConfig := DispatchCfg {
  d_name : string;
  d_description : option string;
  d_method : string;
  d_addr : string;
  reconnect_profile : option string;
  reconnect_initial_ms : option Z;
  reconnect_max_ms : option Z
}.
(** The two reconnection delays; [interactive] says a terminal is attached. @core/config.rs:{fn initial_reconnect_ms} SpectraDispatchConfig::initial_reconnect_ms *)
Definition initial_reconnect_ms (interactive : bool) (d : SpectraDispatchConfig) : Z :=
  match reconnect_initial_ms d with
  | Some ms => ms
  | None =>
      match reconnect_profile d with
      | Some p =>
          if String.eqb p "dev" || String.eqb p "development" then 250
          else if String.eqb p "prod" || String.eqb p "production" then 10
          else if interactive then 250 else 10
      | None => if interactive then 250 else 10
      end
  end.
(** @core/config.rs:{fn max_reconnect_ms} SpectraDispatchConfig::max_reconnect_ms *)
Definition max_reconnect_ms (interactive : bool) (d : SpectraDispatchConfig) : Z :=
  match reconnect_max_ms d with
  | Some ms => ms
  | None =>
      match reconnect_profile d with
      | Some p =>
          if String.eqb p "dev" || String.eqb p "development" then 5000
          else if String.eqb p "prod" || String.eqb p "production" then 2000
          else if interactive then 5000 else 2000
      | None => if interactive then 5000 else 2000
      end
  end.

(** [SpectraGqlConfig] @core/config.rs:349-361 SpectraGqlConfig *)
Record SpectraGqlConfig := GqlCfg {
  g_paths : string;
  ops_to_dispatch : string;
  g_upstream : option SpectraUpstreamConfig;
  g_dispatch : option SpectraDispatchConfig;
  mode_a : SpectraModeAConfig;
  routes : list (string * SpectraRouteConfig);
  g_interceptors : list string
}.
(** [SpectraRestConfig] @core/config.rs:363-369 SpectraRestConfig *)
Record SpectraRestConfig := RestCfg {
  r_paths : string;
  r_upstream : option SpectraUpstreamConfig;
  r_dispatch : option SpectraDispatchConfig
}.
(** @core/config.rs:{fn default_admin_enabled} default_admin_enabled *)
Definition default_admin_enabled : bool := false.
(** @core/config.rs:{fn default_admin_bind_addr} default_admin_bind_addr *)
Definition default_admin_bind_addr : string := "0.0.0.0:8000".
(** @core/config.rs:{fn default_admin_path_prefix} default_admin_path_prefix *)
Definition default_admin_path_prefix : string := "/admin".
(** @core/config.rs:383-391 default_allowed_ips *)
Definition default_allowed_ips : list string :=
  ["127.0.0.1"; "::1"; "10.0.0.0/8"; "172.16.0.0/12"; "192.168.0.0/16"].
(** [SpectraAdminConfig] @core/config.rs:393-407 SpectraAdminConfig *)
Record SpectraAdminConfig := AdminCfg {
  a_enabled : bool;
  a_bind_addr : string;
  path_prefix : string;
  allowed_ips : list string;
  enable_ui : bool;
  deploy_token : option string
}.
(** @core/config.rs:409-420 SpectraAdminConfig::default *)
Definition admin_default : SpectraAdminConfig :=
  AdminCfg default_admin_enabled default_admin_bind_addr default_admin_path_prefix default_allowed_ips true None.

(** [SpectraAppConfig] @core/config.rs:422-435 SpectraAppConfig *)
Record SpectraAppConfig := App {
  app_id : string;
  app_name : string;
  domains : list string;
  path_prefixes : list string;
  app_upstream : string;
  subject_prefix : option string
}.
(** @core/config.rs:437-443 SpectraAppConfig::effective_subject_prefix *)
Definition effective_subject_prefix (a : SpectraAppConfig) : string :=
  default (String.append "mutation." (app_id a)) (subject_prefix a).

(** @core/config.rs:{fn default_store_backend} default_store_backend *)
Definition default_store_backend : string := "memory".
(** @core/config.rs:{fn default_table_name} default_table_name *)
Definition default_table_name : string := "spectragql_config".
(** @core/config.rs:{fn default_config_key} default_config_key *)
Definition default_config_key : string := "active".
(** [SpectraConfigStoreConfig] @core/config.rs:457-468 SpectraConfigStoreConfig *)
Record SpectraConfigStoreConfig := StoreCfg {
  st_backend : string;
  database_url : option string;
  redis_url : option string;
  file_path : option string;
  table_name : string;
  st_key : string
}.
(** @core/config.rs:470-481 SpectraConfigStoreConfig::default *)
Definition store_default : SpectraConfigStoreConfig :=
  StoreCfg default_store_backend None None None default_table_name default_config_key.

(** [SpectraConfig] @core/config.rs:483-512 SpectraConfig *)
Record SpectraConfig := Spectra {
  bind_addr : string;
  gql : SpectraGqlConfig;
  rest : SpectraRestConfig;
  upstream : SpectraUpstreamConfig;
  upstreams : list (string * SpectraUpstreamConfig);
  apps : list SpectraAppConfig;
  default_app : option string;
  dispatch : SpectraDispatchConfig;
  idempotency : SpectraIdempotencyConfig;
  subscriptions : SpectraSubscriptionsConfig;
  admin : SpectraAdminConfig;
  interceptors : list (string * InterceptorConfig);
  wasm : SpectraWasmConfig;
  error_capture : ErrorCaptureConfig;
  config_store : SpectraConfigStoreConfig;
  dns : SpectraDnsConfig
}.

(** What is set before any source is read, by path. *)
Inductive default_value := DString (s : string) | DBool (b : bool) | DInt (n : Z).
(** @core/config.rs:{fn base_builder} SpectraConfig::base_builder *)
Definition base_builder : list (string * default_value) :=
  [("bind_addr", DString "0.0.0.0:8000"); ("upstream.addr", DString "localhost:4000");
   ("upstream.name", DString "default"); ("dispatch.method", DString "nats");
   ("dispatch.addr", DString "127.0.0.1:4222"); ("dispatch.name", DString "default");
   ("gql.paths", DString "/gql,/graphql"); ("gql.ops_to_dispatch", DString "query, mutation, subscription");
   ("idempotency.backend", DString "memory"); ("idempotency.ttl_secs", DInt 300);
   ("idempotency.max_capacity", DInt 10000); ("subscriptions.enabled", DBool true);
   ("subscriptions.topic_prefix", DString "spectra"); ("subscriptions.keepalive_secs", DInt 25);
   ("subscriptions.client_buffer_capacity", DInt 256); ("admin.enabled", DBool false);
   ("admin.bind_addr", DString "0.0.0.0:8000"); ("admin.path_prefix", DString "/admin");
   ("admin.enable_ui", DBool true); ("wasm.strict_aot", DBool true); ("wasm.allow_jit", DBool false);
   ("wasm.epoch_tick_interval_ms", DInt 1); ("wasm.default_timeout_ms", DInt 25);
   ("rest.paths", DString "/api,/api/{*path}"); ("telemetry.error_capture.enabled", DBool true);
   ("telemetry.error_capture.max_body_bytes", DInt 4096); ("config_store.backend", DString "memory");
   ("config_store.table_name", DString "spectragql_config"); ("config_store.key", DString "active");
   ("dns.enabled", DBool true); ("dns.interval_secs", DInt 15)].
(** These are the defaults the sections have on their own. *)
Example section_defaults_agree :
  let given n v := Assoc.get n base_builder = Some v in
  given "idempotency.ttl_secs" (DInt (ttl_secs idempotency_default)) /\
  given "idempotency.max_capacity" (DInt (id_max_capacity idempotency_default)) /\
  given "subscriptions.enabled" (DBool (sub_enabled subscriptions_default)) /\
  given "subscriptions.topic_prefix" (DString (topic_prefix subscriptions_default)) /\
  given "subscriptions.keepalive_secs" (DInt (keepalive_secs subscriptions_default)) /\
  given "subscriptions.client_buffer_capacity" (DInt (client_buffer_capacity subscriptions_default)) /\
  given "admin.enabled" (DBool (a_enabled admin_default)) /\
  given "admin.bind_addr" (DString (a_bind_addr admin_default)) /\
  given "admin.path_prefix" (DString (path_prefix admin_default)) /\
  given "admin.enable_ui" (DBool (enable_ui admin_default)) /\
  given "wasm.strict_aot" (DBool (strict_aot wasm_default)) /\
  given "wasm.allow_jit" (DBool (allow_jit wasm_default)) /\
  given "wasm.epoch_tick_interval_ms" (DInt (epoch_tick_interval_ms wasm_default)) /\
  given "wasm.default_timeout_ms" (DInt (default_timeout_ms wasm_default)) /\
  given "telemetry.error_capture.max_body_bytes" (DInt (max_body_bytes error_capture_default)) /\
  given "config_store.backend" (DString (st_backend store_default)) /\
  given "config_store.table_name" (DString (table_name store_default)) /\
  given "config_store.key" (DString (st_key store_default)) /\
  given "dns.enabled" (DBool (dns_enabled dns_default)) /\
  given "dns.interval_secs" (DInt (interval_secs dns_default)).
Proof. vm_compute. done. Qed.

(** ** Sources *)

(** Where the values come from, later sources winning; the environment prefixes
    are read last. *)
Inductive source :=
| SrcString (toml : string)
| SrcFile (name : string) (required : bool)
| SrcEnvironment (prefix : string).

Section Sources.
(** Environment variables, and which files exist. *)
Variable env : string -> option string.
Variable exists_file : string -> bool.

(** [env::var(a).or_else(|_| env::var(b))] *)
Definition env_or (a b : string) : option string :=
  match env a with Some v => Some v | None => env b end.

(** The files [SpectraConfig::new] reads. @core/config.rs:551-580 SpectraConfig::new *)
Definition file_sources : list source :=
  let spectra_env := default "development" (env_or "SPECTRA_ENV" "SPECTRAGQL_ENV") in
  match env_or "SPECTRA_CONFIG_CONTENT" "SPECTRAGQL_CONFIG_CONTENT" with
  | Some config_str => [SrcString config_str]
  | None =>
      match env_or "SPECTRA_CONFIG" "SPECTRAGQL_CONFIG" with
      | Some config_path => [SrcFile config_path true]
      | None =>
          if negb (String.eqb spectra_env "development") then
            let hyphen_file := String.append spectra_env "-spectra" in
            let dot_file := String.append "spectra." spectra_env in
            if exists_file (String.append hyphen_file ".toml") then [SrcFile hyphen_file true]
            else if exists_file (String.append dot_file ".toml") then [SrcFile dot_file true]
            else [SrcFile "spectra" false; SrcFile hyphen_file false]
          else [SrcFile "spectra" false; SrcFile "development-spectra" false]
      end
  end.
(** All sources and the override of the bind address. @core/config.rs:{fn new} SpectraConfig::new *)
Definition config_sources : list source * option string :=
  ((file_sources ++ [SrcEnvironment "spectra"; SrcEnvironment "spectragql"])%list,
   env_or "SPECTRA_BIND_ADDR" "SPECTRAGQL_BIND_ADDR").
(** @core/config.rs:{fn from_toml_str} SpectraConfig::from_toml_str *)
Definition toml_sources (content : string) : list source * option string :=
  ([SrcString content; SrcEnvironment "spectra"; SrcEnvironment "spectragql"],
   env_or "SPECTRA_BIND_ADDR" "SPECTRAGQL_BIND_ADDR").
End Sources.

(** ** Fallbacks *)

(** @core/config.rs:{fn gql_upstream} SpectraConfig::gql_upstream *)
Definition gql_upstream (c : SpectraConfig) : SpectraUpstreamConfig := default (upstream c) (g_upstream (gql c)).
(** @core/config.rs:{fn gql_dispatch} SpectraConfig::gql_dispatch *)
Definition gql_dispatch (c : SpectraConfig) : SpectraDispatchConfig := default (dispatch c) (g_dispatch (gql c)).
(** @core/config.rs:{fn rest_upstream} SpectraConfig::rest_upstream *)
Definition rest_upstream (c : SpectraConfig) : SpectraUpstreamConfig := default (upstream c) (r_upstream (rest c)).
(** @core/config.rs:{fn rest_dispatch} SpectraConfig::rest_dispatch *)
Definition rest_dispatch (c : SpectraConfig) : SpectraDispatchConfig := default (dispatch c) (r_dispatch (rest c)).

(** ** Upstream addresses *)

Section Upstreams.
(** Socket addresses, and name resolution: an error, or the addresses of a name. *)
Context {SocketAddr : Type}.
Variable to_socket_addrs : string -> result string (list SocketAddr).

Abbreviation addr_table := (gmap string SocketAddr * gmap string string)%type.

Definition first_addr (what addr : string) : result string SocketAddr :=
  addrs ← to_socket_addrs addr;
  ok_or (str_concat ["Could not resolve "; what; addr]) (head addrs).
Definition add_upstream (name : string) (a : SocketAddr) (addr : string) (t : addr_table) : addr_table :=
  (<[name := a]> (fst t), <[name := addr]> (snd t)).
Definition add_alias (name : string) (a : SocketAddr) (addr : string) (t : addr_table) : addr_table :=
  if negb (String.eqb name "") && negb (String.eqb name "default")
  then add_upstream name a addr t else t.

(** One entry of the loop over the named upstreams. @core/config.rs:665-682 SpectraConfig::resolve_all_upstreams_with_targets *)
Definition add_named (acc : result string addr_table) (e : string * SpectraUpstreamConfig) :
    result string addr_table :=
  t ← acc;
  a ← first_addr (str_concat ["upstream "; fst e; ": "]) (up_addr (snd e));
  Ok (add_alias (up_name (snd e)) a (up_addr (snd e)) (add_upstream (fst e) a (up_addr (snd e)) t)).

(** [resolve_all_upstreams_with_targets] @core/config.rs:{fn resolve_all_upstreams_with_targets} SpectraConfig::resolve_all_upstreams_with_targets *)
Definition resolve_all_upstreams_with_targets (c : SpectraConfig) : result string addr_table :=
  let def := gql_upstream c in
  def_addr ← first_addr "default upstream: " (up_addr def);
  fold_left add_named (upstreams c)
    (Ok (add_alias (up_name def) def_addr (up_addr def)
           (add_upstream "default" def_addr (up_addr def) (∅, ∅)))).
(** @core/config.rs:{fn resolve_all_upstreams} SpectraConfig::resolve_all_upstreams *)
Definition resolve_all_upstreams (c : SpectraConfig) : result string (gmap string SocketAddr) :=
  t ← resolve_all_upstreams_with_targets c; Ok (fst t).
(** @core/config.rs:{fn resolve_upstream_addr} SpectraConfig::resolve_upstream_addr *)
Definition resolve_upstream_addr (named_upstreams : gmap string SocketAddr)
    (default_addr : SocketAddr) (upstream_name : option string) : SocketAddr :=
  match upstream_name with
  | Some name => default default_addr (named_upstreams !! name)
  | None => default_addr
  end.
End Upstreams.

(** ** Applications *)

(** [s.split(':').next().unwrap_or(s).trim()] *)
Definition before_colon (s : string) : string := trim (default s (head (split_on ":" s))).
(** @core/config.rs:{fn find_app_by_host} SpectraConfig::find_app_by_host *)
Definition find_app_by_host (apps : list SpectraAppConfig) (host : string) : option SpectraAppConfig :=
  let clean_host := before_colon host in
  List.find (fun app => existsb (fun d => eq_ignore_ascii_case (before_colon d) clean_host) (domains app)) apps.
(** @core/config.rs:{fn find_app_by_id} SpectraConfig::find_app_by_id *)
Definition find_app_by_id (apps : list SpectraAppConfig) (id : string) : option SpectraAppConfig :=
  List.find (fun app => eq_ignore_ascii_case (app_id app) id) apps.
(** One prefix against the path. @core/config.rs:714-717 SpectraConfig::find_app_by_path *)
Definition prefix_matches (path prefix : string) : bool :=
  let clean_prefix := trim_end_char "/" prefix in
  String.eqb path clean_prefix || starts_with (String.append clean_prefix "/") path.
(** @core/config.rs:{fn find_app_by_path} SpectraConfig::find_app_by_path *)
Definition find_app_by_path (apps : list SpectraAppConfig) (path : string) : option SpectraAppConfig :=
  List.find (fun app => existsb (prefix_matches path) (path_prefixes app)) apps.

(** [o.or_else(f)] *)
Definition or_else {A} (o f : option A) : option A := match o with Some _ => o | None => f end.
(** [SpectraConfig::resolve_app] @core/config.rs:{fn resolve_app} SpectraConfig::resolve_app *)
Definition resolve_app (c : SpectraConfig) (host header_app : option string) (path : string) :
    option SpectraAppConfig :=
  let by_header := header_app ≫= find_app_by_id (apps c) in
  let by_host := host ≫= find_app_by_host (apps c) in
  let by_default := default_app c ≫= find_app_by_id (apps c) in
  or_else by_header (or_else by_host (or_else (find_app_by_path (apps c) path)
    (or_else by_default (head (apps c))))).

(** ** Properties *)

Section Properties.
Context {SocketAddr : Type}.
Variable to_socket_addrs : string -> result string (list SocketAddr).

(** Each name of the table is bound to the first address its target resolves to. *)
Definition table_ok (t : gmap string SocketAddr * gmap string string) : Prop :=
  forall n,
    match fst t !! n, snd t !! n with
    | Some a, Some target => exists l, to_socket_addrs target = Ok (a :: l)
    | None, None => True
    | _, _ => False
    end.

Lemma first_addr_ok what addr a :
  first_addr to_socket_addrs what addr = Ok a -> exists l, to_socket_addrs addr = Ok (a :: l).
Proof.
  unfold first_addr. destruct (to_socket_addrs addr) as [[|b l]|]; cbn; try done.
  intros [= ->]. by exists l.
Qed.

Lemma add_upstream_ok name a addr t :
  table_ok t -> (exists l, to_socket_addrs addr = Ok (a :: l)) ->
  table_ok (add_upstream name a addr t).
Proof.
  intros Ht Ha n. cbn. rewrite !lookup_insert. destruct (decide (name = n)); [done|apply Ht].
Qed.

Lemma add_alias_ok name a addr t :
  table_ok t -> (exists l, to_socket_addrs addr = Ok (a :: l)) -> table_ok (add_alias name a addr t).
Proof. intros Ht Ha. unfold add_alias. case_match; [by apply add_upstream_ok|done]. Qed.

Lemma add_upstream_mono name a addr (t : gmap string SocketAddr * gmap string string) n :
  is_Some (fst t !! n) -> is_Some (fst (add_upstream name a addr t) !! n).
Proof. intros Hn. cbn. rewrite lookup_insert. by case_decide. Qed.

Lemma add_alias_mono name a addr (t : gmap string SocketAddr * gmap string string) n :
  is_Some (fst t !! n) -> is_Some (fst (add_alias name a addr t) !! n).
Proof. intros Hn. unfold add_alias. case_match; [by apply add_upstream_mono|done]. Qed.

Lemma add_named_fold es t t' :
  fold_left (add_named to_socket_addrs) es (Ok t) = Ok t' -> table_ok t ->
  table_ok t' /\ (forall n, is_Some (fst t !! n) -> is_Some (fst t' !! n)) /\
  Forall (fun e => is_Some (fst t' !! fst e)) es.
Proof.
  revert t. induction es as [|[k cfg] es IH]; intros t; cbn [fold_left].
  { intros [= <-] Ht. by split. }
  intros Hf Ht. cbn in Hf.
  destruct (first_addr to_socket_addrs _ (up_addr cfg)) as [a|e] eqn:Ha; cbn in Hf; last first.
  { exfalso. revert Hf. clear. generalize e. induction es as [|x es IH]; cbn; [done|eauto]. }
  apply first_addr_ok in Ha.
  apply IH in Hf as (Hok & Hmono & Hall); [|by apply add_alias_ok, Ha; apply add_upstream_ok].
  split; [done|]. split.
  - intros n Hn. by apply Hmono, add_alias_mono, add_upstream_mono.
  - constructor; [|done]. apply Hmono, add_alias_mono. cbn. by rewrite lookup_insert_eq.
Qed.

(** The table of upstreams: when every upstream resolves, the default and each
    configured name is bound, addresses and targets have the same names, and each
    address is the first one its target resolves to. *)
Theorem resolve_all_upstreams_spec c t :
  resolve_all_upstreams_with_targets to_socket_addrs c = Ok t ->
  table_ok t /\ is_Some (fst t !! "default") /\
  Forall (fun e => is_Some (fst t !! fst e)) (upstreams c).
Proof.
  unfold resolve_all_upstreams_with_targets.
  destruct (first_addr to_socket_addrs _ (up_addr (gql_upstream c))) as [a|] eqn:Ha; cbn; [|done].
  intros Hf. apply first_addr_ok in Ha.
  apply add_named_fold in Hf as (Hok & Hmono & Hall).
  - split; [done|]. split; [|done]. apply Hmono, add_alias_mono. cbn. by rewrite lookup_insert_eq.
  - apply add_alias_ok; [|done]. apply add_upstream_ok; [|done]. intros n. cbn.
    by rewrite !lookup_empty.
Qed.
End Properties.

Lemma find_in {A} (p : A -> bool) l x : List.find p l = Some x -> x ∈ l.
Proof. intros Hf. apply List.find_some in Hf as [Hin _]. by apply list_elem_of_In. Qed.

(** Resolution of an application: the result is a configured application, there is
    one as soon as any is configured, and a known application named by the header
    wins over every other rule. *)
Theorem resolve_app_spec c host header_app path :
  (forall app, resolve_app c host header_app path = Some app -> app ∈ apps c) /\
  (apps c <> [] -> resolve_app c host header_app path <> None) /\
  (forall h app, header_app = Some h -> find_app_by_id (apps c) h = Some app ->
     resolve_app c host header_app path = Some app).
Proof.
  unfold resolve_app, or_else. split_and!.
  - intros app. repeat case_match; intros; simplify_eq.
    all: repeat match goal with H : _ ≫= _ = Some _ |- _ => apply bind_Some in H as (? & _ & H) end.
    all: try by (eapply find_in; eassumption).
    destruct (apps c); cbn in *; [done|]. simplify_eq. by left.
  - intros Hne. repeat case_match; try done. by destruct (apps c).
  - intros h app -> Hf. cbn. by rewrite Hf.
Qed.

Definition sample_config : SpectraConfig :=
  Spectra "0.0.0.0:8000"
    (GqlCfg "/gql,/graphql" "mutation" None None mode_a_default [] [])
    (RestCfg "/api,/api/{*path}" None None) (Upstream "default" None "localhost:4000")
    [("billing", Upstream "bill" None "10.0.0.2:80")]
    [App "shop" "" ["shop.example"] ["/shop/"] "default" None;
     App "bill" "" ["bill.example:8080"] [] "billing" None] (Some "SHOP")
    (DispatchCfg "default" None "nats" "127.0.0.1:4222" None None None)
    idempotency_default subscriptions_default admin_default [] wasm_default
    error_capture_default store_default dns_default.

Lemma resolve_all_upstreams_spec_witness :
  exists t, resolve_all_upstreams_with_targets (fun a => Ok [a]) sample_config = Ok t /\
            is_Some (fst t !! "default").
Proof.
  eexists. split; [reflexivity|].
  apply (resolve_all_upstreams_spec (fun a => Ok [a]) sample_config). reflexivity.
Defined.

Lemma resolve_app_spec_witness :
  resolve_app sample_config (Some "shop.example") (Some "BILL") "/shop/x" =
  find_app_by_id (apps sample_config) "bill".
Proof. by apply (resolve_app_spec sample_config) with (h := "BILL"). Defined.

Example resolve_app_host_before_path :
  app_id <$> resolve_app sample_config (Some "Bill.example:443") None "/shop/x" = Some "bill".
Proof. reflexivity. Qed.
