(* ===== verification/Interceptors.v ===== *)
(** * Interceptors: verdicts and pipelines, [src/interceptors].

    The context an interceptor sees, its verdict, the native request and response
    interceptors, and the two pipelines.  Interceptors share mutable state (token
    cache, circuit breakers); it is a world each call receives and returns, so a
    pipeline is a fold that threads the world, the context and the message. *)

From S2P Require Import Prelude Externals Clock Sanitizer Protocol.
Local Open Scope string_scope.

(** ** Context and verdicts *)

(** [AuthClaims] @interceptors/context.rs:{struct AuthClaims} AuthClaims *)
Record AuthClaims := Claims {
  subject : option string;
  tenant_id : option string;
  roles : list string;
  permissions : list string;
  raw_claims : json
}.
#[export] Instance AuthClaims_eq_dec : EqDecision AuthClaims.
Proof. solve_decision. Defined.
(** @interceptors/context.rs:{fn new} AuthClaims::new *)
Definition claims_new (s : string) : AuthClaims := Claims (Some s) None [] [] JNull.

(** [InterceptorContext] @interceptors/context.rs:{struct InterceptorContext} InterceptorContext *)
Record InterceptorContext := Ctx {
  ctx_request_id : string;
  ctx_hlc : HlcTimestamp;
  ctx_operation_name : option string;
  ctx_operation_type : option GraphQLOperationType;
  ctx_json_body : option json;
  metadata : gmap string string;
  ctx_extensions : gmap string json;
  duration_ms : Z;
  claims : option AuthClaims
}.
(** @interceptors/context.rs:59-71 InterceptorContext::new *)
Definition ctx_new (id : string) (h : HlcTimestamp) : InterceptorContext :=
  Ctx id h None None None ∅ ∅ 0 None.
(** @interceptors/context.rs:{fn with_operation} InterceptorContext::with_operation *)
Definition with_operation (name : option string) (op_type : option GraphQLOperationType)
    (c : InterceptorContext) : InterceptorContext :=
  Ctx (ctx_request_id c) (ctx_hlc c) name op_type (ctx_json_body c) (metadata c)
    (ctx_extensions c) (duration_ms c) (claims c).
(** @interceptors/context.rs:83-86 InterceptorContext::with_claims *)
Definition with_claims (cl : AuthClaims) (c : InterceptorContext) : InterceptorContext :=
  Ctx (ctx_request_id c) (ctx_hlc c) (ctx_operation_name c) (ctx_operation_type c)
    (ctx_json_body c) (metadata c) (ctx_extensions c) (duration_ms c) (Some cl).
(** @interceptors/context.rs:{fn is_authenticated} InterceptorContext::is_authenticated *)
Definition is_authenticated (c : InterceptorContext) : bool :=
  match claims c with Some cl => match subject cl with Some _ => true | None => false end | None => false end.
(** @interceptors/context.rs:{fn has_role} InterceptorContext::has_role *)
Definition has_role (c : InterceptorContext) (role : string) : bool :=
  match claims c with
  | Some cl => existsb (fun r => String.eqb r role || String.eqb r "*") (roles cl)
  | None => false
  end.
(** @interceptors/context.rs:{fn has_any_role} InterceptorContext::has_any_role *)
Definition has_any_role (c : InterceptorContext) (wanted : list string) : bool :=
  match claims c with
  | Some cl => existsb (fun r => String.eqb r "*" || existsb (String.eqb r) wanted) (roles cl)
  | None => false
  end.
(** @interceptors/context.rs:{fn has_permission} InterceptorContext::has_permission *)
Definition has_permission (c : InterceptorContext) (perm : string) : bool :=
  match claims c with
  | Some cl =>
      existsb (fun p => String.eqb p perm || String.eqb p "*") (permissions cl) ||
      existsb (fun r => String.eqb r "admin" || String.eqb r "*") (roles cl)
  | None => false
  end.

(** [InterceptorRejection] @interceptors/context.rs:{struct InterceptorRejection} InterceptorRejection *)
Record InterceptorRejection := Rejection {
  rj_status_code : Z;
  rj_code : string;
  rj_message : string;
  details : option json
}.
(** @interceptors/context.rs:149-156 InterceptorRejection::new *)
Definition rejection_new (status : Z) (code message : string) : InterceptorRejection :=
  Rejection status code message None.
(** [GraphQLErrorResponse::from] a rejection. @protocol/error.rs:87-95 GraphQLErrorResponse::from *)
Definition rejection_response (r : InterceptorRejection) : GraphQLErrorResponse :=
  let err := with_code (rj_code r) (error_new (rj_message r)) in
  error_single (match details r with Some d => with_extension "details" d err | None => err end).
(** @interceptors/context.rs:{fn to_graphql_response} InterceptorRejection::to_graphql_response *)
Definition to_graphql_response `{JsonText} (r : InterceptorRejection) : string :=
  error_to_json_string (rejection_response r).

(** [RuleEvaluationError] @interceptors/context.rs:{enum RuleEvaluationError} RuleEvaluationError *)
Inductive RuleEvaluationError :=
| RuleNotFound (rule : string)
| EvaluationFailed (msg : string)
| InvalidInput (msg : string).
(** @interceptors/context.rs:190-198 RuleEvaluationError::fmt *)
Definition rule_error_display (e : RuleEvaluationError) : string :=
  match e with
  | RuleNotFound rule => String.append "Rule not found: " rule
  | EvaluationFailed msg => String.append "Rule evaluation failed: " msg
  | InvalidInput msg => String.append "Invalid rule input: " msg
  end.

(** [RuleEvaluator] @interceptors/rules.rs:{trait RuleEvaluator} RuleEvaluator *)
Class RuleEvaluator (E : Type) := {
  evaluate : E -> string -> json -> result RuleEvaluationError bool
}.
(** [NativeRuleEvaluator]: a registry of predicates. @interceptors/rules.rs:{struct NativeRuleEvaluator} NativeRuleEvaluator *)
Definition NativeRuleEvaluator : Type := gmap string (json -> bool).
(** @interceptors/rules.rs:{fn register} NativeRuleEvaluator::register *)
Definition register (name : string) (p : json -> bool) (e : NativeRuleEvaluator) : NativeRuleEvaluator :=
  insert (M := gmap string (json -> bool)) name p e.
(** @interceptors/rules.rs:{fn unregister} NativeRuleEvaluator::unregister *)
Definition unregister (name : string) (e : NativeRuleEvaluator) : NativeRuleEvaluator :=
  delete (M := gmap string (json -> bool)) name e.
(** @interceptors/rules.rs:45-52 NativeRuleEvaluator::evaluate *)
Definition native_evaluate (e : NativeRuleEvaluator) (rule_name : string) (input : json) :
    result RuleEvaluationError bool :=
  match lookup (M := gmap string (json -> bool)) rule_name e with
  | Some pred => Ok (pred input)
  | None => Err (RuleNotFound rule_name)
  end.
#[export] Instance native_rule_evaluator : RuleEvaluator NativeRuleEvaluator := {|
  evaluate := native_evaluate
|}.

(** ** Shared state *)

(** An [Arc<Mutex<A>>], [Arc<RwLock<A>>] or atomic held by an interceptor: a cell of
    the world.  The clocks are part of the world too: [system_now] is the
    [SystemTime] in seconds since the epoch, or [None] before it; [instant_now] the
    [Instant] in nanoseconds. *)
Record Ref (W A : Type) := {
  deref : W -> A;
  assign : A -> W -> W;
  deref_assign a w : deref (assign a w) = a
}.
Arguments deref {_ _} _.
Arguments assign {_ _} _.
Arguments deref_assign {_ _} _.
Class Clocks (W : Type) := {
  system_now : W -> option Z;
  instant_now : W -> Z
}.

Section Interceptors.
Context `{HttpLib, JsonText, GqlParser}.

(** [InterceptorVerdict] @interceptors/context.rs:{enum InterceptorVerdict} InterceptorVerdict *)
Inductive InterceptorVerdict :=
| Pass
| Reject (r : InterceptorRejection)
| Transform (headers : option HeaderMap) (body : option string)
| Audit (rule_name : string) (tag : option string) (reason : string).

(** Request parts are those of [HttpRequestInfo]; response parts are a status and
    headers. *)
Record response_parts := RespParts { rp_status : Z; rp_headers : HeaderMap }.

Section World.
Context {W : Type}.

(** [RequestInterceptor] @interceptors/request.rs:{trait RequestInterceptor} RequestInterceptor *)
Record req_outcome := ReqOut {
  q_verdict : InterceptorVerdict;
  q_world : W;
  q_ctx : InterceptorContext;
  q_parts : HttpRequestInfo
}.
Definition RequestInterceptor : Type :=
  W -> InterceptorContext -> HttpRequestInfo -> string -> req_outcome.
(** [ResponseInterceptor] @interceptors/response.rs:{trait ResponseInterceptor} ResponseInterceptor *)
Record resp_outcome := RespOut {
  s_verdict : InterceptorVerdict;
  s_world : W;
  s_parts : response_parts
}.
Definition ResponseInterceptor : Type :=
  W -> InterceptorContext -> response_parts -> string -> resp_outcome.

Definition reject_with (status : Z) (code message : string) : InterceptorVerdict :=
  Reject (rejection_new status code message).

(** ** Native request interceptors *)

(** [GraphQLSyntaxInterceptor] @interceptors/request.rs:22-93 GraphQLSyntaxInterceptor::intercept_request *)
Definition graphql_syntax (json_error : string -> string) : RequestInterceptor := fun w ctx parts body =>
  let path := uri_path (uri parts) in
  let out v := ReqOut v w ctx parts in
  if negb (str_contains "graphql" path) && negb (str_contains "gql" path) then out Pass
  else match ctx_operation_type ctx with
  | Some _ => out Pass
  | None =>
      if String.eqb (trim body) "" then
        out (reject_with 400 "GRAPHQL_PARSE_FAILED" "Empty GraphQL request body")
      else match json_from_str body with
      | None =>
          out (reject_with 400 "GRAPHQL_PARSE_FAILED"
                 (String.append "Invalid JSON request body: " (json_error body)))
      | Some parsed_json =>
          match j_str_field "query" parsed_json with
          | None =>
              out (reject_with 400 "GRAPHQL_PARSE_FAILED"
                     "Missing 'query' field in GraphQL request body")
          | Some query =>
              match parse_graphql_operation_with_name query (j_str_field "operationName" parsed_json) with
              | Err e =>
                  out (reject_with 400 "GRAPHQL_SYNTAX_ERROR"
                         (String.append "Failed to parse GraphQL query: " e))
              | Ok op =>
                  ReqOut Pass w
                    (with_operation (p_operation_name op) (Some (p_operation_type op)) ctx) parts
              end
          end
      end
  end.

(** [HeaderValidationInterceptor] @interceptors/request.rs:111-132 HeaderValidationInterceptor::intercept_request *)
Definition header_validation (require_json_content_type : bool) : RequestInterceptor :=
  fun w ctx parts _ =>
  let content_type := default "" (header_str "content-type" (headers parts)) in
  if require_json_content_type && String.eqb (method parts) "POST" &&
     negb (str_contains "application/json" content_type)
  then ReqOut (reject_with 415 "INVALID_CONTENT_TYPE" "Content-Type must be application/json") w ctx parts
  else ReqOut Pass w ctx parts.

(** [constant_time_eq] on bytes: the accumulated differences. @interceptors/request.rs:{fn constant_time_eq} constant_time_eq *)
Definition constant_time_eq (a b : list Z) : bool :=
  if negb (Nat.eqb (length a) (length b)) then false
  else Z.eqb (fold_left (fun r xy => Z.lor r (Z.lxor (fst xy) (snd xy))) (combine a b) 0%Z) 0.

(** [DeployAuthInterceptor::new]: the configured token or the environment's. @interceptors/request.rs:153-158 DeployAuthInterceptor::new *)
Definition deploy_auth_token (env : string -> option string) (deploy_token : option string) : option string :=
  match deploy_token with
  | Some t => Some t
  | None => match env "SPECTRA_DEPLOY_TOKEN" with
            | Some t => Some t
            | None => env "SPECTRAGQL_DEPLOY_TOKEN"
            end
  end.
(** The operations it guards. @interceptors/request.rs:174-177 DeployAuthInterceptor::intercept_request *)
Definition is_deploy_op (operation_name : option string) : bool :=
  let op_name := to_ascii_lowercase (default "" operation_name) in
  str_contains "deployfluxcell" op_name || str_contains "activatefluxcell" op_name ||
  str_contains "removefluxcell" op_name.
(** The credential of a request. @interceptors/request.rs:194-204 DeployAuthInterceptor::intercept_request *)
Definition deploy_credential (h : HeaderMap) : option string :=
  let bearer :=
    match header_str "authorization" h with
    | Some v => match strip_prefix "Bearer " v with
                | Some t => Some t
                | None => strip_prefix "bearer " v
                end
    | None => None
    end in
  match bearer with Some t => Some t | None => header_str "x-spectra-deploy-key" h end.
(** [DeployAuthInterceptor] @interceptors/request.rs:168-218 DeployAuthInterceptor::intercept_request *)
Definition deploy_auth (deploy_token : option string) : RequestInterceptor := fun w ctx parts _ =>
  let out v := ReqOut v w ctx parts in
  if negb (is_deploy_op (ctx_operation_name ctx)) then out Pass
  else match (match deploy_token with
              | Some token => if String.eqb (trim token) "" then None else Some token
              | None => None
              end) with
  | None =>
      out (reject_with 401 "DEPLOY_UNAUTHORIZED"
        "Deployment authorization token is not configured on the gateway (set SPECTRA_DEPLOY_TOKEN or deploy_token in spectra.toml)")
  | Some expected =>
      match deploy_credential (headers parts) with
      | Some provided =>
          if constant_time_eq (as_bytes (trim provided)) (as_bytes (trim expected)) then out Pass
          else out (reject_with 401 "DEPLOY_UNAUTHORIZED" "Invalid or missing deployment authorization token")
      | None =>
          out (reject_with 401 "DEPLOY_UNAUTHORIZED" "Invalid or missing deployment authorization token")
      end
  end.

(** ** The sensitive-data response interceptor *)

(** [SensitiveDataResponseInterceptor] @interceptors/response.rs:60-95 SensitiveDataResponseInterceptor::intercept_response *)
Definition sensitive_data (evaluator : option (string -> json -> result RuleEvaluationError bool))
    (forbidden_tokens : list string) : ResponseInterceptor := fun w ctx parts body =>
  let out v := RespOut v w parts in
  if utf8_valid body then
    match List.find (fun token => str_contains token body) forbidden_tokens with
    | Some token =>
        out (reject_with 500 "DATA_LEAK_PREVENTED"
               (String.append "Response contains forbidden token: " token))
    | None =>
        match evaluator with
        | Some ev =>
            match json_from_str body with
            | Some json_val =>
                match ev "sensitive_data_check" json_val with
                | Ok true =>
                    out (reject_with 500 "DATA_LEAK_PREVENTED"
                           "Response failed sensitive data evaluation rule")
                | _ => out Pass
                end
            | None => out Pass
            end
        | None => out Pass
        end
    end
  else out Pass.

(** ** Pipelines *)

(** [RequestInterceptorPipeline::intercept_request]: only [Pass] and [Audit] go on
    to the next interceptor. @interceptors/request.rs:259-280 RequestInterceptorPipeline::intercept_request *)
Fixpoint request_loop (audit_verdict : option InterceptorVerdict) (js : list RequestInterceptor)
    (w : W) (ctx : InterceptorContext) (parts : HttpRequestInfo) (body : string) : req_outcome :=
  match js with
  | [] => ReqOut (default Pass audit_verdict) w ctx parts
  | i :: js' =>
      let o := i w ctx parts body in
      match q_verdict o with
      | Pass => request_loop audit_verdict js' (q_world o) (q_ctx o) (q_parts o) body
      | Audit rule_name tag reason =>
          request_loop (Some (Audit rule_name tag reason)) js' (q_world o) (q_ctx o) (q_parts o) body
      | other => ReqOut other (q_world o) (q_ctx o) (q_parts o)
      end
  end.
Definition request_pipeline : list RequestInterceptor -> RequestInterceptor := request_loop None.

(** [ResponseInterceptorPipeline::intercept_response]: bodies are threaded, the
    last headers and the last audit win. @interceptors/response.rs:{fn intercept_response#4} ResponseInterceptorPipeline::intercept_response *)
Fixpoint response_loop (current_body : option string) (current_headers : option HeaderMap)
    (audit_verdict : option InterceptorVerdict) (js : list ResponseInterceptor)
    (w : W) (ctx : InterceptorContext) (parts : response_parts) (body : string) : resp_outcome :=
  match js with
  | [] =>
      RespOut
        (match current_body, current_headers with
         | None, None => default Pass audit_verdict
         | _, _ => Transform current_headers current_body
         end) w parts
  | i :: js' =>
      let o := i w ctx parts (default body current_body) in
      match s_verdict o with
      | Pass => response_loop current_body current_headers audit_verdict js' (s_world o) ctx (s_parts o) body
      | Reject r => RespOut (Reject r) (s_world o) (s_parts o)
      | Transform h b =>
          response_loop (match b with Some _ => b | None => current_body end)
            (match h with Some _ => h | None => current_headers end)
            audit_verdict js' (s_world o) ctx (s_parts o) body
      | Audit rule_name tag reason =>
          response_loop current_body current_headers (Some (Audit rule_name tag reason)) js'
            (s_world o) ctx (s_parts o) body
      end
  end.
Definition response_pipeline : list ResponseInterceptor -> ResponseInterceptor :=
  response_loop None None None.
End World.
End Interceptors.

Arguments req_outcome {_} _.
Arguments resp_outcome {_} _.
Arguments RequestInterceptor {_} _.
Arguments ResponseInterceptor {_} _.

(** ** Lemmas *)

Lemma fold_lor_zero (l : list (Z * Z)) acc :
  fold_left (fun r xy => Z.lor r (Z.lxor (fst xy) (snd xy))) l acc = 0%Z <->
  acc = 0%Z /\ Forall (fun xy => fst xy = snd xy) l.
Proof.
  revert acc. induction l as [|[x y] l IH]; intros acc; cbn.
  - split; [intros ->; by split|tauto].
  - rewrite IH, Z.lor_eq_0_iff, Z.lxor_eq_0_iff, Forall_cons. tauto.
Qed.

Lemma combine_diag {A} (a b : list A) :
  length a = length b -> Forall (fun xy => fst xy = snd xy) (combine a b) -> a = b.
Proof.
  revert b. induction a as [|x a IH]; intros [|y b]; cbn; try done.
  intros Hl [Hx Hf]%Forall_cons. cbn in Hx. f_equal; [done|]. apply IH; [lia|done].
Qed.

Lemma constant_time_eq_true a b : constant_time_eq a b = true <-> a = b.
Proof.
  unfold constant_time_eq. destruct (Nat.eqb_spec (length a) (length b)) as [Hl|Hl]; cbn.
  - rewrite Z.eqb_eq, fold_lor_zero. split.
    + intros [_ Hf]. by apply combine_diag.
    + intros <-. split; [done|]. clear. induction a; cbn; constructor; done.
  - split; [done|]. by intros ->.
Qed.

Lemma as_bytes_inj s t : as_bytes s = as_bytes t -> s = t.
Proof.
  revert t. induction s as [|a s IH]; intros [|b t]; cbn; try done.
  intros [= Hab Hst]. f_equal; [|by apply IH].
  rewrite <- (ascii_N_embedding a), <- (ascii_N_embedding b). f_equal. lia.
Qed.

Lemma constant_time_eq_bytes s t :
  constant_time_eq (as_bytes s) (as_bytes t) = String.eqb s t.
Proof.
  apply eq_true_iff_eq. rewrite constant_time_eq_true, String.eqb_eq.
  split; [apply as_bytes_inj|congruence].
Qed.

Section PipelineLemmas.
Context `{HttpLib, JsonText, GqlParser} {W : Type}.

(** A verdict after which the request pipeline goes on. *)
Definition goes_on (v : InterceptorVerdict) : bool :=
  match v with Pass | Audit _ _ _ => true | _ => false end.
Definition audit_of (v : InterceptorVerdict) : option InterceptorVerdict :=
  match v with Audit _ _ _ => Some v | _ => None end.

(** [runs body js s s' a]: the interceptors [js], one after the other, take the
    state [s] to [s'], all of them letting the request go on, [a] the last audit. *)
Inductive runs (body : string) :
    list (RequestInterceptor W) -> W * InterceptorContext * HttpRequestInfo ->
    W * InterceptorContext * HttpRequestInfo -> option InterceptorVerdict -> Prop :=
| runs_nil s : runs body [] s s None
| runs_cons i js w ctx parts s' a :
    let o := i w ctx parts body in
    goes_on (q_verdict o) = true ->
    runs body js (q_world o, q_ctx o, q_parts o) s' a ->
    runs body (i :: js) (w, ctx, parts) s' (match a with Some _ => a | None => audit_of (q_verdict o) end).

(** What a request pipeline may answer. *)
Inductive pipeline_outcome (body : string) (js : list (RequestInterceptor W))
    (s : W * InterceptorContext * HttpRequestInfo) (o : req_outcome W) : Prop :=
| all_go_on w ctx parts a :
    runs body js s (w, ctx, parts) a ->
    o = ReqOut (default Pass a) w ctx parts ->
    pipeline_outcome body js s o
| stopped_at js1 i js2 w ctx parts a :
    js = (js1 ++ i :: js2)%list ->
    runs body js1 s (w, ctx, parts) a ->
    goes_on (q_verdict (i w ctx parts body)) = false ->
    o = i w ctx parts body ->
    pipeline_outcome body js s o.

Lemma runs_loop body js1 s s' a : runs body js1 s s' a -> forall acc js2,
  request_loop acc (js1 ++ js2)%list (fst (fst s)) (snd (fst s)) (snd s) body =
  request_loop (match a with Some _ => a | None => acc end) js2
    (fst (fst s')) (snd (fst s')) (snd s') body.
Proof.
  induction 1 as [s|i js w ctx parts s' a o Hgo Hr IH]; intros acc js2; cbn; [done|].
  fold o. destruct (q_verdict o) eqn:E; try done; cbn in IH; rewrite IH;
    destruct a; done.
Qed.

Lemma runs_or_stops body js : forall s,
  (exists s' a, runs body js s s' a) \/
  (exists js1 i js2 w ctx parts a, js = (js1 ++ i :: js2)%list /\ runs body js1 s (w, ctx, parts) a /\
    goes_on (q_verdict (i w ctx parts body)) = false).
Proof.
  induction js as [|i js IH]; intros [[w ctx] parts]; [left; repeat eexists; constructor|].
  destruct (goes_on (q_verdict (i w ctx parts body))) eqn:Hgo.
  - destruct (IH (q_world (i w ctx parts body), q_ctx (i w ctx parts body),
                  q_parts (i w ctx parts body)))
      as [(s' & a & Hr)|(js1 & i' & js2 & w' & ctx' & parts' & a & -> & Hr & Hs)].
    + left. repeat eexists. by apply runs_cons.
    + right. exists (i :: js1). repeat eexists; [by apply runs_cons|done].
  - right. exists []. repeat eexists; [constructor|done].
Qed.

(** The response pipeline's accumulators as one step. *)
Definition resp_acc : Type := option string * option HeaderMap * option InterceptorVerdict.
Definition resp_acc_step (acc : resp_acc) (v : InterceptorVerdict) : resp_acc :=
  match v with
  | Transform h b =>
      (match b with Some _ => b | None => fst (fst acc) end,
       match h with Some _ => h | None => snd (fst acc) end, snd acc)
  | Audit _ _ _ => (fst acc, Some v)
  | _ => acc
  end.
Definition is_reject (v : InterceptorVerdict) : bool :=
  match v with Reject _ => true | _ => false end.

(** [resp_runs ctx body js acc s vs s']: no interceptor of [js] rejects, each sees the
    body as the transformations before it left it, and [vs] are their verdicts. *)
Inductive resp_runs (ctx : InterceptorContext) (body : string) :
    list (ResponseInterceptor W) -> resp_acc -> W * response_parts ->
    list InterceptorVerdict -> W * response_parts -> Prop :=
| resp_nil acc s : resp_runs ctx body [] acc s [] s
| resp_cons i js acc w parts vs s' :
    let o := i w ctx parts (default body (fst (fst acc))) in
    is_reject (s_verdict o) = false ->
    resp_runs ctx body js (resp_acc_step acc (s_verdict o)) (s_world o, s_parts o) vs s' ->
    resp_runs ctx body (i :: js) acc (w, parts) (s_verdict o :: vs) s'.

Definition resp_answer (acc : resp_acc) : InterceptorVerdict :=
  match acc with
  | (None, None, a) => default Pass a
  | (b, h, _) => Transform h b
  end.

Lemma resp_runs_loop ctx body js1 acc s vs s' : resp_runs ctx body js1 acc s vs s' -> forall js2,
  response_loop (fst (fst acc)) (snd (fst acc)) (snd acc) (js1 ++ js2)%list (fst s) ctx (snd s) body =
  let acc' := fold_left resp_acc_step vs acc in
  response_loop (fst (fst acc')) (snd (fst acc')) (snd acc') js2 (fst s') ctx (snd s') body.
Proof.
  induction 1 as [acc s|i js acc w parts vs s' o Hgo Hr IH]; intros js2; cbn; [done|].
  fold o. destruct (s_verdict o) eqn:E; try done; cbn in IH; by rewrite IH.
Qed.

Lemma resp_runs_or_rejects ctx body js : forall acc s,
  (exists vs s', resp_runs ctx body js acc s vs s') \/
  (exists js1 i js2 vs w parts, js = (js1 ++ i :: js2)%list /\ resp_runs ctx body js1 acc s vs (w, parts) /\
    is_reject (s_verdict (i w ctx parts (default body (fst (fst (fold_left resp_acc_step vs acc)))))) = true).
Proof.
  induction js as [|i js IH]; intros acc [w parts]; [left; repeat eexists; constructor|].
  destruct (is_reject (s_verdict (i w ctx parts (default body (fst (fst acc)))))) eqn:Hgo.
  - right. exists []. repeat eexists; [constructor|done].
  - destruct (IH (resp_acc_step acc (s_verdict (i w ctx parts (default body (fst (fst acc))))))
      (s_world (i w ctx parts (default body (fst (fst acc)))),
       s_parts (i w ctx parts (default body (fst (fst acc))))))
      as [(vs & s' & Hr)|(js1 & i' & js2 & vs & w' & parts' & -> & Hr & Hs)].
    + left. repeat eexists. by apply resp_cons.
    + right. exists (i :: js1). repeat eexists; [by apply resp_cons|done].
Qed.
End PipelineLemmas.

(** ** Properties *)

Section Properties.
Context `{HttpLib, JsonText, GqlParser} {W : Type}.

(** The request pipeline runs its interceptors in order, threading the context and
    the request; it answers with the first verdict that is neither a pass nor an
    audit, running no interceptor after it, and otherwise with the last audit, or a
    pass. *)
Theorem request_pipeline_spec (js : list (RequestInterceptor W)) w ctx parts body :
  pipeline_outcome body js (w, ctx, parts) (request_pipeline js w ctx parts body).
Proof.
  unfold request_pipeline.
  destruct (runs_or_stops body js (w, ctx, parts))
    as [([[w' ctx'] parts'] & a & Hr)|(js1 & i & js2 & w' & ctx' & parts' & a & -> & Hr & Hs)].
  - eapply all_go_on; [done|].
    pose proof (runs_loop _ _ _ _ _ Hr None []) as Hl. rewrite app_nil_r in Hl. cbn in Hl.
    rewrite Hl. by destruct a.
  - eapply stopped_at; [done..|].
    pose proof (runs_loop _ _ _ _ _ Hr None (i :: js2)) as Hl. cbn in Hl. rewrite Hl.
    by destruct (i w' ctx' parts' body) as [[] ???].
Qed.

(** A transforming request interceptor ends the request pipeline: whatever the
    interceptors after it are, none of them runs, also one that would reject. *)
Theorem request_transform_skips_rest i (js : list (RequestInterceptor W)) w ctx parts body h b :
  q_verdict (i w ctx parts body) = Transform h b ->
  request_pipeline (i :: js) w ctx parts body = i w ctx parts body.
Proof.
  intros E. unfold request_pipeline. cbn. destruct (i w ctx parts body); cbn in *. by subst.
Qed.

(** The response pipeline answers with the first rejection; when none rejects it
    answers a transformation with the last body and the last headers set, each
    interceptor having seen the body the ones before it left, else the last audit,
    else a pass. *)
Theorem response_pipeline_spec (js : list (ResponseInterceptor W)) w ctx parts body :
  (exists vs w' parts',
     resp_runs ctx body js (None, None, None) (w, parts) vs (w', parts') /\
     response_pipeline js w ctx parts body =
       RespOut (resp_answer (fold_left resp_acc_step vs (None, None, None))) w' parts') \/
  (exists js1 i js2 vs w' parts' r,
     js = (js1 ++ i :: js2)%list /\
     resp_runs ctx body js1 (None, None, None) (w, parts) vs (w', parts') /\
     let o := i w' ctx parts' (default body (fst (fst (fold_left resp_acc_step vs (None, None, None))))) in
     s_verdict o = Reject r /\ response_pipeline js w ctx parts body = o).
Proof.
  unfold response_pipeline.
  destruct (resp_runs_or_rejects ctx body js (None, None, None) (w, parts))
    as [(vs & [w' parts'] & Hr)|(js1 & i & js2 & vs & w' & parts' & -> & Hr & Hs)].
  - left. exists vs, w', parts'. split; [done|].
    pose proof (resp_runs_loop _ _ _ _ _ _ _ Hr []) as Hl. rewrite app_nil_r in Hl. cbn in Hl.
    rewrite Hl. by destruct (fold_left resp_acc_step vs _) as [[[b|] [h|]] a].
  - right. pose proof (resp_runs_loop _ _ _ _ _ _ _ Hr (i :: js2)) as Hl. cbn in Hl.
    destruct (s_verdict (i w' ctx parts' (default body (fst (fst (fold_left resp_acc_step vs
      (None, None, None))))))) as [|r| |] eqn:E; try done.
    exists js1, i, js2, vs, w', parts', r. split_and!; [done..|]. rewrite Hl.
    destruct (i w' ctx parts' _) as [v w1 p1]; cbn in *. by rewrite E.
Qed.

(** A deployment operation passes exactly when a token that is not blank is
    configured and the request carries the same token, spaces around either
    ignored; every other operation passes; a refusal is a 401. *)
Theorem deploy_auth_spec deploy_token (w : W) ctx parts body :
  let o := deploy_auth deploy_token w ctx parts body in
  q_world o = w /\ q_ctx o = ctx /\ q_parts o = parts /\
  (q_verdict o = Pass <->
   (is_deploy_op (ctx_operation_name ctx) = true ->
    exists expected provided,
      deploy_token = Some expected /\ trim expected <> "" /\
      deploy_credential (headers parts) = Some provided /\ trim provided = trim expected)) /\
  (q_verdict o <> Pass -> exists msg, q_verdict o = reject_with 401 "DEPLOY_UNAUTHORIZED" msg).
Proof.
  cbn. unfold deploy_auth. destruct (is_deploy_op _); cbn; [|by repeat split].
  assert (forall (P : Prop) m, ~ P -> (reject_with 401 "DEPLOY_UNAUTHORIZED" m = Pass <-> (true = true -> P)) /\
    (reject_with 401 "DEPLOY_UNAUTHORIZED" m <> Pass ->
     exists msg, reject_with 401 "DEPLOY_UNAUTHORIZED" m = reject_with 401 "DEPLOY_UNAUTHORIZED" msg)) as Hno.
  { intros P m HP. split; [split; [done|intros HP'; by destruct (HP (HP' eq_refl))]|]. intros _. by exists m. }
  destruct deploy_token as [token|]; cbn;
    [|do 3 (split; [done|]); apply Hno; by intros (? & ? & ? & _)].
  destruct (String.eqb_spec (trim token) "") as [Eb|Eb]; cbn.
  { do 3 (split; [done|]); apply Hno; intros (? & ? & [= <-] & ? & _); done. }
  destruct (deploy_credential (headers parts)) as [provided|]; cbn;
    [|do 3 (split; [done|]); apply Hno; by intros (? & ? & _ & _ & ? & _)].
  rewrite constant_time_eq_bytes. destruct (String.eqb_spec (trim provided) (trim token)); cbn.
  - split_and!; try done. split; [|done]. intros _ _. exists token, provided. by split_and!.
  - do 3 (split; [done|]); apply Hno. by intros (? & ? & [= <-] & _ & [= <-] & ?).
Qed.
End Properties.

(** [constant_time_eq] is equality of byte strings. *)
Theorem constant_time_eq_spec a b : constant_time_eq a b = bool_decide (a = b).
Proof. apply eq_true_iff_eq. by rewrite constant_time_eq_true, bool_decide_eq_true. Qed.
