(* ===== verification/Auth.v ===== *)
(** * Auth: token verification and role-based access, [src/interceptors/auth.rs].

    Providers and keys, the verification of a JSON web token, key sets, the DER
    encoding of RSA keys, the token cache and the interceptor that decides by role
    and policy.  Signatures, base64 and the order of a hash map are parameters. *)

From S2P Require Import Prelude Externals Clock Sanitizer Protocol Interceptors.
Local Open Scope string_scope.

(** [PolicyMode] @interceptors/auth.rs:{enum PolicyMode} PolicyMode *)
Inductive PolicyMode := AuditOnly | PassAll | AllowAuthenticated | DenyUnlisted.
#[export] Instance PolicyMode_eq_dec : EqDecision PolicyMode.
Proof. solve_decision. Defined.
(** @interceptors/auth.rs:{fn from_str} PolicyMode::from_str *)
Definition policy_from_str (s : string) : PolicyMode :=
  let l := to_ascii_lowercase s in
  if String.eqb l "pass_all" || String.eqb l "permissive" then PassAll
  else if String.eqb l "allow_authenticated" then AllowAuthenticated
  else if String.eqb l "deny_unlisted" || String.eqb l "strict" || String.eqb l "zero_trust" then DenyUnlisted
  else AuditOnly.

(** [ClaimsMapping] @interceptors/auth.rs:{struct ClaimsMapping} ClaimsMapping *)
Record ClaimsMapping := Mapping {
  subject_path : string;
  tenant_path : option string;
  roles_path : string;
  permissions_path : option string
}.
(** @interceptors/auth.rs:54-63 ClaimsMapping::default *)
Definition mapping_default : ClaimsMapping := Mapping "sub" (Some "org_id") "roles" (Some "permissions").

(** [JwksKey] @interceptors/auth.rs:{enum JwksKey} JwksKey *)
Inductive JwksKey :=
| RsaPkcs1 (der_bytes : list Z)
| Ed25519 (raw_bytes : list Z).
Abbreviation key_set := (gmap string JwksKey).

(** Signature verification, base64 (with the text of its errors), the texts of JSON
    errors, and the key a hash map yields first. *)
Class AuthLib := {
  hmac_verify : list Z -> string -> string -> bool;
  rsa_verify : list Z -> string -> string -> bool;
  ed25519_verify : list Z -> string -> string -> bool;
  b64url_no_pad : string -> result string string;
  b64url_padded : string -> result string string;
  json_slice_error : string -> string;
  first_key : key_set -> option JwksKey;
  first_key_some m k : first_key m = Some k -> exists i, m !! i = Some k;
  first_key_none m : first_key m = None -> m = ∅
}.

(** [serde_json::from_slice] on bytes, to a [Value] and as the text stands. *)
Definition json_from_slice `{JsonText} (b : string) : option json :=
  if utf8_valid b then json_from_str b else None.
Definition json_read_slice `{JsonText} (b : string) : option json :=
  if utf8_valid b then json_read b else None.

(** [n as i64] of a [u64]. *)
Definition as_i64_cast (n : Z) : Z :=
  let x := Int.wrap 64 n in if (x <=? Int.i64_max)%Z then x else (x - 2 ^ 64)%Z.

Section Tokens.
Context `{JsonText, Unicode, AuthLib}.

Definition map_err {E F A} (f : E -> F) (r : result E A) : result F A :=
  match r with Ok a => Ok a | Err e => Err (f e) end.

(** @interceptors/auth.rs:{fn decode_b64url} decode_b64url *)
Definition decode_b64url (s : string) : result string string :=
  match b64url_no_pad s with
  | Ok b => Ok b
  | Err _ => map_err (String.append "Base64url decode error: ") (b64url_padded s)
  end.
(** @interceptors/auth.rs:{fn decode_json_b64url} decode_json_b64url *)
Definition decode_json_b64url (s : string) : result string json :=
  match decode_b64url s with
  | Err e => Err e
  | Ok b => match json_from_slice b with
            | Some j => Ok j
            | None => Err (String.append "JSON decode error: " (json_slice_error b))
            end
  end.

(** ** RSA keys *)

(** @interceptors/auth.rs:{fn encode_der_length} rsa_components_to_der::encode_der_length *)
Definition encode_der_length (len : Z) : list Z :=
  if (len <? 128)%Z then [Int.wrap 8 len]
  else if (len <? 256)%Z then [129%Z; Int.wrap 8 len]
  else [130%Z; Int.wrap 8 (Z.shiftr len 8); Int.wrap 8 (Z.land len 255)].
(** @interceptors/auth.rs:{fn encode_der_integer} rsa_components_to_der::encode_der_integer *)
Definition encode_der_integer (b : list Z) : list Z :=
  let needs_leading_zero := match b with x :: _ => negb (Z.eqb (Z.land x 128) 0) | [] => false end in
  let len := (Z.of_nat (length b) + (if needs_leading_zero then 1 else 0))%Z in
  (2%Z :: encode_der_length len ++ (if needs_leading_zero then [0%Z] else []) ++ b)%list.
(** @interceptors/auth.rs:{fn rsa_components_to_der} rsa_components_to_der *)
Definition rsa_components_to_der (n e : list Z) : list Z :=
  let int_n := encode_der_integer n in
  let int_e := encode_der_integer e in
  let total_len := Z.of_nat (length int_n + length int_e) in
  (48%Z :: encode_der_length total_len ++ int_n ++ int_e)%list.

(** ** Providers *)

Section Provider.
Context {W : Type} `{Clocks W}.

(** [AuthProvider]; the key set of [Jwks] is shared with the task that refreshes it.
    @interceptors/auth.rs:{enum AuthProvider} AuthProvider *)
Inductive AuthProvider :=
| Hmac (secret : list Z)
| Jwks (jwks_url : string) (keys : Ref W key_set) (last_refreshed : Ref W (option Z)) (refresh_interval : Z)
| StaticKey (kid : option string) (key : JwksKey).

(** @interceptors/auth.rs:{fn static_rsa} AuthProvider::static_rsa *)
Definition static_rsa (kid : option string) (n_b64url e_b64url : string) : result string AuthProvider :=
  match map_err (String.append "Invalid RSA modulus 'n': ") (decode_b64url n_b64url) with
  | Err e => Err e
  | Ok n =>
      match map_err (String.append "Invalid RSA exponent 'e': ") (decode_b64url e_b64url) with
      | Err e => Err e
      | Ok e => Ok (StaticKey kid (RsaPkcs1 (rsa_components_to_der (as_bytes n) (as_bytes e))))
      end
  end.
(** @interceptors/auth.rs:{fn static_ed25519} AuthProvider::static_ed25519 *)
Definition static_ed25519 (kid : option string) (x_b64url : string) : result string AuthProvider :=
  match map_err (String.append "Invalid Ed25519 public key 'x': ") (decode_b64url x_b64url) with
  | Err e => Err e
  | Ok raw => Ok (StaticKey kid (Ed25519 (as_bytes raw)))
  end.
(** @interceptors/auth.rs:{fn set_jwks_keys} AuthProvider::set_jwks_keys *)
Definition set_jwks_keys (p : AuthProvider) (new_keys : key_set) (w : W) : W :=
  match p with
  | Jwks _ keys last_refreshed _ =>
      let w' := assign keys new_keys w in
      assign last_refreshed (Some (instant_now w')) w'
  | _ => w
  end.
(** One turn of the refresh task: a failed fetch leaves the keys. @interceptors/auth.rs:120-133 AuthProvider::jwks *)
Definition jwks_refresh (p : AuthProvider) (fetched : result string key_set) (w : W) : W :=
  match fetched with
  | Ok fetched_keys => set_jwks_keys p fetched_keys w
  | Err _ => w
  end.

(** @interceptors/auth.rs:{fn verify_key} verify_key *)
Definition verify_key (key : JwksKey) (alg signed_data sig : string) : result string unit :=
  match key with
  | RsaPkcs1 der =>
      if negb (String.eqb alg "RS256") then
        Err (String.append "Expected RS256 algorithm for RSA key, got " alg)
      else if rsa_verify der signed_data sig then Ok tt
      else Err "RSA signature verification failed"
  | Ed25519 raw =>
      if negb (String.eqb alg "EdDSA") && negb (String.eqb alg "ED25519") then
        Err (String.append "Expected EdDSA algorithm for Ed25519 key, got " alg)
      else if ed25519_verify raw signed_data sig then Ok tt
      else Err "Ed25519 signature verification failed"
  end.

(** The signature check of [verify_jwt]. @interceptors/auth.rs:176-211 AuthProvider::verify_jwt *)
Definition verify_signature (p : AuthProvider) (w : W) (alg : string) (kid : option string)
    (signed sig : string) : result string unit :=
  match p with
  | Hmac secret =>
      if negb (String.eqb alg "HS256") then
        Err (String.append "Algorithm mismatch: expected HS256, got " alg)
      else if hmac_verify secret signed sig then Ok tt
      else Err "HMAC signature verification failed"
  | StaticKey expected_kid key =>
      match expected_kid, kid with
      | Some k1, Some k2 =>
          if String.eqb k1 k2 then verify_key key alg signed sig
          else Err (String.append "JWK Key ID mismatch: expected "
                      (String.append k1 (String.append ", got " k2)))
      | _, _ => verify_key key alg signed sig
      end
  | Jwks _ keys _ _ =>
      match (match kid with Some k => deref keys w !! k | None => first_key (deref keys w) end) with
      | Some key => verify_key key alg signed sig
      | None => Err (String.append "No matching key found in JWKS for kid: " (debug_opt_str kid))
      end
  end.

(** The clock of [verify_jwt], [0] before the epoch. @interceptors/auth.rs:215-218 AuthProvider::verify_jwt *)
Definition now_secs (w : W) : Z :=
  match system_now w with Some secs => as_i64_cast secs | None => 0%Z end.
Definition clock_skew_secs : Z := 60.
(** A time claim. *)
Definition time_claim (k : string) (payload : json) : option Z :=
  match j_get k payload with Some v => as_i64 v | None => None end.

(** The time window. @interceptors/auth.rs:213-232 AuthProvider::verify_jwt *)
Definition check_times (now : Z) (payload : json) : result string json :=
  let expired :=
    match time_claim "exp" payload with
    | Some exp => (Int.saturating_add_i64 exp clock_skew_secs <? now)%Z
    | None => false
    end in
  let not_yet :=
    match time_claim "nbf" payload with
    | Some nbf => (Int.saturating_add_i64 now clock_skew_secs <? nbf)%Z
    | None => false
    end in
  if expired then Err "JWT token has expired"
  else if not_yet then Err "JWT token not yet valid (nbf)" else Ok payload.

(** [verify_jwt] @interceptors/auth.rs:{fn verify_jwt} AuthProvider::verify_jwt *)
Definition verify_jwt (p : AuthProvider) (w : W) (token : string) : result string json :=
  match split_on "." token with
  | [p0; p1; p2] =>
      match map_err (String.append "Failed to parse JWT header: ") (decode_json_b64url p0) with
      | Err e => Err e
      | Ok header_json =>
          match map_err (String.append "Failed to parse JWT payload: ") (decode_json_b64url p1) with
          | Err e => Err e
          | Ok payload_json =>
              match map_err (String.append "Failed to decode JWT signature: ") (decode_b64url p2) with
              | Err e => Err e
              | Ok signature_bytes =>
                  let signed := String.append p0 (String.append "." p1) in
                  let alg := default "RS256" (j_str_field "alg" header_json) in
                  let kid := j_str_field "kid" header_json in
                  match verify_signature p w alg kid signed signature_bytes with
                  | Err e => Err e
                  | Ok _ => check_times (now_secs w) payload_json
                  end
              end
          end
      end
  | _ => Err "JWT must contain exactly three parts separated by dots"
  end.

(** ** Key sets *)

(** One entry of a key set. @interceptors/auth.rs:245-286 parse_jwks_from_json *)
Definition parse_jwk (idx : nat) (key_obj : json) : result string (option (string * JwksKey)) :=
  let field k := j_str_field k key_obj in
  let kty := default "" (field "kty") in
  let kid := default (String.append "key_" (dec (Z.of_nat idx))) (field "kid") in
  let missing kind c := String.append kind (String.append " key '" (String.append kid
    (String.append "' missing '" (String.append c "' component")))) in
  let undecoded c e := String.append "Failed to decode '" (String.append c
    (String.append "' for key '" (String.append kid (String.append "': " e)))) in
  if String.eqb kty "RSA" then
    match field "n" with
    | None => Err (missing "RSA" "n")
    | Some n =>
        match field "e" with
        | None => Err (missing "RSA" "e")
        | Some e =>
            match map_err (undecoded "n") (decode_b64url n) with
            | Err err => Err err
            | Ok n_bytes =>
                match map_err (undecoded "e") (decode_b64url e) with
                | Err err => Err err
                | Ok e_bytes =>
                    Ok (Some (kid, RsaPkcs1 (rsa_components_to_der (as_bytes n_bytes) (as_bytes e_bytes))))
                end
            end
        end
    end
  else if String.eqb kty "OKP" then
    if negb (String.eqb (default "" (field "crv")) "Ed25519") then Ok None
    else match field "x" with
         | None => Err (missing "Ed25519" "x")
         | Some x =>
             match map_err (undecoded "x") (decode_b64url x) with
             | Err err => Err err
             | Ok x_bytes => Ok (Some (kid, Ed25519 (as_bytes x_bytes)))
             end
         end
  else Ok None.
(** @interceptors/auth.rs:243-288 parse_jwks_from_json *)
Fixpoint parse_jwks_loop (idx : nat) (l : list json) (m : key_set) : result string key_set :=
  match l with
  | [] => Ok m
  | key_obj :: l' =>
      match parse_jwk idx key_obj with
      | Err e => Err e
      | Ok (Some (kid, key)) => parse_jwks_loop (S idx) l' (<[kid := key]> m)
      | Ok None => parse_jwks_loop (S idx) l' m
      end
  end.
(** @interceptors/auth.rs:{fn parse_jwks_from_json} parse_jwks_from_json *)
Definition parse_jwks_from_json (j : json) : result string key_set :=
  match (match j_get "keys" j with Some v => as_array v | None => None end) with
  | None => Err "JWKS JSON missing 'keys' array"
  | Some l => parse_jwks_loop 0 l ∅
  end.

(** ** The token cache *)

(** @interceptors/auth.rs:{fn extract_claims_from_json} extract_claims_from_json *)
Definition extract_claims_from_json (j : json) (m : ClaimsMapping) : AuthClaims :=
  let strings l := omap as_str l in
  Claims (j_str_field (subject_path m) j)
    (match tenant_path m with Some p => j_str_field p j | None => None end)
    (match j_get (roles_path m) j with
     | Some val => match as_array val with
                   | Some arr => strings arr
                   | None => match as_str val with Some s => [s] | None => [] end
                   end
     | None => []
     end)
    (match permissions_path m with
     | Some p => match j_get p j with
                 | Some val => match as_array val with Some arr => strings arr | None => [] end
                 | None => []
                 end
     | None => []
     end) j.

Context `{LruLib, HttpLib, GqlParser}.

(** [CachedAuth]; an [Instant] in nanoseconds. @interceptors/auth.rs:{struct CachedAuth} CachedAuth *)
Record CachedAuth := Cached { cached_claims : AuthClaims; expires_at : Z }.

(** [RbacRequestInterceptor] @interceptors/auth.rs:{struct RbacRequestInterceptor} RbacRequestInterceptor *)
Record RbacRequestInterceptor := Rbac {
  provider : option AuthProvider;
  claims_mapping : ClaimsMapping;
  mutations_default : PolicyMode;
  queries_default : PolicyMode;
  unauthenticated_ops : gset string;
  role_permissions : gmap string (list string);
  l1_cache : Ref W (lru CachedAuth);
  cache_ttl : Z
}.
(** The capacity of a fresh cache. @interceptors/auth.rs:354-354 DEFAULT_L1_CACHE_CAPACITY *)
Definition default_l1_cache_capacity : Z := 10000.
(** @interceptors/auth.rs:{fn new} RbacRequestInterceptor::new *)
Definition rbac_new (cache : Ref W (lru CachedAuth)) : RbacRequestInterceptor :=
  Rbac None mapping_default AuditOnly PassAll
    (list_to_set ["IntrospectionQuery"; "__schema"; "requestMagicLink"; "verifyMagicLink"])
    ∅ cache (60 * 1000000000).
(** A fresh cell replaces the cache, unless the capacity is zero. @interceptors/auth.rs:{fn with_cache_capacity} RbacRequestInterceptor::with_cache_capacity *)
Definition with_cache_capacity (capacity : nat) (fresh : Ref W (lru CachedAuth))
    (r : RbacRequestInterceptor) (w : W) : RbacRequestInterceptor * W :=
  match capacity with
  | O => (r, w)
  | _ => (Rbac (provider r) (claims_mapping r) (mutations_default r) (queries_default r)
            (unauthenticated_ops r) (role_permissions r) fresh (cache_ttl r),
          assign fresh (lru_new capacity) w)
  end.
(** @interceptors/auth.rs:{fn with_provider} RbacRequestInterceptor::with_provider *)
Definition with_provider (p : AuthProvider) (r : RbacRequestInterceptor) : RbacRequestInterceptor :=
  Rbac (Some p) (claims_mapping r) (mutations_default r) (queries_default r)
    (unauthenticated_ops r) (role_permissions r) (l1_cache r) (cache_ttl r).
(** @interceptors/auth.rs:{fn with_claims_mapping} RbacRequestInterceptor::with_claims_mapping *)
Definition with_claims_mapping (m : ClaimsMapping) (r : RbacRequestInterceptor) : RbacRequestInterceptor :=
  Rbac (provider r) m (mutations_default r) (queries_default r)
    (unauthenticated_ops r) (role_permissions r) (l1_cache r) (cache_ttl r).
(** @interceptors/auth.rs:{fn with_policies} RbacRequestInterceptor::with_policies *)
Definition with_policies (mutations queries : PolicyMode) (r : RbacRequestInterceptor) : RbacRequestInterceptor :=
  Rbac (provider r) (claims_mapping r) mutations queries
    (unauthenticated_ops r) (role_permissions r) (l1_cache r) (cache_ttl r).
(** @interceptors/auth.rs:{fn allow_unauthenticated} RbacRequestInterceptor::allow_unauthenticated *)
Definition allow_unauthenticated (op : string) (r : RbacRequestInterceptor) : RbacRequestInterceptor :=
  Rbac (provider r) (claims_mapping r) (mutations_default r) (queries_default r)
    ({[op]} ∪ unauthenticated_ops r) (role_permissions r) (l1_cache r) (cache_ttl r).
(** @interceptors/auth.rs:{fn grant_role} RbacRequestInterceptor::grant_role *)
Definition grant_role (role : string) (ops : list string) (r : RbacRequestInterceptor) : RbacRequestInterceptor :=
  Rbac (provider r) (claims_mapping r) (mutations_default r) (queries_default r) (unauthenticated_ops r)
    (fold_left (fun m op => <[op := (default [] (m !! op) ++ [role])%list]> m) ops (role_permissions r))
    (l1_cache r) (cache_ttl r).

(** The claims of a token: the cache, else the provider, whose answer is cached.
    [verify] is the provider's [verify_jwt]. @interceptors/auth.rs:431-465 RbacRequestInterceptor::resolve_claims_from_token *)
Definition resolve_claims (verify : option (string -> result string json)) (m : ClaimsMapping)
    (ttl now : Z) (token : string) (cache : lru CachedAuth) : result string AuthClaims * lru CachedAuth :=
  let '(hit, cache) := lru_get token cache in
  match (match hit with
         | Some cached => if (now <? expires_at cached)%Z then Some (cached_claims cached) else None
         | None => None
         end) with
  | Some c => (Ok c, cache)
  | None =>
      match verify with
      | None => (Err "No authentication provider configured", cache)
      | Some verify =>
          match verify token with
          | Err e => (Err e, cache)
          | Ok raw_json =>
              let c := extract_claims_from_json raw_json m in
              (Ok c, snd (lru_put token (Cached c (now + ttl)) cache))
          end
      end
  end.
(** @interceptors/auth.rs:{fn resolve_claims_from_token} RbacRequestInterceptor::resolve_claims_from_token *)
Definition resolve_claims_from_token (r : RbacRequestInterceptor) (w : W) (token : string) :
    result string AuthClaims * W :=
  let '(res, cache) :=
    resolve_claims ((fun p => verify_jwt p w) <$> provider r) (claims_mapping r) (cache_ttl r)
      (instant_now w) token (deref (l1_cache r) w) in
  (res, assign (l1_cache r) cache w).

(** ** The decision *)

(** The bearer token of a request. @interceptors/auth.rs:488-500 RbacRequestInterceptor::intercept_request *)
Definition bearer_token (h : HeaderMap) : option string :=
  match header_str "authorization" h with
  | Some v =>
      let hdr := trim v in
      if (7 <? String.length hdr)%nat && eq_ignore_ascii_case (str_take 7 hdr) "bearer "
      then Some (trim (str_skip 7 hdr)) else None
  | None => None
  end.
(** An identity header, set when the value is a legal header value. *)
Definition set_header (name : string) (v : string) (h : HeaderMap) : HeaderMap :=
  match hv_from_str v with Some hv => hm_insert name hv h | None => h end.
(** @interceptors/auth.rs:514-532 RbacRequestInterceptor::intercept_request *)
Definition inject_identity (c : AuthClaims) (h : HeaderMap) : HeaderMap :=
  let h := match subject c with Some s => set_header "x-user-id" s h | None => h end in
  let h := match tenant_id c with Some t => set_header "x-tenant-id" t h | None => h end in
  match roles c with [] => h | _ => set_header "x-user-roles" (str_join "," (roles c)) h end.
Definition with_headers (h : HeaderMap) (p : HttpRequestInfo) : HttpRequestInfo :=
  HttpInfo (method p) (uri p) (version p) h.
(** @interceptors/auth.rs:535-541 RbacRequestInterceptor::intercept_request *)
Definition policy_mode (r : RbacRequestInterceptor) (op_type : option GraphQLOperationType) : PolicyMode :=
  match op_type with Some Mutation => mutations_default r | _ => queries_default r end.
(** @interceptors/auth.rs:543-559 RbacRequestInterceptor::intercept_request *)
Definition permitted (required_roles : option (list string)) (mode : PolicyMode)
    (claims_opt : option AuthClaims) : bool :=
  match required_roles with
  | Some req =>
      match claims_opt with
      | Some c => existsb (fun r => String.eqb r "*" || existsb (String.eqb r) req) (roles c)
      | None => false
      end
  | None =>
      match mode with
      | PassAll => true
      | AuditOnly => false
      | AllowAuthenticated => match claims_opt with Some _ => true | None => false end
      | DenyUnlisted => false
      end
  end.
(** What an operation without permission gets. @interceptors/auth.rs:565-608 RbacRequestInterceptor::intercept_request *)
Definition unauthorized (mode : PolicyMode) (op_name : string) (claims_opt : option AuthClaims)
    (token_error : option string) : InterceptorVerdict :=
  let subject_opt := match claims_opt with Some c => subject c | None => None end in
  match mode with
  | PassAll => Pass
  | AuditOnly =>
      Audit "rbac_audit_mode" (Some "AUTH_AUDIT")
        (String.append "Operation '" (String.append op_name
          (String.append "' executed without required role (identity: "
            (String.append (debug_opt_str subject_opt)
              (String.append ", token_err: " (String.append (debug_opt_str token_error) ")"))))))
  | AllowAuthenticated =>
      match claims_opt with
      | Some _ => Pass
      | None => reject_with 401 "AUTHENTICATION_REQUIRED"
                  (default "Valid authentication token required" token_error)
      end
  | DenyUnlisted =>
      match claims_opt with
      | None => reject_with 401 "AUTHENTICATION_REQUIRED"
                  (default "Authentication token required" token_error)
      | Some _ =>
          reject_with 403 "FORBIDDEN"
            (String.append "User '" (String.append (default "anonymous" subject_opt)
              (String.append "' does not possess required role for operation '"
                (String.append op_name "'"))))
      end
  end.

(** [RbacRequestInterceptor] @interceptors/auth.rs:475-609 RbacRequestInterceptor::intercept_request *)
Definition rbac (r : RbacRequestInterceptor) : RequestInterceptor W := fun w ctx parts _ =>
  let op_name := default "" (ctx_operation_name ctx) in
  if decide (op_name ∈ unauthenticated_ops r) then ReqOut Pass w ctx parts
  else
    let '(claims_opt, token_error, w) :=
      match bearer_token (headers parts) with
      | Some token =>
          let '(res, w) := resolve_claims_from_token r w token in
          match res with
          | Ok c => (Some c, None, w)
          | Err e => (None, Some e, w)
          end
      | None => (None, None, w)
      end in
    let '(ctx, parts) :=
      match claims_opt with
      | Some c => (with_claims c ctx, with_headers (inject_identity c (headers parts)) parts)
      | None => (ctx, parts)
      end in
    let mode := policy_mode r (ctx_operation_type ctx) in
    if permitted (role_permissions r !! op_name) mode claims_opt then ReqOut Pass w ctx parts
    else ReqOut (unauthorized mode op_name claims_opt token_error) w ctx parts.
End Provider.
End Tokens.
Arguments AuthProvider _ : clear implicits.
Arguments RbacRequestInterceptor _ {_}.

(** ** The specification of a valid token *)

Section Spec.
Context `{JsonText, Unicode, AuthLib} {W : Type} `{Clocks W}.

Definition key_accepts (key : JwksKey) (alg signed sig : string) : Prop :=
  match key with
  | RsaPkcs1 der => alg = "RS256" /\ rsa_verify der signed sig = true
  | Ed25519 raw => (alg = "EdDSA" \/ alg = "ED25519") /\ ed25519_verify raw signed sig = true
  end.
(** Whom the provider believes. *)
Definition provider_accepts (p : AuthProvider W) (w : W) (alg : string) (kid : option string)
    (signed sig : string) : Prop :=
  match p with
  | Hmac secret => alg = "HS256" /\ hmac_verify secret signed sig = true
  | StaticKey expected key =>
      (forall k1 k2, expected = Some k1 -> kid = Some k2 -> k1 = k2) /\ key_accepts key alg signed sig
  | Jwks _ keys _ _ => exists key,
      match kid with Some k => deref keys w !! k = Some key | None => first_key (deref keys w) = Some key end /\
      key_accepts key alg signed sig
  end.
Definition in_window (now : Z) (payload : json) : Prop :=
  (forall exp, time_claim "exp" payload = Some exp -> (now <= exp + 60)%Z) /\
  (forall nbf, time_claim "nbf" payload = Some nbf -> (nbf <= now + 60)%Z).
Definition valid_jwt (p : AuthProvider W) (w : W) (token : string) (payload : json) : Prop :=
  exists p0 p1 p2 header sig,
    split_on "." token = [p0; p1; p2] /\
    decode_json_b64url p0 = Ok header /\ decode_json_b64url p1 = Ok payload /\
    decode_b64url p2 = Ok sig /\
    provider_accepts p w (default "RS256" (j_str_field "alg" header)) (j_str_field "kid" header)
      (String.append p0 (String.append "." p1)) sig /\
    in_window (default 0%Z (system_now w)) payload.

(** ** Lemmas *)

Lemma map_err_ok {E F A} (f : E -> F) (r : result E A) a : map_err f r = Ok a <-> r = Ok a.
Proof. destruct r; cbn; split; congruence. Qed.

Lemma verify_key_ok key alg signed sig : verify_key key alg signed sig = Ok tt <-> key_accepts key alg signed sig.
Proof.
  unfold verify_key, key_accepts. destruct key.
  - destruct (String.eqb_spec alg "RS256"); cbn; [|naive_solver].
    destruct (rsa_verify _ _ _); naive_solver.
  - destruct (String.eqb_spec alg "EdDSA"), (String.eqb_spec alg "ED25519"); cbn; try naive_solver;
      destruct (ed25519_verify _ _ _); naive_solver.
Qed.

Lemma verify_signature_ok p w alg kid signed sig :
  verify_signature p w alg kid signed sig = Ok tt <-> provider_accepts p w alg kid signed sig.
Proof.
  unfold verify_signature, provider_accepts. destruct p as [secret|url keys last ivl|ekid key].
  - destruct (String.eqb_spec alg "HS256"); cbn; [|naive_solver].
    destruct (hmac_verify _ _ _); naive_solver.
  - destruct (match kid with Some k => _ | None => _ end) eqn:E; cbn.
    + rewrite verify_key_ok. destruct kid; naive_solver.
    + destruct kid; naive_solver.
  - destruct ekid as [k1|], kid as [k2|]; rewrite ?verify_key_ok; try naive_solver.
    destruct (String.eqb_spec k1 k2); rewrite ?verify_key_ok; naive_solver.
Qed.

(** The system clock reads a time before the year 146 billion. *)
Definition clock_ok (w : W) : Prop :=
  match system_now w with Some secs => (0 <= secs < 2 ^ 62)%Z | None => True end.

Lemma now_secs_ok w : clock_ok w ->
  now_secs w = default 0%Z (system_now w) /\ (0 <= now_secs w < 2 ^ 62)%Z.
Proof.
  unfold clock_ok, now_secs, as_i64_cast. destruct (system_now w) as [secs|]; cbn [default]; [|done].
  intros Hs. rewrite Int.wrap_small by lia.
  destruct (Z.leb_spec secs Int.i64_max) as [|Hgt]; [done|]. unfold Int.i64_max in Hgt. lia.
Qed.

Lemma check_times_ok now payload payload' : (0 <= now < 2 ^ 62)%Z ->
  check_times now payload = Ok payload' <-> payload' = payload /\ in_window now payload.
Proof.
  intros Hnow. unfold check_times, in_window, Int.saturating_add_i64, clock_skew_secs, Int.i64_max, Int.i64_min.
  destruct (time_claim "exp" payload) as [e|], (time_claim "nbf" payload) as [n|];
    repeat match goal with |- context [(?a <? ?b)%Z] => destruct (Z.ltb_spec a b) end;
    split; try done.
  all: first [intros [-> [He Hn]] | intros [= <-]].
  all: try (split; [done|split; intros ? [= <-]; lia]).
  all: try (specialize (He _ eq_refl)); try (specialize (Hn _ eq_refl)); try lia; try done.
Qed.

(** The cache of the interceptor, one call after the other: each call has its own
    provider answers, since keys and clocks change in between. *)
Record call := Call { at_instant : Z; at_verify : option (string -> result string json); for_token : string }.
Context `{LruLib}.
Fixpoint resolve_run (m : ClaimsMapping) (ttl : Z) (calls : list call) (cache : lru CachedAuth) :
    list (result string AuthClaims) :=
  match calls with
  | [] => []
  | c :: calls' =>
      let '(res, cache') := resolve_claims (at_verify c) m ttl (at_instant c) (for_token c) cache in
      res :: resolve_run m ttl calls' cache'
  end.
(** The call verified the token, and these are its claims. *)
Definition verified (m : ClaimsMapping) (c : call) (token : string) (cl : AuthClaims) : Prop :=
  for_token c = token /\
  exists verify raw, at_verify c = Some verify /\ verify token = Ok raw /\ cl = extract_claims_from_json raw m.
(** Every cached entry was verified by one of the calls, at its expiry less [ttl]. *)
Definition cache_sound (m : ClaimsMapping) (ttl : Z) (past : list call) (cache : lru CachedAuth) : Prop :=
  forall token e, Assoc.get token (lru_entries cache) = Some e ->
    exists c, c ∈ past /\ verified m c token (cached_claims e) /\ expires_at e = (at_instant c + ttl)%Z.

Lemma cache_sound_subset m ttl past past' cache cache' :
  cache_sound m ttl past cache -> past ⊆ past' ->
  (forall k e, Assoc.get k (lru_entries cache') = Some e -> Assoc.get k (lru_entries cache) = Some e) ->
  cache_sound m ttl past' cache'.
Proof. intros Hc Hp Hg token e He. destruct (Hc token e) as (c & Hin & Hv); [by apply Hg|]. exists c. set_solver. Qed.

Lemma lru_get_lookup {V} k (c : lru V) k' :
  Assoc.get k' (lru_entries (snd (lru_get k c))) = Assoc.get k' (lru_entries c).
Proof.
  destruct (lru_get_spec k c) as (_ & _ & ->). destruct (Assoc.get k _) eqn:E; [|done]. cbn.
  destruct (String.eqb_spec k' k) as [->|Hne]; [by rewrite E|]. by rewrite Assoc.get_remove_ne.
Qed.

Lemma lru_put_lookup {V} k (v : V) (c : lru V) k' e :
  Assoc.get k' (lru_entries (snd (lru_put k v c))) = Some e ->
  (k' = k /\ e = v) \/ (k' <> k /\ Assoc.get k' (lru_entries c) = Some e).
Proof.
  rewrite (proj2 (proj2 (lru_put_spec _ _ _))). cbn.
  destruct (String.eqb_spec k' k) as [->|Hne]; [intros [= <-]; by left|]. intros He. right. split; [done|].
  destruct (Assoc.get k _).
  - by rewrite Assoc.get_remove_ne in He.
  - destruct (match lru_cap c with O => _ | _ => _ end); [done|]. by apply Assoc.get_removelast_Some.
Qed.

Lemma resolve_sound m ttl past c cache res cache' :
  cache_sound m ttl past cache ->
  resolve_claims (at_verify c) m ttl (at_instant c) (for_token c) cache = (res, cache') ->
  cache_sound m ttl ((past ++ [c])%list) cache' /\
  forall cl, res = Ok cl -> exists c0, c0 ∈ (past ++ [c])%list /\ verified m c0 (for_token c) cl /\
    (c0 = c \/ (at_instant c < at_instant c0 + ttl)%Z).
Proof.
  intros Hs. unfold resolve_claims.
  pose proof (lru_get_spec (for_token c) cache) as (Hfst & _).
  pose proof (lru_get_lookup (for_token c) cache) as Hget.
  destruct (lru_get (for_token c) cache) as [hit cache1]; cbn [fst snd] in *. subst hit.
  assert (Hs1 : cache_sound m ttl ((past ++ [c])%list) cache1).
  { apply (cache_sound_subset m ttl past _ cache); [done|set_solver|]. intros k e. by rewrite Hget. }
  destruct (match Assoc.get _ _ with Some _ => _ | None => _ end) as [cl|] eqn:Ehit.
  - intros [= <- <-]. split; [done|]. intros cl' [= <-].
    destruct (Assoc.get (for_token c) (lru_entries cache)) as [e|] eqn:E; [|done].
    destruct (Z.ltb_spec (at_instant c) (expires_at e)); [|done]. injection Ehit as <-.
    destruct (Hs _ _ E) as (c0 & Hin & Hv & He). exists c0. split_and!; [set_solver|done|right; lia].
  - clear Ehit. destruct (at_verify c) as [verify|] eqn:Ev; [|by intros [= <- <-]].
    destruct (verify (for_token c)) as [raw|err] eqn:Er; [|by intros [= <- <-]].
    assert (Hc : verified m c (for_token c) (extract_claims_from_json raw m)) by (split; [done|by exists verify, raw]).
    intros [= <- <-]. split.
    + intros token e [[-> ->]|[Hne He]]%lru_put_lookup; [|by apply Hs1].
      exists c. cbn. split_and!; [set_solver|done|done].
    + intros cl [= <-]. exists c. split_and!; [set_solver|done|by left].
Qed.

Lemma resolve_run_sound m ttl calls : forall past cache i cl,
  cache_sound m ttl past cache ->
  resolve_run m ttl calls cache !! i = Some (Ok cl) ->
  exists c c0, calls !! i = Some c /\ c0 ∈ (past ++ take (S i) calls)%list /\
    verified m c0 (for_token c) cl /\
    (c0 = c \/ (at_instant c < at_instant c0 + ttl)%Z).
Proof.
  induction calls as [|c calls IH]; intros past cache i cl Hs; [done|]. cbn [resolve_run].
  destruct (resolve_claims _ _ _ _ _ _) as [res cache'] eqn:E.
  destruct (resolve_sound _ _ _ _ _ _ _ Hs E) as [Hs' Hres].
  destruct i as [|i]; cbn.
  - intros [= ->]. destruct (Hres cl eq_refl) as (c0 & Hin & Hv & Ht). exists c, c0. done.
  - intros Hi. destruct (IH _ _ _ _ Hs' Hi) as (c' & c0 & Hc & Hin & Hv).
    exists c', c0. split; [done|]. split; [|done]. by rewrite <- app_assoc in Hin.
Qed.
End Spec.

(** ** Reading DER back *)

(** A reader of the two integers of an RSA key, in the definite forms of up to two
    length bytes. *)
Definition read_len (l : list Z) : option (Z * list Z) :=
  match l with
  | b :: l' =>
      if (b <? 128)%Z then Some (b, l')
      else if (b =? 129)%Z then match l' with x :: l'' => Some (x, l'') | [] => None end
      else if (b =? 130)%Z then match l' with x :: y :: l'' => Some ((x * 256 + y)%Z, l'') | _ => None end
      else None
  | [] => None
  end.
Definition read_tlv (tag : Z) (l : list Z) : option (list Z * list Z) :=
  match l with
  | t :: l' =>
      if (t =? tag)%Z then
        match read_len l' with
        | Some (n, l'') =>
            if (Z.to_nat n <=? length l'')%nat then Some (take (Z.to_nat n) l'', drop (Z.to_nat n) l'') else None
        | None => None
        end
      else None
  | [] => None
  end.
Definition read_rsa_key (der : list Z) : option (list Z * list Z) :=
  match read_tlv 48 der with
  | Some (body, []) =>
      match read_tlv 2 body with
      | Some (n, rest) => match read_tlv 2 rest with Some (e, []) => Some (n, e) | _ => None end
      | None => None
      end
  | _ => None
  end.
(** The content of a DER integer: a leading zero where the number would be negative. *)
Definition unsigned_der (b : list Z) : list Z :=
  match b with x :: _ => if (128 <=? x)%Z then 0%Z :: b else b | [] => [] end.
Definition byte (x : Z) : Prop := (0 <= x < 256)%Z.
Definition bytes_value (b : list Z) : Z := fold_left (fun acc x => acc * 256 + x)%Z b 0%Z.

Lemma read_encode_len n rest : (0 <= n < 65536)%Z ->
  read_len (encode_der_length n ++ rest)%list = Some (n, rest).
Proof.
  intros Hn. unfold encode_der_length.
  destruct (Z.ltb_spec n 128); [|destruct (Z.ltb_spec n 256)]; cbn [app read_len].
  - rewrite Int.wrap_small by lia. by destruct (Z.ltb_spec n 128); [|lia].
  - cbn. by rewrite Int.wrap_small by lia.
  - cbn. change 255%Z with (Z.ones 8). rewrite Z.shiftr_div_pow2, Z.land_ones by lia. rewrite !Int.wrap_small.
    + do 2 f_equal. pose proof (Z.div_mod n 256). change (2 ^ 8)%Z with 256%Z. lia.
    + pose proof (Z.mod_pos_bound n 256). change (2 ^ 8)%Z with 256%Z. lia.
    + change (2 ^ 8)%Z with 256%Z. pose proof (Z.div_lt_upper_bound n 256 256). pose proof (Z.div_pos n 256). lia.
Qed.

Lemma land_128 x : byte x -> negb (Z.eqb (Z.land x 128) 0) = (128 <=? x)%Z.
Proof.
  intros Hx.
  assert (Hall : forallb (fun x => Bool.eqb (negb (Z.eqb (Z.land x 128) 0)) (128 <=? x)%Z) (seqZ 0 256) = true)
    by by vm_compute.
  rewrite forallb_forall in Hall. apply Bool.eqb_prop, Hall, list_elem_of_In, elem_of_seqZ.
  unfold byte in Hx. lia.
Qed.

Lemma encode_der_integer_content b : Forall byte b ->
  encode_der_integer b =
  (2%Z :: encode_der_length (Z.of_nat (length (unsigned_der b))) ++ unsigned_der b)%list.
Proof.
  intros Hb. unfold encode_der_integer, unsigned_der. destruct b as [|x b]; [done|].
  apply Forall_cons in Hb as [Hx _]. rewrite (land_128 _ Hx).
  destruct (128 <=? x)%Z; cbn [length app]; repeat f_equal; lia.
Qed.

Lemma read_tlv_encode tag content rest : (Z.of_nat (length content) < 65536)%Z ->
  read_tlv tag (tag :: encode_der_length (Z.of_nat (length content)) ++ content ++ rest)%list =
  Some (content, rest).
Proof.
  intros Hl. unfold read_tlv. rewrite Z.eqb_refl, read_encode_len by lia. rewrite Nat2Z.id.
  rewrite length_app. destruct (Nat.leb_spec (length content) (length content + length rest)); [|lia].
  by rewrite take_app_length, drop_app_length.
Qed.

Lemma bytes_value_unsigned b : bytes_value (unsigned_der b) = bytes_value b.
Proof. unfold bytes_value. destruct b as [|x b]; [done|]. cbn. by destruct (128 <=? x)%Z. Qed.

(** ** Properties *)

(** C36. An RSA key's DER form reads back as its modulus and exponent, unsigned, for
    keys whose two integers take less than 65536 bytes. *)
Theorem rsa_der_roundtrip n e :
  Forall byte n -> Forall byte e ->
  (Z.of_nat (length (encode_der_integer n) + length (encode_der_integer e)) < 65536)%Z ->
  read_rsa_key (rsa_components_to_der n e) = Some (unsigned_der n, unsigned_der e) /\
  bytes_value (unsigned_der n) = bytes_value n /\ bytes_value (unsigned_der e) = bytes_value e.
Proof.
  intros Hn He Hl. split; [|by rewrite !bytes_value_unsigned].
  unfold read_rsa_key, rsa_components_to_der. rewrite <- length_app in *.
  rewrite <- (app_nil_r (encode_der_integer n ++ encode_der_integer e)%list) at 2.
  rewrite read_tlv_encode by done.
  rewrite (encode_der_integer_content n Hn), (encode_der_integer_content e He) in *.
  rewrite !length_app in Hl. cbn [length] in Hl. rewrite !length_app in Hl.
  cbn [app]. rewrite <- app_assoc, read_tlv_encode by lia. cbn [app].
  rewrite <- (app_nil_r (unsigned_der e)) at 2. by rewrite read_tlv_encode by lia.
Qed.

Section Properties.
Context `{JsonText, Unicode, AuthLib, LruLib, HttpLib, GqlParser} {W : Type} `{Clocks W}.

Lemma verify_jwt_valid p w token payload : clock_ok w ->
  verify_jwt p w token = Ok payload <-> valid_jwt p w token payload.
Proof.
  intros [Hnow Hrange]%now_secs_ok. unfold verify_jwt, valid_jwt. rewrite <- Hnow. split.
  - destruct (split_on "." token) as [|p0 [|p1 [|p2 [|]]]]; try done.
    destruct (decode_json_b64url p0) as [header|] eqn:E0; cbn; [|done].
    destruct (decode_json_b64url p1) as [payload'|] eqn:E1; cbn; [|done].
    destruct (decode_b64url p2) as [sig|] eqn:E2; cbn; [|done].
    destruct (verify_signature _ _ _ _ _ _) as [[]|] eqn:Es; [|done].
    intros [-> Hw]%check_times_ok; [|done]. apply verify_signature_ok in Es.
    exists p0, p1, p2, header, sig. done.
  - intros (p0 & p1 & p2 & header & sig & -> & -> & -> & -> & Hp%verify_signature_ok & Hw).
    cbn [map_err]. rewrite Hp. by apply check_times_ok.
Qed.

(** C34. A token is accepted exactly when it is valid: three parts, a header and a
    payload that are JSON, a signature over the first two parts by the provider's
    key under that key's own algorithm, and the clock within a minute of the time
    claims. *)
Theorem verify_jwt_spec p w token payload : clock_ok w ->
  verify_jwt p w token = Ok payload <-> valid_jwt p w token payload.
Proof. apply verify_jwt_valid. Qed.

(** Claims answered for a token were read from that token by a successful
    verification, made by this call or by an earlier one less than the cache's
    time to live ago. *)
Theorem token_cache_staleness m ttl calls n i cl :
  resolve_run m ttl calls (lru_new n) !! i = Some (Ok cl) ->
  exists c c0, calls !! i = Some c /\ c0 ∈ take (S i) calls /\
    verified m c0 (for_token c) cl /\
    (c0 = c \/ (at_instant c < at_instant c0 + ttl)%Z).
Proof.
  intros Hi. destruct (resolve_run_sound m ttl calls [] (lru_new n) i cl) as (c & c0 & Hc); [|done|by exists c, c0].
  intros token e. by rewrite (proj1 (lru_new_spec n)).
Qed.

(** What identity a request proves. *)
Definition identity (r : RbacRequestInterceptor W) (w : W) (h : HeaderMap) : result (option string) AuthClaims :=
  match bearer_token h with
  | Some token => map_err Some (fst (resolve_claims_from_token r w token))
  | None => Err None
  end.
Definition op_of (ctx : InterceptorContext) : string := default "" (ctx_operation_name ctx).

(** Access control passes, audits or rejects. *)
Lemma rbac_never_transforms r w ctx parts body hs b : q_verdict (rbac r w ctx parts body) <> Transform hs b.
Proof.
  unfold rbac, unauthorized, reject_with. repeat case_match; simplify_eq; cbn; repeat case_match; congruence.
Qed.
Lemma rbac_unfold r w ctx parts body : op_of ctx ∉ unauthenticated_ops r ->
  exists w', rbac r w ctx parts body =
    match identity r w (headers parts) with
    | Ok c =>
        ReqOut (if permitted (role_permissions r !! op_of ctx) (policy_mode r (ctx_operation_type ctx)) (Some c)
                then Pass else unauthorized (policy_mode r (ctx_operation_type ctx)) (op_of ctx) (Some c) None)
          w' (with_claims c ctx) (with_headers (inject_identity c (headers parts)) parts)
    | Err e =>
        ReqOut (if permitted (role_permissions r !! op_of ctx) (policy_mode r (ctx_operation_type ctx)) None
                then Pass else unauthorized (policy_mode r (ctx_operation_type ctx)) (op_of ctx) None e)
          w' ctx parts
    end.
Proof.
  intros Hop. unfold rbac, identity. fold (op_of ctx).
  destruct (decide (op_of ctx ∈ unauthenticated_ops r)); [done|].
  destruct (bearer_token _) as [token|]; cbn.
  - destruct (resolve_claims_from_token r w token) as [[c|e] w']; exists w'; cbn;
      by destruct (permitted _ _ _).
  - exists w. by destruct (permitted _ _ _).
Qed.

(** One of the caller's roles is granted the operation. *)
Definition role_granted (r : RbacRequestInterceptor W) (op : string) (c : AuthClaims) : Prop :=
  exists req role, role_permissions r !! op = Some req /\ role ∈ roles c /\ (role = "*" \/ role ∈ req).

Lemma permitted_mapped r op mode c req : role_permissions r !! op = Some req ->
  permitted (role_permissions r !! op) mode (Some c) = true <-> role_granted r op c.
Proof.
  intros Hr. unfold role_granted. rewrite Hr. cbn. rewrite existsb_exists. setoid_rewrite orb_true_iff.
  setoid_rewrite existsb_exists. setoid_rewrite String.eqb_eq. setoid_rewrite list_elem_of_In.
  split.
  - intros (role & Hin & Hr'). exists req, role. split_and!; [done..|].
    destruct Hr' as [|(x & Hx & ->)]; [by left|by right].
  - intros (req' & role & [= <-] & Hin & Hr'). exists role. split; [done|].
    destruct Hr' as [|Hx]; [by left|right; by exists role].
Qed.

(** Under [DenyUnlisted] an operation passes exactly when it is exempt or the caller
    proves an identity with a role granted that operation; anything else is refused,
    a caller without identity with 401 and one without the role with 403. *)
Theorem rbac_zero_trust r w ctx parts body :
  policy_mode r (ctx_operation_type ctx) = DenyUnlisted ->
  let v := q_verdict (rbac r w ctx parts body) in
  (v = Pass <->
   op_of ctx ∈ unauthenticated_ops r \/
   exists c, identity r w (headers parts) = Ok c /\ role_granted r (op_of ctx) c) /\
  (v <> Pass -> exists status code msg, v = reject_with status code msg /\
     status = match identity r w (headers parts) with Ok _ => 403%Z | Err _ => 401%Z end).
Proof.
  intros Hmode. cbn. destruct (decide (op_of ctx ∈ unauthenticated_ops r)) as [Hin|Hout].
  { unfold rbac. fold (op_of ctx). rewrite decide_True by done. cbn. split; [|done]. split; [by left|done]. }
  destruct (rbac_unfold r w ctx parts body Hout) as [w' ->]. rewrite Hmode.
  destruct (identity _ _ _) as [c|e]; cbn [q_verdict].
  - destruct (role_permissions r !! op_of ctx) as [req|] eqn:Er.
    + pose proof (permitted_mapped r (op_of ctx) DenyUnlisted c req Er) as Hp. rewrite Er in Hp.
      destruct (permitted _ _ _).
      * split; [|done]. split; [|done]. intros _. right. exists c. split; [done|]. by apply Hp.
      * split; [|intros _; by eexists _, _, _]. split; [done|].
        intros [|(c' & [= <-] & Hg)]; [done|]. by apply Hp in Hg.
    + cbn. split; [|intros _; by eexists _, _, _]. split; [done|].
      intros [|(c' & [= <-] & req & role & Hr & _)]; [done|congruence].
  - destruct (role_permissions r !! op_of ctx); cbn;
      (split; [|intros _; by eexists _, _, _]); (split; [done|]); intros [|(c' & [=] & _)]; done.
Qed.

(** The other policies: [PassAll] and [AuditOnly] refuse nothing, and an operation
    audited is one the caller has no role for; [AllowAuthenticated] passes exactly
    the exempt operations and the callers with an identity, also for an operation
    that is mapped to roles the caller does not have. *)
Theorem rbac_permissive_modes r w ctx parts body :
  let v := q_verdict (rbac r w ctx parts body) in
  let exempt := op_of ctx ∈ unauthenticated_ops r in
  match policy_mode r (ctx_operation_type ctx) with
  | PassAll => v = Pass
  | AuditOnly =>
      (v = Pass <-> exempt \/ exists c, identity r w (headers parts) = Ok c /\ role_granted r (op_of ctx) c) /\
      (v <> Pass -> exists reason, v = Audit "rbac_audit_mode" (Some "AUTH_AUDIT") reason)
  | AllowAuthenticated =>
      (v = Pass <-> exempt \/ is_ok (identity r w (headers parts)) = true) /\
      (v <> Pass -> exists msg, v = reject_with 401 "AUTHENTICATION_REQUIRED" msg)
  | DenyUnlisted => True
  end.
Proof.
  cbn. destruct (decide (op_of ctx ∈ unauthenticated_ops r)) as [Hin|Hout].
  { unfold rbac. fold (op_of ctx). rewrite decide_True by done. cbn.
    destruct (policy_mode _ _); try done; (split; [|done]); split; [by left|done|by left|done]. }
  destruct (rbac_unfold r w ctx parts body Hout) as [w' ->].
  destruct (policy_mode r (ctx_operation_type ctx)); [| | |done];
    destruct (identity _ _ _) as [c|e]; cbn [q_verdict is_ok].
  - destruct (role_permissions r !! op_of ctx) as [req|] eqn:Er.
    + pose proof (permitted_mapped r (op_of ctx) AuditOnly c req Er) as Hp. rewrite Er in Hp.
      destruct (permitted _ _ _).
      * split; [|done]. split; [|done]. intros _. right. exists c. split; [done|]. by apply Hp.
      * split; [|intros _; by eexists]. split; [done|].
        intros [|(c' & [= <-] & Hg)]; [done|]. by apply Hp in Hg.
    + cbn. split; [|intros _; by eexists]. split; [done|].
      intros [|(c' & [= <-] & req & role & Hr & _)]; [done|congruence].
  - destruct (role_permissions r !! op_of ctx); cbn;
      (split; [|intros _; by eexists]); (split; [done|]); intros [|(c' & [=] & _)]; done.
  - by destruct (permitted _ _ _).
  - by destruct (permitted _ _ _).
  - destruct (permitted _ _ _); (split; [|done]); split; [by right|done|by right|done].
  - destruct (role_permissions r !! op_of ctx); cbn;
      (split; [|intros _; by eexists]); (split; [done|]); by intros [|].
Qed.

(** The header value an identity gives a header name. *)
Definition injected (c : AuthClaims) (n : string) : option HeaderValue :=
  if eq_ignore_ascii_case n "x-user-id" then subject c ≫= hv_from_str
  else if eq_ignore_ascii_case n "x-tenant-id" then tenant_id c ≫= hv_from_str
  else if eq_ignore_ascii_case n "x-user-roles" then
    match roles c with [] => None | l => hv_from_str (str_join "," l) end
  else None.

Lemma hm_get_set_header n m v h :
  hm_get n (set_header m v h) =
  if eq_ignore_ascii_case n m then match hv_from_str v with Some hv => Some hv | None => hm_get n h end
  else hm_get n h.
Proof.
  unfold set_header. destruct (hv_from_str v); [by rewrite hm_get_insert|].
  by destruct (eq_ignore_ascii_case n m).
Qed.

Lemma distinct_names n a b : eq_ignore_ascii_case n a = true -> eq_ignore_ascii_case a b = false ->
  eq_ignore_ascii_case n b = false.
Proof.
  unfold eq_ignore_ascii_case. rewrite String.eqb_eq. by intros ->.
Qed.

Lemma inject_identity_get c n h :
  hm_get n (inject_identity c h) = match injected c n with Some v => Some v | None => hm_get n h end.
Proof.
  unfold inject_identity, injected.
  destruct (eq_ignore_ascii_case n "x-user-id") eqn:E1.
  { pose proof (distinct_names _ _ "x-tenant-id" E1 eq_refl) as E2.
    pose proof (distinct_names _ _ "x-user-roles" E1 eq_refl) as E3.
    destruct (roles c), (tenant_id c), (subject c); cbn; rewrite ?hm_get_set_header, ?E1, ?E2, ?E3; done. }
  destruct (eq_ignore_ascii_case n "x-tenant-id") eqn:E2.
  { pose proof (distinct_names _ _ "x-user-roles" E2 eq_refl) as E3.
    destruct (roles c), (tenant_id c), (subject c); cbn; rewrite ?hm_get_set_header, ?E1, ?E2, ?E3; done. }
  destruct (eq_ignore_ascii_case n "x-user-roles") eqn:E3;
    destruct (roles c), (tenant_id c), (subject c); cbn -[str_join];
    rewrite ?hm_get_set_header, ?E1, ?E2, ?E3; done.
Qed.

(** A proven identity is recorded in the context and replaces the identity headers
    it has a value for; an identity header it has no value for, and every header of a
    request without identity, stays as the client sent it. *)
Theorem rbac_identity_headers r w ctx parts body :
  op_of ctx ∉ unauthenticated_ops r ->
  let o := rbac r w ctx parts body in
  match identity r w (headers parts) with
  | Ok c => claims (q_ctx o) = Some c /\ forall n,
      hm_get n (headers (q_parts o)) =
      match injected c n with Some v => Some v | None => hm_get n (headers parts) end
  | Err _ => q_ctx o = ctx /\ q_parts o = parts
  end.
Proof.
  intros Hop. cbn. destruct (rbac_unfold r w ctx parts body Hop) as [w' ->].
  destruct (identity _ _ _); cbn; [|done]. split; [done|]. intros n. apply inject_identity_get.
Qed.
End Properties.

(** ** Concrete inputs *)

(** Signatures are the text ["ok"], base64 is the identity, the clock stands at 1000 s. *)
Definition demo_auth_lib : AuthLib.
Proof.
  refine {|
    hmac_verify _ _ sig := String.eqb sig "ok";
    rsa_verify _ _ sig := String.eqb sig "ok";
    ed25519_verify _ _ sig := String.eqb sig "ok";
    b64url_no_pad s := Ok s;
    b64url_padded s := Ok s;
    json_slice_error s := "error";
    first_key m := match map_to_list m with (_, k) :: _ => Some k | [] => None end
  |}.
  - intros m k. destruct (map_to_list m) as [|[i k'] l] eqn:E; [done|]. intros [= <-].
    exists i. apply elem_of_map_to_list. rewrite E. by left.
  - intros m. destruct (map_to_list m) as [|[i k'] l] eqn:E; [|done]. intros _. by apply map_to_list_empty_iff.
Defined.
Definition demo_clocks (W : Type) : Clocks W := {| system_now _ := Some 1000%Z; instant_now _ := 0%Z |}.

Section Witnesses.
#[local] Existing Instances list_http ascii_tables bits_json_text list_lru demo_auth_lib demo_clocks.

Definition demo_cache : Ref (lru CachedAuth) (lru CachedAuth) :=
  {| deref c := c; assign c _ := c; deref_assign _ _ := eq_refl |}.
Definition demo_world : lru CachedAuth := lru_new 4.
Definition demo_token (header payload : json) : string :=
  String.append (json_to_string header) (String.append "." (String.append (json_to_string payload) ".ok")).
Definition hs256 : json := JObject [("alg", JString "HS256")].
Definition demo_payload (exp : Z) : json :=
  JObject [("exp", JNumber (PosInt exp)); ("roles", JArray [JString "editor"]); ("sub", JString "u1")].
Definition demo_rbac (mode : PolicyMode) : RbacRequestInterceptor (lru CachedAuth) :=
  grant_role "editor" ["publish"]
    (with_policies mode mode (with_provider (Hmac []) (rbac_new demo_cache))).
Definition demo_parts (token : string) : HttpRequestInfo :=
  HttpInfo "POST" "/graphql" "HTTP/1.1"
    [("Authorization", String.append "bearer " token); ("X-User-Id", "root"); ("X-Tenant-Id", "t9")].
Definition demo_ctx (op : string) : InterceptorContext :=
  with_operation (Some op) (Some Mutation) (ctx_new "id" (HLC 0 0)).

Lemma rsa_der_roundtrip_witness :
  read_rsa_key (rsa_components_to_der [200; 1]%Z [1; 0; 1]%Z) = Some ([0; 200; 1]%Z, [1; 0; 1]%Z) /\
  bytes_value (unsigned_der [200; 1]%Z) = 51201%Z /\ bytes_value (unsigned_der [1; 0; 1]%Z) = 65537%Z.
Proof. apply (rsa_der_roundtrip [200; 1]%Z [1; 0; 1]%Z); [repeat constructor; done..|by vm_compute]. Defined.

Lemma verify_jwt_spec_witness :
  valid_jwt (W := lru CachedAuth) (Hmac []) demo_world (demo_token hs256 (demo_payload 990)) (demo_payload 990).
Proof. apply (verify_jwt_spec (W := lru CachedAuth) (Hmac []) demo_world); [done|by vm_compute]. Defined.

Lemma token_cache_staleness_witness :
  let v := fun _ : string => Ok (demo_payload 990) in
  let calls := [Call 0 (Some v) "t"; Call 50 None "t"] in
  exists c c0, calls !! 1 = Some c /\ c0 ∈ take 2 calls /\
    verified mapping_default c0 "t" (extract_claims_from_json (demo_payload 990) mapping_default) /\
    (c0 = c \/ (at_instant c < at_instant c0 + 60)%Z).
Proof.
  cbv zeta. destruct (token_cache_staleness mapping_default 60
    [Call 0 (Some (fun _ => Ok (demo_payload 990))) "t"; Call 50 None "t"] 4 1
    (extract_claims_from_json (demo_payload 990) mapping_default)) as (c & c0 & Hc & Hin & Hv & Ht); [by vm_compute|].
  exists c, c0. injection Hc as <-. done.
Defined.

Lemma rbac_zero_trust_witness :
  q_verdict (rbac (demo_rbac DenyUnlisted) demo_world (demo_ctx "publish")
    (demo_parts (demo_token hs256 (demo_payload 990))) "") = Pass.
Proof.
  apply (rbac_zero_trust (demo_rbac DenyUnlisted) demo_world (demo_ctx "publish")
    (demo_parts (demo_token hs256 (demo_payload 990))) ""); [done|].
  right. exists (extract_claims_from_json (demo_payload 990) mapping_default).
  split; [by vm_compute|]. exists ["editor"], "editor". split_and!; [by vm_compute|by left|right; by left].
Defined.

Lemma rbac_identity_headers_witness :
  hm_get "x-user-id" (headers (q_parts (rbac (demo_rbac DenyUnlisted) demo_world (demo_ctx "publish")
    (demo_parts (demo_token hs256 (demo_payload 990))) ""))) = Some "u1" /\
  hm_get "x-tenant-id" (headers (q_parts (rbac (demo_rbac DenyUnlisted) demo_world (demo_ctx "publish")
    (demo_parts (demo_token hs256 (demo_payload 990))) ""))) = Some "t9".
Proof.
  pose proof (rbac_identity_headers (demo_rbac DenyUnlisted) demo_world (demo_ctx "publish")
    (demo_parts (demo_token hs256 (demo_payload 990))) "") as Hr.
  assert (Hid : identity (demo_rbac DenyUnlisted) demo_world
    (headers (demo_parts (demo_token hs256 (demo_payload 990)))) =
    Ok (extract_claims_from_json (demo_payload 990) mapping_default)) by by vm_compute.
  cbv zeta in Hr. rewrite Hid in Hr.
  destruct Hr as [_ Hn]; [apply (bool_decide_unpack _); by vm_compute|].
  split; rewrite Hn; by vm_compute.
Defined.

(** The exemption goes by the name the client gives its operation: a mutation named
    [IntrospectionQuery] passes the strictest policy without any token. *)
Example exempt_by_name :
  goes_on (q_verdict (rbac (demo_rbac DenyUnlisted) demo_world (demo_ctx "IntrospectionQuery")
    (HttpInfo "POST" "/graphql" "HTTP/1.1" []) "")) = true.
Proof. by vm_compute. Qed.

(** An expired token is accepted while its claims are cached. *)
Example cached_past_expiry :
  let w1 := snd (resolve_claims (Some (fun _ => Ok (demo_payload 990))) mapping_default 60 0 "t" demo_world) in
  is_ok (fst (resolve_claims (Some (fun _ => Err "JWT token has expired")) mapping_default 60 59 "t" w1)) = true /\
  is_ok (fst (resolve_claims (Some (fun _ => Err "JWT token has expired")) mapping_default 60 60 "t" w1)) = false.
Proof. by vm_compute. Qed.
End Witnesses.
