(* ===== verification/KeyRing.v ===== *)
(** * KeyRing: the keys of an identity provider, fetched over and over,
    [src/interceptors/auth.rs].

    The fetch of a key set, the task that repeats it, and what it means for the tokens
    the access control accepts, the token cache in between included: which keys are
    trusted at which time, and how long a key that was withdrawn still is. *)

From S2P Require Import Prelude Externals Clock Sanitizer Protocol Interceptors Auth.
Local Open Scope string_scope.

(** What becomes of a request for the keys: no client, no answer, or a status (with its
    text) and a body that is read or not. *)
Inductive fetch_outcome :=
| NoClient (e : string)
| NoAnswer (e : string)
| Answered (status : Z) (status_text : string) (body : result string string).

Section KeyRing.
Context `{JsonText, Unicode, AuthLib, LruLib, HttpLib, GqlParser} {W : Type} `{Clocks W}.

(** @interceptors/auth.rs:{fn fetch_jwks} fetch_jwks *)
Definition fetch_jwks (url : string) (o : fetch_outcome) : result string key_set :=
  match o with
  | NoClient e => Err (String.append "Failed to create HTTP client: " e)
  | NoAnswer e => Err (str_concat ["Failed to fetch JWKS from '"; url; "': "; e])
  | Answered status text body =>
      if negb ((200 <=? status) && (status <? 300))%Z then Err (str_concat ["JWKS endpoint '"; url; "' returned HTTP "; text])
      else
        match body with
        | Err e => Err (String.append "Failed to read JWKS response bytes: " e)
        | Ok bytes =>
            match json_from_slice bytes with
            | None => Err (str_concat ["Failed to parse JWKS JSON from '"; url; "': "; json_slice_error bytes])
            | Some j => parse_jwks_from_json j
            end
        end
  end.
(** The provider, with empty cells, and whether a task that refreshes them was started:
    only inside a runtime. @interceptors/auth.rs:111-143 AuthProvider::jwks *)
Definition jwks (in_runtime : bool) (url : string) (refresh_interval : Z) (keys : Ref W key_set) (last_refreshed : Ref W (option Z))
    (w : W) : AuthProvider W * bool * W :=
  (Jwks url keys last_refreshed refresh_interval, in_runtime, assign last_refreshed None (assign keys ∅ w)).

(** ** What happens to a provider *)

(** A turn of the task, a token to be resolved, and everything else, the passing of time
    included. *)
Inductive happening :=
| Fetches (o : fetch_outcome)
| Asks (token : string)
| Passes (f : W -> W).
(** A token that was resolved: in which world, after which successful fetch, and what was
    answered. *)
Record asked := Asked { world : W; trusting : key_set; token : string; answered : result string AuthClaims }.

Variable r : RbacRequestInterceptor W.
Variables (url : string) (keys : Ref W key_set) (last_refreshed : Ref W (option Z)) (interval : Z).
#[local] Abbreviation ring := (Jwks url keys last_refreshed interval).

(** The interceptor and the task over one world; the second argument is what the last
    successful fetch brought. *)
Fixpoint lives (l : list happening) (last : key_set) (w : W) : list asked :=
  match l with
  | [] => []
  | Fetches o :: l =>
      lives l (match fetch_jwks url o with Ok m => m | Err _ => last end) (jwks_refresh ring (fetch_jwks url o) w)
  | Asks t :: l =>
      let '(res, w') := resolve_claims_from_token r w t in Asked w last t res :: lives l last w'
  | Passes f :: l => lives l last (f w)
  end.

(** A key of the set, the one the token names or the first, accepts the token, and the
    clock is within a minute of its time claims. *)
Definition accepted_by (m : key_set) (now : option Z) (t : string) (payload : json) : Prop :=
  exists p0 p1 p2 header sig key,
    split_on "." t = [p0; p1; p2] /\
    decode_json_b64url p0 = Ok header /\ decode_json_b64url p1 = Ok payload /\ decode_b64url p2 = Ok sig /\
    match j_str_field "kid" header with Some k => m !! k = Some key | None => first_key m = Some key end /\
    key_accepts key (default "RS256" (j_str_field "alg" header)) (String.append p0 (String.append "." p1)) sig /\
    in_window (default 0%Z now) payload.
(** An empty set accepts nothing. *)
Lemma accepted_by_empty now t payload : ~ accepted_by ∅ now t payload.
Proof.
  intros (p0 & p1 & p2 & header & sig & key & _ & _ & _ & _ & Hk & _). destruct (j_str_field "kid" header); [done|].
  destruct (first_key_some _ _ Hk) as [i Hi]. done.
Qed.
Lemma ring_valid w t payload : valid_jwt ring w t payload -> accepted_by (deref keys w) (system_now w) t payload.
Proof.
  intros (p0 & p1 & p2 & header & sig & H1' & H2' & H3' & H4' & (key & Hk & Ha) & Hw). by exists p0, p1, p2, header, sig, key.
Qed.

(** The cells of the provider and of the token cache are different ones, and nobody else
    writes them. *)
Definition leaves_cells (f : W -> W) : Prop :=
  forall w, deref keys (f w) = deref keys w /\ deref (l1_cache r) (f w) = deref (l1_cache r) w.
Context (Hring : provider r = Some ring).
Context (Hcache : forall c w, deref keys (assign (l1_cache r) c w) = deref keys w).
Context (Hkeys : forall m w, deref (l1_cache r) (assign keys m w) = deref (l1_cache r) w).
Context (Hlast : forall o, leaves_cells (assign last_refreshed o)).

Lemma refresh_cells m w : let w' := jwks_refresh ring (Ok m) w in
  deref keys w' = m /\ deref (l1_cache r) w' = deref (l1_cache r) w.
Proof using Hkeys Hlast.
  cbn. destruct (Hlast (Some (instant_now (assign keys m w))) (assign keys m w)) as [-> ->]. by rewrite deref_assign, Hkeys.
Qed.
(** What an earlier resolution verified. *)
Definition grounds (m : ClaimsMapping) (cl : AuthClaims) (b : asked) : Prop :=
  exists payload, accepted_by (trusting b) (system_now (world b)) (token b) payload /\ cl = extract_claims_from_json payload m.
Definition call_of (b : asked) : call := Call (instant_now (world b)) (Some (verify_jwt ring (world b))) (token b).
Definition sound_asked (b : asked) : Prop := deref keys (world b) = trusting b /\ clock_ok (world b).

Lemma verified_grounds m b t cl : sound_asked b -> verified m (call_of b) t cl -> token b = t /\ grounds m cl b.
Proof.
  intros [Hk Hc] [Ht (verify & raw & [= <-] & Hv & ->)]. cbn in Ht. split; [done|]. exists raw. split; [|done].
  rewrite <- Hk. apply ring_valid. apply verify_jwt_valid; [done|]. by rewrite Ht.
Qed.
Lemma lives_grounds l : forall last w past i a cl,
  Forall leaves_cells (omap (fun x => match x with Passes f => Some f | _ => None end) l) ->
  deref keys w = last -> Forall sound_asked past ->
  cache_sound (claims_mapping r) (cache_ttl r) (call_of <$> past) (deref (l1_cache r) w) ->
  Forall (fun b => clock_ok (world b)) (lives l last w) ->
  lives l last w !! i = Some a -> answered a = Ok cl ->
  exists b, b ∈ (past ++ take (S i) (lives l last w))%list /\ token b = token a /\ grounds (claims_mapping r) cl b /\
    (b = a \/ (instant_now (world a) < instant_now (world b) + cache_ttl r)%Z).
Proof using Hring Hcache Hkeys Hlast.
  induction l as [|[o|t|f] l IH]; intros last w past i a cl Hf Hk Hp Hc Hclock Hi Ha; cbn [lives omap list_omap] in *; [done| | |].
  - apply (IH _ _ past); try done; destruct (fetch_jwks url o) as [m|e]; try done; by rewrite ?(proj1 (refresh_cells m w)), ?(proj2 (refresh_cells m w)).
  - destruct (resolve_claims_from_token r w t) as [res w'] eqn:Er. apply Forall_cons in Hclock as [Hcw Hclock]. cbn in Hcw.
    set (b := Asked w last t res) in *. assert (Hb : sound_asked b) by done.
    unfold resolve_claims_from_token in Er. rewrite Hring in Er. cbn in Er.
    destruct (resolve_claims _ _ _ _ _ _) as [res' cache'] eqn:Ec. injection Er as -> <-.
    destruct (resolve_sound _ _ (call_of <$> past) (call_of b) _ _ _ Hc Ec) as [Hs Hres].
    change [call_of b] with (call_of <$> [b]) in Hs, Hres. rewrite <- fmap_app in Hs, Hres.
    destruct i as [|i]; cbn in Hi.
    + injection Hi as <-. destruct (Hres cl Ha) as (c0 & (b0 & -> & Hin)%list_elem_of_fmap & Hv & Ht). cbn [take]. rewrite ?take_0.
      destruct Ht as [Heq|Ht].
      * rewrite Heq in Hv. destruct (verified_grounds _ _ _ _ Hb Hv) as [_ Hg]. exists b. split_and!; [apply elem_of_app; right; by left|done|done|by left].
      * assert (Hb0 : sound_asked b0). { apply elem_of_app in Hin as [Hin| ->%list_elem_of_singleton]; [|done]. rewrite Forall_forall in Hp. by apply Hp. }
        destruct (verified_grounds _ _ _ _ Hb0 Hv) as [Htok Hg]. exists b0. split_and!; [done..|by right].
    + destruct (IH last (assign (l1_cache r) cache' w) (past ++ [b])%list i a cl) as (b0 & Hin & Hrest); try done.
      * by rewrite Hcache.
      * apply Forall_app. by rewrite Forall_singleton.
      * by rewrite deref_assign.
      * exists b0. split; [|done]. by rewrite <- app_assoc in Hin.
  - apply Forall_cons in Hf as [Hf Hfs]. destruct (Hf w) as [Hfk Hfc]. apply (IH _ _ past); try done; [by rewrite Hfk|by rewrite Hfc].
Qed.

(** What the constructor makes of a world: empty cells, and the cache as it was. *)
Lemma jwks_cells in_runtime w0 : let '(_, _, w) := jwks in_runtime url interval keys last_refreshed w0 in
  deref keys w = ∅ /\ deref (l1_cache r) w = deref (l1_cache r) w0.
Proof using Hkeys Hlast.
  cbn. destruct (Hlast None (assign keys ∅ w0)) as [-> ->]. by rewrite deref_assign, Hkeys.
Qed.
Lemma lives_sound l w n i a cl :
  deref keys w = ∅ -> deref (l1_cache r) w = lru_new n ->
  Forall leaves_cells (omap (fun x => match x with Passes f => Some f | _ => None end) l) ->
  Forall (fun b => clock_ok (world b)) (lives l ∅ w) ->
  lives l ∅ w !! i = Some a -> answered a = Ok cl ->
  exists j b, lives l ∅ w !! j = Some b /\ (j <= i)%nat /\ token b = token a /\ trusting b <> ∅ /\
    grounds (claims_mapping r) cl b /\
    (j = i \/ (instant_now (world a) < instant_now (world b) + cache_ttl r)%Z).
Proof using Hring Hcache Hkeys Hlast.
  intros Hk Hn Hf Hclock Hi Ha.
  destruct (lives_grounds l ∅ w [] i a cl Hf Hk (Forall_nil_2 _)) as (b & Hin & Ht & Hg & Hor); [|done..|].
  { rewrite Hn. intros t e. by rewrite (proj1 (lru_new_spec n)). }
  cbn [app] in Hin. assert (Hne : trusting b <> ∅).
  { destruct Hg as (payload & Hacc & _). intros He. rewrite He in Hacc. by apply accepted_by_empty in Hacc. }
  destruct Hor as [->|Hlt].
  - exists i, a. split_and!; [done|lia|done..|by left].
  - apply list_elem_of_lookup in Hin as [j Hj]. apply lookup_take_Some in Hj as [Hj Hji]. exists j, b. split_and!; [done|lia|done..|by right].
Qed.
Lemma lives_unfetched l last w : Forall (fun x => match x with Fetches _ => False | _ => True end) l ->
  Forall (fun a => trusting a = last) (lives l last w).
Proof.
  intros Hl. revert w. induction Hl as [|[o|t|f] l Hx Hl IH]; intros w; cbn [lives]; [constructor|done| |apply IH].
  destruct (resolve_claims_from_token r w t) as [res w']. constructor; [done|apply IH].
Qed.
(** The provider of a gateway that was started outside a runtime, as [main] starts it,
    refuses every token for ever: no task fetches its keys. *)
Lemma unstarted_refuses l w n i a : 
  deref keys w = ∅ -> deref (l1_cache r) w = lru_new n ->
  Forall leaves_cells (omap (fun x => match x with Passes f => Some f | _ => None end) l) ->
  Forall (fun b => clock_ok (world b)) (lives l ∅ w) ->
  Forall (fun x => match x with Fetches _ => False | _ => True end) l ->
  lives l ∅ w !! i = Some a -> is_ok (answered a) = false.
Proof using Hring Hcache Hkeys Hlast.
  intros Hk Hn Hf Hclock Hno Hi. destruct (answered a) as [cl|] eqn:Ea; [|done].
  destruct (lives_sound l w n i a cl) as (j & b & Hj & _ & _ & Hne & _); [done..|]. destruct Hne.
  pose proof (lives_unfetched l ∅ w Hno) as Hall. rewrite Forall_forall in Hall. apply Hall. by eapply list_elem_of_lookup_2.
Qed.

(** ** Properties *)

(** C35. Whatever the task fetches and when: claims answered for a token were read from it
    by a verification, this one or one less than the cache's time to live ago, with a key
    of the set that the last successful fetch before that verification had brought.
    Failed fetches change nothing, before the first success every token is refused, and a
    key withdrawn by a fetch is trusted for the cache's time to live at most. *)
Theorem tokens_follow_keys in_runtime (w0 : W) n l i a cl :
  let '(_, _, w) := jwks in_runtime url interval keys last_refreshed w0 in
  let run := lives l ∅ w in
  deref (l1_cache r) w0 = lru_new n ->
  Forall leaves_cells (omap (fun x => match x with Passes f => Some f | _ => None end) l) ->
  Forall (fun b => clock_ok (world b)) run ->
  run !! i = Some a -> answered a = Ok cl ->
  exists j b, run !! j = Some b /\ (j <= i)%nat /\ token b = token a /\ trusting b <> ∅ /\
    grounds (claims_mapping r) cl b /\
    (j = i \/ (instant_now (world a) < instant_now (world b) + cache_ttl r)%Z).
Proof using Hring Hcache Hkeys Hlast.
  pose proof (jwks_cells in_runtime w0) as Hw. destruct (jwks _ _ _ _ _ _) as [[p started] w]. destruct Hw as [Hk Hc].
  cbv zeta. rewrite <- Hc. intros Hn. by apply lives_sound with (n := n).
Qed.
End KeyRing.

(** ** A key that is withdrawn *)

Section Witnesses.
#[local] Existing Instances list_http ascii_tables bits_json_text list_lru demo_auth_lib.
(** The cells and a clock in seconds. *)
Record ring_world := RingWorld { w_keys : key_set; w_last : option Z; w_cache : lru CachedAuth; w_now : Z }.
#[local] Instance ring_clocks : Clocks ring_world :=
  {| system_now w := Some (w_now w); instant_now w := (w_now w * 1000000000)%Z |}.
Definition keys_cell : Ref ring_world key_set :=
  {| deref := w_keys; assign m w := RingWorld m (w_last w) (w_cache w) (w_now w); deref_assign _ _ := eq_refl |}.
Definition last_cell : Ref ring_world (option Z) :=
  {| deref := w_last; assign o w := RingWorld (w_keys w) o (w_cache w) (w_now w); deref_assign _ _ := eq_refl |}.
Definition cache_cell_of : Ref ring_world (lru CachedAuth) :=
  {| deref := w_cache; assign c w := RingWorld (w_keys w) (w_last w) c (w_now w); deref_assign _ _ := eq_refl |}.
Definition ring_rbac : RbacRequestInterceptor ring_world :=
  with_provider (Jwks "https://idp/keys" keys_cell last_cell 3600) (rbac_new cache_cell_of).
Definition later (secs : Z) (w : ring_world) : ring_world := RingWorld (w_keys w) (w_last w) (w_cache w) (w_now w + secs)%Z.
Definition one_key : string :=
  json_to_string (JObject [("keys", JArray [JObject [("crv", JString "Ed25519"); ("kid", JString "a"); ("kty", JString "OKP"); ("x", JString "k")]])]).
Definition no_key : string := json_to_string (JObject [("keys", JArray [])]).
Definition ring_token : string :=
  demo_token (JObject [("alg", JString "EdDSA"); ("kid", JString "a")]) (demo_payload 990).
(** Refused before the first fetch; accepted after it, and after one that failed; still
    accepted, from the cache, when the key was withdrawn, and refused a minute later. *)
Definition ring_story : list happening :=
  [Asks ring_token; Fetches (Answered 200 "200 OK" (Ok one_key)); Asks ring_token; Fetches (NoAnswer "timeout");
   Passes (later 30); Asks ring_token; Fetches (Answered 200 "200 OK" (Ok no_key)); Asks ring_token; Passes (later 31); Asks ring_token].
#[local] Abbreviation ring_run := (lives ring_rbac "https://idp/keys" keys_cell last_cell 3600 ring_story ∅ (RingWorld ∅ None (lru_new 4) 980)).
Example withdrawn_key : map (fun a => is_ok (answered a)) ring_run = [false; true; true; true; false].
Proof. vm_compute. reflexivity. Qed.
Lemma tokens_follow_keys_witness : exists a cl b, ring_run !! 3%nat = Some a /\ answered a = Ok cl /\
  trusting a = ∅ /\ trusting b <> ∅ /\ grounds mapping_default cl b.
Proof.
  assert (Hb : match ring_run !! 3%nat with Some a => is_ok (answered a) && bool_decide (trusting a = ∅) | None => false end = true)
    by (vm_compute; reflexivity).
  destruct (ring_run !! 3%nat) as [a|] eqn:Ea; [|done]. apply andb_true_iff in Hb as [Hok Htr]. apply bool_decide_eq_true in Htr.
  destruct (answered a) as [cl|] eqn:Ecl; [|done].
  destruct (tokens_follow_keys ring_rbac "https://idp/keys" keys_cell last_cell 3600 eq_refl (fun _ _ => eq_refl) (fun _ _ => eq_refl)
    (fun _ _ => conj eq_refl eq_refl) true (RingWorld ∅ None (lru_new 4) 980) 4 ring_story 3 a cl) as (j & b & _ & _ & _ & Hne & Hg & _).
  - reflexivity.
  - repeat constructor.
  - apply Forall_forall. intros b Hb. assert (Hall : forallb (fun b => (0 <=? w_now (world b))%Z && (w_now (world b) <? 2 ^ 62)%Z) ring_run = true)
      by (vm_compute; reflexivity).
    rewrite forallb_forall in Hall. apply list_elem_of_In in Hb. specialize (Hall b Hb). apply andb_true_iff in Hall as [?%Z.leb_le ?%Z.ltb_lt].
    unfold clock_ok. cbn [system_now ring_clocks]. split; assumption.
  - exact Ea.
  - exact Ecl.
  - exists a, cl, b. split_and!; [reflexivity|exact Ecl|exact Htr|exact Hne|exact Hg].
Defined.
End Witnesses.
