(* ===== verification/Wasm.v ===== *)
(** * Wasm: plugins and their circuit breakers, [src/interceptors/evaluators/wasm.rs].

    The breaker's state machine, the registry of plugins, the call of a guest and
    what becomes of its answer or its failure.  The runtime that instantiates and
    runs a module is a parameter; a guest call takes time, so it may change the
    world. *)

From S2P Require Import Prelude Externals Clock Sanitizer Protocol Config Interceptors.
Local Open Scope string_scope.

(** ** Circuit breaker *)

(** [CircuitBreakerConfig]; durations and instants are nanoseconds.
    @interceptors/evaluators/wasm.rs:{struct CircuitBreakerConfig} CircuitBreakerConfig *)
Record CircuitBreakerConfig := BreakerCfg {
  consecutive_failure_threshold : Z;
  cooloff_duration : Z
}.
(** @interceptors/evaluators/wasm.rs:34-41 CircuitBreakerConfig::default *)
Definition breaker_cfg_default : CircuitBreakerConfig := BreakerCfg 5 (30 * 1000000000).

(** [CircuitState] @interceptors/evaluators/wasm.rs:{enum CircuitState} CircuitState *)
Inductive CircuitState := Closed | Open | HalfOpen.
#[export] Instance CircuitState_eq_dec : EqDecision CircuitState.
Proof. solve_decision. Defined.
(** [CircuitPermission] @interceptors/evaluators/wasm.rs:{enum CircuitPermission} CircuitPermission *)
Inductive CircuitPermission := Allow | Probe | Denied.
#[export] Instance CircuitPermission_eq_dec : EqDecision CircuitPermission.
Proof. solve_decision. Defined.

(** [WasmCircuitBreaker] without its configuration. @interceptors/evaluators/wasm.rs:{struct WasmCircuitBreaker} WasmCircuitBreaker *)
Record breaker := Breaker {
  failures : Z;
  state : CircuitState;
  last_tripped_at : option Z
}.
(** @interceptors/evaluators/wasm.rs:{fn new} WasmCircuitBreaker::new *)
Definition breaker_new : breaker := Breaker 0 Closed None.

(** @interceptors/evaluators/wasm.rs:{fn can_execute} WasmCircuitBreaker::can_execute *)
Definition can_execute (cfg : CircuitBreakerConfig) (now : Z) (b : breaker) : CircuitPermission * breaker :=
  match state b with
  | Closed => (Allow, b)
  | Open =>
      match last_tripped_at b with
      | Some t =>
          if (cooloff_duration cfg <=? Z.max 0 (now - t))%Z
          then (Probe, Breaker (failures b) HalfOpen (last_tripped_at b))
          else (Denied, b)
      | None => (Denied, b)
      end
  | HalfOpen => (Probe, b)
  end.
(** @interceptors/evaluators/wasm.rs:{fn record_success} WasmCircuitBreaker::record_success *)
Definition record_success (b : breaker) : breaker := Breaker 0 Closed (last_tripped_at b).
(** The counter and the sum wrap at 32 bits. @interceptors/evaluators/wasm.rs:{fn record_failure} WasmCircuitBreaker::record_failure *)
Definition record_failure (cfg : CircuitBreakerConfig) (now : Z) (b : breaker) : breaker :=
  let n := Int.wrap 32 (failures b + 1) in
  if bool_decide (state b = HalfOpen) || (consecutive_failure_threshold cfg <=? n)%Z
  then Breaker n Open (Some now)
  else Breaker n (state b) (last_tripped_at b).
(** @interceptors/evaluators/wasm.rs:{fn is_open} WasmCircuitBreaker::is_open *)
Definition is_open (b : breaker) : bool := bool_decide (state b = Open).

(** ** Plugins *)

(** [WasmPluginConfig] @interceptors/evaluators/wasm.rs:{struct WasmPluginConfig} WasmPluginConfig *)
Record WasmPluginConfig := PluginCfg {
  plugin_timeout_ms : Z;
  max_memory_bytes : Z;
  plugin_fail_mode : FailMode;
  circuit_breaker_cfg : CircuitBreakerConfig
}.
(** @interceptors/evaluators/wasm.rs:128-137 WasmPluginConfig::default *)
Definition plugin_cfg_default : WasmPluginConfig :=
  PluginCfg 10 (16 * 1024 * 1024) FailClosed breaker_cfg_default.
(** [WasmEngineConfig] @interceptors/evaluators/wasm.rs:{struct WasmEngineConfig} WasmEngineConfig *)
Record WasmEngineConfig := EngineCfg {
  eng_strict_aot : bool;
  eng_allow_jit : bool;
  eng_epoch_tick_interval_ms : Z
}.

(** The runtime: modules, the store of one instance and its exported functions.
    Errors are their messages; calls and instantiation take time. *)
Class WasmTypes := {
  wasm_module : Type;
  wasm_store : Type;
  wasm_func : Type
}.
Class WasmLib `{WasmTypes} (W : Type) := {
  deserialize_file : string -> result string wasm_module;
  compile_module : string -> result string wasm_module;
  parse_wat : string -> result string string;
  instantiate : wasm_module -> Z -> Z -> W -> result string wasm_store * W;
  has_memory : wasm_store -> bool;
  get_func : wasm_store -> string -> option wasm_func;
  call_func : wasm_func -> list Z -> wasm_store -> W -> result string Z * wasm_store * W;
  memory_write : Z -> string -> wasm_store -> result string wasm_store;
  memory_read : Z -> Z -> wasm_store -> result string string
}.

Section Evaluator.
Context `{HttpLib, JsonText, Unicode} {W : Type} `{Clocks W, WasmTypes, !WasmLib W}.

(** [RegisteredPlugin]; the breaker is shared by all clones of the plugin, so it is
    held by address. @interceptors/evaluators/wasm.rs:{struct RegisteredPlugin} RegisteredPlugin *)
Record RegisteredPlugin := Plugin {
  module : wasm_module;
  config : WasmPluginConfig;
  circuit_breaker : positive
}.
(** The mutable state of the evaluator: the registry and the breakers. *)
Record wasm_state := WasmState {
  plugins : gmap string RegisteredPlugin;
  breakers : gmap positive breaker
}.
(** [WasmInterceptorEvaluator] @interceptors/evaluators/wasm.rs:{struct WasmInterceptorEvaluator} WasmInterceptorEvaluator *)
Record WasmInterceptorEvaluator := Evaluator {
  engine_config : WasmEngineConfig;
  cell : Ref W wasm_state
}.

Definition breaker_at (st : wasm_state) (p : RegisteredPlugin) : breaker :=
  default breaker_new (breakers st !! circuit_breaker p).
Definition put_breaker (ev : WasmInterceptorEvaluator) (p : RegisteredPlugin) (b : breaker) (w : W) : W :=
  let st := deref (cell ev) w in
  assign (cell ev) (WasmState (plugins st) (<[circuit_breaker p := b]> (breakers st))) w.

(** A plugin enters the registry with a fresh closed breaker. @interceptors/evaluators/wasm.rs:232-240 WasmInterceptorEvaluator::load_cwasm_file *)
Definition add_plugin (ev : WasmInterceptorEvaluator) (name : string) (m : wasm_module)
    (cfg : WasmPluginConfig) (w : W) : W :=
  let st := deref (cell ev) w in
  let a := fresh (dom (breakers st)) in
  assign (cell ev)
    (WasmState (<[name := Plugin m cfg a]> (plugins st)) (<[a := breaker_new]> (breakers st))) w.
(** @interceptors/evaluators/wasm.rs:{fn load_cwasm_file} WasmInterceptorEvaluator::load_cwasm_file *)
Definition load_cwasm_file (ev : WasmInterceptorEvaluator) (name path : string)
    (cfg : WasmPluginConfig) (w : W) : result string unit * W :=
  match deserialize_file path with
  | Err _ => (Err (String.append "Failed to deserialize precompiled .cwasm file from " (debug_str path)), w)
  | Ok m => (Ok tt, add_plugin ev name m cfg w)
  end.
(** @interceptors/evaluators/wasm.rs:{fn load_wasm_bytes} WasmInterceptorEvaluator::load_wasm_bytes *)
Definition load_wasm_bytes (ev : WasmInterceptorEvaluator) (name b : string)
    (cfg : WasmPluginConfig) (w : W) : result string unit * W :=
  if eng_strict_aot (engine_config ev) && negb (eng_allow_jit (engine_config ev)) then
    (Err (String.append "Uncompiled WebAssembly binary provided for plugin '" (String.append name
       "'. In production mode (strict_aot = true), precompiled AOT artifacts (.cwasm) are required to eliminate JIT compilation latency. Precompile using 'evaluator.precompile(&bytes)' or configure 'allow_jit = true' for local development.")),
     w)
  else match compile_module b with
  | Err _ => (Err (String.append "Failed to compile WASM module for plugin '" (String.append name "'")), w)
  | Ok m => (Ok tt, add_plugin ev name m cfg w)
  end.
(** @interceptors/evaluators/wasm.rs:{fn load_wat} WasmInterceptorEvaluator::load_wat *)
Definition load_wat (ev : WasmInterceptorEvaluator) (name wat_str : string)
    (cfg : WasmPluginConfig) (w : W) : result string unit * W :=
  match parse_wat wat_str with
  | Err _ => (Err "Failed to parse WebAssembly text format (WAT)", w)
  | Ok b => load_wasm_bytes ev name b cfg w
  end.
(** @interceptors/evaluators/wasm.rs:{fn is_circuit_open} WasmInterceptorEvaluator::is_circuit_open *)
Definition is_circuit_open (ev : WasmInterceptorEvaluator) (plugin_name : string) (w : W) : bool :=
  let st := deref (cell ev) w in
  match plugins st !! plugin_name with
  | Some p => is_open (breaker_at st p)
  | None => false
  end.

(** ** Verdicts *)

(** [StatusCode::from_u16(s as u16)]. *)
Definition status_from_u64 (s : Z) : option Z :=
  let n := Int.wrap 16 s in if ((100 <=? n) && (n <? 1000))%Z then Some n else None.
(** @interceptors/evaluators/wasm.rs:523-535 WasmInterceptorEvaluator::parse_verdict *)
Definition verdict_headers (entries : list (string * json)) : HeaderMap :=
  fold_left (fun m kv =>
    match hn_valid (fst kv), hv_from_str (default "" (as_str (snd kv))) with
    | true, Some hv => hm_insert (to_ascii_lowercase (fst kv)) hv m
    | _, _ => m
    end) entries hm_new.
(** @interceptors/evaluators/wasm.rs:{fn parse_verdict} WasmInterceptorEvaluator::parse_verdict *)
Definition parse_verdict (val : json) : InterceptorVerdict :=
  let verdict_type := default "pass" (j_str_field "verdict" val) in
  if String.eqb verdict_type "pass" then Pass
  else if String.eqb verdict_type "reject" then
    let status_code :=
      default 400%Z (match (match j_get "status_code" val with Some s => as_u64 s | None => None end) with
                     | Some s => status_from_u64 s
                     | None => None
                     end) in
    Reject (Rejection status_code
      (default "WASM_REJECTED" (j_str_field "code" val))
      (default "Request rejected by WASM interceptor" (j_str_field "message" val))
      (j_get "details" val))
  else if String.eqb verdict_type "transform" then
    Transform
      (match (match j_get "headers" val with Some h => as_object h | None => None end) with
       | Some entries => Some (verdict_headers entries)
       | None => None
       end)
      (j_str_field "body" val)
  else Pass.

(** @interceptors/evaluators/wasm.rs:{fn handle_execution_error} WasmInterceptorEvaluator::handle_execution_error *)
Definition handle_execution_error (plugin_name : string) (cfg : WasmPluginConfig) (err_str : string) :
    InterceptorVerdict :=
  if str_contains "interrupt" err_str || str_contains "epoch" err_str then
    match plugin_fail_mode cfg with
    | FailOpen => Pass
    | FailClosed =>
        reject_with 504 "WASM_EXECUTION_TIMEOUT"
          (str_concat ["WASM plugin '"; plugin_name; "' exceeded deadline of "; dec (plugin_timeout_ms cfg); "ms"])
    end
  else
    match plugin_fail_mode cfg with
    | FailOpen => Pass
    | FailClosed =>
        reject_with 500 "WASM_EXECUTION_ERROR"
          (str_concat ["WASM plugin '"; plugin_name; "' failed: "; err_str])
    end.

(** ** Calling a guest *)

(** The deadline in ticks of the epoch. @interceptors/evaluators/wasm.rs:433-435 WasmInterceptorEvaluator::invoke_guest *)
Definition deadline_ticks (ec : WasmEngineConfig) (cfg : WasmPluginConfig) : Z :=
  Z.max 1 (plugin_timeout_ms cfg / Z.max 1 (eng_epoch_tick_interval_ms ec)).
(** The part after instantiation. @interceptors/evaluators/wasm.rs:441-488 WasmInterceptorEvaluator::invoke_guest *)
Definition run_guest (s : wasm_store) (export_name : string) (input : json) (w : W) : result string json * W :=
  if negb (has_memory s) then (Err "WASM plugin does not export 'memory'", w)
  else match get_func s "spectragql_allocate" with
  | None => (Err "WASM plugin does not export 'spectragql_allocate'", w)
  | Some alloc_fn =>
  match get_func s "spectragql_deallocate" with
  | None => (Err "WASM plugin does not export 'spectragql_deallocate'", w)
  | Some dealloc_fn =>
  match get_func s export_name with
  | None => (Err (str_concat ["WASM plugin does not export '"; export_name; "'"]), w)
  | Some handler_fn =>
      let input_bytes := json_to_string input in
      let input_len := Int.wrap 32 (Z.of_nat (String.length input_bytes)) in
      let '(r, s, w) := call_func alloc_fn [input_len] s w in
      match r with
      | Err e => (Err e, w)
      | Ok input_ptr =>
      match memory_write input_ptr input_bytes s with
      | Err e => (Err e, w)
      | Ok s =>
          let '(r, s, w) := call_func handler_fn [input_ptr; input_len] s w in
          match r with
          | Err e => (Err e, w)
          | Ok packed_res =>
              let '(_, s, w) := call_func dealloc_fn [input_ptr; input_len] s w in
              let res_ptr := Int.wrap 32 (Z.shiftr packed_res 32) in
              let res_len := Int.wrap 32 (Z.land packed_res 4294967295) in
              match memory_read res_ptr res_len s with
              | Err e => (Err e, w)
              | Ok res_bytes =>
                  let '(_, _, w) := call_func dealloc_fn [res_ptr; res_len] s w in
                  match (if utf8_valid res_bytes then json_from_str res_bytes else None) with
                  | Some v => (Ok v, w)
                  | None => (Err "Failed to parse JSON verdict returned by WASM guest", w)
                  end
              end
          end
      end
      end
  end
  end
  end.
(** @interceptors/evaluators/wasm.rs:{fn invoke_guest} WasmInterceptorEvaluator::invoke_guest *)
Definition invoke_guest (ev : WasmInterceptorEvaluator) (p : RegisteredPlugin) (export_name : string)
    (input : json) (w : W) : result string json * W :=
  let '(r, w) := instantiate (module p) (max_memory_bytes (config p))
                   (deadline_ticks (engine_config ev) (config p)) w in
  match r with
  | Err _ => (Err "Failed to instantiate WASM plugin module", w)
  | Ok s => run_guest s export_name input w
  end.

(** The registry, the breaker, the guest, and the breaker told of the outcome; the
    body common to both stages. @interceptors/evaluators/wasm.rs:302-356 WasmInterceptorEvaluator::intercept_request *)
Definition guarded_call (ev : WasmInterceptorEvaluator) (plugin_name export_name : string)
    (input : json) (w : W) : InterceptorVerdict * W :=
  let st := deref (cell ev) w in
  match plugins st !! plugin_name with
  | None =>
      (reject_with 500 "WASM_PLUGIN_NOT_FOUND"
         (str_concat ["WASM plugin '"; plugin_name; "' is not registered"]), w)
  | Some p =>
      let cb := circuit_breaker_cfg (config p) in
      let '(permission, b) := can_execute cb (instant_now w) (breaker_at st p) in
      let w := put_breaker ev p b w in
      match permission with
      | Denied =>
          (match plugin_fail_mode (config p) with
           | FailOpen => Pass
           | FailClosed =>
               reject_with 503 "WASM_CIRCUIT_OPEN"
                 (str_concat ["WASM plugin '"; plugin_name; "' circuit is open due to consecutive failures"])
           end, w)
      | Allow | Probe =>
          let '(r, w) := invoke_guest ev p export_name input w in
          match r with
          | Ok verdict_val =>
              (parse_verdict verdict_val,
               put_breaker ev p (record_success (breaker_at (deref (cell ev) w) p)) w)
          | Err e =>
              (handle_execution_error plugin_name (config p) e,
               put_breaker ev p (record_failure cb (instant_now w) (breaker_at (deref (cell ev) w) p)) w)
          end
      end
  end.

(** The headers a guest sees: those that read as text, in order. *)
Definition guest_headers (h : HeaderMap) : json :=
  JArray (omap (fun kv => match hv_to_str (snd kv) with
                          | Some v => Some (JArray [JString (fst kv); JString v])
                          | None => None
                          end) (hm_entries h)).
Definition opt_json (o : option string) : json :=
  match o with Some s => JString s | None => JNull end.
(** @interceptors/evaluators/wasm.rs:{fn intercept_request} WasmInterceptorEvaluator::intercept_request *)
Definition wasm_request (ev : WasmInterceptorEvaluator) (plugin_name : string) : RequestInterceptor W :=
  fun w ctx parts body =>
  let input := JObject (obj_of
    [("request_id", JString (ctx_request_id ctx));
     ("operation_name", opt_json (ctx_operation_name ctx));
     ("operation_type", opt_json (op_type_to_string <$> ctx_operation_type ctx));
     ("uri", JString (uri parts)); ("method", JString (method parts));
     ("headers", guest_headers (headers parts)); ("body", JString body)]) in
  let '(v, w) := guarded_call ev plugin_name "spectragql_intercept_request" input w in
  ReqOut v w ctx parts.
(** @interceptors/evaluators/wasm.rs:{fn intercept_response} WasmInterceptorEvaluator::intercept_response *)
Definition wasm_response (ev : WasmInterceptorEvaluator) (plugin_name : string) : ResponseInterceptor W :=
  fun w ctx parts body =>
  let input := JObject (obj_of
    [("request_id", JString (ctx_request_id ctx));
     ("status_code", JNumber (PosInt (rp_status parts)));
     ("headers", guest_headers (rp_headers parts));
     ("body", JString (from_utf8_lossy body))]) in
  let '(v, w) := guarded_call ev plugin_name "spectragql_intercept_response" input w in
  RespOut v w parts.

(** As a rule evaluator a plugin runs without its breaker. @interceptors/evaluators/wasm.rs:590-602 WasmInterceptorEvaluator::evaluate *)
Definition wasm_evaluate (ev : WasmInterceptorEvaluator) (rule_name : string) (input : json) (w : W) :
    result RuleEvaluationError bool * W :=
  match plugins (deref (cell ev) w) !! rule_name with
  | None => (Err (RuleNotFound rule_name), w)
  | Some p =>
      let '(r, w) := invoke_guest ev p "spectragql_evaluate_rule" input w in
      match r with
      | Ok val => (Ok (default false (match j_get "result" val with Some r => as_bool r | None => None end)), w)
      | Err e => (Err (EvaluationFailed e), w)
      end
  end.
End Evaluator.

(** ** The breaker against its history *)

(** What a breaker is told, newest first: a request asked, a guest succeeded, a
    guest failed. *)
Inductive event := Asked (t : Z) | Succeeded (t : Z) | Failed (t : Z).
Definition at_time (e : event) : Z := match e with Asked t | Succeeded t | Failed t => t end.
Fixpoint breaker_after (cfg : CircuitBreakerConfig) (h : list event) : breaker :=
  match h with
  | [] => breaker_new
  | Asked t :: h' => snd (can_execute cfg t (breaker_after cfg h'))
  | Succeeded _ :: h' => record_success (breaker_after cfg h')
  | Failed t :: h' => record_failure cfg t (breaker_after cfg h')
  end.

(** The failures since the last success, and the time of the last failure. *)
Fixpoint consecutive_failures (h : list event) : Z :=
  match h with
  | [] | Succeeded _ :: _ => 0
  | Asked _ :: h' => consecutive_failures h'
  | Failed _ :: h' => consecutive_failures h' + 1
  end.
Fixpoint last_failure (h : list event) : option Z :=
  match h with
  | [] => None
  | Failed t :: _ => Some t
  | _ :: h' => last_failure h'
  end.
(** How many failures in a row open the circuit: the threshold, and a threshold of 0
    is one of 1, since it is only looked at when a failure was counted. *)
Definition tripping (cfg : CircuitBreakerConfig) : Z := Z.max 1 (consecutive_failure_threshold cfg).
(** The specification: allowed below the tripping number of failures; from it on,
    denied until the cool-off after the last failure is over, then probing. *)
Definition permission (cfg : CircuitBreakerConfig) (now : Z) (h : list event) : CircuitPermission :=
  if (consecutive_failures h <? tripping cfg)%Z then Allow
  else match last_failure h with
       | Some t => if (now - t <? cooloff_duration cfg)%Z then Denied else Probe
       | None => Denied
       end.
(** Times do not go back. *)
Fixpoint in_order (now : Z) (h : list event) : Prop :=
  match h with [] => True | e :: h' => (at_time e <= now)%Z /\ in_order (at_time e) h' end.
(** The ranges of the configuration's types, a [u32] and a [Duration]. *)
Definition cfg_ok (cfg : CircuitBreakerConfig) : Prop :=
  (0 <= consecutive_failure_threshold cfg <= Int.u32_max /\ 0 <= cooloff_duration cfg)%Z.

Lemma consecutive_failures_bound h : (0 <= consecutive_failures h)%Z.
Proof. induction h as [|[] h IH]; cbn [consecutive_failures length]; lia. Qed.

Lemma last_failure_exists h : (0 < consecutive_failures h)%Z -> exists t, last_failure h = Some t.
Proof. induction h as [|[] h IH]; cbn; try lia; [done|]. by eexists. Qed.

Lemma last_failure_le now h t : in_order now h -> last_failure h = Some t -> (t <= now)%Z.
Proof.
  revert now. induction h as [|[] h IH]; intros now; cbn; [done| | |].
  - intros [Hle Ho] Hl. specialize (IH _ Ho Hl). lia.
  - intros [Hle Ho] Hl. specialize (IH _ Ho Hl). lia.
  - intros [Hle Ho] [= <-]. done.
Qed.

(** The breaker's fields in terms of its history. *)
Record breaker_inv (cfg : CircuitBreakerConfig) (now : Z) (h : list event) (b : breaker) : Prop := {
  inv_failures : failures b = consecutive_failures h;
  inv_closed : (consecutive_failures h < tripping cfg)%Z -> state b = Closed;
  inv_tripped : (tripping cfg <= consecutive_failures h)%Z ->
    exists t, last_failure h = Some t /\ last_tripped_at b = Some t /\
      (state b = Open \/ state b = HalfOpen /\ (t + cooloff_duration cfg <= now)%Z)
}.

Lemma breaker_inv_later cfg now now' h b : (now <= now')%Z -> breaker_inv cfg now h b -> breaker_inv cfg now' h b.
Proof.
  intros Hle [Hf Hc Ht]. split; [done..|]. intros HT. destruct (Ht HT) as (t & Hl & Htr & Hs).
  exists t. split_and!; [done..|]. destruct Hs as [|[]]; [by left|right; split; [done|lia]].
Qed.

Lemma breaker_inv_holds cfg h : cfg_ok cfg -> forall now, in_order now h ->
  (consecutive_failures h <= Int.u32_max)%Z -> breaker_inv cfg now h (breaker_after cfg h).
Proof.
  intros [HT Hcool]. unfold Int.u32_max in *. induction h as [|e h IH]; intros now; cbn [in_order].
  - intros _ _. split; cbn; [done|done|unfold tripping; lia].
  - intros [Hle Ho] Hlen. apply (breaker_inv_later cfg (at_time e)); [done|].
    pose proof (consecutive_failures_bound h) as Hb.
    pose proof (fun t => last_failure_le _ _ t Ho) as Hlf.
    destruct e as [t|t|t]; cbn [breaker_after at_time consecutive_failures] in *;
      [|split; cbn; [done|done|unfold tripping; lia]|];
      destruct (IH _ Ho ltac:(lia)) as [Hf Hc Ht].
    + unfold can_execute. destruct (state (breaker_after cfg h)) eqn:Es.
      * split; cbn; [done|by rewrite ?Es|]. intros HT'. destruct (Ht HT') as (?&?&?&[|[]]); congruence.
      * destruct (last_tripped_at (breaker_after cfg h)) as [t0|] eqn:Etr.
        2: { split; cbn; [done|by rewrite Es|]. intros HT'. destruct (Ht HT') as (?&?&?&?). congruence. }
        destruct (Z.leb_spec (cooloff_duration cfg) (Z.max 0 (t - t0))); cbn.
        -- split; cbn; [done| |].
           ++ intros HT'. specialize (Hc HT'). congruence.
           ++ intros HT'. destruct (Ht HT') as (t1&Hl&[= <-]&_). exists t0.
              split_and!; [done..|]. right. split; [done|]. specialize (Hlf _ Hl). lia.
        -- split; cbn; [done|by rewrite Es|]. intros HT'. destruct (Ht HT') as (t1&Hl&?&_).
           exists t1. split_and!; [done|congruence|by left].
      * split; cbn; [done|by rewrite Es|]. intros HT'. destruct (Ht HT') as (t1&Hl&?&[|[]]); [congruence|].
        exists t1. split_and!; [done..|]. by right.
    + unfold record_failure, tripping in *. rewrite Hf, Int.wrap_small by lia.
      destruct (Z.leb_spec (consecutive_failure_threshold cfg) (consecutive_failures h + 1)).
      * rewrite orb_true_r. split; cbn; [done|unfold tripping; lia|]. intros _. exists t. split_and!; [done..|by left].
      * rewrite (Hc ltac:(lia)). cbn. split; cbn; unfold tripping; [done|done|lia].
Qed.

(** C37. The breaker implements its specification: over any history of asking,
    successes and failures at times that do not go back, whatever its length and
    whatever threshold and cool-off are configured, a threshold of 0 included
    (it acts as 1), the permission it gives is the one the history determines:
    allowed below the threshold of failures in a row, denied until the cool-off
    after the last failure is over, then probing. The counter is a [u32] that
    wraps, so the failures since the last success have to be fewer than 2^32.
    The calls come one after the other; their interleaving is the section
    after this one. *)
Theorem breaker_refines_history cfg h now :
  cfg_ok cfg -> in_order now h -> (consecutive_failures h < 2 ^ 32)%Z ->
  fst (can_execute cfg now (breaker_after cfg h)) = permission cfg now h.
Proof.
  intros Hcfg Ho Hlen.
  destruct (breaker_inv_holds cfg h Hcfg now Ho ltac:(unfold Int.u32_max; lia)) as [Hf Hc Ht].
  unfold can_execute, permission.
  destruct (Z.ltb_spec (consecutive_failures h) (tripping cfg)) as [Hlt|Hge].
  - by rewrite (Hc Hlt).
  - destruct (Ht Hge) as (t & Hl & Htr & Hs). rewrite Hl, Htr. pose proof (last_failure_le _ _ _ Ho Hl).
    destruct Hs as [Hs|[Hs Hcool]]; rewrite Hs.
    + destruct (Z.leb_spec (cooloff_duration cfg) (Z.max 0 (now - t))),
        (Z.ltb_spec (now - t) (cooloff_duration cfg)); cbn; try done; destruct Hcfg; lia.
    + cbn. destruct (Z.ltb_spec (now - t) (cooloff_duration cfg)); [lia|done].
Qed.

(** With threshold 2: denied 29 after the second failure in a row, probing after 30.
    With threshold 0: allowed at first, denied from the first failure on. *)
Lemma breaker_refines_history_witness :
  (let cfg := BreakerCfg 2 30 in
   let h := [Failed 12; Failed 11; Asked 10; Succeeded 9; Failed 8]%Z in
   fst (can_execute cfg 41 (breaker_after cfg h)) = permission cfg 41 h /\
   permission cfg 41 h = Denied /\ permission cfg 42 h = Probe) /\
  (let cfg := BreakerCfg 0 30 in
   fst (can_execute cfg 7 (breaker_after cfg [])) = permission cfg 7 [] /\
   permission cfg 7 [] = Allow /\
   fst (can_execute cfg 9 (breaker_after cfg [Failed 8; Asked 7])) = permission cfg 9 [Failed 8; Asked 7] /\
   permission cfg 9 [Failed 8; Asked 7] = Denied)%Z.
Proof.
  cbv zeta. split_and!.
  - apply (breaker_refines_history (BreakerCfg 2 30)
      [Failed 12; Failed 11; Asked 10; Succeeded 9; Failed 8]%Z); cbn; unfold cfg_ok; cbn; z_compute.
  - done.
  - done.
  - apply (breaker_refines_history (BreakerCfg 0 30) []); cbn; unfold cfg_ok; cbn; z_compute.
  - done.
  - apply (breaker_refines_history (BreakerCfg 0 30) [Failed 8; Asked 7]%Z); cbn; unfold cfg_ok; cbn; z_compute.
  - done.
Defined.

(** ** The breaker under concurrent calls *)

(** Where a call stands: about to read the state, the trip time or to take the
    write lock; with its permission; about to clear or to count; with its count;
    holding the lock with the circuit just opened; done. *)
Inductive pc :=
| ReadState | ReadTripped | TryHalfOpen | Decided (p : CircuitPermission)
| ClearCount | CloseCircuit
| CountFailure | JudgeFailure (n : Z) | StampTrip
| Finished.
(** The breaker, the call holding the write lock of its state, and the calls. *)
Record shared := Shared { brk : breaker; holder : option nat; calls : gmap nat pc }.

Section Concurrent.
Variable cfg : CircuitBreakerConfig.

(** One access to the shared breaker by the call [i]: the atomics and each lock's
    critical section, in the order of the code.  The state is read or written only
    while no other call holds its lock; the trip time is written under that lock.
    @interceptors/evaluators/wasm.rs:76-112 WasmCircuitBreaker *)
Inductive step (i : nat) : shared -> shared -> Prop :=
| step_closed b cs :
    cs !! i = Some ReadState -> state b = Closed ->
    step i (Shared b None cs) (Shared b None (<[i := Decided Allow]> cs))
| step_half_open b cs :
    cs !! i = Some ReadState -> state b = HalfOpen ->
    step i (Shared b None cs) (Shared b None (<[i := Decided Probe]> cs))
| step_open b cs :
    cs !! i = Some ReadState -> state b = Open ->
    step i (Shared b None cs) (Shared b None (<[i := ReadTripped]> cs))
| step_cooled b h cs t now :
    cs !! i = Some ReadTripped -> last_tripped_at b = Some t ->
    (cooloff_duration cfg <= Z.max 0 (now - t))%Z ->
    step i (Shared b h cs) (Shared b h (<[i := TryHalfOpen]> cs))
| step_not_cooled b h cs now :
    cs !! i = Some ReadTripped ->
    (forall t, last_tripped_at b = Some t -> (Z.max 0 (now - t) < cooloff_duration cfg)%Z) ->
    step i (Shared b h cs) (Shared b h (<[i := Decided Denied]> cs))
| step_win b cs :
    cs !! i = Some TryHalfOpen -> state b = Open ->
    step i (Shared b None cs)
      (Shared (Breaker (failures b) HalfOpen (last_tripped_at b)) None (<[i := Decided Probe]> cs))
| step_lose b cs :
    cs !! i = Some TryHalfOpen -> state b <> Open ->
    step i (Shared b None cs) (Shared b None (<[i := Decided Denied]> cs))
| step_clear b h cs :
    cs !! i = Some ClearCount ->
    step i (Shared b h cs) (Shared (Breaker 0 (state b) (last_tripped_at b)) h (<[i := CloseCircuit]> cs))
| step_close b cs :
    cs !! i = Some CloseCircuit ->
    step i (Shared b None cs)
      (Shared (Breaker (failures b) Closed (last_tripped_at b)) None (<[i := Finished]> cs))
| step_count b h cs :
    cs !! i = Some CountFailure ->
    step i (Shared b h cs)
      (Shared (Breaker (Int.wrap 32 (failures b + 1)) (state b) (last_tripped_at b)) h
         (<[i := JudgeFailure (Int.wrap 32 (failures b + 1))]> cs))
| step_trip b cs n :
    cs !! i = Some (JudgeFailure n) ->
    state b = HalfOpen \/ (consecutive_failure_threshold cfg <= n)%Z ->
    step i (Shared b None cs)
      (Shared (Breaker (failures b) Open (last_tripped_at b)) (Some i) (<[i := StampTrip]> cs))
| step_tolerate b cs n :
    cs !! i = Some (JudgeFailure n) ->
    state b <> HalfOpen -> (n < consecutive_failure_threshold cfg)%Z ->
    step i (Shared b None cs) (Shared b None (<[i := Finished]> cs))
| step_stamp b cs now :
    cs !! i = Some StampTrip ->
    step i (Shared b (Some i) cs)
      (Shared (Breaker (failures b) (state b) (Some now)) None (<[i := Finished]> cs)).

(** The breaker is new and each call is at the start of one of its three methods. *)
Definition initial (s : shared) : Prop :=
  brk s = breaker_new /\ holder s = None /\
  forall i p, calls s !! i = Some p -> p = ReadState \/ p = ClearCount \/ p = CountFailure.
Inductive reachable : shared -> Prop :=
| reach_start s : initial s -> reachable s
| reach_step i s s' : reachable s -> step i s s' -> reachable s'.

(** An open circuit has its trip time, but for the moment its opener holds the lock. *)
Record trip_inv (s : shared) : Prop := {
  open_stamped : state (brk s) = Open -> holder s = None -> last_tripped_at (brk s) <> None;
  seen_stamped : forall i p, calls s !! i = Some p -> p = ReadTripped \/ p = TryHalfOpen ->
    last_tripped_at (brk s) <> None
}.

Lemma trip_inv_reachable s : reachable s -> trip_inv s.
Proof.
  induction 1 as [s (Hb & Hh & Hp)|i s s' _ [Ho Hs] Hstep].
  - split; [by rewrite Hb|]. intros i p Hi. destruct (Hp i p Hi) as [->|[->| ->]]; naive_solver.
  - assert (Hseen : forall b', last_tripped_at (brk s) = last_tripped_at b' \/ last_tripped_at b' <> None ->
      forall q, (q = ReadTripped \/ q = TryHalfOpen -> last_tripped_at (brk s) <> None) ->
      forall j p, <[i := q]> (calls s) !! j = Some p -> p = ReadTripped \/ p = TryHalfOpen ->
      last_tripped_at b' <> None).
    { intros b' [<-|Hb']; [|done]. intros q Hq j p. destruct (decide (j = i)) as [->|Hne].
      - rewrite lookup_insert_eq. intros [= <-]. apply Hq.
      - rewrite lookup_insert_ne by done. apply Hs. }
    destruct Hstep; cbn in *; split; cbn; try done; try (by intros; apply Ho);
      try (eapply Hseen; [by (left + right)|naive_solver]).
Qed.

(** Whatever the interleaving, a call that finds the circuit open finds when it was
    tripped: it is denied only before the cool-off after that time is over, or when
    another call has taken the circuit out of the open state in between. *)
Theorem breaker_never_stuck s s' i :
  reachable s -> step i s s' -> calls s' !! i = Some (Decided Denied) ->
  (exists t now, last_tripped_at (brk s) = Some t /\ (Z.max 0 (now - t) < cooloff_duration cfg)%Z) \/
  (calls s !! i = Some TryHalfOpen /\ state (brk s) <> Open).
Proof.
  intros Hr Hstep. pose proof (trip_inv_reachable s Hr) as [_ Hseen].
  destruct Hstep; cbn in *; rewrite lookup_insert_eq; intros [=].
  - left. destruct (last_tripped_at b) as [t|] eqn:E; [by exists t, now; auto|].
    destruct (Hseen i ReadTripped); auto.
  - by right.
Qed.
End Concurrent.

(** A call trips the breaker at 5, another is denied at 6. *)
Definition demo_calls : gmap nat pc := {[0%nat := CountFailure; 1%nat := ReadState]}.
Definition demo_tripped : shared :=
  Shared (Breaker 1 Open (Some 5%Z)) None {[0%nat := Finished; 1%nat := ReadTripped]}.
Lemma demo_reachable : reachable (BreakerCfg 1 30) demo_tripped.
Proof.
  assert (Hi : reachable (BreakerCfg 1 30) (Shared breaker_new None demo_calls)).
  { apply reach_start. split_and!; [done..|]. intros i p. cbn. unfold demo_calls.
    rewrite lookup_insert_Some, lookup_singleton_Some. naive_solver. }
  eapply reach_step in Hi; [|by apply (step_count _ 0%nat)].
  eapply reach_step in Hi; [|apply (step_trip _ 0%nat _ _ 1%Z); [done|right; done]].
  eapply reach_step in Hi; [|by apply (step_stamp _ 0%nat _ _ 5%Z)].
  eapply reach_step in Hi; [|by apply (step_open _ 1%nat)].
  exact Hi.
Qed.
Lemma breaker_never_stuck_witness :
  (exists t now, last_tripped_at (brk demo_tripped) = Some t /\ (Z.max 0 (now - t) < 30)%Z) \/
  (calls demo_tripped !! 1%nat = Some TryHalfOpen /\ state (brk demo_tripped) <> Open).
Proof.
  apply (breaker_never_stuck (BreakerCfg 1 30) demo_tripped
    (Shared (Breaker 1 Open (Some 5%Z)) None (<[1%nat := Decided Denied]> (calls demo_tripped))) 1%nat);
    [apply demo_reachable| |done].
  unfold demo_tripped. apply (step_not_cooled (BreakerCfg 1 30) 1%nat _ _ _ 6%Z); [done|]. by intros t [= <-].
Defined.

(** ** Failures of a guest *)

Section FailModes.
Context `{HttpLib, JsonText, Unicode} {W : Type} `{Clocks W, WasmTypes, !WasmLib W}.

(** A registered plugin decides only by the answer of its guest.  Without one, the
    breaker denying the call or the guest failing, it passes in [FailOpen] and
    rejects with a 5xx in [FailClosed]. *)
Theorem guarded_call_fail_modes ev name export input w p :
  plugins (deref (cell ev) w) !! name = Some p ->
  let v := fst (guarded_call ev name export input w) in
  (exists w1 val w2, invoke_guest ev p export input w1 = (Ok val, w2) /\ v = parse_verdict val) \/
  match plugin_fail_mode (config p) with
  | FailOpen => v = Pass
  | FailClosed => exists status code msg, v = reject_with status code msg /\ (500 <= status <= 504)%Z
  end.
Proof.
  intros Hp. unfold guarded_call. rewrite Hp.
  destruct (can_execute _ _ _) as [[] b]; cbn.
  3: { right. destruct (plugin_fail_mode (config p)); [done|]. eexists _, _, _. split; [done|lia]. }
  all: destruct (invoke_guest _ _ _ _ _) as [[val|e] w2] eqn:E; cbn;
    [left; eexists _, _, _; by split|].
  all: right; unfold handle_execution_error;
    destruct (_ || _), (plugin_fail_mode (config p)); try done; eexists _, _, _; (split; [done|lia]).
Qed.

(** What a guest's answer may do: only an explicit verdict rejects or transforms,
    any other answer passes; a rejection has a status of three digits. *)
Theorem parse_verdict_spec val :
  match parse_verdict val with
  | Reject r => j_str_field "verdict" val = Some "reject" /\ (100 <= rj_status_code r < 1000)%Z
  | Transform _ body => j_str_field "verdict" val = Some "transform" /\ body = j_str_field "body" val
  | Pass => j_str_field "verdict" val <> Some "reject" /\ j_str_field "verdict" val <> Some "transform"
  | Audit _ _ _ => False
  end.
Proof.
  unfold parse_verdict.
  destruct (j_str_field "verdict" val) as [t|] eqn:E; cbn [default from_option id]; [|done].
  destruct (String.eqb_spec t "pass") as [->|]; [done|].
  destruct (String.eqb_spec t "reject") as [->|]; [cbn|].
  - split; [done|]. destruct (match j_get _ _ with Some _ => _ | None => _ end); cbn; [|lia].
    unfold status_from_u64. destruct (_ && _) eqn:Eb; cbn; [|lia]. to_prop. lia.
  - destruct (String.eqb_spec t "transform") as [->|]; [done|]. cbn. split; congruence.
Qed.
End FailModes.


(** A runtime whose modules are the answers they give; ["trap"] traps. *)
Definition demo_types : WasmTypes := {| wasm_module := string; wasm_store := string; wasm_func := string |}.
Definition demo_call {W} (f : string) (_ : list Z) (s : string) (w : W) : result string Z * string * W :=
  if String.eqb s "trap" && starts_with "spectragql_intercept" f then (Err "unreachable executed", s, w)
  else (Ok (Z.of_nat (String.length s)), s, w).
Definition demo_wasm (W : Type) : @WasmLib demo_types W :=
  @Build_WasmLib demo_types W (fun p => Ok p) (fun b => Ok b) (fun s => Ok s)
    (fun m _ _ w => (Ok m, w)) (fun _ => true) (fun _ n => Some n) demo_call
    (fun _ _ s => Ok s) (fun _ _ s => Ok s).

Section Witnesses.
#[local] Existing Instances list_http ascii_tables bits_json_text demo_types demo_wasm.
Definition demo_world : Type := wasm_state.
Definition demo_clocks : Clocks demo_world := {| system_now _ := None; instant_now _ := 0%Z |}.
#[local] Existing Instance demo_clocks.
Definition demo_evaluator : WasmInterceptorEvaluator (W := demo_world) :=
  Evaluator (EngineCfg false true 1) {| deref w := w; assign x _ := x; deref_assign _ _ := eq_refl |}.
Definition demo_plugin : RegisteredPlugin := Plugin (H3 := demo_types) "trap" plugin_cfg_default 1.
Definition demo_state : demo_world := WasmState {["p" := demo_plugin]} ∅.
Lemma guarded_call_fail_modes_witness :
  let v := fst (guarded_call demo_evaluator "p" "spectragql_intercept_request" JNull demo_state) in
  (exists w1 val w2, invoke_guest demo_evaluator demo_plugin "spectragql_intercept_request" JNull w1 = (Ok val, w2) /\
     v = parse_verdict val) \/
  exists status code msg, v = reject_with status code msg /\ (500 <= status <= 504)%Z.
Proof.
  apply (guarded_call_fail_modes demo_evaluator "p" "spectragql_intercept_request" JNull demo_state demo_plugin).
  reflexivity.
Defined.
End Witnesses.
