(* ===== verification/Ticker.v ===== *)
(** * Ticker: the clock that stops a plugin, [src/interceptors/evaluators/wasm.rs].

    Each evaluator has a thread that counts epochs; a guest runs until the epoch reaches
    the deadline it was given. Between which bounds that is. *)

From S2P Require Import Prelude Externals Clock Sanitizer Protocol Config Interceptors Wasm.
Local Open Scope string_scope.
Local Open Scope Z_scope.

(** @interceptors/evaluators/wasm.rs:150-158 WasmEngineConfig::default *)
Definition engine_cfg_default : WasmEngineConfig := EngineCfg true false 1.
(** In milliseconds. @interceptors/evaluators/wasm.rs:193-193 WasmInterceptorEvaluator::new *)
Definition tick_interval (ec : WasmEngineConfig) : Z := Z.max (eng_epoch_tick_interval_ms ec) 1.

(** The time, the epoch of the engine, [ticker_running], and until when the thread sleeps,
    unless it has ended. *)
Record ticker := Ticker { time : Z; epoch : Z; ticker_running : bool; sleeps_until : option Z }.
(** The thread starts with a look at the flag, which is set. @interceptors/evaluators/wasm.rs:191-203 WasmInterceptorEvaluator::new *)
Definition ticker_start (ec : WasmEngineConfig) (now : Z) : ticker := Ticker now 0 true (Some (now + tick_interval ec)).
(** The thread wakes up at [t]. @interceptors/evaluators/wasm.rs:198-201 WasmInterceptorEvaluator::new *)
Definition wakes_at (ec : WasmEngineConfig) (t : Z) (x : ticker) : ticker :=
  Ticker t (epoch x + 1) (ticker_running x) (if ticker_running x then Some (t + tick_interval ec) else None).
(** @interceptors/evaluators/wasm.rs:583-587 WasmInterceptorEvaluator::drop *)
Definition drop (x : ticker) : ticker := Ticker (time x) (epoch x) false (sleeps_until x).
(** Engine and thread are the system's to give. @interceptors/evaluators/wasm.rs:{fn new#2} WasmInterceptorEvaluator::new *)
Definition evaluator_new `{WasmTypes} {W : Type} (engine_new : result string unit) (spawned : result string unit) (cell : Ref W wasm_state)
    (ec : WasmEngineConfig) (now : Z) : result string (WasmInterceptorEvaluator * ticker) :=
  match engine_new with
  | Err _ => Err "Failed to initialize Wasmtime Engine with epoch interruption"
  | Ok _ => match spawned with
            | Err _ => Err "Failed to spawn Wasmtime epoch ticker thread"
            | Ok _ => Ok (Evaluator ec cell, ticker_start ec now)
            end
  end.

Section Ticks.
Variable ec : WasmEngineConfig.
(** How much later than asked the system wakes the thread. *)
Variable slack : Z.
Context (Hslack : 0 <= slack).

(** Time passes, but not past a wake-up that is due; the thread wakes up. The evaluator is
    in use, so it is not dropped meanwhile. *)
Inductive tick_step : ticker -> ticker -> Prop :=
| passes x t : time x <= t -> (forall w, sleeps_until x = Some w -> t <= w + slack) ->
    tick_step x (Ticker t (epoch x) (ticker_running x) (sleeps_until x))
| wakes x w t : sleeps_until x = Some w -> time x <= t -> w <= t <= w + slack -> tick_step x (wakes_at ec t x).

(** The thread is alive, and due within an interval. *)
Definition ticking (x : ticker) : Prop :=
  ticker_running x = true /\ exists w, sleeps_until x = Some w /\ w <= time x + tick_interval ec /\ time x <= w + slack.
(** Since [x] the epoch was counted [n] times: not faster than the interval, not slower
    than it and the slack. *)
Record since (x y : ticker) (n : Z) : Prop := Since {
  si_epoch : epoch y = epoch x + n;
  si_count : 0 <= n;
  si_running : ticker_running y = true;
  si_time : time x <= time y;
  si_lower : time x + (n - 1) * tick_interval ec <= time y;
  si_due : exists w, sleeps_until y = Some w /\ time y <= w + slack /\ w <= time y + tick_interval ec /\
    (1 <= n -> time x + n * tick_interval ec <= w) /\
    w <= time x + n * (tick_interval ec + slack) + tick_interval ec
}.
Lemma interval_positive : 1 <= tick_interval ec.
Proof. unfold tick_interval. lia. Qed.
Lemma since_start x : ticking x -> since x x 0.
Proof.
  intros (Hr & w & Hw & Hl & Hs). pose proof interval_positive. split; [lia|lia|done|lia|lia|]. exists w. split_and!; [done|lia|lia|lia|lia].
Qed.
Lemma since_step x y z n : since x y n -> tick_step y z -> exists n', since x z n'.
Proof using Hslack.
  intros [He Hn Hr Ht Hl (w & Hw & Hs & Hnear & Hlow & Hup)] Hstep. pose proof interval_positive. destruct Hstep as [y t Hyt Hdue|y w' t Hw' Hyt Hwt].
  - exists n. split; cbn; [done|done|done|lia|lia|]. exists w. specialize (Hdue w Hw). split_and!; [done|lia|lia|done|done].
  - assert (w' = w) as -> by congruence. exists (n + 1). unfold wakes_at. rewrite Hr. split; cbn; [lia|lia|done|lia| |].
    + destruct (decide (1 <= n)) as [Hn1|Hn1]; [specialize (Hlow Hn1); nia|assert (n = 0) as -> by lia; lia].
    + exists (t + tick_interval ec). split_and!; [done|lia|lia| |].
      * intros _. destruct (decide (1 <= n)) as [Hn1|Hn1]; [specialize (Hlow Hn1); nia|assert (n = 0) as -> by lia; lia].
      * nia.
Qed.
Lemma since_run x y : ticking x -> rtc tick_step x y -> exists n, since x y n.
Proof using Hslack.
  intros Hx. revert y. apply (rtc_ind_r (fun y => exists n, since x y n)); [exists 0; by apply since_start|].
  intros y z _ Hs [n Hn]. by eapply since_step.
Qed.

(** A guest of a plugin, started now, is stopped when the epoch reaches its deadline. The
    sum, 64-bit in wasmtime, is written without bound: it does not overflow as long as
    the epoch and the timeout are each below 2^63, which is 290 million years of ticks a
    millisecond apart. *)
Definition deadline_of (cfg : WasmPluginConfig) (x : ticker) : Z := epoch x + deadline_ticks ec cfg.

(** C38. A guest runs for its plugin's timeout, up to the clock's grain: as long as it is not
    stopped, no more time has gone by than the timeout, or one interval where that is
    longer, and the system's delays; and when it is stopped, less than two intervals of
    the timeout were left. *)
Theorem guest_stopped_in_time cfg x y : ticking x -> rtc tick_step x y ->
  (epoch y < deadline_of cfg x ->
     time y - time x <= Z.max (plugin_timeout_ms cfg) (tick_interval ec) + deadline_ticks ec cfg * slack) /\
  (deadline_of cfg x <= epoch y -> plugin_timeout_ms cfg - 2 * tick_interval ec < time y - time x).
Proof using Hslack.
  intros Hx Hr. destruct (since_run x y Hx Hr) as [n [He Hn _ Ht Hl (w & _ & Hs & _ & _ & Hup)]].
  unfold deadline_of, deadline_ticks. pose proof interval_positive as Hi.
  assert (Hmax : Z.max 1 (eng_epoch_tick_interval_ms ec) = tick_interval ec) by (unfold tick_interval; lia). rewrite Hmax.
  pose proof (Z.mul_div_le (plugin_timeout_ms cfg) (tick_interval ec) ltac:(lia)) as Hd1.
  pose proof (Z.mul_succ_div_gt (plugin_timeout_ms cfg) (tick_interval ec) ltac:(lia)) as Hd2.
  set (q := plugin_timeout_ms cfg / tick_interval ec) in *. set (i := tick_interval ec) in *. split; intros Hep.
  - assert (Hnq : n + 1 <= Z.max 1 q) by lia. assert (time y - time x <= (n + 1) * (i + slack)) by nia.
    assert ((n + 1) * (i + slack) <= Z.max 1 q * (i + slack)) by nia. nia.
  - nia.
Qed.
End Ticks.

Lemma demo_tick t e : tick_step engine_cfg_default 1 (Ticker t e true (Some (t + 1))) (Ticker (t + 2) (e + 1) true (Some (t + 2 + 1))).
Proof. apply (wakes engine_cfg_default 1 (Ticker t e true (Some (t + 1))) (t + 1)); cbn; [done|lia|lia]. Qed.
Lemma guest_stopped_in_time_witness :
  let x := ticker_start engine_cfg_default 0 in
  8 < time (Ticker 20 10 true (Some 21)) - time x.
Proof.
  cbv zeta.
  refine (proj2 (guest_stopped_in_time engine_cfg_default 1 ltac:(lia) plugin_cfg_default (ticker_start engine_cfg_default 0) (Ticker 20 10 true (Some 21)) _ _) _).
  - split; [done|]. exists 1. unfold tick_interval. cbn. split_and!; [done|lia|lia].
  - do 10 (eapply rtc_l; [apply demo_tick|]). apply rtc_refl.
  - vm_compute. discriminate.
Defined.
