(* ===== verification/Cel.v ===== *)
(** * Cel: rules in the Common Expression Language,
    [src/interceptors/evaluators/cel.rs].

    The values and variables an expression sees, the rule evaluator, and the
    verdicts of the two CEL interceptors.  Compiling and executing a program is the
    [cel] crate's and a parameter. *)

From S2P Require Import Prelude Externals Clock Sanitizer Protocol Interceptors.
Local Open Scope string_scope.

(** The crate's values, programs and execution under a set of variables; [cel_bool]
    is the match on [Value::Bool], errors and values print with their [Debug]. *)
Class CelLib := {
  cel_value : Type;
  CNull : cel_value;
  CBool : bool -> cel_value;
  CInt : Z -> cel_value;
  CUInt : Z -> cel_value;
  CFloat : string -> cel_value;
  CString : string -> cel_value;
  CList : list cel_value -> cel_value;
  CMap : gmap string cel_value -> cel_value;
  cel_bool : cel_value -> option bool;
  cel_debug : cel_value -> string;
  Program : Type;
  compile : string -> result string Program;
  execute : Program -> gmap string cel_value -> result string cel_value;
  cel_bool_true b : cel_bool (CBool b) = Some b
}.
Abbreviation variables := (gmap string cel_value).

(** [CelAction] @interceptors/evaluators/cel.rs:{enum CelAction} CelAction *)
Inductive CelAction := RejectAction | AuditAction.
(** @interceptors/evaluators/cel.rs:{fn from_str_opt} CelAction::from_str_opt *)
Definition from_str_opt (s : option string) : CelAction :=
  match to_ascii_lowercase <$> s with
  | Some l => if String.eqb l "audit" || String.eqb l "flag" then AuditAction else RejectAction
  | None => RejectAction
  end.

Section Cel.
Context `{CelLib, HttpLib, JsonText, GqlParser}.

(** @interceptors/evaluators/cel.rs:{fn json_to_cel} json_to_cel *)
Fixpoint json_to_cel (val : json) : cel_value :=
  match val with
  | JNull => CNull
  | JBool b => CBool b
  | JNumber n =>
      match as_i64 (JNumber n) with
      | Some i => CInt i
      | None => match n with
                | PosInt u => CUInt u
                | Float f => CFloat f
                | NegInt _ => CNull
                end
      end
  | JString s => CString s
  | JArray arr => CList (map json_to_cel arr)
  | JObject obj =>
      CMap (List.fold_left (fun m kv => <[fst kv := json_to_cel (snd kv)]> m) obj ∅)
  end.

(** [Context::add_variable]: a later value replaces an earlier one. *)
Definition add_variable (k : string) (v : cel_value) (c : variables) : variables := <[k := v]> c.
(** The variables of an object's fields. @interceptors/evaluators/cel.rs:90-95 CelRuleEvaluator::evaluate *)
Definition add_fields (j : json) (c : variables) : variables :=
  match j with
  | JObject m => fold_left (fun c kv => add_variable (fst kv) (json_to_cel (snd kv)) c) m c
  | _ => c
  end.

(** ** Rule evaluator *)

(** [CelRuleEvaluator] @interceptors/evaluators/cel.rs:{struct CelRuleEvaluator} CelRuleEvaluator *)
Definition CelRuleEvaluator : Type := gmap string Program.
Definition compile_rule (expression : string) : result string Program :=
  match compile expression with
  | Ok p => Ok p
  | Err e => Err (str_concat ["Failed to compile CEL expression '"; expression; "': "; e])
  end.
(** @interceptors/evaluators/cel.rs:{fn register} CelRuleEvaluator::register *)
Definition cel_register (name expression : string) (ev : CelRuleEvaluator) : result string CelRuleEvaluator :=
  match compile_rule expression with
  | Ok p => Ok (insert (M := gmap string Program) name p ev)
  | Err e => Err e
  end.
(** @interceptors/evaluators/cel.rs:{fn has_rule} CelRuleEvaluator::has_rule *)
Definition has_rule (name : string) (ev : CelRuleEvaluator) : bool :=
  match lookup (M := gmap string Program) name ev with Some _ => true | None => false end.
(** @interceptors/evaluators/cel.rs:{fn evaluate} CelRuleEvaluator::evaluate *)
Definition cel_evaluate (ev : CelRuleEvaluator) (rule_name : string) (input : json) :
    result RuleEvaluationError bool :=
  match lookup (M := gmap string Program) rule_name ev with
  | None => Err (RuleNotFound rule_name)
  | Some program =>
      match execute program (add_variable "input" (json_to_cel input) (add_fields input ∅)) with
      | Ok v => match cel_bool v with
                | Some b => Ok b
                | None => Err (EvaluationFailed
                    (String.append "CEL expression did not return a boolean, got: " (cel_debug v)))
                end
      | Err e => Err (EvaluationFailed (String.append "CEL evaluation error: " e))
      end
  end.
#[export] Instance cel_rule_evaluator : RuleEvaluator CelRuleEvaluator := {| evaluate := cel_evaluate |}.

(** ** Interceptors *)

(** [CelRequestInterceptor] and [CelResponseInterceptor]. @interceptors/evaluators/cel.rs:{struct CelRequestInterceptor} CelRequestInterceptor *)
Record CelInterceptor := CelRule {
  cel_name : string;
  program : Program;
  cel_status_code : Z;
  rejection_code : string;
  rejection_message : string;
  cel_action : CelAction;
  cel_tag : option string
}.
(** @interceptors/evaluators/cel.rs:{fn with_options} CelRequestInterceptor::with_options *)
Definition request_with_options (name expression : string) (status : option Z) (code message : option string)
    (action : CelAction) (tag : option string) : result string CelInterceptor :=
  match compile_rule expression with
  | Err e => Err e
  | Ok p => Ok (CelRule name p (default 403%Z status) (default "POLICY_VIOLATION" code)
                  (default "Request failed CEL validation policy" message) action tag)
  end.
(** @interceptors/evaluators/cel.rs:{fn with_options#2} CelResponseInterceptor::with_options *)
Definition response_with_options (name expression : string) (status : option Z) (code message : option string)
    (action : CelAction) (tag : option string) : result string CelInterceptor :=
  match compile_rule expression with
  | Err e => Err e
  | Ok p => Ok (CelRule name p (default 500%Z status) (default "DATA_LEAK_PREVENTED" code)
                  (default "Response failed outbound CEL policy check" message) action tag)
  end.
(** @interceptors/evaluators/cel.rs:{fn new#2} CelRequestInterceptor::new *)
Definition cel_request_new (expression : string) (status : option Z) (code message : option string) :=
  request_with_options "cel_request" expression status code message RejectAction None.
(** @interceptors/evaluators/cel.rs:{fn new#3} CelResponseInterceptor::new *)
Definition cel_response_new (expression : string) (status : option Z) (code message : option string) :=
  response_with_options "cel_response" expression status code message RejectAction None.

(** What an evaluation decides. @interceptors/evaluators/cel.rs:341-379 CelRequestInterceptor::intercept_request *)
Definition cel_verdict (r : CelInterceptor) (eval_result : result string cel_value) : InterceptorVerdict :=
  let reject msg := reject_with (cel_status_code r) (rejection_code r) msg in
  match cel_action r with
  | RejectAction =>
      match eval_result with
      | Ok v => match cel_bool v with
                | Some true => Pass
                | Some false => reject (rejection_message r)
                | None => reject (String.append "CEL expression returned non-boolean: " (cel_debug v))
                end
      | Err e => reject (String.append "CEL evaluation error: " e)
      end
  | AuditAction =>
      match eval_result with
      | Ok v => match cel_bool v with
                | Some true => Audit (cel_name r) (cel_tag r) (rejection_message r)
                | _ => Pass
                end
      | Err _ => Pass
      end
  end.

(** The headers that read as text; the last of equal names stays. @interceptors/evaluators/cel.rs:203-216 CelRequestInterceptor::intercept_request *)
Definition headers_val (h : HeaderMap) : cel_value :=
  CMap (fold_left (fun m kv => match hv_to_str (snd kv) with
                               | Some s => <[fst kv := CString s]> m
                               | None => m
                               end) (hm_entries h) ∅).
Definition opt_string (o : option string) : cel_value :=
  match o with Some s => CString s | None => CNull end.
(** @interceptors/evaluators/cel.rs:287-338 CelRequestInterceptor::intercept_request *)
Definition claims_val (claims : option AuthClaims) : cel_value :=
  CMap (list_to_map
    match claims with
    | Some c =>
        [("sub", opt_string (subject c)); ("subject", opt_string (subject c));
         ("tenant_id", opt_string (tenant_id c)); ("org_id", opt_string (tenant_id c));
         ("roles", CList (map CString (roles c))); ("permissions", CList (map CString (permissions c)));
         ("is_authenticated", CBool (match subject c with Some _ => true | None => false end));
         ("raw", json_to_cel (raw_claims c))]
    | None =>
        [("sub", CNull); ("subject", CNull); ("tenant_id", CNull); ("org_id", CNull);
         ("roles", CList []); ("permissions", CList []); ("is_authenticated", CBool false); ("raw", CNull)]
    end).
(** The variables of the body. @interceptors/evaluators/cel.rs:250-285 CelRequestInterceptor::intercept_request *)
Definition body_vars (json_body : option json) (body : string) (c : variables) : variables :=
  let c :=
    match json_body with
    | Some j =>
        let c := add_variable "variables"
                   (match j_get "variables" j with Some v => json_to_cel v | None => CMap ∅ end) c in
        let c := match j_str_field "query" j with Some q => add_variable "query" (CString q) c | None => c end in
        add_variable "body" (json_to_cel j) c
    | None => add_variable "body" (CString body) (add_variable "variables" (CMap ∅) c)
    end in
  add_variable "raw_body" (CString body) c.
(** @interceptors/evaluators/cel.rs:201-338 CelRequestInterceptor::intercept_request *)
Definition request_vars (ctx : InterceptorContext) (parts : HttpRequestInfo) (body : string) : variables :=
  let h := headers_val (headers parts) in
  let req := CMap (list_to_map [("method", CString (method parts)); ("uri", CString (uri parts));
                                ("path", CString (uri_path (uri parts))); ("headers", h)]) in
  let c := add_variable "request" req (add_variable "headers" h ∅) in
  let c := add_variable "operation_name" (opt_string (ctx_operation_name ctx)) c in
  let json_body := match ctx_json_body ctx with Some j => Some j | None => json_from_str body end in
  let c := body_vars json_body body c in
  add_variable "auth" (claims_val (claims ctx)) (add_variable "claims" (claims_val (claims ctx)) c).
(** @interceptors/evaluators/cel.rs:{fn intercept_request} CelRequestInterceptor::intercept_request *)
Definition cel_request {W} (r : CelInterceptor) : RequestInterceptor W := fun w ctx parts body =>
  ReqOut (cel_verdict r (execute (program r) (request_vars ctx parts body))) w ctx parts.

(** @interceptors/evaluators/cel.rs:452-497 CelResponseInterceptor::intercept_response *)
Definition response_vars (ctx : InterceptorContext) (parts : response_parts) (body : string) : variables :=
  let c := add_variable "status" (CUInt (rp_status parts)) ∅ in
  let c := add_variable "duration_ms" (CUInt (duration_ms ctx)) c in
  let c := add_variable "request_id" (CString (ctx_request_id ctx)) c in
  let c := add_variable "operation_name" (opt_string (ctx_operation_name ctx)) c in
  let c := add_variable "headers" (headers_val (rp_headers parts)) c in
  if utf8_valid body then
    let c := add_variable "raw_body" (CString body) (add_variable "body" (CString body) c) in
    match json_from_str body with
    | Some json_val => add_variable "response" (json_to_cel json_val) (add_fields json_val c)
    | None => add_variable "response" (CString body) c
    end
  else c.
(** @interceptors/evaluators/cel.rs:{fn intercept_response} CelResponseInterceptor::intercept_response *)
Definition cel_response {W} (r : CelInterceptor) : ResponseInterceptor W := fun w ctx parts body =>
  RespOut (cel_verdict r (execute (program r) (response_vars ctx parts body))) w parts.

(** ** Lemmas *)

Lemma add_fields_lookup l : forall k c,
  NoDup l.*1 ->
  add_fields (JObject l) c !! k =
  match Assoc.get k l with Some v => Some (json_to_cel v) | None => c !! k end.
Proof.
  cbn. unfold add_variable. induction l as [|[k' v] l IH]; intros k c; cbn; [done|].
  rewrite NoDup_cons. intros [Hk Hnd]. rewrite IH by done.
  destruct (String.eqb_spec k k') as [->|Hne].
  - rewrite (proj2 (Assoc.get_None k' l) Hk). by rewrite lookup_insert_eq.
  - destruct (Assoc.get k l); [done|]. by rewrite lookup_insert_ne by congruence.
Qed.

(** ** Properties *)

(** An enforcing rule lets a message through exactly when its expression is true: a
    false, a value that is no boolean or an error rejects with the rule's status and
    code.  An auditing rule rejects nothing. *)
Theorem cel_verdict_spec r res :
  match cel_action r with
  | RejectAction =>
      (cel_verdict r res = Pass <-> exists v, res = Ok v /\ cel_bool v = Some true) /\
      (cel_verdict r res <> Pass -> exists msg, cel_verdict r res = reject_with (cel_status_code r) (rejection_code r) msg)
  | AuditAction =>
      is_reject (cel_verdict r res) = false /\
      (cel_verdict r res <> Pass <-> exists v, res = Ok v /\ cel_bool v = Some true)
  end.
Proof.
  unfold cel_verdict. destruct (cel_action r), res as [v|e]; cbn.
  all: try (destruct (cel_bool v) as [[]|] eqn:E; cbn).
  all: split; [try done; naive_solver|naive_solver].
Qed.

(** Every top-level field of a JSON response is a variable of the response rules,
    but for [response], and takes the place of the gateway's own variable of that
    name. *)
Theorem response_fields_shadow ctx parts body l k v :
  utf8_valid body = true -> json_from_str body = Some (JObject l) -> NoDup l.*1 ->
  Assoc.get k l = Some v -> k <> "response" ->
  response_vars ctx parts body !! k = Some (json_to_cel v).
Proof.
  intros Hu Hj Hnd Hk Hne. unfold response_vars. rewrite Hu, Hj.
  unfold add_variable at 1. rewrite lookup_insert_ne by congruence.
  by rewrite add_fields_lookup, Hk.
Qed.
End Cel.

(** ** Concrete inputs *)

(** Values are booleans or something else; a program is the variable it reads. *)
Definition demo_cel : CelLib.
Proof.
  refine {|
    cel_value := option bool; CNull := None; CBool b := Some b; CInt _ := None; CUInt _ := None;
    CFloat _ := None; CString _ := None; CList _ := None; CMap _ := None;
    cel_bool v := v; cel_debug _ := "value";
    Program := string; compile s := Ok s;
    execute p c := match lookup (M := gmap string (option bool)) p c with
                   | Some v => Ok v | None => Err "undeclared reference" end
  |}.
  done.
Defined.
Section Witnesses.
#[local] Existing Instances demo_cel list_http bits_json_text.
Lemma response_fields_shadow_witness :
  let body := json_to_string (JObject [("status", JBool true)]) in
  lookup (M := gmap string cel_value) "status"
    (response_vars (ctx_new "id" (HLC 0 0)) (RespParts 500 hm_new) body) = Some (CBool true).
Proof.
  apply (response_fields_shadow (ctx_new "id" (HLC 0 0)) (RespParts 500 hm_new)
    (json_to_string (JObject [("status", JBool true)])) [("status", JBool true)] "status" (JBool true));
    [by vm_compute|by vm_compute| |done|done].
  apply (bool_decide_unpack _). by vm_compute.
Defined.
End Witnesses.
