(* ===== verification/Manager.v ===== *)
(** * Manager: interceptors from the configuration, [src/interceptors/manager.rs].

    Every configured interceptor is built and registered under its name, then the
    global and the per-operation pipelines are assembled from the names the
    configuration lists. *)

From S2P Require Import Prelude Externals Clock Types Sanitizer Protocol Config Interceptors Auth Wasm Cel.
Local Open Scope string_scope.

Section Manager.
Context `{HttpLib, JsonText, Unicode, GqlParser, LruLib, AuthLib, CelLib}.
Context {W : Type} `{Clocks W, WasmTypes, !WasmLib W}.

(** The environment of the process: variables, files, whether the engine starts, and
    the cells the interceptors' state lives in, one per interceptor name. *)
Record process := Process {
  env : string -> option string;
  read_file : string -> option string;
  engine_starts : bool;
  wasm_cell : Ref W wasm_state;
  cache_cell : string -> Ref W (lru CachedAuth);
  keys_cell : string -> Ref W key_set;
  refreshed_cell : string -> Ref W (option Z)
}.
Context (proc : process).

(** [InterceptorManager] @interceptors/manager.rs:{struct InterceptorManager} InterceptorManager *)
Record InterceptorManager := Manager {
  global_request_pipeline : list (RequestInterceptor W);
  global_response_pipeline : list (ResponseInterceptor W);
  route_request_pipelines : gmap string (list (RequestInterceptor W));
  route_response_pipelines : gmap string (list (ResponseInterceptor W));
  wasm_evaluator : option (WasmInterceptorEvaluator (W := W))
}.
(** @interceptors/manager.rs:{fn empty} InterceptorManager::empty *)
Definition manager_empty : InterceptorManager := Manager [] [] ∅ ∅ None.
(** @interceptors/manager.rs:{fn set_global_request_pipeline} InterceptorManager::set_global_request_pipeline *)
Definition set_global_request_pipeline p m :=
  Manager p (global_response_pipeline m) (route_request_pipelines m) (route_response_pipelines m) (wasm_evaluator m).
(** @interceptors/manager.rs:{fn set_global_response_pipeline} InterceptorManager::set_global_response_pipeline *)
Definition set_global_response_pipeline p m :=
  Manager (global_request_pipeline m) p (route_request_pipelines m) (route_response_pipelines m) (wasm_evaluator m).
(** @interceptors/manager.rs:{fn set_route_request_pipeline} InterceptorManager::set_route_request_pipeline *)
Definition set_route_request_pipeline op p m :=
  Manager (global_request_pipeline m) (global_response_pipeline m)
    (<[op := p]> (route_request_pipelines m)) (route_response_pipelines m) (wasm_evaluator m).
(** @interceptors/manager.rs:{fn set_route_response_pipeline} InterceptorManager::set_route_response_pipeline *)
Definition set_route_response_pipeline op p m :=
  Manager (global_request_pipeline m) (global_response_pipeline m)
    (route_request_pipelines m) (<[op := p]> (route_response_pipelines m)) (wasm_evaluator m).

(** The interceptors built so far, by name. *)
Record registry := Registry {
  reg_requests : gmap string (RequestInterceptor W);
  reg_responses : gmap string (ResponseInterceptor W)
}.
Definition add_request name i r := Registry (<[name := i]> (reg_requests r)) (reg_responses r).
Definition add_response name i r := Registry (reg_requests r) (<[name := i]> (reg_responses r)).
Definition built : Type := result string (registry * W).

(** ** Building one interceptor *)

(** [StatusCode::from_u16(c).unwrap_or(FORBIDDEN)]. *)
Definition rule_status (c : Z) : Z := if ((100 <=? c) && (c <? 1000))%Z then c else 403%Z.
(** @interceptors/manager.rs:105-142 InterceptorManager::from_config *)
Definition build_cel (name : string) (ic : InterceptorConfig) (r : registry) (w : W) : built :=
  match expression ic with
  | None => Err (str_concat ["Missing 'expression' for CEL interceptor '"; name; "'"])
  | Some expr =>
      let status := rule_status <$> status_code ic in
      let act := from_str_opt (action ic) in
      match stage ic with
      | StRequest =>
          match request_with_options name expr status (code ic) (ic_message ic) act (tag ic) with
          | Ok i => Ok (add_request name (cel_request i) r, w)
          | Err e => Err (str_concat ["Invalid CEL request rule '"; name; "': "; e])
          end
      | StResponse =>
          match response_with_options name expr status (code ic) (ic_message ic) act (tag ic) with
          | Ok i => Ok (add_response name (cel_response i) r, w)
          | Err e => Err (str_concat ["Invalid CEL response rule '"; name; "': "; e])
          end
      end
  end.

(** @interceptors/manager.rs:151-165 InterceptorManager::from_config *)
Definition plugin_config (default_timeout : Z) (ic : InterceptorConfig) : WasmPluginConfig :=
  PluginCfg (default default_timeout (timeout_ms ic)) (16 * 1024 * 1024)
    (default FailClosed (fail_mode ic))
    (BreakerCfg (default 5%Z (failure_threshold ic))
       (default 30%Z (cooloff_duration_secs ic) * 1000000000)).
(** @interceptors/manager.rs:167-180 InterceptorManager::from_config *)
Definition load_plugin (ev : WasmInterceptorEvaluator (W := W)) (name file : string)
    (cfg : WasmPluginConfig) (w : W) : result string unit * W :=
  let context what r :=
    match r with
    | (Ok tt, w) => (Ok tt, w)
    | (Err _, w) => (Err (str_concat [what; " from '"; file; "'"]), w)
    end in
  if ends_with ".cwasm" file then
    context "Failed to load precompiled .cwasm" (load_cwasm_file ev name file cfg w)
  else if ends_with ".wat" file then
    match read_file proc file with
    | Some wat_str =>
        if utf8_valid wat_str then context "Failed to load WAT" (load_wat ev name wat_str cfg w)
        else (Err (str_concat ["Failed to read WAT file from '"; file; "'"]), w)
    | None => (Err (str_concat ["Failed to read WAT file from '"; file; "'"]), w)
    end
  else
    match read_file proc file with
    | Some b => context "Failed to load WASM bytes" (load_wasm_bytes ev name b cfg w)
    | None => (Err (str_concat ["Failed to read WASM file from '"; file; "'"]), w)
    end.
(** @interceptors/manager.rs:143-192 InterceptorManager::from_config *)
Definition build_wasm (default_timeout : Z) (evaluator : option WasmInterceptorEvaluator)
    (name : string) (ic : InterceptorConfig) (r : registry) (w : W) : built :=
  match evaluator with
  | None => Err (str_concat ["Wasm engine was not initialized for interceptor '"; name; "'"])
  | Some ev =>
      match path ic with
      | None => Err (str_concat ["Missing 'path' for WASM interceptor '"; name; "'"])
      | Some file =>
          match load_plugin ev name file (plugin_config default_timeout ic) w with
          | (Err e, _) => Err e
          | (Ok _, w) =>
              match stage ic with
              | StRequest => Ok (add_request name (wasm_request ev name) r, w)
              | StResponse => Ok (add_response name (wasm_response ev name) r, w)
              end
          end
      end
  end.

Definition or_else {A} (a b : option A) : option A := match a with Some x => Some x | None => b end.
(** @interceptors/manager.rs:193-221 InterceptorManager::from_config *)
Definition build_native (admin_token : option string) (json_error : string -> string)
    (name : string) (ic : InterceptorConfig) (r : registry) (w : W) : built :=
  let k := default name (kind ic) in
  match stage ic with
  | StRequest =>
      if String.eqb k "graphql_syntax" then Ok (add_request name (graphql_syntax json_error) r, w)
      else if String.eqb k "header_validation" then Ok (add_request name (header_validation true) r, w)
      else if String.eqb k "deploy_auth" then
        let t := or_else (token ic) (or_else admin_token
          (or_else (env proc "SPECTRA_DEPLOY_TOKEN") (env proc "SPECTRAGQL_DEPLOY_TOKEN"))) in
        Ok (add_request name (deploy_auth (deploy_auth_token (env proc) t)) r, w)
      else Err (str_concat ["Unknown native interceptor kind '"; k; "' for stage 'Request' in '"; name; "'"])
  | StResponse =>
      if String.eqb k "sensitive_data" then Ok (add_response name (sensitive_data None []) r, w)
      else Err (str_concat ["Unknown native interceptor kind '"; k; "' for stage 'Response' in '"; name; "'"])
  end.

(** @interceptors/manager.rs:255-269 InterceptorManager::from_config *)
Definition claims_mapping_of (ic : InterceptorConfig) : ClaimsMapping :=
  Mapping (default "sub" (Config.subject_path ic))
    (Some (default "org_id" (Config.tenant_path ic)))
    (default "roles" (Config.roles_path ic))
    (Some (default "permissions" (Config.permissions_path ic))).
(** @interceptors/manager.rs:222-279 InterceptorManager::from_config *)
Definition build_rbac (name : string) (ic : InterceptorConfig) (r : registry) (w : W) : built :=
  let w := assign (cache_cell proc name) (lru_new (Z.to_nat default_l1_cache_capacity)) w in
  let rb := rbac_new (cache_cell proc name) in
  let '(rb, w) :=
    match jwks_url ic with
    | Some url =>
        (with_provider (Jwks url (keys_cell proc name) (refreshed_cell proc name) (3600 * 1000000000)) rb,
         assign (refreshed_cell proc name) None (assign (keys_cell proc name) ∅ w))
    | None =>
        match secret ic with
        | Some sec => (with_provider (Hmac (as_bytes sec)) rb, w)
        | None => (rb, w)
        end
    end in
  let mut_pol := match Config.mutations_default ic with Some s => policy_from_str s | None => AuditOnly end in
  let qry_pol := match Config.queries_default ic with Some s => policy_from_str s | None => PassAll end in
  let rb := with_policies mut_pol qry_pol rb in
  let rb := fold_left (fun rb op => allow_unauthenticated op rb) (default [] (Config.unauthenticated_ops ic)) rb in
  let rb := with_claims_mapping (claims_mapping_of ic) rb in
  let rb := fold_left (fun rb ro => grant_role (fst ro) (snd ro) rb) (default [] (Config.roles ic)) rb in
  Ok (add_request name (rbac rb) r, w).

(** One entry of the configuration. @interceptors/manager.rs:103-281 InterceptorManager::from_config *)
Definition build_one (cfg : SpectraConfig) (json_error : string -> string)
    (evaluator : option WasmInterceptorEvaluator)
    (name : string) (ic : InterceptorConfig) (r : registry) (w : W) : built :=
  match interceptor_type ic with
  | TCel => build_cel name ic r w
  | TWasm => build_wasm (default_timeout_ms (wasm cfg)) evaluator name ic r w
  | TNative => build_native (deploy_token (admin cfg)) json_error name ic r w
  | TRbac | TAuth => build_rbac name ic r w
  end.
Fixpoint build_all (cfg : SpectraConfig) (json_error : string -> string)
    (evaluator : option WasmInterceptorEvaluator)
    (l : list (string * InterceptorConfig)) (r : registry) (w : W) : built :=
  match l with
  | [] => Ok (r, w)
  | (name, ic) :: l' =>
      match build_one cfg json_error evaluator name ic r w with
      | Ok (r, w) => build_all cfg json_error evaluator l' r w
      | Err e => Err e
      end
  end.

(** ** Pipelines *)

(** The interceptors of a list of names, by stage; [missing] is the error of an
    unknown name. @interceptors/manager.rs:287-298 InterceptorManager::from_config *)
Fixpoint resolve_names (missing : string -> string) (r : registry) (names : list string) :
    result string (list (RequestInterceptor W) * list (ResponseInterceptor W)) :=
  match names with
  | [] => Ok ([], [])
  | n :: names' =>
      match reg_requests r !! n with
      | Some i => match resolve_names missing r names' with
                  | Ok (rq, rs) => Ok (i :: rq, rs)
                  | Err e => Err e
                  end
      | None =>
          match reg_responses r !! n with
          | Some i => match resolve_names missing r names' with
                      | Ok (rq, rs) => Ok (rq, i :: rs)
                      | Err e => Err e
                      end
          | None => Err (missing n)
          end
      end
  end.
Definition insert_nonempty {A} (op : string) (l : list A) (m : gmap string (list A)) : gmap string (list A) :=
  match l with [] => m | _ => <[op := l]> m end.
(** @interceptors/manager.rs:304-328 InterceptorManager::from_config *)
Fixpoint build_routes (r : registry) (routes : list (string * SpectraRouteConfig))
    (mq : gmap string (list (RequestInterceptor W))) (ms : gmap string (list (ResponseInterceptor W))) :
    result string (gmap string (list (RequestInterceptor W)) * gmap string (list (ResponseInterceptor W))) :=
  match routes with
  | [] => Ok (mq, ms)
  | (route_key, route_cfg) :: routes' =>
      match resolve_names (fun n => str_concat ["Route '"; route_key; "' references unknown interceptor '"; n; "'"])
              r (rt_interceptors route_cfg) with
      | Err e => Err e
      | Ok (rq, rs) =>
          build_routes r routes' (insert_nonempty (operation route_cfg) rq mq)
            (insert_nonempty (operation route_cfg) rs ms)
      end
  end.

(** @interceptors/manager.rs:78-337 InterceptorManager::from_config *)
Definition from_config (cfg : SpectraConfig) (json_error : string -> string) (w : W) :
    result string (InterceptorManager * W) :=
  let has_wasm := existsb (fun kv => bool_decide (interceptor_type (snd kv) = TWasm)) (interceptors cfg) in
  let started :=
    if has_wasm then
      if engine_starts proc then
        Ok (Some (Evaluator (EngineCfg (strict_aot (wasm cfg)) (allow_jit (wasm cfg))
                     (epoch_tick_interval_ms (wasm cfg))) (wasm_cell proc)),
            assign (wasm_cell proc) (WasmState ∅ ∅) w)
      else Err "Failed to initialize WasmInterceptorEvaluator"
    else Ok (None, w) in
  match started with
  | Err e => Err e
  | Ok (evaluator, w) =>
      match build_all cfg json_error evaluator (interceptors cfg) (Registry ∅ ∅) w with
      | Err e => Err e
      | Ok (r, w) =>
          match resolve_names
                  (fun n => str_concat ["Global interceptor '"; n; "' is not registered in [interceptors]"])
                  r (g_interceptors (gql cfg)) with
          | Err e => Err e
          | Ok (gq, gs) =>
              match build_routes r (routes (gql cfg)) ∅ ∅ with
              | Err e => Err e
              | Ok (mq, ms) => Ok (Manager gq gs mq ms evaluator, w)
              end
          end
      end
  end.

(** @interceptors/manager.rs:{fn get_request_pipeline} InterceptorManager::get_request_pipeline *)
Definition get_request_pipeline (m : InterceptorManager) (op : option string) : list (RequestInterceptor W) :=
  (global_request_pipeline m ++
   match op with Some op => default [] (route_request_pipelines m !! op) | None => [] end)%list.
(** @interceptors/manager.rs:{fn get_response_pipeline} InterceptorManager::get_response_pipeline *)
Definition get_response_pipeline (m : InterceptorManager) (op : option string) : list (ResponseInterceptor W) :=
  (global_response_pipeline m ++
   match op with Some op => default [] (route_response_pipelines m !! op) | None => [] end)%list.
(** @interceptors/manager.rs:{fn has_response_interceptors} InterceptorManager::has_response_interceptors *)
Definition has_response_interceptors (m : InterceptorManager) (op : option string) : bool :=
  match global_response_pipeline m with
  | _ :: _ => true
  | [] =>
      match op with
      | Some op => match route_response_pipelines m !! op with
                   | Some (_ :: _) => true
                   | _ => false
                   end
      | None => false
      end
  end.

(** ** Lemmas *)

Definition requests_of (r : registry) (names : list string) : list (RequestInterceptor W) :=
  omap (fun n => reg_requests r !! n) names.
Definition responses_of (r : registry) (names : list string) : list (ResponseInterceptor W) :=
  omap (fun n => match reg_requests r !! n with Some _ => None | None => reg_responses r !! n end) names.
Definition registered (r : registry) (n : string) : Prop :=
  is_Some (reg_requests r !! n) \/ is_Some (reg_responses r !! n).

Lemma resolve_names_ok missing r names rq rs :
  resolve_names missing r names = Ok (rq, rs) ->
  rq = requests_of r names /\ rs = responses_of r names /\ Forall (registered r) names.
Proof.
  revert rq rs. induction names as [|n names IH]; intros rq rs; cbn; [by intros [= <- <-]|].
  unfold registered. destruct (reg_requests r !! n) eqn:Eq; [|destruct (reg_responses r !! n) eqn:Es; [|done]];
    destruct (resolve_names missing r names) as [[rq' rs']|]; try done;
    destruct (IH _ _ eq_refl) as (-> & -> & HF); intros [= <- <-];
    (split_and!; [done..|]); constructor; try done; [left|right]; by eexists.
Qed.

(** The interceptors of an operation: those of the last route, in the order of the
    map, that names it and has any of that stage. *)
Definition route_last {A} (sel : list string -> list A) (routes : list (string * SpectraRouteConfig))
    (op : string) (acc : list A) : list A :=
  fold_left (fun acc rt =>
    if String.eqb (operation (snd rt)) op
    then match sel (rt_interceptors (snd rt)) with [] => acc | l => l end else acc) routes acc.

Lemma insert_nonempty_default {A} op op' (l : list A) (m : gmap string (list A)) :
  default [] (insert_nonempty op l m !! op') =
  if String.eqb op op' then match l with [] => default [] (m !! op') | _ => l end else default [] (m !! op').
Proof.
  unfold insert_nonempty. destruct l as [|x l]; [by destruct (String.eqb op op')|].
  destruct (String.eqb_spec op op') as [->|Hne]; [by rewrite lookup_insert_eq|by rewrite lookup_insert_ne].
Qed.

Lemma build_routes_ok r routes : forall mq ms mq' ms',
  build_routes r routes mq ms = Ok (mq', ms') ->
  Forall (fun rt => Forall (registered r) (rt_interceptors (snd rt))) routes /\
  forall op, default [] (mq' !! op) = route_last (requests_of r) routes op (default [] (mq !! op)) /\
             default [] (ms' !! op) = route_last (responses_of r) routes op (default [] (ms !! op)).
Proof.
  induction routes as [|[key rc] routes IH]; intros mq ms mq' ms'; cbn [build_routes]; [by intros [= <- <-]|].
  destruct (resolve_names _ _ _) as [[rq rs]|] eqn:E; [|done].
  destruct (resolve_names_ok _ _ _ _ _ E) as (-> & -> & HF). intros Hb.
  destruct (IH _ _ _ _ Hb) as [HF' Hop]. split; [by constructor|]. intros op.
  destruct (Hop op) as [-> ->]. rewrite !insert_nonempty_default. unfold route_last. cbn.
  split; [destruct (requests_of r (rt_interceptors rc))|destruct (responses_of r (rt_interceptors rc))]; reflexivity.
Qed.

(** ** Properties *)

(** A manager built from a configuration runs, for every operation, the global
    interceptors in the order listed and then those of the operation's route; every
    name listed anywhere was registered. *)
Theorem manager_pipelines_spec cfg json_error w m w' :
  from_config cfg json_error w = Ok (m, w') ->
  exists r,
    Forall (registered r) (g_interceptors (gql cfg)) /\
    Forall (fun rt => Forall (registered r) (rt_interceptors (snd rt))) (routes (gql cfg)) /\
    forall op,
      get_request_pipeline m op =
        (requests_of r (g_interceptors (gql cfg)) ++
         match op with Some o => route_last (requests_of r) (routes (gql cfg)) o [] | None => [] end)%list /\
      get_response_pipeline m op =
        (responses_of r (g_interceptors (gql cfg)) ++
         match op with Some o => route_last (responses_of r) (routes (gql cfg)) o [] | None => [] end)%list.
Proof.
  unfold from_config. destruct (if existsb _ _ then _ else _) as [[ev w0]|]; [|done].
  destruct (build_all _ _ _ _ _ _) as [[r w1]|]; [|done].
  destruct (resolve_names _ _ _) as [[gq gs]|] eqn:Eg; [|done].
  destruct (resolve_names_ok _ _ _ _ _ Eg) as (-> & -> & HF).
  destruct (build_routes _ _ _ _) as [[mq ms]|] eqn:Er; [|done]. intros [= <- _].
  destruct (build_routes_ok _ _ _ _ _ _ Er) as [HF' Hop].
  exists r. split_and!; [done..|]. intros [o|]; [|done]. destruct (Hop o) as [H1' H2'].
  unfold get_request_pipeline, get_response_pipeline. cbn. by rewrite H1', H2'.
Qed.

(** The quick test for response interceptors is exact: the body of a response is
    streamed through without buffering exactly when its pipeline is empty. *)
Theorem has_response_interceptors_spec m op :
  has_response_interceptors m op = bool_decide (get_response_pipeline m op <> []).
Proof.
  unfold has_response_interceptors, get_response_pipeline. apply eq_true_iff_eq. rewrite bool_decide_eq_true.
  destruct (global_response_pipeline m) as [|x l]; cbn; [|done].
  destruct op as [op|]; cbn; [|by split].
  destruct (route_response_pipelines m !! op) as [[|]|]; cbn; by split.
Qed.
End Manager.

(** ** A concrete configuration *)

Section Witnesses.
#[local] Existing Instances list_http ascii_tables bits_json_text list_lru demo_auth_lib demo_cel demo_types demo_wasm.
Definition no_gql : GqlParser := {| gql_parse _ := ([], []) |}.
#[local] Existing Instance no_gql.

Record manager_world := MWorld {
  mw_wasm : wasm_state; mw_cache : lru CachedAuth; mw_keys : key_set; mw_refreshed : option Z }.
Definition manager_clocks : Clocks manager_world := {| system_now _ := None; instant_now _ := 0%Z |}.
#[local] Existing Instance manager_clocks.
Definition demo_process : process (W := manager_world) := Process (fun _ => None) (fun _ => None) true
  {| deref := mw_wasm; assign x w := MWorld x (mw_cache w) (mw_keys w) (mw_refreshed w); deref_assign _ _ := eq_refl |}
  (fun _ => {| deref := mw_cache; assign x w := MWorld (mw_wasm w) x (mw_keys w) (mw_refreshed w); deref_assign _ _ := eq_refl |})
  (fun _ => {| deref := mw_keys; assign x w := MWorld (mw_wasm w) (mw_cache w) x (mw_refreshed w); deref_assign _ _ := eq_refl |})
  (fun _ => {| deref := mw_refreshed; assign x w := MWorld (mw_wasm w) (mw_cache w) (mw_keys w) x; deref_assign _ _ := eq_refl |}).
Definition demo_mworld : manager_world := MWorld (WasmState ∅ ∅) (lru_new 1) ∅ None.

Definition entry (t : InterceptorType) (k expr : option string) : InterceptorConfig :=
  Interceptor t StRequest expr None None None None None None None None None None k None None None None
    None None None None None None None None.
Definition with_interceptors (names : list string) (routes : list (string * SpectraRouteConfig))
    (l : list (string * InterceptorConfig)) (c : SpectraConfig) : SpectraConfig :=
  Spectra (bind_addr c)
    (GqlCfg (g_paths (gql c)) (ops_to_dispatch (gql c)) (g_upstream (gql c)) (g_dispatch (gql c))
       (mode_a (gql c)) routes names)
    (rest c) (upstream c) (upstreams c) (apps c) (default_app c) (dispatch c) (idempotency c)
    (subscriptions c) (admin c) l (wasm c) (error_capture c) (config_store c) (dns c).
Definition demo_managed : SpectraConfig :=
  with_interceptors ["types"; "guard"] [("r", Route "publish" SyncUpstreamExecution false None "" ["rule"] None)]
    [("types", entry TNative (Some "header_validation") None); ("guard", entry TRbac None None);
     ("rule", entry TCel None (Some "x"))] sample_config.

Lemma manager_pipelines_spec_witness :
  exists m w', from_config demo_process demo_managed (fun s => s) demo_mworld = Ok (m, w') /\
    length (get_request_pipeline m None) = 2 /\ length (get_request_pipeline m (Some "publish")) = 3 /\
    exists r, Forall (registered (W := manager_world) r) ["types"; "guard"].
Proof.
  assert (Hok : (match from_config demo_process demo_managed (fun s => s) demo_mworld with
                | Ok (m, _) => Nat.eqb (length (get_request_pipeline m None)) 2 &&
                               Nat.eqb (length (get_request_pipeline m (Some "publish"))) 3
                | Err _ => false
                end) = true) by reflexivity.
  destruct (from_config demo_process demo_managed (fun s => s) demo_mworld) as [[m w']|] eqn:E; [|done].
  destruct (manager_pipelines_spec demo_process demo_managed (fun s => s) demo_mworld m w' E) as (r & Hr & _).
  to_prop. destruct Hok as [H2 H3]. exists m, w'. split_and!; [done..|]. by exists r.
Defined.
End Witnesses.
