(* ===== verification/Hub.v ===== *)
(** * Hub: the subscription hub and the messages of its clients,
    [src/subscriptions/hub.rs] and [src/subscriptions/protocol.rs].

    The protocol's messages, the bounded channels to the clients, and the two
    indexes of the hub, by topic and by connection, with the operations that keep
    them in step. *)

From S2P Require Import Prelude Externals Serde.
Local Open Scope string_scope.

(** ** Messages *)

(** [SubscribePayload] @subscriptions/protocol.rs:{struct SubscribePayload} SubscribePayload *)
Record SubscribePayload := SubPayload {
  sp_query : string;
  sp_variables : option json;
  sp_operation_name : option string;
  sp_extensions : option json
}.
(** [ClientMessage] @subscriptions/protocol.rs:{enum ClientMessage} ClientMessage *)
Inductive ClientMessage :=
| ConnectionInit (payload : option json)
| CPing (payload : option json)
| CPong (payload : option json)
| Subscribe (id : string) (payload : SubscribePayload)
| CComplete (id : string).
(** [ExecutionResult] @subscriptions/protocol.rs:{struct ExecutionResult} ExecutionResult *)
Record ExecutionResult := ExecResult {
  data : option json;
  errors : option (list json);
  extensions : option json
}.
(** @subscriptions/protocol.rs:{fn with_data} ExecutionResult::with_data *)
Definition with_data (d : json) : ExecutionResult := ExecResult (Some d) None None.
(** @subscriptions/protocol.rs:{fn with_error} ExecutionResult::with_error *)
Definition with_error (message : string) : ExecutionResult :=
  ExecResult None (Some [JObject [("message", JString message)]]) None.
(** [ServerMessage] @subscriptions/protocol.rs:{enum ServerMessage} ServerMessage *)
Inductive ServerMessage :=
| ConnectionAck (payload : option json)
| SPing (payload : option json)
| SPong (payload : option json)
| Next (id : string) (payload : ExecutionResult)
| SError (id : string) (payload : list json)
| SComplete (id : string).
(** [close_codes] @subscriptions/protocol.rs:{mod close_codes} close_codes *)
Definition bad_request : Z := 4400.
Definition unauthorized_code : Z := 4401.
Definition subscriber_already_exists : Z := 4409.

(** A field that is left out when it is [None]. *)
Definition opt_field (k : string) (o : option json) : list (string * json) :=
  match o with Some v => [(k, v)] | None => [] end.
(** [Serialize]: the tag first, then the fields in the order declared.
    @subscriptions/protocol.rs:59-92 ServerMessage *)
Definition server_message_json (m : ServerMessage) : json :=
  let tagged t l := JObject (("type", JString t) :: l) in
  match m with
  | ConnectionAck p => tagged "connection_ack" (opt_field "payload" p)
  | SPing p => tagged "ping" (opt_field "payload" p)
  | SPong p => tagged "pong" (opt_field "payload" p)
  | Next id r =>
      tagged "next" [("id", JString id);
        ("payload", JObject (opt_field "data" (data r) ++ opt_field "errors" (JArray <$> errors r) ++
                             opt_field "extensions" (extensions r))%list)]
  | SError id l => tagged "error" [("id", JString id); ("payload", JArray l)]
  | SComplete id => tagged "complete" [("id", JString id)]
  end.

(** The payload of a [Subscribe] as serde has it. @subscriptions/protocol.rs:48-57 SubscribePayload *)
Definition subscribe_payload : Derive.codec SubscribePayload :=
  Derive.iso
    (Derive.struct (Derive.both (Derive.req "query" Derive.text) (Derive.both (Derive.some_value "variables")
      (Derive.both (Derive.some_text "operationName") (Derive.some_value "extensions")))) eq_refl)
    (fun p => (sp_query p, (sp_variables p, (sp_operation_name p, sp_extensions p))))
    (fun t => let '(q, (v, (o, e))) := t in SubPayload q v o e) ltac:(by intros []) ltac:(by intros (? & ? & ? & ?)).
(** The variant a tag names, read from what is left.
    @subscriptions/protocol.rs:18-46 ClientMessage *)
Definition client_message_of (j : json) : option ClientMessage :=
  '(t, content) ← Derive.tagged "type" j;
  let plain c := c <$> Derive.de_struct (Derive.some_value "payload") content in
  if String.eqb t "connection_init" then plain ConnectionInit
  else if String.eqb t "ping" then plain CPing
  else if String.eqb t "pong" then plain CPong
  else if String.eqb t "subscribe" then
    (fun ip => Subscribe (fst ip) (snd ip)) <$>
      Derive.de_struct (Derive.both (Derive.req "id" Derive.text) (Derive.req "payload" subscribe_payload)) content
  else if String.eqb t "complete" then CComplete <$> Derive.de_struct (Derive.req "id" Derive.text) content
  else None.

(** @subscriptions/protocol.rs:{fn is_websocket_upgrade} is_websocket_upgrade *)
Definition is_websocket_upgrade `{HttpLib} (hv_bytes : HeaderValue -> string) (h : HeaderMap) : bool :=
  let has_upgrade :=
    match hm_get "upgrade" h with
    | Some val => eq_ignore_ascii_case (hv_bytes val) "websocket"
    | None => false
    end in
  let has_connection :=
    match hm_get "connection" h with
    | Some val =>
        existsb (fun part => eq_ignore_ascii_case (trim part) "upgrade")
          (split_on "," (default "" (hv_to_str val)))
    | None => false
    end in
  has_upgrade && has_connection.

(** ** Channels *)

(** A bounded [mpsc] channel: its queue, its capacity, and whether the receiver is
    still there. *)
Record chan := Chan { queue : list ServerMessage; capacity : nat; rx_open : bool }.
Inductive send_error := SendClosed | SendFull.
Definition try_send (m : ServerMessage) (c : chan) : result send_error chan :=
  if negb (rx_open c) then Err SendClosed
  else if (length (queue c) <? capacity c)%nat then Ok (Chan (queue c ++ [m]) (capacity c) true)
  else Err SendFull.
Abbreviation channels := (gmap positive chan).

(** ** The hub *)

(** [SubscriptionRegistration]; connections are numbered, the sender is its channel.
    @subscriptions/hub.rs:{struct SubscriptionRegistration} SubscriptionRegistration *)
Record SubscriptionRegistration := Registration {
  conn_id : positive;
  sub_id : string;
  topic : string;
  root_field : string;
  tx : positive
}.
(** [SubscriptionHub] @subscriptions/hub.rs:{struct SubscriptionHub} SubscriptionHub *)
Record SubscriptionHub := Hub {
  topics : gmap string (list SubscriptionRegistration);
  connections : gmap positive (list (string * string))
}.
(** @subscriptions/hub.rs:{fn new} SubscriptionHub::new *)
Definition hub_new : SubscriptionHub := Hub ∅ ∅.

Definition same_sub (c : positive) (s : string) (r : SubscriptionRegistration) : bool :=
  Pos.eqb (conn_id r) c && String.eqb (sub_id r) s.
Definition drop_sub (c : positive) (s : string) (l : list SubscriptionRegistration) :=
  List.filter (fun r => negb (same_sub c s r)) l.
(** @subscriptions/hub.rs:{fn register} SubscriptionHub::register *)
Definition register (c : positive) (s t root : string) (ch : positive) (h : SubscriptionHub) : SubscriptionHub :=
  Hub (<[t := (drop_sub c s (default [] (topics h !! t)) ++ [Registration c s t root ch])%list]> (topics h))
    (<[c := (List.filter (fun e => negb (String.eqb (fst e) s)) (default [] (connections h !! c)) ++ [(s, t)])%list]>
       (connections h)).

(** The topic of a registration goes once its last subscription has gone. *)
Definition remove_from_topic (c : positive) (s t : string) (m : gmap string (list SubscriptionRegistration)) :=
  match m !! t with
  | Some subs => match drop_sub c s subs with
                 | [] => delete t m
                 | subs' => <[t := subs']> m
                 end
  | None => m
  end.
(** The entry of a subscription and the list without it. @subscriptions/hub.rs:75-84 SubscriptionHub::deregister *)
Fixpoint take_entry (s : string) (l : list (string * string)) : option (string * list (string * string)) :=
  match l with
  | [] => None
  | (s', t) :: l' =>
      if String.eqb s' s then Some (t, l')
      else match take_entry s l' with Some (t', l'') => Some (t', (s', t) :: l'') | None => None end
  end.
(** @subscriptions/hub.rs:{fn deregister} SubscriptionHub::deregister *)
Definition deregister (c : positive) (s : string) (h : SubscriptionHub) : SubscriptionHub :=
  match connections h !! c with
  | Some l =>
      match take_entry s l with
      | Some (t, l') => Hub (remove_from_topic c s t (topics h)) (<[c := l']> (connections h))
      | None => h
      end
  | None => h
  end.
(** @subscriptions/hub.rs:{fn deregister_connection} SubscriptionHub::deregister_connection *)
Definition deregister_connection (c : positive) (h : SubscriptionHub) : SubscriptionHub :=
  match connections h !! c with
  | Some sub_list =>
      Hub (fold_left (fun m e => remove_from_topic c (fst e) (snd e) m) sub_list (topics h))
        (delete c (connections h))
  | None => h
  end.
(** @subscriptions/hub.rs:{fn active_subscriptions_count} SubscriptionHub::active_subscriptions_count *)
Definition active_subscriptions_count (h : SubscriptionHub) : nat :=
  map_fold (fun _ l n => length l + n)%nat 0%nat (topics h).
(** @subscriptions/hub.rs:{fn has_subscription} SubscriptionHub::has_subscription *)
Definition has_subscription (c : positive) (s : string) (h : SubscriptionHub) : bool :=
  match connections h !! c with
  | Some l => existsb (fun e => String.eqb (fst e) s) l
  | None => false
  end.
(** @subscriptions/hub.rs:{fn active_connection_count} SubscriptionHub::active_connection_count *)
Definition active_connection_count (h : SubscriptionHub) : nat := size (connections h).

(** The data of an event for one subscriber. @subscriptions/hub.rs:148-156 SubscriptionHub::broadcast *)
Definition formatted_data (payload : json) (root : string) : json :=
  match payload with
  | JObject l => if Assoc.mem "data" l then payload else JObject [(root, payload)]
  | _ => JObject [(root, payload)]
  end.
Definition event_message (payload : json) (r : SubscriptionRegistration) : ServerMessage :=
  Next (sub_id r) (with_data (formatted_data payload (root_field r))).
(** Sending to the subscribers one by one. @subscriptions/hub.rs:144-178 SubscriptionHub::broadcast *)
Fixpoint send_all (payload : json) (subs : list SubscriptionRegistration) (chs : channels) :
    nat * list (positive * string) * channels :=
  match subs with
  | [] => (0%nat, [], chs)
  | r :: subs' =>
      match (match chs !! tx r with Some ch => try_send (event_message payload r) ch | None => Err SendClosed end) with
      | Ok ch =>
          let '(n, dead, chs) := send_all payload subs' (<[tx r := ch]> chs) in (S n, dead, chs)
      | Err SendClosed =>
          let '(n, dead, chs) := send_all payload subs' chs in (n, (conn_id r, sub_id r) :: dead, chs)
      | Err SendFull => send_all payload subs' chs
      end
  end.
(** @subscriptions/hub.rs:{fn broadcast} SubscriptionHub::broadcast *)
Definition broadcast (t : string) (payload : json) (h : SubscriptionHub) (chs : channels) :
    nat * SubscriptionHub * channels :=
  match topics h !! t with
  | None => (0%nat, h, chs)
  | Some subs =>
      let '(sent, dead, chs) := send_all payload subs chs in
      (sent, fold_left (fun h d => deregister (fst d) (snd d) h) dead h, chs)
  end.

(** ** Lemmas *)

Definition entries (h : SubscriptionHub) (c : positive) : list (string * string) :=
  default [] (connections h !! c).
Definition subs_of (h : SubscriptionHub) (t : string) : list SubscriptionRegistration :=
  default [] (topics h !! t).
Definition sub_key (r : SubscriptionRegistration) : positive * string := (conn_id r, sub_id r).

(** The two indexes agree: a connection lists a subscription under a topic exactly
    when the topic holds its registration; subscription names are unique per
    connection, and no topic is kept empty. *)
Record hub_ok (h : SubscriptionHub) : Prop := {
  ok_unique c : NoDup (entries h c).*1;
  ok_nonempty t : topics h !! t <> Some [];
  ok_keys t : NoDup (map sub_key (subs_of h t));
  ok_topic t r : r ∈ subs_of h t -> topic r = t;
  ok_agree c s t : (s, t) ∈ entries h c <-> (c, s) ∈ map sub_key (subs_of h t)
}.

Lemma same_sub_key c s r : same_sub c s r = true <-> sub_key r = (c, s).
Proof. unfold same_sub, sub_key. rewrite andb_true_iff, Pos.eqb_eq, String.eqb_eq. naive_solver. Qed.

Lemma elem_of_filter_b {A} (f : A -> bool) l x : x ∈ List.filter f l <-> x ∈ l /\ f x = true.
Proof. by rewrite !list_elem_of_In, List.filter_In. Qed.

Lemma elem_drop_sub c s l r : r ∈ drop_sub c s l <-> r ∈ l /\ sub_key r <> (c, s).
Proof.
  unfold drop_sub. rewrite elem_of_filter_b, negb_true_iff, <- not_true_iff_false, same_sub_key. done.
Qed.

Lemma keys_drop_sub c s l k : k ∈ map sub_key (drop_sub c s l) <-> k ∈ map sub_key l /\ k <> (c, s).
Proof.
  rewrite !list_elem_of_In, !in_map_iff. setoid_rewrite <- list_elem_of_In.
  setoid_rewrite elem_drop_sub. naive_solver.
Qed.

Lemma NoDup_filter_map {A B} (g : A -> B) (f : A -> bool) l : NoDup (map g l) -> NoDup (map g (List.filter f l)).
Proof.
  induction l as [|x l IH]; cbn; [done|]. rewrite NoDup_cons. intros [Hx Hn].
  destruct (f x); [cbn; apply NoDup_cons; split; [|by apply IH]|by apply IH].
  intros (y & Heq & Hy)%list_elem_of_fmap. apply Hx, list_elem_of_fmap. exists y. split; [done|].
  by apply elem_of_filter_b in Hy as [? _].
Qed.

(** Names unique in a list of pairs. *)
Lemma unique_name (l : list (string * string)) s t t' :
  NoDup l.*1 -> (s, t) ∈ l -> (s, t') ∈ l -> t = t'.
Proof.
  intros Hn H1 H2. apply (Assoc.In_get s t l Hn) in H1. apply (Assoc.In_get s t' l Hn) in H2. congruence.
Qed.

Lemma take_entry_None s l t : take_entry s l = None -> (s, t) ∉ l.
Proof.
  induction l as [|[s' t'] l IH]; cbn; [set_solver|]. destruct (String.eqb_spec s' s); [done|].
  destruct (take_entry s l) as [[]|]; [done|]. intros _. rewrite elem_of_cons. intros [[= -> ->]|Hin]; [done|].
  by apply IH.
Qed.

Lemma take_entry_Some s l t l' : take_entry s l = Some (t, l') -> NoDup l.*1 ->
  (s, t) ∈ l /\ NoDup l'.*1 /\ forall s' t', (s', t') ∈ l' <-> (s', t') ∈ l /\ s' <> s.
Proof.
  revert t l'. induction l as [|[s0 t0] l IH]; intros t l'; cbn; [done|].
  rewrite NoDup_cons. destruct (String.eqb_spec s0 s) as [->|Hne].
  - intros [= <- <-] [Hni Hnd]. split_and!; [by left|done|]. intros s' t'. rewrite elem_of_cons. split.
    + intros Hin. split; [by right|]. intros ->. apply Hni, list_elem_of_fmap. by exists (s, t').
    + intros [[[= -> ->]|Hin] ?]; done.
  - destruct (take_entry s l) as [[t1 l1]|] eqn:E; [|done]. intros [= <- <-] [Hni Hnd].
    destruct (IH _ _ eq_refl Hnd) as (Hin & Hnd1 & Hiff). split_and!; [by right| |].
    + cbn. apply NoDup_cons. split; [|done]. intros ([s2 t2] & -> & Hin2)%list_elem_of_fmap.
      apply Hiff in Hin2 as [Hin2 _]. apply Hni, list_elem_of_fmap. by exists (s2, t2).
    + intros s' t'. rewrite !elem_of_cons, Hiff. naive_solver.
Qed.

Lemma remove_from_topic_lookup c s t m t' :
  default [] (remove_from_topic c s t m !! t') =
  if String.eqb t' t then drop_sub c s (default [] (m !! t)) else default [] (m !! t').
Proof.
  unfold remove_from_topic. destruct (m !! t) as [subs|] eqn:E; cbn.
  - destruct (drop_sub c s subs) as [|r l] eqn:Ed; destruct (String.eqb_spec t' t) as [->|Hne].
    + by rewrite lookup_delete_eq.
    + by rewrite lookup_delete_ne.
    + by rewrite lookup_insert_eq.
    + by rewrite lookup_insert_ne.
  - destruct (String.eqb_spec t' t) as [->|]; [by rewrite E|done].
Qed.

Lemma remove_from_topic_nonempty c s t m : (forall t', m !! t' <> Some []) ->
  forall t', remove_from_topic c s t m !! t' <> Some [].
Proof.
  intros Hm t'. unfold remove_from_topic. destruct (m !! t); [|done].
  destruct (drop_sub c s _) as [|r l'] eqn:Ed; destruct (decide (t' = t)) as [->|Hne].
  - by rewrite lookup_delete_eq.
  - by rewrite lookup_delete_ne.
  - by rewrite lookup_insert_eq.
  - by rewrite lookup_insert_ne.
Qed.

Lemma hub_new_ok : hub_ok hub_new.
Proof. split; cbn; try done; [intros; constructor..|set_solver|]. intros c s t. cbn. split; intros Hx; by apply elem_of_nil in Hx. Qed.

Lemma entries_insert h m c l c' :
  entries (Hub m (<[c := l]> (connections h))) c' = if Pos.eqb c' c then l else entries h c'.
Proof.
  unfold entries. cbn. destruct (Pos.eqb_spec c' c) as [->|Hne]; [by rewrite lookup_insert_eq|by rewrite lookup_insert_ne].
Qed.

Lemma deregister_ok c s h : hub_ok h -> hub_ok (deregister c s h).
Proof.
  intros [Hu Hn Hk Ht Ha]. unfold deregister. destruct (connections h !! c) as [l|] eqn:Ec; [|by split].
  destruct (take_entry s l) as [[t l']|] eqn:Et; [|by split].
  pose proof (Hu c) as Huc. unfold entries in Huc. rewrite Ec in Huc. cbn in Huc.
  destruct (take_entry_Some _ _ _ _ Et Huc) as (Hin & Hnd & Hiff).
  assert (Hsubs : forall t', subs_of (Hub (remove_from_topic c s t (topics h)) (<[c:=l']> (connections h))) t' =
    if String.eqb t' t then drop_sub c s (subs_of h t) else subs_of h t').
  { intros t'. apply remove_from_topic_lookup. }
  split.
  - intros c'. rewrite entries_insert. by destruct (Pos.eqb c' c).
  - cbn. by apply remove_from_topic_nonempty.
  - intros t'. rewrite Hsubs. destruct (String.eqb t' t); [by apply NoDup_filter_map|done].
  - intros t' r. rewrite Hsubs. destruct (String.eqb_spec t' t) as [->|]; [|by apply Ht].
    rewrite elem_drop_sub. intros [Hr _]. by apply Ht.
  - intros c' s' t'. rewrite entries_insert, Hsubs.
    assert (Hl : forall t'', (s', t'') ∈ l <-> (c, s') ∈ map sub_key (subs_of h t'')).
    { intros t''. rewrite <- Ha. unfold entries. by rewrite Ec. }
    destruct (Pos.eqb_spec c' c) as [->|Hne]; destruct (String.eqb_spec t' t) as [->|Hnt].
    + rewrite Hiff, keys_drop_sub, Hl. split; (intros [? ?]; split; [done|congruence]).
    + rewrite Hiff, Hl. split; [by intros [? _]|]. intros Hk'. split; [done|]. intros ->. apply Hnt.
      by apply (unique_name l s); [|apply Hl|].
    + rewrite keys_drop_sub, Ha. split; [intros ?; split; [done|congruence]|by intros [? _]].
    + apply Ha.
Qed.

(** A fresh registration is under its topic and its connection, and nowhere else. *)
Lemma register_subs c s t root ch h t' : subs_of (register c s t root ch h) t' =
  if String.eqb t' t then (drop_sub c s (subs_of h t) ++ [Registration c s t root ch])%list else subs_of h t'.
Proof.
  unfold subs_of, register. cbn. destruct (String.eqb_spec t' t) as [->|]; [by rewrite lookup_insert_eq|by rewrite lookup_insert_ne].
Qed.
Lemma unsubscribed_entry c s h t : has_subscription c s h = false -> (s, t) ∉ entries h c.
Proof.
  intros Hfresh Hin. unfold has_subscription in Hfresh. unfold entries in Hin.
  destruct (connections h !! c) as [l|]; [|by apply elem_of_nil in Hin].
  assert (existsb (fun e => String.eqb (fst e) s) l = true); [|congruence].
  apply existsb_exists. exists (s, t). split; [by apply list_elem_of_In|apply String.eqb_refl].
Qed.
Lemma register_ok c s t root ch h : has_subscription c s h = false -> hub_ok h -> hub_ok (register c s t root ch h).
Proof.
  intros Hfresh [Hu Hn Hk Ht Ha].
  pose proof (fun t' => unsubscribed_entry c s h t' Hfresh) as Hnew. pose proof (register_subs c s t root ch h) as Hsubs.
  assert (Hent : forall c', entries (register c s t root ch h) c' =
    if Pos.eqb c' c then (List.filter (fun e => negb (String.eqb (fst e) s)) (entries h c) ++ [(s, t)])%list else entries h c').
  { intros c'. apply entries_insert. }
  assert (Hfl : forall s' t', (s', t') ∈ List.filter (fun e => negb (String.eqb (fst e) s)) (entries h c) <->
    (s', t') ∈ entries h c /\ s' <> s).
  { intros s' t'. rewrite elem_of_filter_b. cbn. by rewrite negb_true_iff, String.eqb_neq. }
  split.
  - intros c'. rewrite Hent. destruct (Pos.eqb_spec c' c) as [->|]; [|done]. rewrite fmap_app. apply NoDup_app.
    split_and!; [by apply NoDup_filter_map| |by apply NoDup_singleton].
    intros s' ([s2 t2] & -> & [_ Hne]%Hfl)%list_elem_of_fmap. cbn. by rewrite list_elem_of_singleton.
  - intros t'. unfold register. cbn. destruct (decide (t' = t)) as [->|].
    + rewrite lookup_insert_eq. by destruct (drop_sub _ _ _).
    + by rewrite lookup_insert_ne.
  - intros t'. rewrite Hsubs. destruct (String.eqb t' t); [|done]. rewrite map_app. apply NoDup_app.
    split_and!; [by apply NoDup_filter_map| |by apply NoDup_singleton].
    intros k. rewrite keys_drop_sub. cbn. rewrite list_elem_of_singleton. by intros [_ ?].
  - intros t' r. rewrite Hsubs. destruct (String.eqb_spec t' t) as [->|]; [|by apply Ht].
    rewrite elem_of_app, elem_drop_sub, list_elem_of_singleton. intros [[Hr _]| ->]; [by apply Ht|done].
  - intros c' s' t'. rewrite Hent, Hsubs.
    assert (Hnew_keys : (c', s') ∈ map sub_key (drop_sub c s (subs_of h t) ++ [Registration c s t root ch]) <->
      ((c', s') ∈ map sub_key (subs_of h t) /\ (c', s') <> (c, s)) \/ (c', s') = (c, s)).
    { rewrite map_app, elem_of_app, keys_drop_sub. cbn [map]. by rewrite list_elem_of_singleton. }
    assert (Hnew_entries : (s', t') ∈ (List.filter (fun e => negb (String.eqb (fst e) s)) (entries h c) ++ [(s, t)])%list <->
      ((s', t') ∈ entries h c /\ s' <> s) \/ (s', t') = (s, t)).
    { by rewrite elem_of_app, Hfl, list_elem_of_singleton. }
    destruct (Pos.eqb_spec c' c) as [->|Hne]; destruct (String.eqb_spec t' t) as [->|Hnt].
    + rewrite Hnew_entries, Hnew_keys, Ha. destruct (decide (s' = s)) as [->|]; [tauto|].
      split; (intros [[? ?]|?]; [left; split; [done|congruence]|congruence]).
    + rewrite Hnew_entries, Ha. split; [intros [[? _]|[= -> ->]]; done|].
      intros Hk'. left. split; [done|]. intros ->. by apply (Hnew t'), Ha.
    + rewrite Hnew_keys, Ha. split; [intros ?; left; split; [done|congruence]|]. intros [[? _]|[= -> _]]; done.
    + apply Ha.
Qed.

(** What a sequence of removals leaves of a topic. *)
Definition at_topic (m : gmap string (list SubscriptionRegistration)) (t : string) := default [] (m !! t).
Lemma fold_remove c l : forall m,
  let m' := fold_left (fun m e => remove_from_topic c (fst e) (snd e) m) l m in
  ((forall t, m !! t <> Some []) -> forall t, m' !! t <> Some []) /\
  forall t,
    (forall r, r ∈ at_topic m' t <-> r ∈ at_topic m t /\ forall s, (s, t) ∈ l -> sub_key r <> (c, s)) /\
    (NoDup (map sub_key (at_topic m t)) -> NoDup (map sub_key (at_topic m' t))).
Proof.
  induction l as [|[s0 t0] l IH]; intros m; cbn.
  - split; [done|]. intros t. split; [|done]. intros r. split; [|tauto]. intros Hr. split; [done|].
    intros s Hs. by apply elem_of_nil in Hs.
  - destruct (IH (remove_from_topic c s0 t0 m)) as [Hne Ht]. split.
    + intros Hm. apply Hne, remove_from_topic_nonempty, Hm.
    + intros t. destruct (Ht t) as [Hr Hnd].
      assert (Hat : at_topic (remove_from_topic c s0 t0 m) t =
        if String.eqb t t0 then drop_sub c s0 (at_topic m t0) else at_topic m t) by apply remove_from_topic_lookup.
      split.
      * intros r. rewrite Hr, Hat. destruct (String.eqb_spec t t0) as [->|Hnt].
        -- rewrite elem_drop_sub. split.
           ++ intros [[Hin Hk] Hs]. split; [done|]. intros s [[= ->]|Hs']%elem_of_cons; [done|by apply Hs].
           ++ intros [Hin Hs]. split_and!; [done| |]; [apply Hs; by left|]. intros s Hs'. apply Hs. by right.
        -- split; intros [Hin Hs]; (split; [done|]); intros s Hs'.
           ++ apply elem_of_cons in Hs' as [[= -> ->]|Hs']; [done|by apply Hs].
           ++ apply Hs. by right.
      * intros Hm. apply Hnd. rewrite Hat. destruct (String.eqb_spec t t0) as [->|]; [by apply NoDup_filter_map|done].
Qed.

Lemma key_elem (l : list SubscriptionRegistration) k : k ∈ map sub_key l <-> exists r, r ∈ l /\ sub_key r = k.
Proof.
  rewrite list_elem_of_In, in_map_iff. setoid_rewrite <- list_elem_of_In.
  split; intros (r & ? & ?); by exists r.
Qed.

Lemma deregister_connection_subs c h : hub_ok h -> forall t r,
  r ∈ subs_of (deregister_connection c h) t <-> r ∈ subs_of h t /\ conn_id r <> c.
Proof.
  intros [Hu Hn Hk Ht Ha] t r. unfold deregister_connection.
  assert (Hall : r ∈ subs_of h t -> conn_id r = c -> (sub_id r, t) ∈ entries h c).
  { intros Hr <-. apply Ha, key_elem. by exists r. }
  destruct (connections h !! c) as [l|] eqn:Ec.
  - destruct (fold_remove c l (topics h)) as [_ Hf]. destruct (Hf t) as [Hr _]. unfold at_topic in Hr.
    unfold subs_of at 1. cbn. rewrite Hr. fold (subs_of h t). unfold entries in Hall. rewrite Ec in Hall. cbn in Hall.
    split; intros [Hin Hs]; (split; [done|]).
    + intros Hc. apply (Hs (sub_id r)); [by apply Hall|]. unfold sub_key. by rewrite Hc.
    + intros s _ [= ? ?]. done.
  - split; [|by intros [? _]]. intros Hr. split; [done|]. intros Hc. specialize (Hall Hr Hc).
    unfold entries in Hall. rewrite Ec in Hall. by apply elem_of_nil in Hall.
Qed.

Lemma deregister_connection_entries c h c' :
  entries (deregister_connection c h) c' = if Pos.eqb c' c then [] else entries h c'.
Proof.
  unfold deregister_connection, entries. destruct (connections h !! c) eqn:Ec; cbn;
    destruct (Pos.eqb_spec c' c) as [->|Hne].
  - by rewrite lookup_delete_eq.
  - by rewrite lookup_delete_ne.
  - by rewrite Ec.
  - done.
Qed.

Lemma deregister_connection_ok c h : hub_ok h -> hub_ok (deregister_connection c h).
Proof.
  intros Hok. pose proof (deregister_connection_subs c h Hok) as Hs.
  pose proof (deregister_connection_entries c h) as He. destruct Hok as [Hu Hn Hk Ht Ha]. split.
  - intros c'. rewrite He. destruct (Pos.eqb c' c); [constructor|done].
  - intros t. unfold deregister_connection. destruct (connections h !! c) as [l|]; [|done]. cbn.
    by apply (fold_remove c l (topics h)).
  - intros t. unfold deregister_connection. destruct (connections h !! c) as [l|]; [|done]. cbn.
    apply (proj2 (proj2 (fold_remove c l (topics h)) t)), Hk.
  - intros t r Hr. apply Ht. by apply Hs in Hr as [? _].
  - intros c' s t. rewrite He, key_elem. setoid_rewrite Hs.
    destruct (Pos.eqb_spec c' c) as [->|Hne].
    + split; [intros Hx; by apply elem_of_nil in Hx|]. intros (r & [_ Hc] & [= ? ?]). done.
    + rewrite Ha, key_elem. split.
      * intros (r & Hr & Hkey). exists r. split; [|done]. split; [done|]. injection Hkey as <- _. done.
      * intros (r & [Hr _] & Hkey). by exists r.
Qed.

Lemma deregister_all_ok dead : forall h, hub_ok h ->
  hub_ok (fold_left (fun h d => deregister (fst d) (snd d) h) dead h).
Proof. induction dead as [|d dead IH]; intros h Hh; cbn; [done|]. by apply IH, deregister_ok. Qed.

Lemma broadcast_ok t payload h chs : hub_ok h -> hub_ok (snd (fst (broadcast t payload h chs))).
Proof.
  intros Hh. unfold broadcast. destruct (topics h !! t) as [subs|]; [|done].
  destruct (send_all payload subs chs) as [[n dead] chs']. by apply deregister_all_ok.
Qed.

(** ** Delivery *)

(** What subscribers of a channel are sent. *)
Definition events_for (payload : json) (k : positive) (subs : list SubscriptionRegistration) : list ServerMessage :=
  map (event_message payload) (List.filter (fun r => Pos.eqb (tx r) k) subs).
Definition is_closed (chs : channels) (k : positive) : bool :=
  match chs !! k with Some ch => negb (rx_open ch) | None => true end.
Definition room (ch : chan) : nat := capacity ch - length (queue ch).
Definition deliver (l : list ServerMessage) (ch : chan) : chan :=
  if rx_open ch then Chan (queue ch ++ take (room ch) l) (capacity ch) true else ch.

Lemma try_send_spec m ch : try_send m ch =
  if negb (rx_open ch) then Err SendClosed
  else match room ch with O => Err SendFull | S _ => Ok (Chan (queue ch ++ [m])%list (capacity ch) true) end.
Proof.
  unfold try_send, room. destruct (rx_open ch); cbn; [|done].
  destruct (capacity ch) as [|n]; [done|].
  destruct (Nat.leb_spec (length (queue ch)) n); destruct (S n - length (queue ch))%nat eqn:E; try done; lia.
Qed.

Lemma deliver_cons m l ch : rx_open ch = true ->
  deliver (m :: l) ch =
  match room ch with O => deliver l ch | S _ => deliver l (Chan (queue ch ++ [m])%list (capacity ch) true) end.
Proof.
  intros Ho. unfold deliver. rewrite Ho. destruct (room ch) as [|n] eqn:E; cbn [rx_open].
  - by rewrite !take_0.
  - f_equal. unfold room in *. cbn. rewrite length_app. cbn [length].
    replace (capacity ch - (length (queue ch) + 1))%nat with n by lia. by rewrite <- app_assoc.
Qed.

Lemma send_all_spec payload subs : forall chs n dead chs',
  send_all payload subs chs = (n, dead, chs') ->
  (forall k, chs' !! k = deliver (events_for payload k subs) <$> chs !! k) /\
  dead = map sub_key (List.filter (fun r => is_closed chs (tx r)) subs).
Proof.
  induction subs as [|r subs IH]; intros chs n dead chs'; cbn [send_all].
  - intros [= <- <- <-]. split; [|done]. intros k. destruct (chs !! k) as [ch|]; [|done]. cbn.
    unfold deliver. destruct ch as [q c []]; [|done]. cbn. by rewrite take_nil, app_nil_r.
  - destruct (chs !! tx r) as [ch|] eqn:Ech; [rewrite try_send_spec|].
    + destruct (rx_open ch) eqn:Eo; cbn [negb].
      * destruct (room ch) as [|m] eqn:Er.
        -- intros Hs. destruct (IH _ _ _ _ Hs) as [Hk ->]. split.
           ++ intros k. rewrite Hk. unfold events_for. cbn. destruct (Pos.eqb_spec (tx r) k) as [<-|]; [|done].
              rewrite Ech. cbn. f_equal. rewrite deliver_cons, Er by done. done.
           ++ cbn. unfold is_closed at 2. by rewrite Ech, Eo.
        -- destruct (send_all _ _ _) as [[n1 d1] c1] eqn:Hs. intros [= <- <- <-].
           destruct (IH _ _ _ _ Hs) as [Hk ->]. split.
           ++ intros k. rewrite Hk. unfold events_for. cbn. destruct (Pos.eqb_spec (tx r) k) as [<-|Hne].
              ** rewrite lookup_insert_eq, Ech. cbn. f_equal. rewrite deliver_cons, Er by done. done.
              ** by rewrite lookup_insert_ne.
           ++ cbn. unfold is_closed at 2. rewrite Ech, Eo. cbn. f_equal. apply List.filter_ext. intros r'.
              unfold is_closed. destruct (decide (tx r' = tx r)) as [->|].
              ** by rewrite lookup_insert_eq, Ech, Eo.
              ** by rewrite lookup_insert_ne.
      * destruct (send_all _ _ _) as [[n1 d1] c1] eqn:Hs. intros [= <- <- <-].
        destruct (IH _ _ _ _ Hs) as [Hk ->]. split.
        -- intros k. rewrite Hk. unfold events_for. cbn. destruct (Pos.eqb_spec (tx r) k) as [<-|]; [|done].
           rewrite Ech. cbn. unfold deliver. by rewrite Eo.
        -- cbn. unfold is_closed at 2. by rewrite Ech, Eo.
    + destruct (send_all _ _ _) as [[n1 d1] c1] eqn:Hs. intros [= <- <- <-].
      destruct (IH _ _ _ _ Hs) as [Hk ->]. split.
      * intros k. rewrite Hk. unfold events_for. cbn. destruct (Pos.eqb_spec (tx r) k) as [<-|]; [|done]. by rewrite Ech.
      * cbn. unfold is_closed at 2. by rewrite Ech.
Qed.

Lemma deregister_subs c s h : hub_ok h -> forall t r,
  r ∈ subs_of (deregister c s h) t <-> r ∈ subs_of h t /\ sub_key r <> (c, s).
Proof.
  intros [Hu Hn Hk Ht Ha] t r.
  assert (Hent : r ∈ subs_of h t -> sub_key r = (c, s) -> (s, t) ∈ entries h c).
  { intros Hr Hkey. apply Ha, key_elem. by exists r. }
  unfold deregister. unfold entries in Hent. pose proof (Hu c) as Huc. unfold entries in Huc.
  destruct (connections h !! c) as [l|] eqn:Ec; cbn in Hent, Huc.
  2: { split; [|by intros [? _]]. intros Hr. split; [done|]. intros Hkey.
       specialize (Hent Hr Hkey). by apply elem_of_nil in Hent. }
  destruct (take_entry s l) as [[t0 l']|] eqn:Et.
  - destruct (take_entry_Some _ _ _ _ Et Huc) as (Hin & _).
    unfold subs_of at 1. cbn. rewrite remove_from_topic_lookup. fold (subs_of h t0) (subs_of h t).
    destruct (String.eqb_spec t t0) as [->|Hne]; [apply elem_drop_sub|].
    split; [|by intros [? _]]. intros Hr. split; [done|]. intros Hkey. apply Hne.
    by apply (unique_name l s); [|apply Hent|].
  - split; [|by intros [? _]]. intros Hr. split; [done|]. intros Hkey.
    by destruct (take_entry_None s l t Et); apply Hent.
Qed.

Lemma deregister_all_subs dead : forall h, hub_ok h -> forall t r,
  r ∈ subs_of (fold_left (fun h d => deregister (fst d) (snd d) h) dead h) t <->
  r ∈ subs_of h t /\ sub_key r ∉ dead.
Proof.
  induction dead as [|[c s] dead IH]; intros h Hh t r; cbn.
  - split; [|by intros [? _]]. intros Hr. split; [done|]. intros Hx. by apply elem_of_nil in Hx.
  - rewrite IH by by apply deregister_ok. rewrite deregister_subs, not_elem_of_cons by done. tauto.
Qed.

Lemma deregister_absent c s h : has_subscription c s h = false -> deregister c s h = h.
Proof.
  unfold has_subscription, deregister. destruct (connections h !! c) as [l|]; [|done]. intros Hs.
  assert (take_entry s l = None) as ->; [|done].
  induction l as [|[s' t] l IH]; cbn in *; [done|]. destruct (String.eqb s' s); [done|]. by rewrite (IH Hs).
Qed.

Lemma has_subscription_gone c h s : has_subscription c s (deregister_connection c h) = false.
Proof.
  unfold has_subscription, deregister_connection.
  destruct (connections h !! c) eqn:E; cbn; [by rewrite lookup_delete_eq|by rewrite E].
Qed.

(** ** Properties *)

(** The hub's life: each client registers only names it does not hold, as the
    connection actor checks before it registers. *)
Inductive hub_reachable : SubscriptionHub -> Prop :=
| hub_start : hub_reachable hub_new
| hub_register h c s t root ch :
    hub_reachable h -> has_subscription c s h = false -> hub_reachable (register c s t root ch h)
| hub_deregister h c s : hub_reachable h -> hub_reachable (deregister c s h)
| hub_disconnect h c : hub_reachable h -> hub_reachable (deregister_connection c h)
| hub_broadcast h t payload chs :
    hub_reachable h -> hub_reachable (snd (fst (broadcast t payload h chs))).

Lemma reachable_ok h : hub_reachable h -> hub_ok h.
Proof.
  induction 1; auto using hub_new_ok, register_ok, deregister_ok, deregister_connection_ok, broadcast_ok.
Qed.

(** Over every sequence of registrations, deregistrations, disconnections and
    broadcasts the two indexes of the hub agree. *)
Theorem hub_indexes_agree h : hub_reachable h -> hub_ok h.
Proof. apply reachable_ok. Qed.

(** After a connection is deregistered no topic holds a subscription of it, and every
    other connection's subscriptions are as they were. *)
Theorem deregister_connection_clean c h : hub_reachable h ->
  (forall t r, r ∈ subs_of (deregister_connection c h) t <-> r ∈ subs_of h t /\ conn_id r <> c) /\
  forall s, has_subscription c s (deregister_connection c h) = false.
Proof.
  intros Hok%reachable_ok.
  split; [by apply deregister_connection_subs|]. intros s. apply has_subscription_gone.
Qed.

(** A broadcast gives every open channel the event once per subscription of the
    topic on it, in the order of registration, as far as there is room, and touches
    no other channel; the subscriptions whose channel is closed, and no others, are
    dropped. *)
Theorem broadcast_spec t payload h chs : hub_reachable h ->
  let '(sent, h', chs') := broadcast t payload h chs in
  (forall k, chs' !! k = deliver (events_for payload k (subs_of h t)) <$> chs !! k) /\
  forall t' r, r ∈ subs_of h' t' <-> r ∈ subs_of h t' /\ ~ (t' = t /\ is_closed chs (tx r) = true).
Proof.
  intros Hok%reachable_ok.
  unfold broadcast. destruct (topics h !! t) as [subs|] eqn:Et.
  - assert (Hs : subs_of h t = subs) by (unfold subs_of; by rewrite Et). rewrite Hs.
    destruct (send_all payload subs chs) as [[n dead] chs'] eqn:E.
    destruct (send_all_spec _ _ _ _ _ _ E) as [Hk ->]. split; [done|].
    intros t' r. rewrite deregister_all_subs by done. rewrite key_elem. setoid_rewrite elem_of_filter_b.
    pose proof (ok_keys h Hok t) as Hnd. rewrite Hs in Hnd.
    split; intros [Hin Hno]; (split; [done|]).
    + intros [-> Hc]. apply Hno. exists r. rewrite Hs in Hin. done.
    + intros (r' & [Hin' Hc] & Hkey). apply Hno.
      assert (t' = t) as ->.
      { apply (unique_name (entries h (conn_id r)) (sub_id r)); [apply Hok| |].
        - apply (ok_agree h Hok), key_elem. by exists r.
        - apply (ok_agree h Hok), key_elem. exists r'. rewrite Hs. done. }
      split; [done|]. assert (r' = r) as <-; [|done]. rewrite Hs in Hin.
      apply list_elem_of_lookup in Hin as [i Hi], Hin' as [j Hj].
      assert (i = j) as ->; [|congruence].
      apply (NoDup_lookup (map sub_key subs) i j (sub_key r) Hnd);
        change (map sub_key subs) with (sub_key <$> subs); rewrite list_lookup_fmap.
      * by rewrite Hi.
      * rewrite Hj. cbn. by rewrite Hkey.
  - assert (Hs : subs_of h t = []) by (unfold subs_of; by rewrite Et). rewrite Hs. split.
    + intros k. destruct (chs !! k) as [[q cap []]|]; [|done..]. cbn. by rewrite take_nil, app_nil_r.
    + intros t' r. split; [|by intros [? _]]. intros Hin. split; [done|]. intros [-> _].
      rewrite Hs in Hin. by apply elem_of_nil in Hin.
Qed.

(** A hub with two clients on one topic, the second gone. *)
Definition demo_hub : SubscriptionHub :=
  register 2 "b" "t" "order" 2 (register 1 "a" "t" "order" 1 hub_new).
Definition demo_channels : channels := {[1%positive := Chan [] 4 true; 2%positive := Chan [] 4 false]}.
Lemma demo_hub_reachable : hub_reachable demo_hub.
Proof. apply hub_register; [apply hub_register; [apply hub_start|done]|done]. Qed.

Lemma hub_indexes_agree_witness : hub_ok demo_hub.
Proof. apply (hub_indexes_agree demo_hub), demo_hub_reachable. Defined.
Lemma deregister_connection_clean_witness :
  (forall t r, r ∈ subs_of (deregister_connection 2 demo_hub) t <-> r ∈ subs_of demo_hub t /\ conn_id r <> 2%positive) /\
  forall s, has_subscription 2 s (deregister_connection 2 demo_hub) = false.
Proof. apply (deregister_connection_clean 2 demo_hub), demo_hub_reachable. Defined.
Lemma broadcast_spec_witness :
  let '(sent, h', chs') := broadcast "t" (JString "x") demo_hub demo_channels in
  sent = 1%nat /\ (forall k, chs' !! k = deliver (events_for (JString "x") k (subs_of demo_hub "t")) <$> demo_channels !! k).
Proof.
  pose proof (broadcast_spec "t" (JString "x") demo_hub demo_channels demo_hub_reachable) as Hb.
  assert (Hn : fst (fst (broadcast "t" (JString "x") demo_hub demo_channels)) = 1%nat) by reflexivity.
  destruct (broadcast "t" (JString "x") demo_hub demo_channels) as [[sent h'] chs']. by destruct Hb.
Defined.

(** A client whose actor was stopped before it deregistered: the broadcast drops its
    subscription but its connection stays counted. *)
Example stopped_client_stays_counted :
  let h' := snd (fst (broadcast "t" JNull (register 2 "b" "t" "order" 2 hub_new) demo_channels)) in
  active_subscriptions_count h' = 0%nat /\ active_connection_count h' = 1%nat.
Proof. split; reflexivity. Qed.
(** Without the actor's check, registering a name again under another topic leaves
    the first registration behind, and disconnecting does not remove it. *)
Example reregistration_orphans :
  let h := deregister_connection 1 (register 1 "a" "t2" "f" 1 (register 1 "a" "t1" "f" 1 hub_new)) in
  active_subscriptions_count h = 1%nat /\ active_connection_count h = 0%nat.
Proof. split; reflexivity. Qed.

(** A payload that is already wrapped is wrapped once more. *)
Example wrapped_twice :
  with_data (formatted_data (JObject [("data", JObject [("order", JNull)])]) "order") =
  ExecResult (Some (JObject [("data", JObject [("order", JNull)])])) None None.
Proof. reflexivity. Qed.
