(* ===== verification/Engine.v ===== *)
(** * Engine: subscription topics and the connection actor,
    [src/subscriptions/engine.rs].

    The topic of a subscription query, and the actor of one WebSocket client as a
    step function over what its loop waits for. *)

From S2P Require Import Prelude Externals Protocol Hub.
Local Open Scope string_scope.

Section Engine.
Context `{Unicode, JsonText, GqlParser}.

(** ** Topics *)

(** [Number]'s text. *)
Definition number_text (n : number) : string :=
  match n with
  | PosInt z => dec z
  | NegInt z => String.append "-" (dec (- z))
  | Float s => s
  end.
(** The value of an argument. @subscriptions/engine.rs:61-83 derive_subscription_topic *)
Definition argument_value (variables : option json) (v : option cst_value) : option string :=
  match v with
  | Some (VarValue name) =>
      match variables with
      | Some vars =>
          match j_get (default "" name) vars with
          | Some (JString s) => Some s
          | Some (JNumber n) => Some (number_text n)
          | _ => None
          end
      | None => None
      end
  | Some (StringValue raw) => Some (trim_char (ascii_of_N 34) raw)
  | Some (IntValue i) => Some i
  | Some (EnumValue name) => name
  | _ => None
  end.
(** Identifier arguments go first. @subscriptions/engine.rs:85-93 derive_subscription_topic *)
Definition is_identifier (arg_name : string) : bool :=
  let lower := to_lowercase arg_name in
  String.eqb lower "id" || ends_with "id" lower || String.eqb lower "topic".
(** The loop over the arguments. @subscriptions/engine.rs:56-96 derive_subscription_topic *)
Fixpoint primary_arg (variables : option json) (args : list (option string * option cst_value))
    (primary : option string) : option string :=
  match args with
  | [] => primary
  | (name, v) :: args' =>
      match argument_value variables v with
      | Some val =>
          if is_identifier (default "" name) then Some val
          else primary_arg variables args' (match primary with None => Some val | p => p end)
      | None => primary_arg variables args' primary
      end
  end.
Definition topic_name (prefix root_field : string) (arg : option string) : string :=
  match arg with
  | Some a => str_concat [prefix; ".events."; to_lowercase root_field; "."; a]
  | None => str_concat [prefix; ".events."; to_lowercase root_field]
  end.
(** The first field of a selection set. *)
Fixpoint first_field (l : list cst_selection) :
    option (option string * list (option string * option cst_value)) :=
  match l with
  | [] => None
  | SelField _ name args :: _ => Some (name, args)
  | _ :: l' => first_field l'
  end.
Definition is_subscription (op : cst_operation) : bool :=
  match cst_type op with Some t => subscription_token t | None => false end.
(** @subscriptions/engine.rs:39-113 derive_subscription_topic *)
Fixpoint derive_loop (prefix : string) (variables : option json) (defs : list cst_definition) :
    result string (string * string) :=
  match defs with
  | [] => Err "No subscription operation found in query"
  | OtherDefinition :: defs' => derive_loop prefix variables defs'
  | OperationDefinition op :: defs' =>
      if negb (is_subscription op) then Err "Operation must be a subscription"
      else
        match (match cst_selections op with Some l => first_field l | None => None end) with
        | Some (None, _) => Err "Field missing name"
        | Some (Some root_field, args) =>
            Ok (topic_name prefix root_field (primary_arg variables args None), root_field)
        | None => derive_loop prefix variables defs'
        end
  end.
(** @subscriptions/engine.rs:{fn derive_subscription_topic} derive_subscription_topic *)
Definition derive_subscription_topic (prefix query_str : string) (variables : option json) :
    result string (string * string) :=
  let '(errors, defs) := gql_parse query_str in
  match errors with
  | _ :: _ => Err (String.append "GraphQL subscription syntax error: " (str_join "; " errors))
  | [] => derive_loop prefix variables defs
  end.

(** ** The connection actor *)

(** What the actor writes to its socket. *)
Inductive frame :=
| TextFrame (text : string)
| PongFrame (payload : string)
| CloseFrame (code : Z) (reason : string).
(** What it reads: [WsData] is a message that is neither close nor ping, with its
    text where it has one. *)
Inductive ws_message := WsClose | WsPing (payload : string) | WsData (text : option string).
(** What the loop waits for: a queued message, the heartbeat, each with whether the
    socket takes it, or the client: a read error or the end, or a message. *)
Inductive input :=
| Outgoing (m : option ServerMessage) (sent : bool)
| Heartbeat (sent : bool)
| Incoming (m : option ws_message).

(** [ConnectionActor] @subscriptions/engine.rs:{struct ConnectionActor} ConnectionActor *)
Record ConnectionActor := Actor {
  actor_conn : positive;
  topic_prefix : string;
  client_tx : positive
}.
Record actor_state := ActorState { hub : SubscriptionHub; initialized : bool }.
Inductive flow := Continue | Break.

Definition send_text (m : ServerMessage) : list frame := [TextFrame (json_to_string (server_message_json m))].

(** One client message. @subscriptions/engine.rs:228-287 ConnectionActor::run *)
Definition on_client_message (a : ConnectionActor) (st : actor_state) (m : ClientMessage) :
    actor_state * list frame * flow :=
  match m with
  | ConnectionInit _ => (ActorState (hub st) true, send_text (ConnectionAck None), Continue)
  | CPing payload => (st, send_text (SPong payload), Continue)
  | CPong _ => (st, [], Continue)
  | Subscribe id payload =>
      if negb (initialized st) then
        (st, [CloseFrame unauthorized_code "Unauthorized: connection_init required"], Break)
      else if has_subscription (actor_conn a) id (hub st) then
        (st, [CloseFrame subscriber_already_exists (str_concat ["Subscriber for '"; id; "' already exists"])], Break)
      else
        match derive_subscription_topic (topic_prefix a) (sp_query payload) (sp_variables payload) with
        | Ok (t, root_field) =>
            (ActorState (register (actor_conn a) id t root_field (client_tx a) (hub st)) (initialized st), [], Continue)
        | Err e => (st, send_text (SError id [JObject [("message", JString e)]]), Continue)
        end
  | CComplete id => (ActorState (deregister (actor_conn a) id (hub st)) (initialized st), [], Continue)
  end.
(** One turn of the loop. @subscriptions/engine.rs:154-291 ConnectionActor::run *)
Definition actor_turn (a : ConnectionActor) (st : actor_state) (i : input) :
    actor_state * list frame * flow :=
  match i with
  | Outgoing (Some m) sent => (st, if sent then send_text m else [], if sent then Continue else Break)
  | Outgoing None _ => (st, [], Break)
  | Heartbeat sent => (st, if sent then send_text (SPing None) else [], if sent then Continue else Break)
  | Incoming None => (st, [], Break)
  | Incoming (Some WsClose) => (st, [], Break)
  | Incoming (Some (WsPing payload)) => (st, [PongFrame payload], Continue)
  | Incoming (Some (WsData None)) => (st, [], Continue)
  | Incoming (Some (WsData (Some text))) =>
      match (match json_read text with Some j => client_message_of j | None => None end) with
      | None => (st, [CloseFrame bad_request "Invalid JSON"], Break)
      | Some m => on_client_message a st m
      end
  end.
(** The loop and the clean-up after it. @subscriptions/engine.rs:{fn run} ConnectionActor::run *)
Fixpoint actor_run (a : ConnectionActor) (st : actor_state) (inputs : list input) :
    actor_state * list frame * flow :=
  match inputs with
  | [] => (st, [], Continue)
  | i :: inputs' =>
      match actor_turn a st i with
      | (st, out, Continue) =>
          let '(st, out', f) := actor_run a st inputs' in (st, (out ++ out')%list, f)
      | (st, out, Break) =>
          (ActorState (deregister_connection (actor_conn a) (hub st)) (initialized st), out, Break)
      end
  end.

(** ** Lemmas *)

Lemma primary_arg_acc variables args p :
  primary_arg variables args p =
  match List.find (fun nv => bool_decide (argument_value variables (snd nv) <> None) && is_identifier (default "" (fst nv))) args with
  | Some (_, v) => argument_value variables v
  | None =>
      match p with
      | Some _ => p
      | None => match omap (fun nv => argument_value variables (snd nv)) args with [] => None | x :: _ => Some x end
      end
  end.
Proof.
  revert p. induction args as [|[n v] args IH]; intros p; cbn; [by destruct p|].
  destruct (argument_value variables v) as [val|] eqn:E; cbn.
  - destruct (is_identifier (default "" n)); cbn; [done|]. rewrite IH. by destruct p.
  - apply IH.
Qed.

Lemma actor_turn_hub a st i st' out f : actor_turn a st i = (st', out, f) ->
  hub st' = hub st \/
  (exists s t root, initialized st = true /\ has_subscription (actor_conn a) s (hub st) = false /\
     hub st' = register (actor_conn a) s t root (client_tx a) (hub st)) \/
  (exists s, hub st' = deregister (actor_conn a) s (hub st)).
Proof.
  destruct i as [[m|] sent|sent|[[|p|[text|]]|]]; cbn; try (intros [= <- _ _]; by left).
  destruct (match json_read text with Some j => _ | None => _ end) as [m|]; [|intros [= <- _ _]; by left].
  destruct m as [p|p|p|id p|id]; cbn; try (intros [= <- _ _]; by left).
  - destruct (initialized st) eqn:Ei; cbn; [|intros [= <- _ _]; by left].
    destruct (has_subscription _ _ _) eqn:Eh; [intros [= <- _ _]; by left|].
    destruct (derive_subscription_topic _ _ _) as [[t root]|]; [|intros [= <- _ _]; by left].
    intros [= <- _ _]. right; left. by exists id, t, root.
  - intros [= <- _ _]. right; right. by exists id.
Qed.

Lemma actor_turn_init a st i st' out f : actor_turn a st i = (st', out, f) ->
  initialized st = true -> initialized st' = true.
Proof.
  destruct i as [[m|] sent|sent|[[|p|[text|]]|]]; cbn; try (by intros [= <- _ _]).
  destruct (match json_read text with Some j => _ | None => _ end) as [m|]; [|by intros [= <- _ _]].
  destruct m as [p|p|p|id p|id]; cbn; try (by intros [= <- _ _]).
  destruct (negb _); [by intros [= <- _ _]|]. destruct (has_subscription _ _ _); [by intros [= <- _ _]|].
  destruct (derive_subscription_topic _ _ _) as [[t root]|]; by intros [= <- _ _].
Qed.

(** ** Properties *)

(** The argument that names a subscription's topic is the first identifier argument
    with a value, else the first argument with a value. *)
Theorem primary_arg_spec variables args :
  primary_arg variables args None =
  match List.find (fun nv => bool_decide (argument_value variables (snd nv) <> None) && is_identifier (default "" (fst nv))) args with
  | Some (_, v) => argument_value variables v
  | None => match omap (fun nv => argument_value variables (snd nv)) args with [] => None | x :: _ => Some x end
  end.
Proof. by rewrite primary_arg_acc. Qed.

(** A client's actor, whatever it reads, only takes the hub through the hub's own
    steps, registering only names it does not hold; it holds no subscription before
    [connection_init]; and once its loop has ended none of its subscriptions is left
    in the hub. *)
Theorem actor_discipline a inputs : forall st,
  hub_reachable (hub st) ->
  (initialized st = false -> forall s, has_subscription (actor_conn a) s (hub st) = false) ->
  let '(st', out, f) := actor_run a st inputs in
  hub_reachable (hub st') /\
  (initialized st' = false -> forall s, has_subscription (actor_conn a) s (hub st') = false) /\
  (f = Break -> forall t r, r ∈ subs_of (hub st') t -> conn_id r <> actor_conn a).
Proof.
  induction inputs as [|i inputs IH]; intros st Hr Hi; cbn; [done|].
  destruct (actor_turn a st i) as [[st1 out] f] eqn:E.
  assert (Hr1 : hub_reachable (hub st1)).
  { destruct (actor_turn_hub _ _ _ _ _ _ E) as [->|[(s & t & root & _ & Hs & ->)|[s ->]]];
      [done|by apply hub_register|by apply hub_deregister]. }
  assert (Hi1 : initialized st1 = false -> forall s, has_subscription (actor_conn a) s (hub st1) = false).
  { intros Hf1 s. assert (Hf0 : initialized st = false).
    { destruct (initialized st) eqn:E0; [|done]. by rewrite (actor_turn_init _ _ _ _ _ _ E E0) in Hf1. }
    destruct (actor_turn_hub _ _ _ _ _ _ E) as [->|[(s' & t & root & Ht & _)|[s' ->]]]; [by apply Hi|congruence|].
    rewrite (deregister_absent _ s'); by apply Hi. }
  destruct f.
  - destruct (actor_run a st1 inputs) as [[st2 out2] f2] eqn:E2. specialize (IH st1 Hr1 Hi1). by rewrite E2 in IH.
  - cbn. split_and!; [by apply hub_disconnect| |].
    + intros _ s. apply has_subscription_gone.
    + intros _ t r Hin. by apply (deregister_connection_subs _ _ (reachable_ok _ Hr1)) in Hin as [_ ?].
Qed.
End Engine.

(** ** A client that subscribes and leaves *)

Section Witnesses.
#[local] Existing Instances ascii_tables bits_json_text.
Definition order_query : GqlParser := {|
  gql_parse _ := ([], [OperationDefinition (CstOperation (Some (CstOpType false false true)) None
    (Some [SelField None (Some "orderUpdates")
             [(Some "limit", Some (IntValue "5")); (Some "orderId", Some (VarValue (Some "o")))]]))])
|}.
#[local] Existing Instance order_query.
Definition demo_actor : ConnectionActor := Actor 1 "spectra" 1.
Definition demo_inputs : list input :=
  [Incoming (Some (WsData (Some (json_to_string (JObject [("type", JString "connection_init")])))));
   Incoming (Some (WsData (Some (json_to_string (JObject
     [("id", JString "1");
      ("payload", JObject [("query", JString "subscription"); ("variables", JObject [("o", JString "42")])]);
      ("type", JString "subscribe")])))));
   Incoming (Some WsClose)].
Example demo_topic :
  derive_subscription_topic "spectra" "subscription" (Some (JObject [("o", JString "42")])) =
  Ok ("spectra.events.orderupdates.42", "orderUpdates").
Proof. reflexivity. Qed.
Example demo_registered :
  has_subscription 1 "1" (hub (fst (fst (actor_run demo_actor (ActorState hub_new false) (take 2 demo_inputs))))) = true.
Proof. by vm_compute. Qed.
Lemma actor_discipline_witness :
  Forall (fun r => conn_id r <> 1%positive)
    (subs_of (hub (fst (fst (actor_run demo_actor (ActorState hub_new false) demo_inputs))))
       "spectra.events.orderupdates.42").
Proof.
  pose proof (actor_discipline demo_actor demo_inputs (ActorState hub_new false) hub_start (fun _ _ => eq_refl)) as Hd.
  assert (Hf : snd (actor_run demo_actor (ActorState hub_new false) demo_inputs) = Break) by by vm_compute.
  destruct (actor_run demo_actor (ActorState hub_new false) demo_inputs) as [[st' out] f].
  cbn in Hf. destruct Hd as (_ & _ & Hd). apply Forall_forall. intros r. by apply Hd.
Defined.
End Witnesses.
