(* ===== verification/Audience.v ===== *)
(** * Audience: any number of clients and broadcasts over one hub, at the grain of its
    locks, [src/subscriptions/hub.rs] and [src/subscriptions/engine.rs].

    The hub keeps two indexes under two locks, and takes them one after the other: between
    the halves of an operation anyone else comes in, and a client's task can be stopped
    there for good. What the indexes agree on all the same, and that nobody waits for
    ever. *)

From S2P Require Import Prelude Externals Protocol Hub Engine.
Local Open Scope string_scope.

(** ** The halves of the hub's operations *)

(** @subscriptions/hub.rs:52-59 SubscriptionHub::register *)
Definition list_subscription (r : SubscriptionRegistration) (h : SubscriptionHub) : SubscriptionHub :=
  Hub (<[topic r := (drop_sub (conn_id r) (sub_id r) (default [] (topics h !! topic r)) ++ [r])%list]> (topics h)) (connections h).
(** @subscriptions/hub.rs:61-67 SubscriptionHub::register *)
Definition record_subscription (c : positive) (s t : string) (h : SubscriptionHub) : SubscriptionHub :=
  Hub (topics h)
    (<[c := (List.filter (fun e => negb (String.eqb (fst e) s)) (default [] (connections h !! c)) ++ [(s, t)])%list]> (connections h)).
(** @subscriptions/hub.rs:72-83 SubscriptionHub::deregister *)
Definition take_subscription (c : positive) (s : string) (h : SubscriptionHub) : option (string * SubscriptionHub) :=
  match connections h !! c ≫= take_entry s with
  | Some (t, l) => Some (t, Hub (topics h) (<[c := l]> (connections h)))
  | None => None
  end.
(** @subscriptions/hub.rs:85-94 SubscriptionHub::deregister *)
Definition unlist_subscription (c : positive) (s t : string) (h : SubscriptionHub) : SubscriptionHub :=
  Hub (remove_from_topic c s t (topics h)) (connections h).
(** @subscriptions/hub.rs:99-100 SubscriptionHub::deregister_connection *)
Definition take_connection (c : positive) (h : SubscriptionHub) : option (list (string * string) * SubscriptionHub) :=
  match connections h !! c with
  | Some l => Some (l, Hub (topics h) (delete c (connections h)))
  | None => None
  end.
(** @subscriptions/hub.rs:101-109 SubscriptionHub::deregister_connection *)
Definition unlist_all (c : positive) (l : list (string * string)) (h : SubscriptionHub) : SubscriptionHub :=
  Hub (fold_left (fun m e => remove_from_topic c (fst e) (snd e) m) l (topics h)) (connections h).
(** One send of a broadcast. @subscriptions/hub.rs:158-171 SubscriptionHub::broadcast *)
Definition send_one (payload : json) (r : SubscriptionRegistration) (chs : channels) : result send_error channels :=
  match (match chs !! tx r with Some ch => try_send (event_message payload r) ch | None => Err SendClosed end) with
  | Ok ch => Ok (<[tx r := ch]> chs)
  | Err e => Err e
  end.

(** Undisturbed, the halves are the operations. *)
Lemma register_halves c s t root ch h :
  register c s t root ch h = record_subscription c s t (list_subscription (Registration c s t root ch) h).
Proof. done. Qed.
Lemma deregister_halves c s h :
  deregister c s h = match take_subscription c s h with Some (t, h') => unlist_subscription c s t h' | None => h end.
Proof.
  unfold deregister, take_subscription. destruct (connections h !! c) as [l|]; cbn; [|done]. by destruct (take_entry s l) as [[t l']|].
Qed.
Lemma deregister_connection_halves c h :
  deregister_connection c h = match take_connection c h with Some (l, h') => unlist_all c l h' | None => h end.
Proof. unfold deregister_connection, take_connection. by destruct (connections h !! c). Qed.

(** ** Where everyone stands *)

(** A client's task: at its loop; past the check, before the first half of a registration,
    between the halves, between those of a deregistration, between those of its clean-up,
    holding the connections; at its end; stopped on the way. *)
Inductive task :=
| Resting (ini : bool)
| Cleared (s t root : string)
| Adding (s t : string)
| Taking (ini : bool) (s t : string)
| Leaving (l : list (string * string))
| Ended
| Stopped.
#[global] Instance task_eq_dec : EqDecision task.
Proof. solve_decision. Defined.
(** A broadcast: sending to those it saw, then removing those it found gone. *)
Inductive cast :=
| Sending (payload : json) (rest : list SubscriptionRegistration) (dead : list (positive * string))
| Cleaning (dead : list (positive * string))
| Removing (c : positive) (s t : string) (dead : list (positive * string)).
(** The hub, the clients' channels, everyone's place, and what was registered and
    published so far. *)
Record audience := Audience {
  index : SubscriptionHub;
  inboxes : channels;
  tasks : gmap positive task;
  casts : gmap nat cast;
  made : list SubscriptionRegistration;
  published : list (string * json)
}.
Definition is_gone (o : option task) : bool :=
  match o with Some Ended | Some Stopped => true | _ => false end.
(** Nobody holds the connections. *)
Definition unlocked (x : audience) : Prop :=
  map_Forall (fun _ tk => match tk with Leaving _ => False | _ => True end) (tasks x).
#[global] Instance unlocked_dec x : Decision (unlocked x).
Proof. apply map_Forall_dec. intros c []; apply _. Defined.

Definition close (c : positive) (chs : channels) : channels :=
  alter (fun ch => Chan (queue ch) (capacity ch) false) c chs.
Definition with_index (h : SubscriptionHub) (x : audience) : audience :=
  Audience h (inboxes x) (tasks x) (casts x) (made x) (published x).
Definition at_task (c : positive) (tk : task) (x : audience) : audience :=
  Audience (index x) (inboxes x) (<[c := tk]> (tasks x)) (casts x) (made x) (published x).
Definition gone_at (c : positive) (tk : task) (x : audience) : audience :=
  Audience (index x) (close c (inboxes x)) (<[c := tk]> (tasks x)) (casts x) (made x) (published x).
Definition at_cast (b : nat) (ct : cast) (x : audience) : audience :=
  Audience (index x) (inboxes x) (tasks x) (<[b := ct]> (casts x)) (made x) (published x).
Definition with_inboxes (chs : channels) (x : audience) : audience :=
  Audience (index x) chs (tasks x) (casts x) (made x) (published x).

Section Audience.
Context `{Unicode, JsonText, GqlParser}.
Variable prefix : string.
Abbreviation client c := (Actor c prefix c).

(** Something new: a client, something its loop hears, a broadcast, or a task stopped. *)
Inductive begins : audience -> audience -> Prop :=
| connects x c cap : tasks x !! c = None ->
    begins x (Audience (index x) (<[c := Chan [] cap true]> (inboxes x)) (<[c := Resting false]> (tasks x)) (casts x) (made x) (published x))
| hears x c ini i st out : tasks x !! c = Some (Resting ini) ->
    actor_turn (client c) (ActorState (index x) ini) i = (st, out, Continue) -> hub st = index x ->
    begins x (at_task c (Resting (initialized st)) x)
| writes x c ini m q cap : tasks x !! c = Some (Resting ini) -> inboxes x !! c = Some (Chan (m :: q) cap true) ->
    begins x (with_inboxes (<[c := Chan q cap true]> (inboxes x)) x)
| subscribes x c text j s payload t root : tasks x !! c = Some (Resting true) -> unlocked x ->
    json_read text = Some j -> client_message_of j = Some (Subscribe s payload) ->
    has_subscription c s (index x) = false ->
    derive_subscription_topic prefix (sp_query payload) (sp_variables payload) = Ok (t, root) ->
    begins x (at_task c (Cleared s t root) x)
| completes x c ini text j s t h : tasks x !! c = Some (Resting ini) -> unlocked x ->
    json_read text = Some j -> client_message_of j = Some (CComplete s) ->
    take_subscription c s (index x) = Some (t, h) ->
    begins x (at_task c (Taking ini s t) (with_index h x))
| breaks x c ini i st out l h : tasks x !! c = Some (Resting ini) -> unlocked x ->
    actor_turn (client c) (ActorState (index x) ini) i = (st, out, Break) ->
    take_connection c (index x) = Some (l, h) ->
    begins x (at_task c (Leaving l) (with_index h x))
| breaks_empty x c ini i st out : tasks x !! c = Some (Resting ini) -> unlocked x ->
    actor_turn (client c) (ActorState (index x) ini) i = (st, out, Break) ->
    take_connection c (index x) = None ->
    begins x (gone_at c Ended x)
| publishes x b t payload subs : casts x !! b = None -> topics (index x) !! t = Some subs ->
    begins x (Audience (index x) (inboxes x) (tasks x) (<[b := Sending payload subs []]> (casts x)) (made x) ((t, payload) :: published x))
| is_stopped x c tk : tasks x !! c = Some tk -> is_gone (Some tk) = false ->
    begins x (gone_at c Stopped x).
(** What a client began goes on. *)
Inductive client_goes_on : audience -> audience -> Prop :=
| lists x c s t root : tasks x !! c = Some (Cleared s t root) ->
    let r := Registration c s t root c in
    client_goes_on x (Audience (list_subscription r (index x)) (inboxes x) (<[c := Adding s t]> (tasks x)) (casts x) (r :: made x) (published x))
| records x c s t : tasks x !! c = Some (Adding s t) -> unlocked x ->
    client_goes_on x (at_task c (Resting true) (with_index (record_subscription c s t (index x)) x))
| unlists x c ini s t : tasks x !! c = Some (Taking ini s t) ->
    client_goes_on x (at_task c (Resting ini) (with_index (unlist_subscription c s t (index x)) x))
| ends x c l : tasks x !! c = Some (Leaving l) ->
    client_goes_on x (gone_at c Ended (with_index (unlist_all c l (index x)) x)).
(** What a broadcast began goes on. *)
Inductive cast_goes_on : audience -> audience -> Prop :=
| sends x b payload r rest dead chs : casts x !! b = Some (Sending payload (r :: rest) dead) ->
    send_one payload r (inboxes x) = Ok chs ->
    cast_goes_on x (at_cast b (Sending payload rest dead) (with_inboxes chs x))
| finds_closed x b payload r rest dead : casts x !! b = Some (Sending payload (r :: rest) dead) ->
    send_one payload r (inboxes x) = Err SendClosed ->
    cast_goes_on x (at_cast b (Sending payload rest (dead ++ [(conn_id r, sub_id r)])) x)
| finds_full x b payload r rest dead : casts x !! b = Some (Sending payload (r :: rest) dead) ->
    send_one payload r (inboxes x) = Err SendFull ->
    cast_goes_on x (at_cast b (Sending payload rest dead) x)
| has_sent x b payload dead : casts x !! b = Some (Sending payload [] dead) ->
    cast_goes_on x (at_cast b (Cleaning dead) x)
| cleans x b c s dead t h : casts x !! b = Some (Cleaning ((c, s) :: dead)) -> unlocked x ->
    take_subscription c s (index x) = Some (t, h) ->
    cast_goes_on x (at_cast b (Removing c s t dead) (with_index h x))
| skips x b c s dead : casts x !! b = Some (Cleaning ((c, s) :: dead)) -> unlocked x ->
    take_subscription c s (index x) = None ->
    cast_goes_on x (at_cast b (Cleaning dead) x)
| removes x b c s t dead : casts x !! b = Some (Removing c s t dead) ->
    cast_goes_on x (at_cast b (Cleaning dead) (with_index (unlist_subscription c s t (index x)) x))
| returns x b : casts x !! b = Some (Cleaning []) ->
    cast_goes_on x (Audience (index x) (inboxes x) (tasks x) (delete b (casts x)) (made x) (published x)).
Definition goes_on (x y : audience) : Prop := client_goes_on x y \/ cast_goes_on x y.
Definition audience_step (x y : audience) : Prop := begins x y \/ goes_on x y.
Definition nobody : audience := Audience hub_new ∅ ∅ ∅ [] [].

(** ** The invariant *)

(** The topic holds the client's subscription. *)
Definition listed (h : SubscriptionHub) (c : positive) (s t : string) : Prop := (c, s) ∈ map sub_key (subs_of h t).
Definition lists_exactly (h : SubscriptionHub) (c : positive) (l : list (string * string)) : Prop :=
  forall s t, listed h c s t <-> (s, t) ∈ l.
(** What a client's place says of the two indexes. *)
Definition task_ok (h : SubscriptionHub) (c : positive) (o : option task) : Prop :=
  match o with
  | Some (Resting _) => lists_exactly h c (entries h c)
  | Some (Cleared s _ _) => ~ (s ∈ (entries h c).*1) /\ lists_exactly h c (entries h c)
  | Some (Adding s t) | Some (Taking _ s t) => ~ (s ∈ (entries h c).*1) /\ lists_exactly h c ((s, t) :: entries h c)
  | Some (Leaving l) => connections h !! c = None /\ NoDup l.*1 /\ lists_exactly h c l
  | Some Ended | None => connections h !! c = None /\ lists_exactly h c []
  | Some Stopped => True
  end.
Record index_ok (regs : list SubscriptionRegistration) (h : SubscriptionHub) : Prop := {
  io_unique c : NoDup (entries h c).*1;
  io_nonempty t : topics h !! t <> Some [];
  io_keys t : NoDup (map sub_key (subs_of h t));
  io_ours t r : r ∈ subs_of h t -> topic r = t /\ tx r = conn_id r /\ r ∈ regs
}.
(** A message a client may be sent: an event of a topic it registered for. *)
Definition owed (regs : list SubscriptionRegistration) (pubs : list (string * json)) (c : positive) (m : ServerMessage) : Prop :=
  exists payload r, (topic r, payload) ∈ pubs /\ r ∈ regs /\ conn_id r = c /\ m = event_message payload r.
Definition cast_ok (x : audience) (ct : cast) : Prop :=
  match ct with
  | Sending payload rest dead =>
      Forall (fun r => ((topic r, payload) ∈ published x) /\ tx r = conn_id r /\ (r ∈ made x)) rest /\
      Forall (fun d => is_gone (tasks x !! d.1) = true) dead
  | Cleaning dead => Forall (fun d => is_gone (tasks x !! d.1) = true) dead
  | Removing c _ _ dead => tasks x !! c = Some Stopped /\ Forall (fun d => is_gone (tasks x !! d.1) = true) dead
  end.
Definition box_ok (x : audience) (c : positive) (o : option chan) : Prop :=
  match tasks x !! c with
  | None => o = None
  | Some tk => exists ch, o = Some ch /\ rx_open ch = negb (is_gone (Some tk)) /\ Forall (owed (made x) (published x) c) (queue ch)
  end.
Record audience_ok (x : audience) : Prop := {
  ao_index : index_ok (made x) (index x);
  ao_tasks c : task_ok (index x) c (tasks x !! c);
  ao_casts b ct : casts x !! b = Some ct -> cast_ok x ct;
  ao_boxes c : box_ok x c (inboxes x !! c);
  ao_made r : r ∈ made x -> tasks x !! conn_id r <> None
}.

(** *** One client's half leaves the others' as they were *)
Definition same_for (h h' : SubscriptionHub) (c : positive) : Prop :=
  connections h' !! c = connections h !! c /\ forall s t, listed h' c s t <-> listed h c s t.
Lemma same_task h h' c o : same_for h h' c -> task_ok h c o -> task_ok h' c o.
Proof.
  intros [Hc Hl]. assert (He : entries h' c = entries h c) by (unfold entries; by rewrite Hc).
  unfold task_ok, lists_exactly. destruct o as [[]|]; rewrite ?He, ?Hc; try done; by setoid_rewrite Hl.
Qed.
Lemma listed_list r h c s t :
  listed (list_subscription r h) c s t <-> listed h c s t \/ (c = conn_id r /\ s = sub_id r /\ t = topic r).
Proof.
  unfold listed, subs_of, list_subscription. cbn. destruct (decide (t = topic r)) as [->|Hne].
  - rewrite lookup_insert_eq. cbn. rewrite map_app, elem_of_app, keys_drop_sub. cbn. rewrite list_elem_of_singleton.
    destruct (decide (c = conn_id r /\ s = sub_id r)) as [[-> ->]|Hn]; [by split; intros; [right|right]|].
    split; [intros [[? _]|[= -> ->]]; [by left|by destruct Hn]|intros [?|(-> & -> & _)]; [|by destruct Hn]].
    left. split; [done|]. intros [= -> ->]. by destruct Hn.
  - rewrite lookup_insert_ne by done. split; [by left|]. intros [?|(_ & _ & ->)]; done.
Qed.
Lemma listed_unlist c s t h c' s' t' :
  listed (unlist_subscription c s t h) c' s' t' <-> listed h c' s' t' /\ ~ (c' = c /\ s' = s /\ t' = t).
Proof.
  unfold listed, subs_of, unlist_subscription. cbn. rewrite remove_from_topic_lookup. destruct (String.eqb_spec t' t) as [->|Hne].
  - rewrite keys_drop_sub. split; intros [? Hn]; (split; [done|]); [intros (-> & -> & _); done|intros [= -> ->]; by apply Hn].
  - split; [|by intros [? _]]. intros ?. split; [done|]. by intros (_ & _ & ->).
Qed.
Lemma listed_unlist_all c l h c' s' t' :
  listed (unlist_all c l h) c' s' t' <-> listed h c' s' t' /\ ~ (c' = c /\ (s', t') ∈ l).
Proof.
  revert h. induction l as [|[s t] l IH]; intros h.
  - unfold unlist_all. cbn. split; [|by intros [? _]]. intros ?. split; [done|]. by intros [_ []%elem_of_nil].
  - change (unlist_all c ((s, t) :: l) h) with (unlist_all c l (unlist_subscription c s t h)).
    rewrite IH, listed_unlist, elem_of_cons. split.
    + intros [[Hl Hn] Hn']. split; [done|]. intros [-> [[= -> ->]|Hin]]; [by apply Hn|by apply Hn'].
    + intros [Hl Hn]. split_and!; [done| |]; [intros (-> & -> & ->); apply Hn; by auto|intros [-> Hin]; apply Hn; by auto].
Qed.

(** *** The shape is kept *)
Lemma index_list regs r h : index_ok regs h -> tx r = conn_id r -> index_ok (r :: regs) (list_subscription r h).
Proof.
  intros [Hu Hn Hk Ho] Htx. split; [done|..]; intros t; unfold subs_of, list_subscription; cbn [topics].
  - destruct (decide (t = topic r)) as [->|]; [rewrite lookup_insert_eq; by destruct (drop_sub _ _ _)|by rewrite lookup_insert_ne].
  - destruct (decide (t = topic r)) as [->|]; [|by rewrite lookup_insert_ne by done; apply Hk]. rewrite lookup_insert_eq. cbn.
    rewrite map_app. apply NoDup_app. split_and!; [by apply NoDup_filter_map, Hk| |by apply NoDup_singleton].
    intros k. rewrite keys_drop_sub. cbn. rewrite list_elem_of_singleton. by intros [_ ?].
  - intros r'. destruct (decide (t = topic r)) as [->|].
    + rewrite lookup_insert_eq. cbn. rewrite elem_of_app, elem_drop_sub, list_elem_of_singleton. intros [[Hr _]| ->]; [|by split_and!; try left].
      destruct (Ho _ _ Hr) as (? & ? & ?). split_and!; [done..|by right].
    + rewrite lookup_insert_ne by done. intros Hr. destruct (Ho _ _ Hr) as (? & ? & ?). split_and!; [done..|by right].
Qed.
Lemma index_unlist regs c s t h : index_ok regs h -> index_ok regs (unlist_subscription c s t h).
Proof.
  intros [Hu Hn Hk Ho]. split; [done|..]; intros t'.
  - by apply remove_from_topic_nonempty.
  - unfold subs_of, unlist_subscription. cbn. rewrite remove_from_topic_lookup. destruct (String.eqb t' t); [by apply NoDup_filter_map, Hk|apply Hk].
  - intros r. unfold subs_of, unlist_subscription. cbn. rewrite remove_from_topic_lookup.
    destruct (String.eqb_spec t' t) as [->|]; [intros [Hr _]%elem_drop_sub; by apply Ho|apply Ho].
Qed.
Lemma index_unlist_all regs c l : forall h, index_ok regs h -> index_ok regs (unlist_all c l h).
Proof. induction l as [|[s t] l IH]; intros h Hh; [by destruct Hh|]. apply (IH (unlist_subscription c s t h)), index_unlist, Hh. Qed.
Lemma index_connections regs h m : index_ok regs h -> (forall c, NoDup (default [] (m !! c)).*1) -> index_ok regs (Hub (topics h) m).
Proof. intros [Hu Hn Hk Ho] Hm. by split. Qed.

(** *** A client moves, a broadcast moves *)
Lemma owed_more regs regs' pubs pubs' c m : (forall r, r ∈ regs -> r ∈ regs') -> (forall p, p ∈ pubs -> p ∈ pubs') ->
  owed regs pubs c m -> owed regs' pubs' c m.
Proof. intros Hr Hp (payload & r & Hpub & Hreg & Hc & Hm). exists payload, r. auto. Qed.

(** What is gone stays gone; what was registered and published stays so. *)
Lemma cast_more x y ct : (forall c, is_gone (tasks x !! c) = true -> tasks y !! c = tasks x !! c) ->
  (forall r, r ∈ made x -> r ∈ made y) -> (forall p, p ∈ published x -> p ∈ published y) -> cast_ok x ct -> cast_ok y ct.
Proof.
  intros Hg Hm Hp.
  assert (Hdead : forall dead, Forall (fun d : positive * string => is_gone (tasks x !! d.1) = true) dead ->
    Forall (fun d => is_gone (tasks y !! d.1) = true) dead).
  { intros dead Hd. eapply Forall_impl; [exact Hd|]. intros d Hd'. by rewrite Hg. }
  destruct ct as [payload rest dead|dead|c' s t dead]; cbn.
  - intros [Hr Hd]. split; [|by apply Hdead]. eapply Forall_impl; [exact Hr|]. cbn. intros r (? & ? & ?). auto.
  - apply Hdead.
  - intros [Hs Hd]. split; [|by apply Hdead]. by rewrite Hg; rewrite Hs.
Qed.
(** The client [c], not gone, gets to another place; the index changes for it alone. *)
Lemma client_moves x c tk0 tk h regs : audience_ok x -> tasks x !! c = Some tk0 -> is_gone (Some tk0) = false ->
  (forall r, r ∈ made x -> r ∈ regs) -> (forall r, r ∈ regs -> r ∈ made x \/ conn_id r = c) ->
  index_ok regs h -> (forall c', c' <> c -> same_for (index x) h c') -> task_ok h c (Some tk) ->
  audience_ok (Audience h (if is_gone (Some tk) then close c (inboxes x) else inboxes x) (<[c := tk]> (tasks x)) (casts x) regs (published x)).
Proof.
  intros [Hi Ht Hc Hb Hm] Hx Hg Hsub Hnew Hh Hsame Htk.
  assert (Hgone : forall c', is_gone (tasks x !! c') = true -> <[c := tk]> (tasks x) !! c' = tasks x !! c').
  { intros c' Hg'. rewrite lookup_insert_ne; [done|]. intros <-. rewrite Hx in Hg'. congruence. }
  split; cbn [made index tasks casts inboxes published].
  - done.
  - intros c'. destruct (decide (c' = c)) as [->|Hne]; [by rewrite lookup_insert_eq|].
    rewrite lookup_insert_ne by done. by apply (same_task (index x)); [apply Hsame|].
  - intros b ct Hct. eapply (cast_more x); cbn; [exact Hgone|exact Hsub|done|by apply (Hc b)].
  - intros c'. specialize (Hb c'). unfold box_ok in *. cbn [tasks made published].
    assert (Hq : forall q, Forall (owed (made x) (published x) c') q -> Forall (owed regs (published x) c') q).
    { intros q Hf. eapply Forall_impl; [exact Hf|]. intros m. by apply owed_more. }
    destruct (decide (c' = c)) as [->|Hne].
    + rewrite Hx in Hb. rewrite lookup_insert_eq. destruct Hb as (ch & Hch & Ho & Hf). rewrite Hg in Ho.
      destruct (is_gone (Some tk)); [|by exists ch; auto]. unfold close. rewrite lookup_alter_eq, Hch. cbn. eexists. split; [done|]. cbn. auto.
    + rewrite lookup_insert_ne by done. assert (Hbox : (if is_gone (Some tk) then close c (inboxes x) else inboxes x) !! c' = inboxes x !! c').
      { destruct (is_gone (Some tk)); [|done]. unfold close. by rewrite lookup_alter_ne. }
      rewrite Hbox. destruct (tasks x !! c'); [|done]. destruct Hb as (ch & Hch & Ho & Hf). exists ch. auto.
  - intros r Hr. destruct (Hnew r Hr) as [Hr'|Hrc].
    + specialize (Hm r Hr'). destruct (decide (conn_id r = c)) as [->|]; [by rewrite lookup_insert_eq|by rewrite lookup_insert_ne].
    + subst c. by rewrite lookup_insert_eq.
Qed.
(** A broadcast gets on; the index changes for stopped clients alone, the channels as the
    invariant allows. *)
Lemma cast_moves x casts' h chs : audience_ok x ->
  (forall b ct, casts' !! b = Some ct -> cast_ok x ct) ->
  index_ok (made x) h -> (forall c, tasks x !! c <> Some Stopped -> same_for (index x) h c) ->
  (forall c, box_ok x c (chs !! c)) ->
  audience_ok (Audience h chs (tasks x) casts' (made x) (published x)).
Proof.
  intros [Hi Ht Hc Hb Hm] Hct Hh Hsame Hbox. split; cbn [made index tasks casts inboxes published]; [done| |exact Hct|exact Hbox|done].
  intros c. specialize (Ht c). destruct (decide (tasks x !! c = Some Stopped)) as [->|Hne]; [done|].
  apply (same_task (index x)); [by apply Hsame|done].
Qed.

(** *** Taking an entry *)
Lemma take_name s (l : list (string * string)) t l' : take_entry s l = Some (t, l') -> NoDup l.*1 ->
  NoDup l'.*1 /\ ~ (s ∈ l'.*1) /\ forall e, e ∈ l <-> e ∈ (s, t) :: l'.
Proof.
  intros Ht Hn. destruct (take_entry_Some s l t l' Ht Hn) as (Hin & Hn' & Hiff). split_and!; [done| |].
  - intros ([s' t'] & -> & Hin')%list_elem_of_fmap. by apply Hiff in Hin' as [_ ?].
  - intros [s' t']. rewrite elem_of_cons, Hiff. split; [|by intros [[= -> ->]|[? _]]].
    intros Hin'. destruct (decide (s' = s)) as [->|]; [left|by right]. f_equal. by apply (unique_name l s).
Qed.
Lemma take_subscription_spec regs c s t h h' : index_ok regs h -> take_subscription c s h = Some (t, h') ->
  index_ok regs h' /\ topics h' = topics h /\ (forall c', c' <> c -> connections h' !! c' = connections h !! c') /\
  ~ (s ∈ (entries h' c).*1) /\ (forall e, e ∈ entries h c <-> e ∈ (s, t) :: entries h' c).
Proof.
  intros Hh. unfold take_subscription. destruct (connections h !! c) as [l|] eqn:El; cbn; [|done].
  destruct (take_entry s l) as [[t' l']|] eqn:Et; [|done]. intros [= <- <-].
  pose proof (io_unique _ _ Hh c) as Hu. unfold entries in Hu. rewrite El in Hu. destruct (take_name _ _ _ _ Et Hu) as (Hn & Hs & Hiff).
  split_and!; [|done| | |].
  - apply index_connections; [done|]. intros c'. destruct (decide (c' = c)) as [->|Hne]; [by rewrite lookup_insert_eq|].
    rewrite lookup_insert_ne by done. apply (io_unique _ _ Hh c').
  - intros c' Hne. cbn. by rewrite lookup_insert_ne.
  - unfold entries. cbn. by rewrite lookup_insert_eq.
  - intros e. unfold entries. cbn. rewrite lookup_insert_eq, El. apply Hiff.
Qed.
Lemma index_delete regs c h : index_ok regs h -> index_ok regs (Hub (topics h) (delete c (connections h))).
Proof.
  intros Hh. apply index_connections; [done|]. intros c'. destruct (decide (c' = c)) as [->|Hne]; [rewrite lookup_delete_eq; constructor|].
  rewrite lookup_delete_ne by done. apply (io_unique _ _ Hh c').
Qed.

(** *** Every step keeps it *)
Lemma connects_ok x c cap : audience_ok x -> tasks x !! c = None ->
  audience_ok (Audience (index x) (<[c := Chan [] cap true]> (inboxes x)) (<[c := Resting false]> (tasks x)) (casts x) (made x) (published x)).
Proof.
  intros I Hx. pose proof (ao_index x I) as Hi.
  pose proof I as [_ Ht Hc Hbx Hm]. pose proof (Ht c) as Htc. rewrite Hx in Htc. cbn in Htc.
  assert (Hother : forall c', c' <> c -> <[c := Resting false]> (tasks x) !! c' = tasks x !! c') by (intros; by rewrite lookup_insert_ne).
  split; cbn [made index tasks casts inboxes published]; [done|..].
  + intros c'. destruct (decide (c' = c)) as [->|]; [|by rewrite Hother]. rewrite lookup_insert_eq. cbn.
    destruct Htc as [Hn Hl]. unfold entries. by rewrite Hn.
  + intros b ct Hct. eapply (cast_more x); cbn; [|done|done|by apply (Hc b)].
    intros c' Hg. apply Hother. intros ->. by rewrite Hx in Hg.
  + intros c'. specialize (Hbx c'). unfold box_ok in *. cbn [tasks made published]. destruct (decide (c' = c)) as [->|].
    * rewrite !lookup_insert_eq. eexists. split; [done|]. by split; [|constructor].
    * rewrite Hother by done. by rewrite lookup_insert_ne.
  + intros r Hr. specialize (Hm r Hr). destruct (decide (conn_id r = c)) as [->|]; [by rewrite lookup_insert_eq|by rewrite Hother].
Qed.
Lemma publishes_ok x b t payload subs : audience_ok x -> casts x !! b = None -> topics (index x) !! t = Some subs ->
  audience_ok (Audience (index x) (inboxes x) (tasks x) (<[b := Sending payload subs []]> (casts x)) (made x) ((t, payload) :: published x)).
Proof.
  intros I Hb Htop. pose proof (ao_index x I) as Hi.
  pose proof I as [_ Ht Hc Hbx Hm]. split; cbn [made index tasks casts inboxes published]; [done|done| | |done].
  + intros b' ct. destruct (decide (b' = b)) as [->|].
    * rewrite lookup_insert_eq. intros [= <-]. cbn. split; [|constructor]. apply Forall_forall. intros r Hr.
      destruct (io_ours _ _ Hi t r) as (-> & Htx & Hmr); [unfold subs_of; by rewrite Htop|]. split; [by left|done].
    * rewrite lookup_insert_ne by done. intros Hct. eapply (cast_more x); cbn; [done|done|by right|by apply (Hc b')].
  + intros c. specialize (Hbx c). unfold box_ok in *. cbn [tasks]. destruct (tasks x !! c); [|done].
    destruct Hbx as (ch & Hch & Ho & Hf). exists ch. split_and!; [done..|]. eapply Forall_impl; [exact Hf|].
    intros m. apply owed_more; [done|]. intros p. by right.
Qed.
Lemma begins_ok x y : audience_ok x -> begins x y -> audience_ok y.
Proof.
  intros I Hb. pose proof (ao_index x I) as Hi.
  destruct Hb as [x c cap Hx|x c ini i st out Hx Hturn|x c ini m q cap Hx Hq|x c text j s payload t root Hx Hfree Hj Hmsg Hhas Htop
    |x c ini text j s t h Hx Hfree Hj Hmsg Htake|x c ini i st out l h Hx Hfree Hturn Htake|x c ini i st out Hx Hfree Hturn Htake
    |x b t payload subs Hnone Htop|x c tk Hx Hgone].
  - by apply connects_ok.
  - apply (client_moves x c (Resting ini) (Resting (initialized st)) (index x) (made x)); auto; [by split|].
    pose proof (ao_tasks x I c) as Htc. by rewrite Hx in Htc.
  - apply (cast_moves x (casts x) (index x)); [done|by apply I|done|by split|]. intros c'. pose proof (ao_boxes x I c') as Hbx.
    unfold box_ok in *. destruct (decide (c' = c)) as [->|]; [|by rewrite lookup_insert_ne]. rewrite lookup_insert_eq.
    rewrite Hx in Hbx |- *. destruct Hbx as (ch & Hch & Ho & Hf). rewrite Hq in Hch. injection Hch as <-. eexists. split; [done|].
    split; [done|]. by inversion Hf.
  - apply (client_moves x c (Resting true) (Cleared s t root) (index x) (made x)); auto; [by split|].
    pose proof (ao_tasks x I c) as Htc. rewrite Hx in Htc. cbn in Htc |- *. split; [|done].
    intros ([s' t'] & -> & Hin)%list_elem_of_fmap. revert Hhas. unfold has_subscription. unfold entries in Hin.
    destruct (connections (index x) !! c) as [l|]; [|by apply elem_of_nil in Hin]. cbn in *. intros He.
    assert (existsb (fun e => String.eqb (fst e) s') l = true); [|congruence]. apply existsb_exists. exists (s', t').
    split; [by apply list_elem_of_In|apply String.eqb_refl].
  - destruct (take_subscription_spec _ _ _ _ _ _ Hi Htake) as (Hh & Htop & Hoth & Hs & Hiff).
    apply (client_moves x c (Resting ini) (Taking ini s t) h (made x)); auto.
    + intros c' Hne. split; [by apply Hoth|]. intros s' t'. unfold listed, subs_of. by rewrite Htop.
    + split; [done|]. intros s' t'. rewrite <- Hiff. pose proof (ao_tasks x I c) as Htc. rewrite Hx in Htc. cbn in Htc.
      unfold listed, subs_of. rewrite Htop. apply Htc.
  - revert Htake. unfold take_connection. destruct (connections (index x) !! c) as [l0|] eqn:El; [|done]. intros [= <- <-].
    apply (client_moves x c (Resting ini) (Leaving l0) (Hub _ _) (made x)); auto.
    + by apply index_delete.
    + intros c' Hne. split; [by cbn; rewrite lookup_delete_ne|done].
    + cbn. rewrite lookup_delete_eq. pose proof (ao_tasks x I c) as Htc. rewrite Hx in Htc. cbn in Htc.
      pose proof (io_unique _ _ Hi c) as Hu. unfold entries in *. rewrite El in *. done.
  - apply (client_moves x c (Resting ini) Ended (index x) (made x)); auto; [by split|].
    pose proof (ao_tasks x I c) as Htc. rewrite Hx in Htc. revert Htake. unfold take_connection. cbn in *. unfold entries in Htc.
    by destruct (connections (index x) !! c).
  - by apply publishes_ok.
  - apply (client_moves x c tk Stopped (index x) (made x)); auto; by split.
Qed.

(** A client that did not stop has what it listed. *)
Lemma gone_listed x c h : audience_ok x -> is_gone (tasks x !! c) = true -> tasks x !! c <> Some Stopped ->
  forall s, take_subscription c s (index x) = Some h -> False.
Proof.
  intros I Hg Hs s. pose proof (ao_tasks x I c) as Ht. destruct (tasks x !! c) as [[]|]; try done. destruct Ht as [Hn _].
  unfold take_subscription. by rewrite Hn.
Qed.
Lemma send_one_ok x payload r : audience_ok x -> (topic r, payload) ∈ published x -> tx r = conn_id r -> r ∈ made x ->
  match send_one payload r (inboxes x) with
  | Ok chs => forall c, box_ok x c (chs !! c)
  | Err SendClosed => is_gone (tasks x !! conn_id r) = true
  | Err SendFull => True
  end.
Proof.
  intros I Hp Htx Hr. unfold send_one. rewrite Htx. pose proof (ao_boxes x I (conn_id r)) as Hb. pose proof (ao_made x I r Hr) as Hm.
  unfold box_ok in Hb. destruct (tasks x !! conn_id r) as [tk|] eqn:Ex; [|done]. destruct Hb as (ch & -> & Ho & Hf).
  unfold try_send. rewrite Ho, negb_involutive. destruct (is_gone (Some tk)) eqn:Eg; [done|].
  destruct (length (queue ch) <? capacity ch)%nat; [|done]. intros c. destruct (decide (c = conn_id r)) as [->|].
  - rewrite lookup_insert_eq. unfold box_ok. rewrite Ex. eexists. split; [done|]. cbn [rx_open queue]. rewrite Eg. split; [done|].
    apply Forall_app. split; [done|]. apply Forall_singleton. by exists payload, r.
  - rewrite lookup_insert_ne by done. apply I.
Qed.
Lemma records_ok x c s t : audience_ok x -> tasks x !! c = Some (Adding s t) ->
  audience_ok (at_task c (Resting true) (with_index (record_subscription c s t (index x)) x)).
Proof.
  intros I Hx. pose proof (ao_index x I) as Hi.
  pose proof (ao_tasks x I c) as Ht. rewrite Hx in Ht. destruct Ht as [Hn Hl].
  assert (He : List.filter (fun e => negb (String.eqb (fst e) s)) (entries (index x) c) = entries (index x) c).
  { revert Hn. generalize (entries (index x) c). induction l as [|[s' t'] l IH]; cbn; [done|]. intros [Hne Hn]%not_elem_of_cons.
    destruct (String.eqb_spec s' s); [done|]. cbn. by rewrite IH. }
  assert (Hent : forall c', entries (record_subscription c s t (index x)) c' =
    if Pos.eqb c' c then (entries (index x) c ++ [(s, t)])%list else entries (index x) c').
  { intros c'. unfold record_subscription. rewrite entries_insert. fold (entries (index x) c). by rewrite He. }
  apply (client_moves x c (Adding s t) (Resting true) (record_subscription c s t (index x)) (made x)); auto.
  + apply index_connections; [done|]. intros c'. specialize (Hent c'). unfold entries in Hent at 1. cbn in Hent. rewrite Hent.
    destruct (Pos.eqb c' c); [|apply Hi]. rewrite fmap_app. apply NoDup_app. split_and!; [apply Hi| |by apply NoDup_singleton].
    intros s' Hin. cbn. rewrite list_elem_of_singleton. by intros ->.
  + intros c' Hne. split; [by cbn; rewrite lookup_insert_ne|done].
  + intros s' t'. rewrite Hent, Pos.eqb_refl, elem_of_app, list_elem_of_singleton. rewrite (Hl s' t'), elem_of_cons. tauto.
Qed.
Lemma client_goes_on_ok x y : audience_ok x -> client_goes_on x y -> audience_ok y.
Proof.
  intros I Hb. pose proof (ao_index x I) as Hi.
  destruct Hb as [x c s t root Hx r|x c s t Hx Hfree|x c ini s t Hx|x c l Hx].
  - apply (client_moves x c (Cleared s t root) (Adding s t)); auto.
    + by right.
    + intros r' [->|Hr]%elem_of_cons; auto.
    + by apply index_list.
    + intros c' Hne. split; [done|]. intros s' t'. rewrite listed_list. split; [|by left]. intros [?|(-> & _)]; done.
    + pose proof (ao_tasks x I c) as Ht. rewrite Hx in Ht. destruct Ht as [Hn Hl]. split; [done|]. intros s' t'.
      rewrite listed_list, elem_of_cons. split; [intros [?|(_ & -> & ->)]; [right; by apply Hl|by left]|].
      intros [[= -> ->]|?]; [by right|left; by apply Hl].
  - by apply records_ok.
  - apply (client_moves x c (Taking ini s t) (Resting ini) (unlist_subscription c s t (index x)) (made x)); auto.
    + by apply index_unlist.
    + intros c' Hne. split; [done|]. intros s' t'. rewrite listed_unlist. split; [by intros [? _]|]. intros ?. split; [done|]. by intros [-> _].
    + pose proof (ao_tasks x I c) as Ht. rewrite Hx in Ht. destruct Ht as [Hn Hl]. intros s' t'. rewrite listed_unlist.
      rewrite (Hl s' t'), elem_of_cons. split; [intros [[[= -> ->]|?] Hno]; [by destruct Hno|done]|].
      intros Hin. split; [by right|]. intros (_ & -> & ->). apply Hn, list_elem_of_fmap. by exists (s, t).
  - pose proof (ao_tasks x I c) as Ht. rewrite Hx in Ht. destruct Ht as (Hn & _ & Hl).
    apply (client_moves x c (Leaving l) Ended (unlist_all c l (index x)) (made x)); auto.
    + by apply index_unlist_all.
    + intros c' Hne. split; [done|]. intros s' t'. rewrite listed_unlist_all. split; [by intros [? _]|]. intros ?. split; [done|]. by intros [-> _].
    + split; [done|]. intros s' t'. rewrite listed_unlist_all. split; [|by intros []%elem_of_nil]. intros [Hin Hno]. destruct Hno. split; [done|by apply Hl].
Qed.
Lemma cast_goes_on_ok x y : audience_ok x -> cast_goes_on x y -> audience_ok y.
Proof.
  intros I Hb. pose proof (ao_index x I) as Hi.
  assert (Hcasts : forall b ct, cast_ok x ct -> forall b' ct', <[b := ct]> (casts x) !! b' = Some ct' -> cast_ok x ct').
  { intros b ct Hct b' ct'. destruct (decide (b' = b)) as [->|]; [rewrite lookup_insert_eq; by intros [= <-]|].
    rewrite lookup_insert_ne by done. apply I. }
  destruct Hb as [x b payload r rest dead chs Hx Hs|x b payload r rest dead Hx Hs|x b payload r rest dead Hx Hs
    |x b payload dead Hx|x b c s dead t h Hx Hfree Htake|x b c s dead Hx Hfree Htake|x b c s t dead Hx|x b Hx].
  - destruct (ao_casts x I _ _ Hx) as [[(Hp & Htx & Hm) Hrest]%Forall_cons Hd].
    pose proof (send_one_ok x payload r I Hp Htx Hm) as Hbox. rewrite Hs in Hbox.
    apply (cast_moves x); auto; [by apply Hcasts|by split].
  - destruct (ao_casts x I _ _ Hx) as [[(Hp & Htx & Hm) Hrest]%Forall_cons Hd].
    pose proof (send_one_ok x payload r I Hp Htx Hm) as Hg. rewrite Hs in Hg.
    apply (cast_moves x); auto; [|by split|apply I]. apply Hcasts. split; [done|]. apply Forall_app. split; [done|by apply Forall_singleton].
  - destruct (ao_casts x I _ _ Hx) as [[_ Hrest]%Forall_cons Hd]. apply (cast_moves x); auto; [by apply Hcasts|by split|apply I].
  - destruct (ao_casts x I _ _ Hx) as [_ Hd]. apply (cast_moves x); auto; [by apply Hcasts|by split|apply I].
  - pose proof (ao_casts x I _ _ Hx) as [Hg Hd]%Forall_cons.
    destruct (take_subscription_spec _ _ _ _ _ _ Hi Htake) as (Hh & Htop & Hoth & _).
    assert (Hst : tasks x !! c = Some Stopped).
    { destruct (decide (tasks x !! c = Some Stopped)) as [|Hn]; [done|]. by destruct (gone_listed x c _ I Hg Hn s Htake). }
    apply (cast_moves x _ h (inboxes x)); auto; [by apply Hcasts| |apply I].
    intros c' Hne. split; [apply Hoth; by intros ->|]. intros s' t'. unfold listed, subs_of. by rewrite Htop.
  - pose proof (ao_casts x I _ _ Hx) as [_ Hd]%Forall_cons. apply (cast_moves x); auto; [by apply Hcasts|by split|apply I].
  - destruct (ao_casts x I _ _ Hx) as [Hst Hd]. apply (cast_moves x _ (unlist_subscription c s t (index x)) (inboxes x)); auto;
      [by apply Hcasts|by apply index_unlist| |apply I].
    intros c' Hne. split; [done|]. intros s' t'. rewrite listed_unlist. split; [by intros [? _]|]. intros ?. split; [done|]. by intros [-> _].
  - apply (cast_moves x); auto; [|by split|apply I]. intros b' ct [_ Hct]%lookup_delete_Some. by apply (ao_casts x I b').
Qed.
Lemma audience_reachable x : rtc audience_step nobody x -> audience_ok x.
Proof.
  intros Hr. remember nobody as x0. assert (I0 : audience_ok x0).
  { subst x0. split; cbn; try done.
    - split; cbn; [constructor|done|constructor|by intros t r []%elem_of_nil].
    - intros c. rewrite lookup_empty. split; [done|]. intros s t. split; intros []%elem_of_nil.
    - intros r []%elem_of_nil. }
  clear Heqx0. induction Hr as [|x y z [Hs|[Hs|Hs]] Hr IH]; [done|..]; apply IH;
    [by eapply begins_ok|by eapply client_goes_on_ok|by eapply cast_goes_on_ok].
Qed.

(** ** Nobody waits for ever *)

Definition leaving (tk : task) : Prop := match tk with Leaving _ => True | _ => False end.
Definition busy (tk : task) : Prop := match tk with Resting _ | Ended | Stopped => False | _ => True end.
#[local] Instance leaving_dec tk : Decision (leaving tk).
Proof. destruct tk; apply _. Defined.
#[local] Instance busy_dec tk : Decision (busy tk).
Proof. destruct tk; apply _. Defined.
Abbreviation with_place P x := (filter (fun ct : positive * task => P ct.2) (tasks x)).
(** Everybody is at rest or gone. *)
Definition quiet (x : audience) : Prop := map_Forall (fun _ tk => ~ busy tk) (tasks x) /\ casts x = ∅.

Lemma size_zero (P : task -> Prop) `{!forall tk, Decision (P tk)} x :
  size (with_place P x) = 0%nat -> map_Forall (fun _ tk => ~ P tk) (tasks x).
Proof.
  intros Hz%map_size_empty_inv c tk Hc Hp. assert (Hf : with_place P x !! c = Some tk) by by apply map_lookup_filter_Some.
  by rewrite Hz, lookup_empty in Hf.
Qed.
Lemma size_some (P : task -> Prop) `{!forall tk, Decision (P tk)} x n :
  size (with_place P x) = S n -> exists c tk, tasks x !! c = Some tk /\ P tk /\
    forall tk', ~ P tk' -> size (filter (fun ct => P ct.2) (<[c := tk']> (tasks x))) = n.
Proof.
  intros Hs. destruct (map_choose (with_place P x)) as (c & tk & Hc); [intros Hz; by rewrite Hz, map_size_empty in Hs|].
  apply map_lookup_filter_Some in Hc as Hc'. destruct Hc' as [Hx Hp]. exists c, tk. split_and!; [done..|]. intros tk' Hn.
  rewrite map_filter_insert_False by done. rewrite map_filter_delete, map_size_delete_Some; [lia|]. exists tk. by apply map_lookup_filter_Some.
Qed.
Lemma unlocked_leaving x : unlocked x <-> map_Forall (fun _ tk => ~ leaving tk) (tasks x).
Proof. unfold unlocked. split; intros Hm c tk Hc; specialize (Hm c tk Hc); by destruct tk; cbn in *; auto. Qed.

Lemma finish_leaving n : forall x, size (with_place leaving x) = n ->
  exists y, rtc client_goes_on x y /\ unlocked y.
Proof.
  induction n as [|n IH]; intros x Hs; [exists x; split; [done|]; by apply unlocked_leaving, (size_zero leaving)|].
  destruct (size_some leaving _ _ Hs) as (c & tk & Hx & Hl & Hn). destruct tk; try done.
  destruct (IH (gone_at c Ended (with_index (unlist_all c l (index x)) x))) as (y & Hr & Hu); [apply (Hn Ended); auto|].
  exists y. split; [|done]. eapply rtc_l; [by apply ends|done].
Qed.
Lemma unlocked_insert x c tk : unlocked x -> ~ leaving tk -> map_Forall (fun _ tk => match tk with Leaving _ => False | _ => True end) (<[c := tk]> (tasks x)).
Proof. intros Hu Hn. apply map_Forall_insert_2; [|done]. by destruct tk; cbn in *; auto. Qed.
Lemma finish_busy n : forall x, unlocked x -> size (with_place busy x) = n ->
  exists y, rtc client_goes_on x y /\ unlocked y /\ map_Forall (fun _ tk => ~ busy tk) (tasks y).
Proof.
  induction n as [|n IH]; intros x Hu Hs; [exists x; split_and!; [done..|]; by apply (size_zero busy)|].
  destruct (size_some busy _ _ Hs) as (c & tk & Hx & Hl & Hn). pose proof (Hu c tk Hx) as Htk.
  assert (Hgo : forall ini h m, rtc client_goes_on x (Audience h (inboxes x) (<[c := Resting ini]> (tasks x)) (casts x) m (published x)) ->
    exists y, rtc client_goes_on x y /\ unlocked y /\ map_Forall (fun _ tk => ~ busy tk) (tasks y)).
  { intros ini h m Hr. destruct (IH (Audience h (inboxes x) (<[c := Resting ini]> (tasks x)) (casts x) m (published x))) as (y & Hy & ?);
      [apply unlocked_insert; auto|apply (Hn (Resting ini)); auto|]. exists y. split; [by etrans|done]. }
  destruct tk; try done.
  - eapply (Hgo true). eapply rtc_l; [by apply lists|]. apply rtc_once.
    pose proof (records (Audience (list_subscription (Registration c s t root c) (index x)) (inboxes x) (<[c := Adding s t]> (tasks x)) (casts x)
      (Registration c s t root c :: made x) (published x)) c s t (lookup_insert_eq _ _ _) (unlocked_insert x c (Adding s t) Hu (fun e => e))) as Hrec.
    unfold at_task, with_index in Hrec. cbn in Hrec. rewrite insert_insert_eq in Hrec. exact Hrec.
  - eapply (Hgo true _ (made x)). apply rtc_once. by apply records.
  - eapply (Hgo ini _ (made x)). apply rtc_once. by apply unlists.
Qed.
(** A broadcast ends by itself while nobody holds the connections. *)
Definition others (b : nat) (x y : audience) : Prop :=
  tasks y = tasks x /\ casts y = delete b (casts x).
Lemma others_step b ct x x1 y : cast_goes_on x x1 -> tasks x1 = tasks x -> casts x1 = <[b := ct]> (casts x) ->
  rtc cast_goes_on x1 y /\ others b x1 y -> rtc cast_goes_on x y /\ others b x y.
Proof.
  intros Hs Ht Hc [Hr [Ht' Hc']]. split; [by eapply rtc_l|]. split; [congruence|]. by rewrite Hc', Hc, delete_insert_eq.
Qed.
Lemma finish_cleaning b dead : forall x, unlocked x -> casts x !! b = Some (Cleaning dead) ->
  exists y, rtc cast_goes_on x y /\ others b x y.
Proof.
  induction dead as [|[c s] dead IH]; intros x Hu Hx.
  - eexists. split; [apply rtc_once; by apply returns|done].
  - destruct (take_subscription c s (index x)) as [[t h]|] eqn:Et.
    + set (x1 := at_cast b (Removing c s t dead) (with_index h x)).
      set (x2 := at_cast b (Cleaning dead) (with_index (unlist_subscription c s t (index x1)) x1)).
      destruct (IH x2) as (y & Hy); [done|by cbn; rewrite lookup_insert_eq|]. exists y.
      apply (others_step b (Removing c s t dead) x x1); [by apply (cleans x b c s)|done..|].
      apply (others_step b (Cleaning dead) x1 x2); [apply removes; by cbn; rewrite lookup_insert_eq|done..].
    + destruct (IH (at_cast b (Cleaning dead) x)) as (y & Hy); [done|by cbn; rewrite lookup_insert_eq|]. exists y.
      eapply (others_step b (Cleaning dead)); [by apply (skips x b c s)|done..].
Qed.
Lemma finish_sending b payload rest : forall x dead, unlocked x -> casts x !! b = Some (Sending payload rest dead) ->
  exists y, rtc cast_goes_on x y /\ others b x y.
Proof.
  induction rest as [|r rest IH]; intros x dead Hu Hx.
  - destruct (finish_cleaning b dead (at_cast b (Cleaning dead) x)) as (y & Hy); [done|by cbn; rewrite lookup_insert_eq|].
    exists y. eapply (others_step b (Cleaning dead)); [by eapply has_sent|done..].
  - destruct (send_one payload r (inboxes x)) as [chs|[|]] eqn:Es.
    + destruct (IH (at_cast b (Sending payload rest dead) (with_inboxes chs x)) dead) as (y & Hy); [done|by cbn; rewrite lookup_insert_eq|].
      exists y. eapply (others_step b (Sending payload rest dead)); [by eapply sends|done..].
    + destruct (IH (at_cast b (Sending payload rest (dead ++ [(conn_id r, sub_id r)])) x) (dead ++ [(conn_id r, sub_id r)])%list) as (y & Hy);
        [done|by cbn; rewrite lookup_insert_eq|].
      exists y. eapply (others_step b (Sending payload rest (dead ++ [(conn_id r, sub_id r)]))); [by eapply finds_closed|done..].
    + destruct (IH (at_cast b (Sending payload rest dead) x) dead) as (y & Hy); [done|by cbn; rewrite lookup_insert_eq|].
      exists y. eapply (others_step b (Sending payload rest dead)); [by eapply finds_full|done..].
Qed.
Lemma finish_casts n : forall x, unlocked x -> size (casts x) = n ->
  exists y, rtc cast_goes_on x y /\ tasks y = tasks x /\ casts y = ∅.
Proof.
  induction n as [|n IH]; intros x Hu Hs; [exists x; split_and!; [done..|]; by apply map_size_empty_inv|].
  destruct (map_choose (casts x)) as (b & ct & Hb); [intros Hz; by rewrite Hz, map_size_empty in Hs|].
  assert (Hone : exists y, rtc cast_goes_on x y /\ others b x y).
  { destruct ct as [payload rest dead|dead|c s t dead]; [by eapply finish_sending|by eapply finish_cleaning|].
    set (x1 := at_cast b (Cleaning dead) (with_index (unlist_subscription c s t (index x)) x)).
    destruct (finish_cleaning b dead x1) as (y & Hy); [done|by cbn; rewrite lookup_insert_eq|].
    exists y. apply (others_step b (Cleaning dead) x x1); [by apply removes|done..]. }
  destruct Hone as (y & Hr & Ht & Hc). destruct (IH y) as (z & Hz & Htz & Hcz).
  - unfold unlocked. by rewrite Ht.
  - rewrite Hc, map_size_delete_Some; [lia|by exists ct].
  - exists z. split_and!; [by etrans|congruence|done].
Qed.
Lemma finish x : exists y, rtc goes_on x y /\ quiet y.
Proof.
  destruct (finish_leaving _ x eq_refl) as (x1 & Hr1 & Hu1). destruct (finish_busy _ x1 Hu1 eq_refl) as (x2 & Hr2 & Hu2 & Hb2).
  destruct (finish_casts _ x2 Hu2 eq_refl) as (y & Hr3 & Ht & Hc). exists y. split; [|by split; [rewrite Ht|]].
  transitivity x1; [|transitivity x2]; eapply rtc_subrel; try eassumption; intros a b; [by left|by left|by right].
Qed.
Lemma settled_agrees x : audience_ok x -> quiet x -> map_Forall (fun _ tk => tk <> Stopped) (tasks x) -> hub_ok (index x).
Proof.
  intros I [Hq _] Hs. destruct (ao_index x I) as [Hu Hn Hk Ho]. split; [done..| |].
  - intros t r Hr. by apply Ho.
  - intros c s t. change ((c, s) ∈ map sub_key (subs_of (index x) t)) with (listed (index x) c s t). pose proof (ao_tasks x I c) as Ht.
    assert (Hnone : connections (index x) !! c = None /\ lists_exactly (index x) c [] -> (s, t) ∈ entries (index x) c <-> listed (index x) c s t).
    { intros [Hc Hl]. unfold entries. rewrite Hc. symmetry. apply Hl. }
    destruct (tasks x !! c) as [tk|] eqn:Ex; [|by apply Hnone]. specialize (Hq c tk Ex). specialize (Hs c tk Ex).
    destruct tk; cbn in *; try (by destruct Hq); [symmetry; apply Ht|by apply Hnone].
Qed.
Definition none_stopped (x : audience) : Prop := map_Forall (fun _ tk => tk <> Stopped) (tasks x).
Lemma goes_on_none_stopped x y : rtc goes_on x y -> none_stopped x -> none_stopped y.
Proof.
  unfold none_stopped. induction 1 as [|x y z Hs _ IH]; [done|]. intros Hx. apply IH. clear IH.
  destruct Hs as [Hs|Hs]; destruct Hs; cbn; try done; by apply map_Forall_insert_2.
Qed.

(** ** Properties *)

(** C13. Clients and broadcasts in any number, their steps in any order at the grain of
    the hub's locks, and any client's task stopped at any point. A client at its loop has
    exactly its subscriptions in both indexes; one that got through its clean-up has none
    left in either; and every message queued for a client is an event, published to the
    topic, of a subscription that client itself registered. *)
Theorem audience_agrees x : rtc audience_step nobody x ->
  (forall c ini, tasks x !! c = Some (Resting ini) -> NoDup (entries (index x) c).*1 /\
     forall s t, (s, t) ∈ entries (index x) c <-> listed (index x) c s t) /\
  (forall c, tasks x !! c = Some Ended -> connections (index x) !! c = None /\ forall t r, r ∈ subs_of (index x) t -> conn_id r <> c) /\
  (forall c ch m, inboxes x !! c = Some ch -> m ∈ queue ch -> owed (made x) (published x) c m).
Proof.
  intros I%audience_reachable. split_and!.
  - intros c ini Hx. pose proof (ao_tasks x I c) as Ht. rewrite Hx in Ht. split; [apply I|]. intros s t. symmetry. apply Ht.
  - intros c Hx. pose proof (ao_tasks x I c) as Ht. rewrite Hx in Ht. destruct Ht as [Hc Hl]. split; [done|].
    intros t r Hr <-. assert (Hin : listed (index x) (conn_id r) (sub_id r) t) by (apply key_elem; by exists r).
    by apply Hl, elem_of_nil in Hin.
  - intros c ch m Hch Hm. pose proof (ao_boxes x I c) as Hb. unfold box_ok in Hb. destruct (tasks x !! c); [|congruence].
    destruct Hb as (ch' & Hch' & _ & Hf). rewrite Hch in Hch'. injection Hch' as <-. rewrite Forall_forall in Hf. by apply Hf.
Qed.

(** C14. Nobody waits for ever: wherever everyone stands, what was begun can be finished
    by itself, whoever holds or waits for a lock; and when no task was stopped on its way,
    the two indexes then agree on everything. *)
Theorem audience_settles x : rtc audience_step nobody x ->
  exists y, rtc goes_on x y /\ quiet y /\ (none_stopped x -> hub_ok (index y)).
Proof.
  intros Hr. destruct (finish x) as (y & Hy & Hq). exists y. split_and!; [done..|]. intros Hs. apply settled_agrees; [|done|].
  - apply audience_reachable. etrans; [exact Hr|]. eapply rtc_subrel; [|exact Hy]. intros a b ?. by right.
  - by eapply goes_on_none_stopped.
Qed.

(** A task stopped between the halves of a registration: the topic holds a subscription
    its connection does not know. *)
Definition leftover (c : positive) (s t : string) (x : audience) : Prop :=
  tasks x !! c = Some Stopped /\ listed (index x) c s t /\ ~ (s ∈ (entries (index x) c).*1) /\
  forall b dead, casts x !! b <> Some (Removing c s t dead).
Lemma entries_topics h m c : entries (Hub m (connections h)) c = entries h c.
Proof. done. Qed.
Lemma take_other c s t h h' c' s' : take_subscription c s h = Some (t, h') -> ~ (s' ∈ (entries h c').*1) ->
  topics h' = topics h /\ ~ (s' ∈ (entries h' c').*1) /\ (c, s) <> (c', s').
Proof.
  unfold take_subscription, entries. destruct (connections h !! c) as [l|] eqn:El; cbn; [|done].
  destruct (take_entry s l) as [[t' l']|] eqn:Et; [|done]. intros [= <- <-] Hn. split; [done|]. cbn.
  assert (Hsub : s ∈ l.*1 /\ forall e, e ∈ l' -> e ∈ l).
  { clear -Et. revert t' l' Et. induction l as [|[s0 t0] l IH]; cbn; [done|]. destruct (String.eqb_spec s0 s) as [->|].
    - intros t' l' [= <- <-]. split; [by left|by right].
    - intros t' l'. destruct (take_entry s l) as [[t1 l1]|]; [|done]. intros [= <- <-]. destruct (IH _ _ eq_refl) as [Hin Hsub].
      split; [by right|]. intros e [->|?]%elem_of_cons; [by left|right; auto]. }
  destruct Hsub as [Hin Hsub]. destruct (decide (c' = c)) as [->|Hne].
  - rewrite lookup_insert_eq, El in *. cbn in *. split; [|intros [= ->]; done].
    intros (e & -> & He)%list_elem_of_fmap. apply Hn, list_elem_of_fmap. exists e. auto.
  - rewrite lookup_insert_ne by done. split; [done|]. by intros [= <- _].
Qed.
(** A step leaves it when the topics and the entries do, and no removal of it begins. *)
Lemma leftover_kept c s t x y : leftover c s t x -> tasks y !! c = Some Stopped ->
  (listed (index x) c s t -> listed (index y) c s t) ->
  (~ (s ∈ (entries (index x) c).*1) -> ~ (s ∈ (entries (index y) c).*1)) ->
  (forall b dead, casts y !! b = Some (Removing c s t dead) -> exists b' dead', casts x !! b' = Some (Removing c s t dead')) ->
  leftover c s t y.
Proof.
  intros (Hx & Hl & Hn & Hc) Ht Hl' Hn' Hc'. split_and!; [done|by apply Hl'|by apply Hn'|].
  intros b dead Hb. destruct (Hc' b dead Hb) as (b' & dead' & Hb'). by apply (Hc b' dead').
Qed.
(** Another client's step. *)
Lemma leftover_client c s t x c' tk h chs regs pubs : leftover c s t x -> c' <> c ->
  (listed (index x) c s t -> listed h c s t) -> connections h !! c = connections (index x) !! c ->
  leftover c s t (Audience h chs (<[c' := tk]> (tasks x)) (casts x) regs pubs).
Proof.
  intros Hx Hne Hl Hc. apply (leftover_kept _ _ _ _ _ Hx); cbn; eauto; [rewrite lookup_insert_ne by done; apply Hx|].
  unfold entries. by rewrite Hc.
Qed.
Lemma leftover_cast c s t x b ct h chs regs pubs : leftover c s t x ->
  (listed (index x) c s t -> listed h c s t) -> (~ (s ∈ (entries (index x) c).*1) -> ~ (s ∈ (entries h c).*1)) ->
  (forall dead, ct <> Removing c s t dead) ->
  leftover c s t (Audience h chs (tasks x) (<[b := ct]> (casts x)) regs pubs).
Proof.
  intros Hx Hl Hn Hct. apply (leftover_kept _ _ _ _ _ Hx); cbn; [apply Hx|done..|]. intros b' dead. destruct (decide (b' = b)) as [->|].
  - rewrite lookup_insert_eq. intros [= ->]. by destruct (Hct dead).
  - rewrite lookup_insert_ne by done. eauto.
Qed.
Lemma take_elsewhere c s t h h' c' : c <> c' -> take_subscription c s h = Some (t, h') ->
  topics h' = topics h /\ connections h' !! c' = connections h !! c'.
Proof.
  intros Hne. unfold take_subscription. destruct (connections h !! c ≫= take_entry s) as [[t' l]|]; [|done]. intros [= <- <-].
  split; [done|]. by apply lookup_insert_ne.
Qed.
Lemma leftover_step c s t x y : leftover c s t x -> audience_step x y -> leftover c s t y.
Proof.
  intros Hx. pose proof Hx as (Hst & Hl & Hn & Hc).
  intros [Hs|[Hs|Hs]]; destruct Hs; unfold at_task, gone_at, at_cast, with_index, with_inboxes; cbn.
  all: try (assert (c0 <> c) by (intros ->; try (rewrite Hst in *; simplify_eq; done); congruence)).
  all: try (apply leftover_client; [done|done|by auto|by auto]).
  all: try (apply leftover_cast; [done|by auto|by auto|by intros]).
  - apply (leftover_kept _ _ _ _ _ Hx); cbn; eauto.
  - match goal with Ht : take_subscription _ _ _ = _ |- _ => destruct (take_elsewhere _ _ _ _ _ c ltac:(done) Ht) as [Htop Hcon] end.
    apply leftover_client; [done|done| |done]. unfold listed, subs_of. by rewrite Htop.
  - match goal with Ht : take_connection _ _ = _ |- _ => revert Ht end. unfold take_connection.
    destruct (connections (index x) !! c0); [|done]. intros [= -> <-]. apply leftover_client; [done|done|done|]. cbn. by rewrite lookup_delete_ne.
  - apply leftover_client; [done|done| |done]. rewrite listed_list. by left.
  - apply leftover_client; [done|done|done|]. cbn. by rewrite lookup_insert_ne.
  - apply leftover_client; [done|done| |done]. rewrite listed_unlist. intros ?. split; [done|]. by intros [-> _].
  - apply leftover_client; [done|done| |done]. rewrite listed_unlist_all. intros ?. split; [done|]. by intros [-> _].
  - match goal with Ht : take_subscription _ _ _ = _ |- _ => destruct (take_other _ _ _ _ _ c s Ht Hn) as (Htop & Hn' & Hne) end.
    apply leftover_cast; [done| |done|by intros ? [= -> -> _]]. unfold listed, subs_of. by rewrite Htop.
  - apply leftover_cast; [done| |done|done]. rewrite listed_unlist. intros ?. split; [done|]. intros (<- & <- & <-). by eapply Hc.
  - apply (leftover_kept _ _ _ _ _ Hx); cbn; eauto. intros b' dead [_ Hb]%lookup_delete_Some. eauto.
Qed.

(** A client stopped between the halves of its registration, as the handler stops
    it when the other side hangs up, leaves its subscription in the topic for ever: the
    connection does not know it, so no broadcast that finds the client gone and no later
    step of anyone removes it. *)
Theorem stopped_registration_stays c s t x y : rtc audience_step nobody x -> tasks x !! c = Some (Adding s t) ->
  rtc audience_step (gone_at c Stopped x) y ->
  listed (index y) c s t /\ ~ (s ∈ (entries (index y) c).*1).
Proof.
  intros I%audience_reachable Hx Hr. assert (Hl : leftover c s t (gone_at c Stopped x)).
  { pose proof (ao_tasks x I c) as Ht. rewrite Hx in Ht. destruct Ht as [Hn Hl]. split_and!; cbn.
    - by rewrite lookup_insert_eq.
    - apply Hl. by left.
    - done.
    - intros b dead Hb. pose proof (ao_casts x I b _ Hb) as [Hs _]. congruence. }
  assert (Hy : leftover c s t y); [|by destruct Hy as (_ & ? & ? & _)].
  induction Hr as [|x1 x2 x3 Hs _ IH]; [done|]. apply IH. by eapply leftover_step.
Qed.
End Audience.

(** ** A client of one topic *)

Section Witnesses.
#[local] Existing Instances ascii_tables bits_json_text order_query.
Definition init_text : string := json_to_string (JObject [("type", JString "connection_init")]).
Definition sub_json : json := JObject
  [("id", JString "1"); ("payload", JObject [("query", JString "subscription"); ("variables", JObject [("o", JString "42")])]);
   ("type", JString "subscribe")].
Definition orders : string := "spectra.events.orderupdates.42".
Definition sub_reg : SubscriptionRegistration := Registration 1 "1" orders "orderUpdates" 1.
Definition sub_payload : SubscribePayload := SubPayload "subscription" (Some (JObject [("o", JString "42")])) None None.
(** Registered up to the first half. *)
Definition half_registered : audience := Audience (list_subscription sub_reg hub_new) {[1%positive := Chan [] 4 true]}
  {[1%positive := Adding "1" orders]} ∅ [sub_reg] [].
Lemma half_reached : rtc (audience_step "spectra") nobody half_registered.
Proof.
  eapply rtc_l; [left; by apply (connects _ nobody 1 4)|].
  eapply rtc_l; [left; eapply (hears _ _ 1 false (Incoming (Some (WsData (Some init_text))))); [reflexivity|vm_compute; reflexivity|reflexivity]|].
  eapply rtc_l; [left; eapply (subscribes _ _ 1 (json_to_string sub_json) sub_json "1" sub_payload orders "orderUpdates");
    [reflexivity|by apply (bool_decide_unpack _)|vm_compute; reflexivity|vm_compute; reflexivity|reflexivity|vm_compute; reflexivity]|].
  eapply rtc_l; [right; left; by apply (lists _ 1 "1" orders "orderUpdates")|].
  apply rtc_refl.
Qed.
(** Registered, and sent an event. *)
Definition sent_one : audience := Audience (record_subscription 1 "1" orders (index half_registered))
  {[1%positive := Chan [event_message JNull sub_reg] 4 true]} {[1%positive := Resting true]}
  {[0%nat := Sending JNull [] []]} [sub_reg] [(orders, JNull)].
Lemma sent_reached : rtc (audience_step "spectra") nobody sent_one.
Proof.
  etransitivity; [apply half_reached|].
  eapply rtc_l; [right; left; apply (records half_registered 1 "1" orders); [reflexivity|by apply (bool_decide_unpack _)]|].
  eapply rtc_l; [left; by apply (publishes _ _ 0%nat orders JNull [sub_reg])|].
  eapply rtc_l; [right; right; by eapply (sends _ 0%nat JNull sub_reg [] [])|].
  apply rtc_refl.
Qed.
Lemma audience_agrees_witness : ("1", orders) ∈ entries (index sent_one) 1 /\
  owed [sub_reg] [(orders, JNull)] 1 (event_message JNull sub_reg).
Proof.
  destruct (audience_agrees "spectra" sent_one sent_reached) as (Hrest & _ & Howed). split.
  - apply (Hrest 1%positive true eq_refl). vm_compute. left.
  - apply (Howed 1%positive _ (event_message JNull sub_reg) eq_refl). left.
Defined.
Lemma audience_settles_witness : exists y, rtc goes_on half_registered y /\ quiet y /\ hub_ok (index y).
Proof.
  destruct (audience_settles "spectra" half_registered half_reached) as (y & Hr & Hq & Hok). exists y. split_and!; [done..|].
  apply Hok. intros c tk Hc. cbn in Hc. apply lookup_singleton_Some in Hc as [_ <-]. done.
Defined.
(** Stopped there; a broadcast finds it gone and cleans up in vain. *)
Definition cleaned_in_vain : audience := Audience (index half_registered) {[1%positive := Chan [] 4 false]}
  {[1%positive := Stopped]} ∅ [sub_reg] [(orders, JNull)].
Lemma stopped_registration_stays_witness : listed (index cleaned_in_vain) 1 "1" orders.
Proof.
  apply (stopped_registration_stays "spectra" 1 "1" orders half_registered cleaned_in_vain half_reached eq_refl).
  eapply rtc_l; [left; by apply (publishes _ _ 0%nat orders JNull [sub_reg])|].
  eapply rtc_l; [right; right; by apply (finds_closed _ 0%nat JNull sub_reg [] [])|].
  eapply rtc_l; [right; right; by apply (has_sent _ 0%nat JNull)|].
  eapply rtc_l; [right; right; apply (skips _ 0%nat 1 "1" []); [reflexivity|by apply (bool_decide_unpack _)|reflexivity]|].
  eapply rtc_l; [right; right; by apply (returns _ 0%nat)|].
  apply rtc_refl.
Defined.
End Witnesses.
