(* ===== verification/WebSocket.v ===== *)
(** * WebSocket: the upgrade and the pump of [src/subscriptions/handler.rs].

    The answer to an upgrade request, and the loop that carries bytes between the client
    and the connection's actor until one of them ends; the actor is then aborted, and the
    rest of its work is [Engine]'s. *)

From S2P Require Import Prelude Externals.
Local Open Scope string_scope.

Section WebSocket.
Context `{HttpLib, Unicode}.
(** RFC 6455's accept key of a key, which the WebSocket library derives. *)
Context (derive_accept_key : string -> string).

(** What is written to the client: a response's head, a piece of its body. *)
Inductive written := Head (code : Z) (fields : HeaderMap) | Body (b : string) (end_of_stream : bool).

Definition put (n v : string) (h : HeaderMap) : HeaderMap :=
  match hv_from_str v with Some v => hm_insert n v h | None => h end.
(** The subprotocol answered for the ones requested. @subscriptions/handler.rs:51-56 WebSocketHandler::handle *)
Definition chosen_subprotocol (requested : string) : option string :=
  if str_contains "graphql-transport-ws" requested then Some "graphql-transport-ws"
  else trim <$> head (split_on "," requested).
(** The head of the answer that upgrades. @subscriptions/handler.rs:37-56 WebSocketHandler::handle *)
Definition upgrade_head (sec_key : string) (requested : option string) : HeaderMap :=
  let h := put "sec-websocket-accept" (derive_accept_key sec_key)
             (put "upgrade" "websocket" (put "connection" "Upgrade" hm_new)) in
  match requested ≫= chosen_subprotocol with
  | Some p => put "sec-websocket-protocol" p h
  | None => h
  end.
(** The answer, and whether the connection is upgraded. @subscriptions/handler.rs:20-58 WebSocketHandler::handle *)
Definition handshake (request : HeaderMap) : list written * bool :=
  let sec_key := default "" (header_str "sec-websocket-key" request) in
  if String.eqb sec_key "" then ([Head 400 hm_new; Body "Missing Sec-WebSocket-Key" true], false)
  else ([Head 101 (upgrade_head sec_key (header_str "sec-websocket-protocol" request))], true).

(** ** The pump *)

(** What the loop waits for: bytes, the end or an error from the client, and whether the
    actor's side takes them; bytes, the end or an error from the actor, and whether the
    client takes them; the actor's task ending. *)
Inductive pump_event :=
| FromClient (r : result string (option string)) (taken : bool)
| FromActor (r : result string string) (taken : bool)
| ActorEnds.
(** Where bytes go. *)
Inductive relayed := ToActor (b : string) | ToClient (b : string).

(** One turn: what is relayed, and whether the loop goes on. @subscriptions/handler.rs:83-125 WebSocketHandler::handle *)
Definition pump_turn (e : pump_event) : list relayed * bool :=
  match e with
  | FromClient (Ok (Some b)) taken => if String.eqb b "" then ([], false) else if taken then ([ToActor b], true) else ([], false)
  | FromClient (Ok None) _ | FromClient (Err _) _ => ([], false)
  | FromActor (Ok b) taken => if String.eqb b "" then ([], false) else if taken then ([ToClient b], true) else ([], false)
  | FromActor (Err _) _ => ([], false)
  | ActorEnds => ([], false)
  end.
(** The loop over what happens, and what it left unread. @subscriptions/handler.rs:81-127 WebSocketHandler::handle *)
Fixpoint pump (l : list pump_event) : list relayed * list pump_event :=
  match l with
  | [] => ([], [])
  | e :: l => match pump_turn e with
              | (out, true) => let '(outs, rest) := pump l in ((out ++ outs)%list, rest)
              | (out, false) => (out, l)
              end
  end.
(** The whole handler: what reaches the client and what reaches the actor. The future's
    answer is [Ok(true)] once the head is written. @subscriptions/handler.rs:{fn handle} WebSocketHandler::handle *)
Definition handle (request : HeaderMap) (takes_head : bool) (l : list pump_event) :
    result string bool * list written * list relayed :=
  let '(answer, upgraded) := handshake request in
  if negb takes_head then (Err "write error", [], [])
  else if upgraded then (Ok true, answer, fst (pump l)) else (Ok true, answer, []).

(** ** Lemmas *)

Definition to_actor (l : list relayed) : list string := omap (fun r => match r with ToActor b => Some b | _ => None end) l.
Definition to_client (l : list relayed) : list string := omap (fun r => match r with ToClient b => Some b | _ => None end) l.
(** An event the loop goes on after: bytes, taken. *)
Definition carries (e : pump_event) : option relayed :=
  match e with
  | FromClient (Ok (Some b)) true => if String.eqb b "" then None else Some (ToActor b)
  | FromActor (Ok b) true => if String.eqb b "" then None else Some (ToClient b)
  | _ => None
  end.
Lemma pump_turn_carries e : pump_turn e = match carries e with Some r => ([r], true) | None => ([], false) end.
Proof. destruct e as [[[b|]|] [|]|[b|] [|]|]; cbn; try done; by destruct (String.eqb b ""). Qed.

Lemma pump_carried l :
  let '(outs, unread) := pump l in
  exists carried, Forall2 (fun e r => carries e = Some r) carried outs /\
    ((l = carried /\ unread = []) \/ exists e, l = (carried ++ e :: unread)%list /\ carries e = None).
Proof.
  induction l as [|e l IH]; cbn [pump]; [exists []; by auto|]. rewrite pump_turn_carries.
  destruct (carries e) as [r|] eqn:Ee; [|exists []; split; [constructor|right; by exists e]].
  destruct (pump l) as [outs unread]. destruct IH as (carried & Hc & Hl). exists (e :: carried).
  split; [by constructor|]. destruct Hl as [[-> ->]|(e' & -> & He')]; [by left|right; by exists e'].
Qed.

(** ** Properties *)

(** The handler answers an upgrade only to a request whose key reads as text, and no byte
    crosses before that answer. Then every piece of the client's bytes reaches the actor
    and every piece of the actor's the client, in their order and unchanged, until the
    first end, error, empty piece or refused write of either side; nothing after it
    crosses. *)
Theorem handler_relays request takes_head l :
  let '(answer, out, crossed) := handle request takes_head l in
  let key := default "" (header_str "sec-websocket-key" request) in
  (crossed <> [] -> takes_head = true /\ key <> "" /\
     out = [Head 101 (upgrade_head key (header_str "sec-websocket-protocol" request))]) /\
  (takes_head = true -> key = "" -> out = [Head 400 hm_new; Body "Missing Sec-WebSocket-Key" true]) /\
  (takes_head = true -> key <> "" -> exists carried after, l = (carried ++ after)%list /\
     Forall2 (fun e r => carries e = Some r) carried crossed /\
     match after with [] => True | e :: _ => carries e = None end).
Proof.
  destruct (handle request takes_head l) as [[answer out] crossed] eqn:Eh. revert Eh. unfold handle, handshake. cbv zeta.
  destruct (String.eqb_spec (default "" (header_str "sec-websocket-key" request)) "") as [->|Hk];
    destruct takes_head; cbn [negb]; intros [= <- <- <-]; split_and!; try done.
  intros _ _. pose proof (pump_carried l) as Hp. destruct (pump l) as [outs unread].
  destruct Hp as (carried & Hc & [[-> ->]|(e & -> & He)]).
  - exists carried, []. by rewrite app_nil_r.
  - by exists carried, (e :: unread).
Qed.
End WebSocket.

Section Examples.
#[local] Existing Instances list_http ascii_tables.
(** The check for the subprotocol is one for a substring, and a subprotocol that is not
    the gateway's is answered as if it were spoken. *)
Example odd_subprotocols :
  chosen_subprotocol "graphql-ws, graphql-transport-ws" = Some "graphql-transport-ws" /\
  chosen_subprotocol "x-graphql-transport-ws-v2" = Some "graphql-transport-ws" /\
  chosen_subprotocol "mqtt, graphql-ws" = Some "mqtt".
Proof. vm_compute. done. Qed.
Example relayed_until_the_end :
  handle (fun k => k) [("Sec-WebSocket-Key", "k")] true
    [FromClient (Ok (Some "init")) true; FromActor (Ok "ack") true; FromClient (Ok None) true; FromActor (Ok "late") true] =
  (Ok true, [Head 101 (upgrade_head (fun k => k) "k" None)], [ToActor "init"; ToClient "ack"]).
Proof. reflexivity. Qed.
End Examples.
