(* ===== verification/Access.v ===== *)
(** * Access: who may use the administrative interface, [src/admin/mod.rs].

    IP addresses and their text form as the standard library reads it, the allowlist
    with its CIDR ranges, the client's address, and the token for write operations. *)

From S2P Require Import Prelude Externals Interceptors.
Local Open Scope string_scope.

(** ** IP addresses *)

(** [IpAddr]: an IPv4 address is 32 bits, an IPv6 address 128. *)
Inductive IpAddr := V4 (n : Z) | V6 (n : Z).
#[export] Instance IpAddr_eq_dec : EqDecision IpAddr.
Proof. solve_decision. Defined.

(** The standard library's reader: what is read and the rest, or nothing. *)
Definition reader (A : Type) : Type := string -> option (A * string).
Definition digit_of (radix : Z) (a : ascii) : option Z :=
  let n := Z.of_N (N_of_ascii a) in
  let d := if ((48 <=? n) && (n <=? 57))%Z then Some (n - 48)%Z
           else if ((97 <=? n) && (n <=? 122))%Z then Some (n - 87)%Z
           else if ((65 <=? n) && (n <=? 90))%Z then Some (n - 55)%Z
           else None in
  match d with Some d => if (d <? radix)%Z then Some d else None | None => None end.
(** The digits at the front, their value and their number. *)
Fixpoint read_digits (radix : Z) (s : string) (acc : Z) (count : nat) : Z * nat * string :=
  match s with
  | String a s' => match digit_of radix a with
                   | Some d => read_digits radix s' (acc * radix + d)%Z (S count)
                   | None => (acc, count, s)
                   end
  | EmptyString => (acc, count, s)
  end.
(** [read_number]: one to [max_digits] digits, the value below [bound]; a leading zero
    only alone unless [zero_prefix]. *)
Definition read_number (radix : Z) (max_digits : nat) (bound : Z) (zero_prefix : bool) : reader Z := fun s =>
  let '(v, count, rest) := read_digits radix s 0 0 in
  let leading_zero := match s with String a _ => Ascii.eqb a "0" | EmptyString => false end in
  if (count =? 0)%nat || (max_digits <? count)%nat || (bound <=? v)%Z then None
  else if negb zero_prefix && leading_zero && (1 <? count)%nat then None
  else Some (v, rest).
Definition read_given_char (c : ascii) : reader unit := fun s =>
  match s with String a s' => if Ascii.eqb a c then Some (tt, s') else None | EmptyString => None end.
(** [read_separator]: the separator first, but for the first item. *)
Definition read_separator {A} (sep : ascii) (index : nat) (inner : reader A) : reader A := fun s =>
  match index with
  | O => inner s
  | S _ => match read_given_char sep s with Some (_, s') => inner s' | None => None end
  end.
Definition read_ipv4_addr : reader Z := fun s =>
  let octet i := read_separator "." i (read_number 10 3 256 false) in
  match octet 0%nat s with None => None | Some (a, s) =>
  match octet 1%nat s with None => None | Some (b, s) =>
  match octet 2%nat s with None => None | Some (c, s) =>
  match octet 3%nat s with None => None | Some (d, s) =>
    Some (((a * 256 + b) * 256 + c) * 256 + d, s)%Z
  end end end end.
(** [read_groups]: up to [limit] groups of 16 bits, the last two perhaps as an IPv4
    address, which ends them. *)
Fixpoint read_groups (i : nat) (slots : nat) (s : string) : list Z * bool * string :=
  match slots with
  | O => ([], false, s)
  | S slots' =>
      match (match slots' with
             | O => None
             | S _ => read_separator ":" i read_ipv4_addr s
             end) with
      | Some (v4, s') => ([Z.shiftr v4 16; Z.land v4 65535], true, s')
      | None =>
          match read_separator ":" i (read_number 16 4 65536 true) s with
          | Some (g, s') => let '(l, v4, s'') := read_groups (S i) slots' s' in (g :: l, v4, s'')
          | None => ([], false, s)
          end
      end
  end.
Definition groups_value (l : list Z) : Z := fold_left (fun acc g => acc * 65536 + g)%Z l 0%Z.
Definition read_ipv6_addr : reader Z := fun s =>
  let '(head, head_ipv4, s) := read_groups 0 8 s in
  if (length head =? 8)%nat then Some (groups_value head, s)
  else if head_ipv4 then None
  else
    match read_given_char ":" s with None => None | Some (_, s) =>
    match read_given_char ":" s with None => None | Some (_, s) =>
      let '(tail, _, s) := read_groups 0 (7 - length head) s in
      Some (groups_value (head ++ repeat 0%Z (8 - length head - length tail) ++ tail), s)
    end end.
(** [s.parse::<IpAddr>()]. *)
Definition parse_ip (s : string) : option IpAddr :=
  match read_ipv4_addr s with
  | Some (n, EmptyString) => Some (V4 n)
  | Some _ => None
  | None => match read_ipv6_addr s with
            | Some (n, EmptyString) => Some (V6 n)
            | _ => None
            end
  end.
Example parse_ip_examples :
  map parse_ip ["127.0.0.1"; "::1"; "10.1"; "1.2.3.04"; "2001:db8::ff00:42:8329"; "::ffff:1.2.3.4"; "1:2:3:4:5:6:7:8"; ""; "fe80::1%eth0"; "1.2.3.4 "] =
  [Some (V4 2130706433); Some (V6 1); None; None; Some (V6 42540766411282592856904265327123268393);
   Some (V6 281470698652420); Some (V6 5192455318486707404433266433261576); None; None; None].
Proof. vm_compute. reflexivity. Qed.

(** [Display] of an address: four decimal octets; eight groups in hexadecimal, the
    first longest run of two or more zero groups left out, and an IPv4-mapped address
    in its mixed form. *)
Definition v4_to_string (n : Z) : string :=
  str_join "." (map (fun i => dec (Z.land (Z.shiftr n i) 255)) [24; 16; 8; 0]%Z).
Fixpoint hex_go (fuel : nat) (n : Z) (acc : string) : string :=
  match fuel with
  | O => acc
  | S fuel =>
      let acc := String (hex_digit (Z.to_N (n mod 16))) acc in
      if (n / 16 =? 0)%Z then acc else hex_go fuel (n / 16) acc
  end.
Definition groups_of (n : Z) : list Z :=
  map (fun i => Z.land (Z.shiftr n i) 65535) [112; 96; 80; 64; 48; 32; 16; 0]%Z.
(** The start and length of the longest run of zero groups, given the longest so far
    and the one that ends here. *)
Fixpoint zero_run (i : nat) (l : list Z) (longest current : nat * nat) : nat * nat :=
  match l with
  | [] => longest
  | 0%Z :: l' =>
      let current := if (snd current =? 0)%nat then (i, 1%nat) else (fst current, S (snd current)) in
      zero_run (S i) l' (if (snd longest <? snd current)%nat then current else longest) current
  | _ :: l' => zero_run (S i) l' longest (0%nat, 0%nat)
  end.
Definition v6_to_string (n : Z) : string :=
  let gs := groups_of n in
  let text l := str_join ":" (map (fun g => hex_go 4 g "") l) in
  if (Z.shiftr n 32 =? 65535)%Z then String.append "::ffff:" (v4_to_string (Z.land n Int.u32_max))
  else
    let '(start, len) := zero_run 0 gs (0%nat, 0%nat) (0%nat, 0%nat) in
    if (1 <? len)%nat then str_concat [text (take start gs); "::"; text (drop (start + len) gs)]
    else text gs.
Definition ip_to_string (ip : IpAddr) : string :=
  match ip with V4 n => v4_to_string n | V6 n => v6_to_string n end.
Example ip_to_string_examples :
  map ip_to_string [V4 2130706433; V6 1; V6 0; V6 42540766411282592856904265327123268393; V6 281470698652420;
    V6 5192455318486707404433266433261576] =
  ["127.0.0.1"; "::1"; "::"; "2001:db8::ff00:42:8329"; "::ffff:1.2.3.4"; "1:2:3:4:5:6:7:8"].
Proof. vm_compute. reflexivity. Qed.

(** [s.parse::<u32>()]: an optional plus sign and digits, below [2 ^ 32]. *)
Definition parse_u32 (s : string) : option Z :=
  let s := match s with String a s' => if Ascii.eqb a "+" then s' else s | EmptyString => s end in
  match read_digits 10 s 0 0 with
  | (v, S _, EmptyString) => if (v <=? Int.u32_max)%Z then Some v else None
  | _ => None
  end.

(** ** The allowlist *)

(** The mask of a prefix, computed as the code does at [w] bits. *)
Definition prefix_mask (w prefix_len : Z) : Z :=
  Z.land (Z.lnot (Z.shiftl 1 (w - prefix_len) - 1)) (2 ^ w - 1).
(** One entry of the list. @admin/mod.rs:40-84 is_ip_allowed *)
Definition entry_allows (client : IpAddr) (raw : string) : bool :=
  let entry := trim raw in
  if String.eqb entry "" then false
  else match split_once "/" entry with
  | Some (net_str, prefix_str) =>
      match parse_u32 prefix_str with
      | None => false
      | Some prefix_len =>
          let matches w c n :=
            if (w <? prefix_len)%Z then false
            else if (prefix_len =? 0)%Z then true
            else (Z.land c (prefix_mask w prefix_len) =? Z.land n (prefix_mask w prefix_len))%Z in
          match client, parse_ip net_str with
          | V4 c, Some (V4 n) => matches 32%Z c n
          | V6 c, Some (V6 n) => matches 128%Z c n
          | _, _ => false
          end
      end
  | None => match parse_ip entry with Some ip => bool_decide (client = ip) | None => false end
  end.
(** @admin/mod.rs:{fn is_ip_allowed} is_ip_allowed *)
Definition is_ip_allowed (client : IpAddr) (allowlist : list string) : bool :=
  existsb (entry_allows client) allowlist.

Section Requests.
Context `{HttpLib}.

(** [socket] is the peer's address where the connection has one.
    @admin/mod.rs:{fn extract_client_ip} extract_client_ip *)
Definition extract_client_ip (h : HeaderMap) (socket : option IpAddr) : IpAddr :=
  let header_ip n f :=
    match header_str n h with Some v => parse_ip (trim (f v)) | None => None end in
  match header_ip "x-forwarded-for" (fun v => hd "" (split_on "," v)) with
  | Some ip => ip
  | None =>
      match header_ip "x-real-ip" (fun v => v) with
      | Some ip => ip
      | None => match socket with Some ip => ip | None => V4 2130706433 end
      end
  end.
(** The gate of every administrative request. @admin/mod.rs:222-225 AdminEngine::handle_request *)
Definition admin_admits (h : HeaderMap) (socket : option IpAddr) (allowed_ips : list string) : bool :=
  is_ip_allowed (extract_client_ip h socket) allowed_ips.

Definition first_some {A} (l : list (option A)) : option A :=
  List.fold_right (fun o acc => match o with Some _ => o | None => acc end) None l.
(** The token a write needs. @admin/mod.rs:683-686 AdminEngine::is_write_authorized *)
Definition expected_token (env : string -> option string) (deploy_token : option string) : option string :=
  first_some [env "SPECTRA_ADMIN_TOKEN"; env "SPECTRA_DEPLOY_TOKEN"; env "SPECTRAGQL_DEPLOY_TOKEN"; deploy_token].
(** The token a request carries. @admin/mod.rs:697-720 AdminEngine::is_write_authorized *)
Definition provided_token (h : HeaderMap) : option string :=
  let bearer :=
    match header_str "authorization" h with
    | Some v => first_some [strip_prefix "Bearer " v; strip_prefix "bearer " v]
    | None => None
    end in
  first_some [bearer; header_str "x-spectra-admin-token" h; header_str "x-spectra-deploy-token" h;
              header_str "x-spectra-deploy-key" h].
(** @admin/mod.rs:{fn is_write_authorized} AdminEngine::is_write_authorized *)
Definition is_write_authorized (env : string -> option string) (deploy_token : option string) (h : HeaderMap) : bool :=
  match expected_token env deploy_token with
  | Some expected =>
      if String.eqb (trim expected) "" then true
      else match provided_token h with
           | Some provided => constant_time_eq (as_bytes (trim provided)) (as_bytes (trim expected))
           | None => false
           end
  | None => true
  end.
End Requests.

(** ** Lemmas *)

Definition ip_ok (ip : IpAddr) : Prop :=
  match ip with V4 n => (0 <= n < 2 ^ 32)%Z | V6 n => (0 <= n < 2 ^ 128)%Z end.

Lemma read_digits_nonneg radix s : forall acc count v n rest,
  (0 <= radix)%Z -> (0 <= acc)%Z -> read_digits radix s acc count = (v, n, rest) -> (0 <= v)%Z.
Proof.
  induction s as [|a s IH]; intros acc count v n rest Hr Hacc; cbn; [congruence|].
  destruct (digit_of radix a) as [d|] eqn:E; [|congruence]. intros Hread.
  apply IH in Hread; [done|done|]. assert (0 <= d)%Z; [|nia]. clear Hread IH.
  unfold digit_of in E. cbv zeta in E. repeat case_match; simplify_eq; to_prop; lia.
Qed.

Lemma read_number_range radix m bound z s v rest : (0 <= radix)%Z ->
  read_number radix m bound z s = Some (v, rest) -> (0 <= v < bound)%Z.
Proof.
  unfold read_number. destruct (read_digits radix s 0 0) as [[v' count] rest'] eqn:E. intros Hr.
  apply read_digits_nonneg in E; [|lia..]. repeat case_match; try done; intros [= <- <-]; to_prop; lia.
Qed.

Lemma read_separator_range {A} (P : A -> Prop) sep i (inner : reader A) s v rest :
  (forall s v rest, inner s = Some (v, rest) -> P v) ->
  read_separator sep i inner s = Some (v, rest) -> P v.
Proof.
  unfold read_separator. intros HP. destruct i; [apply HP|].
  destruct (read_given_char sep s) as [[_ s']|]; [apply HP|done].
Qed.

Lemma read_ipv4_range s v rest : read_ipv4_addr s = Some (v, rest) -> (0 <= v < 2 ^ 32)%Z.
Proof.
  unfold read_ipv4_addr.
  assert (Ho : forall i s v rest, read_separator "." i (read_number 10 3 256 false) s = Some (v, rest) -> (0 <= v < 256)%Z).
  { intros i s' v' rest' Hv. eapply (read_separator_range (fun v => 0 <= v < 256)%Z); [|done].
    intros ???. by apply read_number_range. }
  destruct (read_separator _ 0 _ s) as [[a s1]|] eqn:E1; [|done].
  destruct (read_separator _ 1 _ s1) as [[b s2]|] eqn:E2; [|done].
  destruct (read_separator _ 2 _ s2) as [[c s3]|] eqn:E3; [|done].
  destruct (read_separator _ 3 _ s3) as [[d s4]|] eqn:E4; [|done].
  apply Ho in E1, E2, E3, E4. intros [= <- <-]. change (2 ^ 32)%Z with 4294967296%Z. lia.
Qed.

Definition group (g : Z) : Prop := (0 <= g < 65536)%Z.
Lemma read_groups_range slots : forall i s l v4 rest,
  read_groups i slots s = (l, v4, rest) -> (length l <= slots)%nat /\ Forall group l.
Proof.
  induction slots as [|slots IH]; intros i s l v4 rest; [by intros [= <- <- <-]|]. cbn [read_groups].
  destruct (match slots with O => None | S _ => _ end) as [[v s']|] eqn:E4.
  - destruct slots as [|slots]; [done|]. intros [= <- <- <-]. split; [cbn; lia|].
    apply (read_separator_range (fun v => 0 <= v < 2 ^ 32)%Z) in E4; [|intros ???; apply read_ipv4_range].
    change 65535%Z with (Z.ones 16). rewrite Z.shiftr_div_pow2, Z.land_ones by lia.
    change (2 ^ 16)%Z with 65536%Z. change (2 ^ 32)%Z with 4294967296%Z in E4.
    pose proof (Z.mod_pos_bound v 65536). pose proof (Z.div_pos v 65536).
    pose proof (Z.div_lt_upper_bound v 65536 65536).
    rewrite Forall_cons, Forall_singleton. unfold group. lia.
  - destruct (read_separator ":" i (read_number 16 4 65536 true) s) as [[g s']|] eqn:Eg; [|by intros [= <- <- <-]; split; [cbn; lia|]].
    destruct (read_groups (S i) slots s') as [[l' b] s''] eqn:Er. destruct (IH _ _ _ _ _ Er) as [Hl Hf].
    intros [= <- <- <-]. split; [cbn; lia|]. constructor; [|done].
    apply (read_separator_range group) in Eg; [done|]. intros ???. by apply read_number_range.
Qed.

Lemma groups_value_range l : Forall group l -> (0 <= groups_value l < 65536 ^ Z.of_nat (length l))%Z.
Proof.
  unfold groups_value. induction l as [|g l IH] using rev_ind; [cbn; lia|].
  rewrite Forall_app, Forall_singleton. intros [Hl Hg]. rewrite fold_left_app, length_app. cbn [fold_left length].
  specialize (IH Hl). rewrite Nat2Z.inj_add, Z.pow_add_r by lia. change (65536 ^ Z.of_nat 1)%Z with 65536%Z.
  unfold group in Hg. nia.
Qed.

Lemma parse_ip_ok s ip : parse_ip s = Some ip -> ip_ok ip.
Proof.
  unfold parse_ip. destruct (read_ipv4_addr s) as [[n r]|] eqn:E4.
  - destruct r; [|done]. intros [= <-]. by apply read_ipv4_range in E4.
  - destruct (read_ipv6_addr s) as [[n r]|] eqn:E6; [|done]. destruct r; [|done]. intros [= <-]. cbn.
    revert E6. unfold read_ipv6_addr. destruct (read_groups 0 8 s) as [[head v4] s1] eqn:Eh.
    apply read_groups_range in Eh as [Hlh Hfh].
    destruct (Nat.eqb_spec (length head) 8) as [H8|H8].
    + intros [= <- _]. apply groups_value_range in Hfh. by rewrite H8 in Hfh.
    + destruct v4; [done|]. destruct (read_given_char ":" s1) as [[_ s2]|]; [|done].
      destruct (read_given_char ":" s2) as [[_ s3]|]; [|done].
      destruct (read_groups 0 (7 - length head) s3) as [[tail v4] s4] eqn:Et.
      apply read_groups_range in Et as [Hlt Hft]. intros [= <- _].
      assert (Hall : Forall group (head ++ repeat 0%Z (8 - length head - length tail) ++ tail)%list).
      { rewrite !Forall_app. split_and!; [done| |done]. apply Forall_forall. intros x Hx.
        apply list_elem_of_In, repeat_spec in Hx as ->. done. }
      apply groups_value_range in Hall. rewrite !length_app, repeat_length in Hall.
      replace (length head + (8 - length head - length tail + length tail))%nat with 8%nat in Hall by lia. done.
Qed.

Lemma ones_pred k : (0 <= k)%Z -> (2 ^ k - 1)%Z = Z.ones k.
Proof. intros. rewrite Z.ones_equiv. lia. Qed.

Lemma prefix_mask_bit w p i : (0 <= p <= w)%Z -> (0 <= i)%Z ->
  Z.testbit (prefix_mask w p) i = ((w - p <=? i) && (i <? w))%Z.
Proof.
  intros Hp Hi. unfold prefix_mask. rewrite Z.shiftl_1_l, !ones_pred by lia.
  rewrite Z.land_spec, Z.lnot_spec, !Z.testbit_ones by lia.
  destruct (Z.leb_spec 0 i), (Z.ltb_spec i (w - p)), (Z.leb_spec (w - p) i), (Z.ltb_spec i w); cbn; lia || done.
Qed.

Lemma high_bit w c i : (0 <= w)%Z -> (0 <= c < 2 ^ w)%Z -> (w <= i)%Z -> Z.testbit c i = false.
Proof.
  intros Hw Hc Hi. destruct (decide (c = 0%Z)) as [->|]; [apply Z.bits_0|].
  apply Z.bits_above_log2; [lia|]. assert (Z.log2 c < w)%Z; [|lia]. apply Z.log2_lt_pow2; lia.
Qed.

Lemma masked_equal w p c n : (0 <= p <= w)%Z -> (0 <= c < 2 ^ w)%Z -> (0 <= n < 2 ^ w)%Z ->
  Z.land c (prefix_mask w p) = Z.land n (prefix_mask w p) <-> (c / 2 ^ (w - p) = n / 2 ^ (w - p))%Z.
Proof.
  intros Hp Hc Hn. rewrite <- !Z.shiftr_div_pow2 by lia. split; intros Heq; apply Z.bits_inj'; intros i Hi.
  - rewrite !Z.shiftr_spec by lia.
    destruct (Z.ltb_spec (i + (w - p)) w) as [Hlt|Hge].
    + pose proof (f_equal (fun z => Z.testbit z (i + (w - p))) Heq) as Hb. cbn beta in Hb.
      rewrite !Z.land_spec, prefix_mask_bit in Hb by lia.
      destruct (Z.leb_spec (w - p) (i + (w - p))), (Z.ltb_spec (i + (w - p)) w); try lia.
      by rewrite !andb_true_r in Hb.
    + by rewrite !(high_bit w) by lia.
  - rewrite !Z.land_spec, prefix_mask_bit by lia.
    destruct (Z.leb_spec (w - p) i); cbn; [|by rewrite !andb_false_r].
    pose proof (f_equal (fun z => Z.testbit z (i - (w - p))) Heq) as Hb. cbn beta in Hb.
    rewrite !Z.shiftr_spec in Hb by lia. replace (i - (w - p) + (w - p))%Z with i in Hb by lia. by rewrite Hb.
Qed.

Lemma parse_u32_range s p : parse_u32 s = Some p -> (0 <= p)%Z.
Proof.
  unfold parse_u32. cbv zeta. destruct (read_digits 10 _ 0 0) as [[v [|c]] [|]] eqn:E; try done.
  destruct (v <=? Int.u32_max)%Z; [|done]. intros [= <-]. by apply read_digits_nonneg in E.
Qed.

(** ** The specification of an allowlist *)

(** The leading [p] bits of the client's address are the network's. *)
Definition in_network (w p c n : Z) : Prop := (p <= w)%Z /\ (c / 2 ^ (w - p) = n / 2 ^ (w - p))%Z.
(** An entry is an address, or a network of the client's family. *)
Definition entry_covers (client : IpAddr) (raw : string) : Prop :=
  match split_once "/" (trim raw) with
  | None => parse_ip (trim raw) = Some client
  | Some (net, prefix) => exists p, parse_u32 prefix = Some p /\
      match client, parse_ip net with
      | V4 c, Some (V4 n) => in_network 32 p c n
      | V6 c, Some (V6 n) => in_network 128 p c n
      | _, _ => False
      end
  end.

Lemma network_test w p c n : (0 <= w)%Z -> (0 <= p)%Z -> (0 <= c < 2 ^ w)%Z -> (0 <= n < 2 ^ w)%Z ->
  (if (w <? p)%Z then false else if (p =? 0)%Z then true
   else (Z.land c (prefix_mask w p) =? Z.land n (prefix_mask w p))%Z) = true <-> in_network w p c n.
Proof.
  intros Hw Hp Hc Hn. unfold in_network. destruct (Z.ltb_spec w p); [split; [done|lia]|].
  destruct (Z.eqb_spec p 0) as [->|].
  - rewrite Z.sub_0_r. split; [|done]. intros _. split; [lia|]. by rewrite !Z.div_small.
  - rewrite Z.eqb_eq, masked_equal by lia. tauto.
Qed.

Lemma entry_allows_covers client raw : ip_ok client -> entry_allows client raw = true <-> entry_covers client raw.
Proof.
  intros Hc. unfold entry_allows, entry_covers.
  destruct (String.eqb_spec (trim raw) "") as [->|_]; [by vm_compute|].
  destruct (split_once "/" (trim raw)) as [[net prefix]|].
  - destruct (parse_u32 prefix) as [p|] eqn:Ep; [|split; [done|by intros (? & ? & _)]].
    pose proof (parse_u32_range _ _ Ep) as Hp.
    destruct (parse_ip net) as [ip|] eqn:En; [apply parse_ip_ok in En|];
      destruct client as [c|c]; [destruct ip as [n|n]..| |]; cbn in *.
    all: try (split; [done|by intros (? & _ & [])]).
    all: rewrite network_test by lia; split; [intros Hn; by exists p|by intros (? & [= <-] & Hn)].
  - destruct (parse_ip (trim raw)) as [ip|]; [|done]. rewrite bool_decide_eq_true. split; congruence.
Qed.

(** ** Properties *)

(** C39. The allowlist admits exactly the addresses one of its entries covers: an address
    itself, or a network of the same family whose leading bits are the client's. *)
Theorem is_ip_allowed_spec client allowlist : ip_ok client ->
  is_ip_allowed client allowlist = true <-> Exists (entry_covers client) allowlist.
Proof.
  intros Hc. unfold is_ip_allowed. rewrite existsb_exists, Exists_exists. setoid_rewrite list_elem_of_In.
  split; intros (e & Hin & He); exists e; (split; [done|]); by apply entry_allows_covers.
Qed.

Section Properties.
Context `{HttpLib}.

(** A request's own forwarding header decides its admission: when the first element
    of X-Forwarded-For is an address, that address is checked and the peer's is not. *)
Theorem admission_by_header h socket allowed_ips v ip :
  header_str "x-forwarded-for" h = Some v -> parse_ip (trim (hd "" (split_on "," v))) = Some ip ->
  admin_admits h socket allowed_ips = is_ip_allowed ip allowed_ips.
Proof.
  intros Hv Hp. unfold admin_admits, extract_client_ip. cbv zeta.
  rewrite Hv. cbn -[trim split_on parse_ip is_ip_allowed]. by rewrite Hp.
Qed.

(** A write is authorized exactly when no token is configured, the first configured
    source counting also when it is blank, or the request carries that token, spaces
    around either ignored. *)
Theorem write_authorized_spec env deploy_token h :
  is_write_authorized env deploy_token h = true <->
  (forall expected, expected_token env deploy_token = Some expected -> trim expected = "") \/
  exists expected provided,
    expected_token env deploy_token = Some expected /\ provided_token h = Some provided /\
    trim provided = trim expected.
Proof.
  unfold is_write_authorized. destruct (expected_token env deploy_token) as [e|].
  - destruct (String.eqb_spec (trim e) "") as [Eb|Eb].
    + split; [|done]. intros _. left. by intros ? [= <-].
    + destruct (provided_token h) as [p|].
      * rewrite constant_time_eq_bytes, String.eqb_eq. split.
        -- intros Heq. right. by exists e, p.
        -- intros [Hb|(e' & p' & [= <-] & [= <-] & Heq)]; [|done]. by rewrite (Hb e) in Eb.
      * split; [done|]. intros [Hb|(e' & p' & _ & [=] & _)]. by rewrite (Hb e) in Eb.
  - split; [|done]. intros _. by left.
Qed.
End Properties.

Lemma is_ip_allowed_spec_witness :
  is_ip_allowed (V4 167903745) ["bad"; " 10.2.0.0/16 "; "::1"] = true /\
  Exists (entry_covers (V4 167903745)) ["bad"; " 10.2.0.0/16 "; "::1"].
Proof.
  assert (Ha : is_ip_allowed (V4 167903745) ["bad"; " 10.2.0.0/16 "; "::1"] = true) by by vm_compute.
  split; [done|]. apply (is_ip_allowed_spec (V4 167903745) ["bad"; " 10.2.0.0/16 "; "::1"]); [|done].
  cbn. lia.
Defined.

Section Witnesses.
#[local] Existing Instance list_http.
(** A stranger who claims to be the local host. *)
Lemma admission_by_header_witness :
  @admin_admits list_http [("X-Forwarded-For", "127.0.0.1, 203.0.113.9")] (Some (V4 3405803785)) ["127.0.0.1"] = true /\
  @admin_admits list_http [] (Some (V4 3405803785)) ["127.0.0.1"] = false.
Proof.
  split; [|by vm_compute].
  rewrite (@admission_by_header list_http [("X-Forwarded-For", "127.0.0.1, 203.0.113.9")] (Some (V4 3405803785)) ["127.0.0.1"]
    "127.0.0.1, 203.0.113.9" (V4 2130706433)); by vm_compute.
Defined.
(** An administrator's variable that is set but blank opens the writes the
    configured deployment token should guard. *)
Example blank_variable_opens :
  @is_write_authorized list_http (fun v => if String.eqb v "SPECTRA_ADMIN_TOKEN" then Some " " else None) (Some "secret") [] = true.
Proof. by vm_compute. Qed.
End Witnesses.
