(* ===== verification/State.v ===== *)
(** * State: the gateway's running configuration and its control plane,
    [src/gateway/composite_service.rs] (the dynamic state) and the configuration and
    DNS handlers of [src/admin/mod.rs].

    Building a state from a configuration, the DNS rescan, and the handlers that read,
    replace and reload the configuration, over any configuration store that keeps the
    contract of [ConfigStore]. *)

From S2P Require Import Prelude Externals Serde Api Types Sanitizer Protocol Config ConfigStore Interceptors.
From S2P Require Import Auth Wasm Cel Manager Access.
Local Open Scope string_scope.

Section State.
Context `{HttpLib, JsonText, Unicode, GqlParser, LruLib, AuthLib, CelLib}.
Context {W : Type} `{Clocks W, WasmTypes, !WasmLib W}.
Context {SocketAddr : Type} `{EqDecision SocketAddr}.

(** What a build reads from its surroundings: name resolution, the SHA-256 digest in
    hexadecimal, the text of JSON errors, the text of an address, the wall clock in
    milliseconds, and the process. *)
Record surroundings := Surroundings {
  to_socket_addrs : string -> result string (list SocketAddr);
  addr_text : SocketAddr -> string;
  sha256_hex : string -> string;
  json_error : string -> string;
  now_ms : W -> Z;
  proc : process (W := W)
}.
Context (env_of : surroundings).

(** ** The state *)

(** [DynamicGatewayState] @gateway/composite_service.rs:{struct DynamicGatewayState} DynamicGatewayState *)
Record DynamicGatewayState := Dynamic {
  named_upstreams : gmap string SocketAddr;
  upstream_targets : gmap string string;
  dns_config : SpectraDnsConfig;
  dy_mode_a : SpectraModeAConfig;
  dy_routes : list (string * SpectraRouteConfig);
  dy_apps : list SpectraAppConfig;
  dy_default_app : option string;
  interceptor_manager : InterceptorManager (W := W);
  telemetry_config : ErrorCaptureConfig;
  raw_config : string;
  version : Z;
  updated_at_epoch_ms : Z;
  config_hash : string
}.
(** @gateway/composite_service.rs:{fn default} DynamicGatewayState::default *)
Definition dynamic_default : DynamicGatewayState :=
  Dynamic ∅ ∅ dns_default mode_a_default [] [] None manager_empty error_capture_default "" 1 0 "".
(** @gateway/composite_service.rs:{fn new_from_config} DynamicGatewayState::new_from_config *)
Definition new_from_config (cfg : SpectraConfig) (raw : string) (v : Z) (w : W) :
    result string (DynamicGatewayState * W) :=
  match resolve_all_upstreams_with_targets (to_socket_addrs env_of) cfg with
  | Err e => Err e
  | Ok (ups, targets) =>
      match from_config (proc env_of) cfg (json_error env_of) w with
      | Err e => Err e
      | Ok (m, w) =>
          Ok (Dynamic ups targets (dns cfg) (mode_a (gql cfg)) (routes (gql cfg)) (apps cfg)
                (default_app cfg) m (error_capture cfg) raw v (now_ms env_of w) (sha256_hex env_of raw), w)
      end
  end.
(** @gateway/composite_service.rs:{fn reload_config} CompositeServiceProxy::reload_config *)
Definition reload_config (cfg : SpectraConfig) (raw : string) (prev : DynamicGatewayState) (w : W) :
    result string (DynamicGatewayState * W) :=
  new_from_config cfg raw (Int.wrap 64 (version prev + 1)) w.

(** ** DNS *)

(** One upstream: the addresses so far, the entries and the number of changes.
    @gateway/composite_service.rs:119-180 DynamicGatewayState::rescan_dns *)
Definition rescan_one (prev : gmap string SocketAddr)
    (acc : gmap string SocketAddr * list dns_entry * nat) (nt : string * string) :
    gmap string SocketAddr * list dns_entry * nat :=
  let '(ups, entries, changed_count) := acc in
  let '(name, target) := nt in
  let prev_addr := prev !! name in
  let retained :=
    match prev_addr with
    | Some pa => (entries ++ [DnsEntry name target (addr_text env_of pa) (Some (addr_text env_of pa)) false])%list
    | None => entries
    end in
  match to_socket_addrs env_of target with
  | Ok (new_addr :: _) =>
      let is_changed := match prev_addr with Some a => negb (bool_decide (a = new_addr)) | None => true end in
      (<[name := new_addr]> ups,
       (entries ++ [DnsEntry name target (addr_text env_of new_addr) (addr_text env_of <$> prev_addr) is_changed])%list,
       if is_changed then S changed_count else changed_count)
  | _ => (ups, retained, changed_count)
  end.
(** What a rescan of a loaded state finds; the order of the targets is the map's. *)
Definition rescan (st : DynamicGatewayState) : gmap string SocketAddr * list dns_entry * nat :=
  fold_left (rescan_one (named_upstreams st)) (map_to_list (upstream_targets st)) (named_upstreams st, [], 0%nat).
(** The state a rescan stores, when something changed: the loaded state with the new
    addresses. @gateway/composite_service.rs:107-204 DynamicGatewayState::rescan_dns *)
Definition rescan_dns (now : Z) (loaded : DynamicGatewayState) : option DynamicGatewayState :=
  let '(ups, _, n) := rescan loaded in
  match n with
  | O => None
  | S _ => Some (Dynamic ups (upstream_targets loaded) (dns_config loaded) (dy_mode_a loaded) (dy_routes loaded)
                   (dy_apps loaded) (dy_default_app loaded) (interceptor_manager loaded) (telemetry_config loaded)
                   (raw_config loaded) (version loaded) now (config_hash loaded))
  end.
(** [sort_by] on the names. *)
Fixpoint insert_entry (e : dns_entry) (l : list dns_entry) : list dns_entry :=
  match l with
  | [] => [e]
  | x :: l' => match String.compare (de_name e) (de_name x) with
               | Gt => x :: insert_entry e l'
               | _ => e :: l
               end
  end.
Definition sort_entries (l : list dns_entry) : list dns_entry := List.fold_right insert_entry [] l.
(** @gateway/composite_service.rs:{fn get_dns_status} DynamicGatewayState::get_dns_status *)
Definition get_dns_status (st : DynamicGatewayState) : list dns_entry :=
  sort_entries
    (map (fun nt => DnsEntry (fst nt) (snd nt)
            (match named_upstreams st !! fst nt with Some a => addr_text env_of a | None => "unresolved" end)
            None false) (map_to_list (upstream_targets st))).

(** ** Handlers *)

Record response := Response { status : Z; body : json }.
Definition error_response (s : Z) (err msg : string) : response :=
  Response s (JObject [("error", JString err); ("message", JString msg)]).
Definition unauthorized_response : response :=
  error_response 401 "Unauthorized"
    "Missing or invalid admin authorization token (set SPECTRA_ADMIN_TOKEN or provide valid Authorization: Bearer <token>)".

(** The body, read until its end or until it passes the limit. @admin/mod.rs:845-851 AdminEngine::handle_config_update *)
Fixpoint read_body (limit : nat) (acc : string) (chunks : list (result string string)) : result string string :=
  match chunks with
  | [] => Ok acc
  | Err e :: _ => Err e
  | Ok chunk :: chunks' =>
      let acc := String.append acc chunk in
      if (limit <? String.length acc)%nat then Ok acc else read_body limit acc chunks'
  end.
(** A body that is no such request is the configuration itself. @admin/mod.rs:853-865 AdminEngine::handle_config_update *)
Definition requested (b : string) : option (string * bool) :=
  match json_read_slice b ≫= Derive.de update_request with
  | Some r => Some r
  | None => if utf8_valid b then Some (b, true) else None
  end.
(** [AdminConfigUpdateResponse] and [AdminConfigReloadResponse]. @admin/mod.rs:924-935 AdminEngine::handle_config_update *)
Definition success_response (v : Z) (hash : string) (updated : Z) (reloaded : bool) (message : string) : response :=
  Response 200 (Derive.ser update_response (UpdateResponse true v hash updated reloaded message)).

(** [parse_toml] is [SpectraConfig::from_toml_str]. *)
Context (parse_toml : string -> result string SpectraConfig).
Context {S : Type} `{!ConfigStore S}.

(** What the control plane works on: the store, the running state, the rest of the
    world. *)
Record plane := Plane { store : option S; dynamic : option DynamicGatewayState; world : W }.

Definition running_tag (p : plane) : Z * string * Z :=
  match dynamic p with
  | Some s => (version s, config_hash s, updated_at_epoch_ms s)
  | None => (1%Z, "untracked", 0%Z)
  end.
(** Replacing the running state, or the error of the build.
    @admin/mod.rs:889-913 AdminEngine::handle_config_update *)
Definition swap (content : string) (cfg : SpectraConfig) (p : plane) : result string plane :=
  match dynamic p with
  | Some prev =>
      match reload_config cfg content prev (world p) with
      | Ok (st, w) => Ok (Plane (store p) (Some st) w)
      | Err e => Err e
      end
  | None => Ok p
  end.

(** @admin/mod.rs:{fn handle_config_update} AdminEngine::handle_config_update *)
Definition handle_config_update (authorized : bool) (chunks : list (result string string)) (p : plane) :
    result string (response * plane) :=
  if negb authorized then Ok (unauthorized_response, p)
  else match read_body (Z.to_nat (2 * 1024 * 1024)) "" chunks with
  | Err e => Err e
  | Ok b =>
      match requested b with
      | None => Ok (error_response 400 "Bad Request" "Request body is neither valid JSON nor valid UTF-8", p)
      | Some (content, reload) =>
          match parse_toml content with
          | Err e => Ok (error_response 400 "Invalid Configuration" (String.append "Configuration parsing error: " e), p)
          | Ok cfg =>
              let '(saved, st) := match store p with
                                  | Some s => let '(r, s) := save_config content s in (r, Some s)
                                  | None => (Ok tt, None)
                                  end in
              let p := Plane st (dynamic p) (world p) in
              match saved with
              | Err e => Ok (error_response 500 "Storage Error"
                               (String.append "Failed to persist configuration to store: " e), p)
              | Ok _ =>
                  if reload then
                    match swap content cfg p with
                    | Ok p =>
                        let '(v, h, u) := running_tag p in
                        Ok (success_response v h u true "Configuration saved and runtime hot-reloaded successfully", p)
                    | Err e => Ok (error_response 500 "Reload Error"
                                     (String.append "Configuration saved to store, but hot-reload failed: " e), p)
                    end
                  else
                    let '(v, h, u) := running_tag p in
                    Ok (success_response v h u false "Configuration saved to store (hot-reload skipped)", p)
              end
          end
      end
  end.

(** @admin/mod.rs:{fn handle_config_reload} AdminEngine::handle_config_reload *)
Definition handle_config_reload (authorized : bool) (p : plane) : response * plane :=
  if negb authorized then (unauthorized_response, p)
  else match store p with
  | None => (error_response 400 "No Config Store" "No persistent config store is configured on this gateway instance", p)
  | Some s =>
      match load_config s with
      | Ok None => (error_response 404 "Not Found" "No configuration found in persistent store", p)
      | Err e => (error_response 500 "Storage Error" (String.append "Failed to read configuration from store: " e), p)
      | Ok (Some content) =>
          match parse_toml content with
          | Err e => (error_response 500 "Invalid Configuration In Store"
                        (String.append "Configuration in store failed parsing: " e), p)
          | Ok cfg =>
              match swap content cfg p with
              | Ok p =>
                  let '(v, h, u) := running_tag p in
                  (success_response v h u true
                     "Configuration reloaded from store and hot-swapped into gateway runtime", p)
              | Err e => (error_response 500 "Reload Error" (String.append "Failed to apply configuration from store: " e), p)
              end
          end
      end
  end.

(** @admin/mod.rs:729-764 AdminEngine::handle_config_get *)
Definition config_of (descriptor : string) (p : plane) : AdminConfigResponse :=
  let '(backend, descriptor) :=
    match store p with
    | Some _ => (backend_name (S := S), descriptor)
    | None => ("memory", "in-memory (ephemeral)")
    end in
  let '(v, u, h, content) :=
    match dynamic p with
    | Some st => (version st, updated_at_epoch_ms st, config_hash st, raw_config st)
    | None =>
        (1%Z, 0%Z, "",
         match store p with
         | Some s => match load_config s with Ok (Some c) => c | _ => "" end
         | None => ""
         end)
    end in
  ConfigResponse backend descriptor v u h content.
(** @admin/mod.rs:{fn handle_config_get} AdminEngine::handle_config_get *)
Definition handle_config_get (descriptor : string) (p : plane) : response :=
  Response 200 (Derive.ser config_response (config_of descriptor p)).

(** ** Lemmas *)

Lemma reload_config_ok cfg raw prev w st w' : reload_config cfg raw prev w = Ok (st, w') ->
  raw_config st = raw /\ version st = Int.wrap 64 (version prev + 1) /\ config_hash st = sha256_hex env_of raw.
Proof.
  unfold reload_config, new_from_config. destruct (resolve_all_upstreams_with_targets _ _) as [[ups ts]|]; [|done].
  destruct (from_config _ _ _ _) as [[m w1]|]; [|done]. by intros [= <- _].
Qed.

(** After a successful swap a running state, if there is one, is the content's. *)
Definition swapped (content : string) (d d' : option DynamicGatewayState) : Prop :=
  match d, d' with
  | Some prev, Some st => raw_config st = content /\ version st = Int.wrap 64 (version prev + 1)
  | None, None => True
  | _, _ => False
  end.
Lemma swap_ok content cfg p p' : swap content cfg p = Ok p' ->
  store p' = store p /\ swapped content (dynamic p) (dynamic p').
Proof.
  unfold swap, swapped. destruct (dynamic p) as [prev|] eqn:Ed.
  - destruct (reload_config cfg content prev (world p)) as [[st w]|] eqn:E; [|done]. intros [= <-]. cbn.
    apply reload_config_ok in E as (? & ? & _). done.
  - intros [= <-]. by rewrite Ed.
Qed.

(** The store holds the content, if there is a store. *)
Definition stored (content : string) (o : option S) : Prop :=
  match o with Some s => load_config s = Ok (Some content) | None => True end.

(** What one upstream's target resolves to now. *)
Definition resolved (t : string) : option SocketAddr :=
  match to_socket_addrs env_of t with Ok (a :: _) => Some a | _ => None end.
(** The address of an upstream is another one than before. *)
Definition moved (prev : gmap string SocketAddr) (nt : string * string) : bool :=
  match resolved (snd nt) with Some a => negb (bool_decide (prev !! fst nt = Some a)) | None => false end.

Lemma rescan_one_spec prev ups entries n nt : exists es,
  rescan_one prev (ups, entries, n) nt =
  (match resolved (snd nt) with Some a => <[fst nt := a]> ups | None => ups end, es,
   if moved prev nt then Datatypes.S n else n).
Proof.
  destruct nt as [name t]. unfold rescan_one, moved, resolved. cbn [fst snd].
  destruct (to_socket_addrs env_of t) as [[|a al]|e]; try by eexists.
  eexists. do 2 f_equal. destruct (prev !! name) as [b|]; [|by rewrite bool_decide_false].
  by destruct (decide (b = a)) as [->|Hne]; [rewrite !bool_decide_true|rewrite !bool_decide_false by congruence].
Qed.

Lemma rescan_fold prev l : forall ups entries n, NoDup l.*1 -> exists es,
  fold_left (rescan_one prev) l (ups, entries, n) =
  (fst (fst (fold_left (rescan_one prev) l (ups, entries, n))), es,
   (length (List.filter (moved prev) l) + n)%nat) /\
  forall name, fst (fst (fold_left (rescan_one prev) l (ups, entries, n))) !! name =
    match Assoc.get name l with
    | Some t => match resolved t with Some a => Some a | None => ups !! name end
    | None => ups !! name
    end.
Proof.
  induction l as [|nt l IH]; intros ups entries n; [intros _; by eexists|].
  rewrite fmap_cons, NoDup_cons. intros [Hni Hnd]. apply Assoc.get_None in Hni. cbn [fold_left].
  destruct (rescan_one_spec prev ups entries n nt) as [es ->].
  destruct (IH (match resolved (snd nt) with Some a => <[fst nt := a]> ups | None => ups end) es
              (if moved prev nt then Datatypes.S n else n) Hnd) as (es' & Heq & Hlk).
  exists es'. split.
  - rewrite Heq at 1. f_equal. cbn. destruct (moved prev nt); cbn; lia.
  - intros name. rewrite Hlk. destruct nt as [name' t]. cbn in *.
    destruct (String.eqb_spec name name') as [->|Hne].
    + rewrite Hni. destruct (resolved t); [by rewrite lookup_insert_eq|done].
    + destruct (resolved t); [|done]. by rewrite lookup_insert_ne by congruence.
Qed.

Lemma get_map_to_list (m : gmap string string) k : Assoc.get k (map_to_list m) = m !! k.
Proof.
  destruct (m !! k) as [v|] eqn:E.
  - apply Assoc.In_get; [apply NoDup_fst_map_to_list|by apply elem_of_map_to_list].
  - apply Assoc.get_None. intros ([k' v] & -> & Hin)%list_elem_of_fmap. apply elem_of_map_to_list in Hin. cbn in *. congruence.
Qed.

Lemma saved_stored content (o st : option S) saved :
  match o with Some s => let '(r, s) := save_config content s in (r, Some s) | None => (Ok tt, None) end = (saved, st) ->
  saved = Ok tt -> stored content st.
Proof.
  destruct o as [s|]; [|by intros [= <- <-]].
  destruct (save_config content s) as [res s'] eqn:E. intros [= <- <-] ->. cbn.
  pose proof (save_ok content s) as Hs. rewrite E in Hs. by apply Hs.
Qed.

(** An update answered 200 with a reload swapped in what its content builds. *)
Lemma updated_runs authorized chunks p r p' b content :
  handle_config_update authorized chunks p = Ok (r, p') -> status r = 200%Z ->
  read_body (Z.to_nat (2 * 1024 * 1024)) "" chunks = Ok b -> requested b = Some (content, true) ->
  exists cfg st, parse_toml content = Ok cfg /\ swap content cfg (Plane st (dynamic p) (world p)) = Ok p'.
Proof.
  intros Hu Hr Hb Hq. revert Hu Hr. unfold handle_config_update. destruct authorized; cbn [negb]; [|by intros [= <- _]].
  rewrite Hb, Hq. destruct (parse_toml content) as [cfg|]; [|by intros [= <- _]].
  destruct (match store p with Some s => _ | None => _ end) as [[[]|e] st]; [|by intros [= <- _]].
  destruct (swap content cfg _) as [p1|] eqn:Ew; [|by intros [= <- _]].
  destruct (running_tag p1) as [[v h] u]. intros [= _ <-] _. by exists cfg, st.
Qed.

(** A branch that leaves the running state alone and does not answer 200. *)
Ltac refused := split; [done|]; split; [first [done|by intros [?|?]]|done].

(** ** Properties *)

(** A configuration update answers 200 only with the content it was sent stored and,
    when a reload is asked for, running under the next version; on any other answer
    the running state is untouched, and a refused or malformed request changes
    nothing at all. *)
Theorem config_update_contract authorized chunks p r p' :
  handle_config_update authorized chunks p = Ok (r, p') ->
  (status r <> 200%Z -> dynamic p' = dynamic p) /\
  (status r = 401%Z \/ status r = 400%Z -> p' = p) /\
  (status r = 200%Z -> authorized = true /\
     exists b content reload,
       read_body (Z.to_nat (2 * 1024 * 1024)) "" chunks = Ok b /\ requested b = Some (content, reload) /\
       is_ok (parse_toml content) = true /\ stored content (store p') /\
       if reload then swapped content (dynamic p) (dynamic p') else dynamic p' = dynamic p).
Proof.
  unfold handle_config_update. destruct authorized; cbn [negb]; [|intros [= <- <-]; refused].
  destruct (read_body _ _ _) as [b|] eqn:Eb; [|done].
  destruct (requested b) as [[content reload]|] eqn:Er; [|intros [= <- <-]; refused].
  destruct (parse_toml content) as [cfg|] eqn:Ep; [|intros [= <- <-]; refused].
  destruct (match store p with Some s => _ | None => _ end) as [saved st] eqn:Es.
  assert (Hst : saved = Ok tt -> stored content st) by by eapply saved_stored.
  destruct saved as [[]|e]; [|intros [= <- <-]; refused].
  specialize (Hst eq_refl). destruct reload.
  - destruct (swap content cfg (Plane st (dynamic p) (world p))) as [p1|e] eqn:Ew; [|intros [= <- <-]; refused].
    apply swap_ok in Ew as [Hs1 Hd]. cbn in Hs1, Hd.
    destruct (running_tag p1) as [[v h] u]. intros [= <- <-]. split; [done|]. split; [by intros [?|?]|].
    intros _. split; [done|]. exists b, content, true. by rewrite Hs1, Ep.
  - destruct (running_tag _) as [[v h] u]. intros [= <- <-]. split; [done|]. split; [by intros [?|?]|].
    intros _. split; [done|]. exists b, content, false. by rewrite Ep.
Qed.

(** The content is stored before the state is built: an update whose build fails is
    answered with an error, but the store keeps the new content while the gateway
    goes on with the old one. *)
Theorem failed_reload_stays_stored chunks p b content cfg s e :
  read_body (Z.to_nat (2 * 1024 * 1024)) "" chunks = Ok b -> requested b = Some (content, true) ->
  parse_toml content = Ok cfg -> store p = Some s -> fst (save_config content s) = Ok tt ->
  swap content cfg (Plane (Some (snd (save_config content s))) (dynamic p) (world p)) = Err e ->
  exists r p', handle_config_update true chunks p = Ok (r, p') /\ status r = 500%Z /\
    dynamic p' = dynamic p /\ stored content (store p').
Proof.
  intros Hb Hreq Hparse Hs Hsave Hswap. unfold handle_config_update. cbn [negb].
  rewrite Hb, Hreq, Hparse, Hs. pose proof (save_ok content s Hsave) as Hload.
  destruct (save_config content s) as [res s']. cbn in *. subst res. rewrite Hswap.
  by eexists _, _.
Qed.

(** A reload answers 200 only with the stored content running under the next version,
    and otherwise changes nothing. *)
Theorem config_reload_contract authorized p :
  let '(r, p') := handle_config_reload authorized p in
  (status r <> 200%Z -> p' = p) /\
  (status r = 200%Z -> authorized = true /\ store p' = store p /\
     exists s content, store p = Some s /\ load_config s = Ok (Some content) /\
       swapped content (dynamic p) (dynamic p')).
Proof.
  unfold handle_config_reload. destruct authorized; cbn [negb]; [|done].
  destruct (store p) as [s|] eqn:Es; [|done]. destruct (load_config s) as [[content|]|] eqn:El; [|done..].
  destruct (parse_toml content) as [cfg|]; [|done].
  destruct (swap content cfg p) as [p1|] eqn:Ew; [|done]. apply swap_ok in Ew as [Hs Hd].
  destruct (running_tag p1) as [[v h] u]. cbn. split; [done|]. intros _. rewrite Es in Hs.
  split_and!; [done|done|]. by exists s, content.
Qed.

(** A rescan gives every upstream the first address its target resolves to now and
    keeps the address of those that do not resolve; it changes nothing else of the
    state but the time of the update, and stores nothing when no address moved. *)
Theorem rescan_dns_spec now st :
  match rescan_dns now st with
  | Some st' =>
      (forall name, named_upstreams st' !! name =
         match upstream_targets st !! name ≫= resolved with Some a => Some a | None => named_upstreams st !! name end) /\
      st' = Dynamic (named_upstreams st') (upstream_targets st) (dns_config st) (dy_mode_a st) (dy_routes st)
              (dy_apps st) (dy_default_app st) (interceptor_manager st) (telemetry_config st) (raw_config st)
              (version st) now (config_hash st)
  | None => forall name t a, upstream_targets st !! name = Some t -> resolved t = Some a ->
      named_upstreams st !! name = Some a
  end.
Proof.
  unfold rescan_dns, rescan.
  destruct (rescan_fold (named_upstreams st) (map_to_list (upstream_targets st)) (named_upstreams st) [] 0)
    as (es & -> & Hlk); [apply NoDup_fst_map_to_list|].
  destruct (length _ + 0)%nat eqn:En.
  - intros name t a Ht Ha. destruct (decide (named_upstreams st !! name = Some a)) as [|Hne]; [done|]. exfalso.
    assert (Hin : (name, t) ∈ List.filter (moved (named_upstreams st)) (map_to_list (upstream_targets st))).
    { rewrite list_elem_of_In, List.filter_In, <- list_elem_of_In. split; [by apply elem_of_map_to_list|].
      unfold moved. cbn. by rewrite Ha, bool_decide_false. }
    destruct (List.filter _ _); [by apply elem_of_nil in Hin|done].
  - cbn. split; [|done]. intros name. rewrite Hlk, get_map_to_list.
    by destruct (upstream_targets st !! name).
Qed.

(** The rescan's load and its store are two steps, between which others may come. *)
Inductive swap_step : DynamicGatewayState * option DynamicGatewayState ->
    DynamicGatewayState * option DynamicGatewayState -> Prop :=
| rescan_loads cur pending : swap_step (cur, pending) (cur, Some cur)
| rescan_stores cur loaded now st :
    rescan_dns now loaded = Some st -> swap_step (cur, Some loaded) (st, None)
| config_swaps cur pending cfg raw w st w' :
    reload_config cfg raw cur w = Ok (st, w') -> swap_step (cur, pending) (st, pending).
(** A configuration swapped in between a rescan's load and its store is undone: the
    version and the content go back to those the rescan had loaded. *)
Theorem stale_rescan_reverts_reload st0 cfg raw w st1 w' now st2 :
  reload_config cfg raw st0 w = Ok (st1, w') -> rescan_dns now st0 = Some st2 ->
  rtc swap_step (st0, None) (st1, Some st0) /\ rtc swap_step (st1, Some st0) (st2, None) /\
  raw_config st1 = raw /\ raw_config st2 = raw_config st0 /\ version st2 = version st0.
Proof.
  intros Hr Hs. split_and!.
  - eapply rtc_l; [apply rescan_loads|]. by eapply rtc_once, config_swaps.
  - by eapply rtc_once, rescan_stores.
  - by apply reload_config_ok in Hr as (? & _).
  - revert Hs. unfold rescan_dns. destruct (rescan st0) as [[ups es] [|n]]; [done|]. by intros [= <-].
  - revert Hs. unfold rescan_dns. destruct (rescan st0) as [[ups es] [|n]]; [done|]. by intros [= <-].
Qed.
End State.

(** ** A concrete gateway *)

Section Witnesses.
#[local] Existing Instances list_http ascii_tables bits_json_text list_lru demo_auth_lib demo_cel demo_types
  demo_wasm no_gql manager_clocks MemoryConfigStore.
(** Every name resolves to the address spelt in [where_to]. *)
Definition demo_surroundings (where_to : string) : surroundings (W := manager_world) (SocketAddr := string) :=
  Surroundings (fun _ => Ok [where_to]) (fun a => a) (fun s => String.append "#" s) (fun s => s) (fun _ => 7%Z) demo_process.
(** The text "good" is a configuration, any other is one with an unknown interceptor. *)
Definition demo_toml (s : string) : result string SpectraConfig :=
  Ok (if String.eqb s "good" then demo_managed else with_interceptors ["ghost"] [] [] sample_config).
Definition demo_state : DynamicGatewayState (W := manager_world) (SocketAddr := string) :=
  Dynamic {["default" := "10.0.0.1:80"]} {["default" := "up:80"]} dns_default mode_a_default [] [] None
    manager_empty error_capture_default "old" 1 0 "".
Definition demo_plane : plane (W := manager_world) (SocketAddr := string) (S := option string) :=
  Plane (Some (Some "old")) (Some demo_state) demo_mworld.

Definition demo_update (text : string) : result string (response * plane (S := option string)) :=
  handle_config_update (demo_surroundings "10.0.0.2:80") demo_toml true [Ok text] demo_plane.
Definition answered (code : Z) (o : result string (response * plane (W := manager_world) (SocketAddr := string) (S := option string))) : bool :=
  match o with Ok (r, _) => Z.eqb (status r) code | Err _ => false end.

Lemma config_update_contract_witness :
  exists r p', demo_update "good" = Ok (r, p') /\ status r = 200%Z /\
    swapped "good" (dynamic demo_plane) (dynamic p').
Proof.
  assert (Hs : answered 200 (demo_update "good") = true) by reflexivity.
  destruct (demo_update "good") as [[r p']|] eqn:E; [|done]. cbn in Hs. apply Z.eqb_eq in Hs.
  exists r, p'. split; [done|]. split; [done|].
  destruct (config_update_contract (demo_surroundings "10.0.0.2:80") demo_toml _ _ _ _ _ E) as (_ & _ & H).
  destruct (H Hs) as (_ & b & content & reload & Hb & Hreq & _ & _ & Hsw).
  assert (Hb' : @Ok string string "good" = Ok b) by exact Hb. injection Hb' as <-.
  assert (Hq : Some ("good", true) = Some (content, reload)) by exact Hreq. by injection Hq as <- <-.
Defined.

Definition error_of {A} (o : result string A) : string := match o with Ok _ => "" | Err e => e end.
Definition ghost_error : string := "Global interceptor 'ghost' is not registered in [interceptors]".
Lemma failed_reload_stays_stored_witness :
  exists r p', demo_update "bad" = Ok (r, p') /\ status r = 500%Z /\
    dynamic p' = dynamic demo_plane /\ stored "bad" (store p').
Proof.
  refine (failed_reload_stays_stored (demo_surroundings "10.0.0.2:80") demo_toml [Ok "bad"] demo_plane "bad" "bad"
    (with_interceptors ["ghost"] [] [] sample_config) (Some "old") ghost_error _ _ _ _ _ _); reflexivity.
Defined.

Definition is_some {A} (o : option A) : bool := match o with Some _ => true | None => false end.
Lemma stale_rescan_reverts_reload_witness :
  exists st1 st2, raw_config st1 = "good" /\ raw_config st2 = "old" /\ version st2 = 1%Z /\
    rtc (swap_step (demo_surroundings "10.0.0.2:80")) (demo_state, None) (st1, Some demo_state) /\
    rtc (swap_step (demo_surroundings "10.0.0.2:80")) (st1, Some demo_state) (st2, None).
Proof.
  destruct (reload_config (demo_surroundings "10.0.0.2:80") demo_managed "good" demo_state demo_mworld)
    as [[st1 w1]|e] eqn:E1.
  2: { assert (Hok : is_ok (reload_config (demo_surroundings "10.0.0.2:80") demo_managed "good" demo_state demo_mworld) = true)
         by reflexivity. by rewrite E1 in Hok. }
  destruct (rescan_dns (demo_surroundings "10.0.0.2:80") 9 demo_state) as [st2|] eqn:E2.
  2: { assert (Hok : is_some (rescan_dns (demo_surroundings "10.0.0.2:80") 9 demo_state) = true) by reflexivity.
       by rewrite E2 in Hok. }
  destruct (stale_rescan_reverts_reload (demo_surroundings "10.0.0.2:80") demo_state demo_managed "good" demo_mworld
              st1 w1 9 st2 E1 E2) as (H1 & H2 & H3 & H4 & H5).
  exists st1, st2. split; [exact H3|]. split; [exact H4|]. split; [exact H5|]. split; [exact H1|exact H2].
Defined.
End Witnesses.
