(* ===== verification/Overlap.v ===== *)
(** * Overlap: updates, reloads and rescans of the running configuration side by side,
    [src/admin/mod.rs] and [src/gateway/composite_service.rs].

    A handler of the control plane is a task that goes on between its calls: the write to
    the store, the load of the running state, the build and the swap are steps of their
    own, and any number of tasks, the DNS refresher among them, take them in any order
    over one store and one cell. A write is one step in a store that makes it one; in
    the file store it begins and ends, and those that overlap may leave anything. A task
    that is alone is the handler of [State]; a history says what every step had before
    it. *)

From S2P Require Import Prelude Externals Serde Api Types Sanitizer Protocol Config ConfigStore Interceptors.
From S2P Require Import Auth Wasm Cel Manager State.
Local Open Scope string_scope.

Section Overlap.
Context `{HttpLib, JsonText, Unicode, GqlParser, LruLib, AuthLib, CelLib}.
Context {W : Type} `{Clocks W, WasmTypes, !WasmLib W}.
Context {SocketAddr : Type} `{EqDecision SocketAddr}.
Context {S : Type} `{!ConfigStore S}.
Context (parse_toml : string -> result string SpectraConfig).
Abbreviation running := (DynamicGatewayState (W := W) (SocketAddr := SocketAddr)).
Abbreviation surroundings := (surroundings (W := W) (SocketAddr := SocketAddr)).
Abbreviation plane := (plane (W := W) (SocketAddr := SocketAddr) (S := S)).
Implicit Types (e : surroundings) (st prev loaded : running) (p : plane) (text : string) (cfg : SpectraConfig).

(** ** Tasks *)

(** Where a text comes from: an update's body, or the store. *)
Inductive origin := Updated | FromStore.
(** What a handler has still to do.  A save in several steps goes on while it is [Writing];
    [alone] tells whether no other save has been going on meanwhile. *)
Inductive task :=
| Save text cfg (reload : bool)
| Writing text cfg (reload : bool) (alone : bool)
| Fetch
| Load (o : origin) text cfg
| Build (o : origin) text cfg prev
| Swap (o : origin) text prev st
| Skip text
| Rescan
| Resolve loaded
| Answered (r : response)
| Rescanned
| Broken (why : string).
(** What a step leaves in the history. *)
Inductive deed :=
| Begun text
| Saved text
| NotSaved text
| Garbled
| Torn text
| Fetched text
| Replaced text prev st
| Readdressed loaded st
| Told (r : response).

(** What is done before the first call that others can see.
    @admin/mod.rs:836-876 AdminEngine::handle_config_update *)
Definition start_update (authorized : bool) (chunks : list (result string string)) : task :=
  if negb authorized then Answered unauthorized_response
  else match read_body (Z.to_nat (2 * 1024 * 1024)) "" chunks with
  | Err why => Broken why
  | Ok b =>
      match requested b with
      | None => Answered (error_response 400 "Bad Request" "Request body is neither valid JSON nor valid UTF-8")
      | Some (text, reload) =>
          match parse_toml text with
          | Err why => Answered (error_response 400 "Invalid Configuration" (String.append "Configuration parsing error: " why))
          | Ok cfg => Save text cfg reload
          end
      end
  end.
(** @admin/mod.rs:939-946 AdminEngine::handle_config_reload *)
Definition start_reload (authorized : bool) : task := if authorized then Fetch else Answered unauthorized_response.

Definition message (o : origin) : string :=
  match o with
  | Updated => "Configuration saved and runtime hot-reloaded successfully"
  | FromStore => "Configuration reloaded from store and hot-swapped into gateway runtime"
  end.
Definition not_built (o : origin) (why : string) : response :=
  error_response 500 "Reload Error"
    (String.append (match o with
                    | Updated => "Configuration saved to store, but hot-reload failed: "
                    | FromStore => "Failed to apply configuration from store: "
                    end) why).
Definition swapped_response (o : origin) st : response :=
  success_response (version st) (config_hash st) (updated_at_epoch_ms st) true (message o).

Definition storage_error (why : string) : response :=
  error_response 500 "Storage Error" (String.append "Failed to persist configuration to store: " why).
(** The write of an update, by a store that writes in one step or whose save nobody else's
    has come across. @admin/mod.rs:878-887 AdminEngine::handle_config_update *)
Definition save_turn text cfg (reload : bool) p : task * plane * list deed :=
  let next := if reload then Load Updated text cfg else Skip text in
  match store p with
  | None => (next, p, [Saved text])
  | Some s =>
      let '(r, s) := save_config text s in
      let p := Plane (Some s) (dynamic p) (world p) in
      match r with
      | Ok _ => (next, p, [Saved text])
      | Err why => (Answered (storage_error why), p, [Told (storage_error why); NotSaved text])
      end
  end.
(** What a handler makes of the result of a save that others came across.
    @admin/mod.rs:878-887 AdminEngine::handle_config_update *)
Definition torn_turn text cfg (reload : bool) (r : result string unit) : task * list deed :=
  match r with
  | Ok _ => (if reload then Load Updated text cfg else Skip text, [Torn text])
  | Err why => (Answered (storage_error why), [Told (storage_error why); Torn text])
  end.
(** The read of a reload. @admin/mod.rs:948-991 AdminEngine::handle_config_reload *)
Definition fetch_turn p : task * plane * list deed :=
  let refused r := (Answered r, p, [Told r]) in
  match store p with
  | None => refused (error_response 400 "No Config Store" "No persistent config store is configured on this gateway instance")
  | Some s =>
      match load_config s with
      | Ok None => refused (error_response 404 "Not Found" "No configuration found in persistent store")
      | Err why => refused (error_response 500 "Storage Error" (String.append "Failed to read configuration from store: " why))
      | Ok (Some text) =>
          match parse_toml text with
          | Err why => refused (error_response 500 "Invalid Configuration In Store"
                                  (String.append "Configuration in store failed parsing: " why))
          | Ok cfg => (Load FromStore text cfg, p, [Fetched text])
          end
      end
  end.
(** One step of a task, up to its next call on what is shared. The names are resolved with
    what the resolver answers at the time.
    @admin/mod.rs:889-924 AdminEngine::handle_config_update *)
Definition turn e (t : task) p : task * plane * list deed :=
  match t with
  | Save text cfg reload | Writing text cfg reload _ => save_turn text cfg reload p
  | Fetch => fetch_turn p
  | Load o text cfg =>
      match dynamic p with
      | Some prev => (Build o text cfg prev, p, [])
      | None => let r := success_response 1 "untracked" 0 true (message o) in (Answered r, p, [Told r])
      end
  | Build o text cfg prev =>
      match reload_config e cfg text prev (world p) with
      | Ok (st, w) => (Swap o text prev st, Plane (store p) (dynamic p) w, [])
      | Err why => (Answered (not_built o why), p, [Told (not_built o why)])
      end
  | Swap o text prev st =>
      (Answered (swapped_response o st), Plane (store p) (Some st) (world p), [Told (swapped_response o st); Replaced text prev st])
  | Skip text =>
      let '(v, h, u) := running_tag p in
      let r := success_response v h u false "Configuration saved to store (hot-reload skipped)" in
      (Answered r, p, [Told r])
  | Rescan => (match dynamic p with Some st => Resolve st | None => Rescanned end, p, [])
  | Resolve loaded =>
      match rescan_dns e (now_ms e (world p)) loaded with
      | Some st => (Rescanned, Plane (store p) (Some st) (world p), [Readdressed loaded st])
      | None => (Rescanned, p, [])
      end
  | Answered _ | Rescanned | Broken _ => (t, p, [])
  end.

(** A task that nobody disturbs. *)
Fixpoint alone e (n : nat) (t : task) p : task * plane :=
  match n with
  | O => (t, p)
  | Datatypes.S n => let '(t, p, _) := turn e t p in alone e n t p
  end.
Definition finished (t : task) : bool := match t with Answered _ | Rescanned | Broken _ => true | _ => false end.
Lemma alone_finished e n t p : finished t = true -> alone e n t p = (t, p).
Proof. intros Ht. induction n as [|n IH]; [done|]. by destruct t. Qed.
(** The calls a task has left. *)
Definition calls (t : task) : nat :=
  match t with
  | Save _ _ _ | Writing _ _ _ _ | Fetch => 4
  | Load _ _ _ => 3
  | Build _ _ _ _ | Rescan => 2
  | Swap _ _ _ _ | Skip _ | Resolve _ => 1
  | Answered _ | Rescanned | Broken _ => 0
  end.
Lemma turn_calls e t p : (calls (fst (fst (turn e t p))) <= pred (calls t))%nat.
Proof.
  destruct t; cbn -[running_tag]; unfold save_turn, fetch_turn; repeat (case_match; simplify_eq/=); lia.
Qed.
Lemma finished_calls t : calls t = 0%nat -> finished t = true.
Proof. by destruct t. Qed.
Lemma alone_ends e n : forall t p, (calls t <= n)%nat -> finished (fst (alone e n t p)) = true.
Proof.
  induction n as [|n IH]; intros t p Hn; cbn; [apply finished_calls; lia|].
  pose proof (turn_calls e t p). destruct (turn e t p) as [[t' p'] ds]. apply IH. cbn in *. lia.
Qed.

(** Four steps of an undisturbed update are [State.handle_config_update]. *)
Lemma alone_update e authorized chunks p :
  alone e 4 (start_update authorized chunks) p =
  match handle_config_update e parse_toml authorized chunks p with
  | Ok (r, p') => (Answered r, p')
  | Err why => (Broken why, p)
  end.
Proof.
  unfold start_update, handle_config_update. destruct authorized; cbn [negb]; [|done].
  destruct (read_body _ _ _) as [b|]; [|done]. destruct (requested b) as [[text reload]|]; [|done].
  destruct (parse_toml text) as [cfg|]; [|done]. cbn -[running_tag]. unfold save_turn. destruct (store p) as [s|] eqn:Es.
  - destruct (save_config text s) as [[?|why] s']; [|done]. destruct reload; cbn -[running_tag].
    + unfold swap. cbn. destruct (dynamic p) as [prev|] eqn:Ed; cbn; [|done].
      by destruct (reload_config _ _ _ _ _) as [[st w]|].
    + by destruct (running_tag _) as [[v h] u].
  - destruct p as [o d w]. cbn in Es. subst o. destruct reload; cbn -[running_tag].
    + unfold swap. cbn -[running_tag]. destruct d as [prev|]; cbn; [|done]. by destruct (reload_config _ _ _ _ _) as [[st w']|].
    + by destruct (running_tag _) as [[v h] u].
Qed.

Lemma alone_reload e authorized p :
  alone e 4 (start_reload authorized) p =
  let '(r, p') := handle_config_reload e parse_toml authorized p in (Answered r, p').
Proof.
  unfold start_reload, handle_config_reload. destruct authorized; [|done]. cbn. unfold fetch_turn.
  destruct (store p) as [s|] eqn:Es; [|done]. destruct (load_config s) as [[text|]|]; [|done..].
  destruct (parse_toml text) as [cfg|]; [|done]. cbn. unfold swap. destruct (dynamic p) as [prev|] eqn:Ed; cbn.
  - destruct (reload_config _ _ _ _ _) as [[st w]|]; cbn; [|done]. by rewrite Es.
  - unfold running_tag. by rewrite Ed.
Qed.
Lemma alone_rescan e p :
  alone e 2 Rescan p =
  (Rescanned, match dynamic p ≫= rescan_dns e (now_ms e (world p)) with
              | Some st => Plane (store p) (Some st) (world p)
              | None => p
              end).
Proof.
  cbn. destruct (dynamic p) as [st|]; cbn; [|done]. by destruct (rescan_dns e _ st).
Qed.

(** ** Any number of tasks *)

(** The digest of a text is the same whoever computes it. *)
Variable sha : string -> string.
(** Whether the store writes in one step, as the databases do.  The file store does not: it
    fills a temporary file, one for all saves, and renames it ([Saving]). *)
Variable one_step : bool.
Record control := Control { shared : plane; tasks : gmap nat task; past : list (nat * deed) }.
(** A request comes or the refresher wakes up; a task makes its next call; the world goes
    on, requests and plug-ins being served meanwhile. *)
Inductive starts : task -> Prop :=
| update_starts authorized chunks : starts (start_update authorized chunks)
| reload_starts authorized : starts (start_reload authorized)
| rescan_starts : starts Rescan.
Definition is_writing (t : task) : bool := match t with Writing _ _ _ _ => true | _ => false end.
Definition came_across (t : task) : task :=
  match t with Writing text cfg reload _ => Writing text cfg reload false | _ => t end.
(** Nobody but [i] is writing. *)
Definition alone_in (ts : gmap nat task) (i : nat) : Prop := map_Forall (fun j t => j = i \/ is_writing t = false) ts.
(** A save is one step where the store makes it one, and at the end of one that nobody came
    across: until its rename the configuration file has not changed
    ([Saving.undisturbed_save]). *)
Definition in_one_step (t : task) p : Prop :=
  match t with
  | Save _ _ _ => one_step = true \/ store p = None
  | Writing _ _ _ undisturbed => undisturbed = true
  | _ => True
  end.
(** Where it is not, a save begins, and those that go on have come across each other; while
    one of these goes on the file may hold anything, and it ends with any result.
    @core/config_store.rs:104-123 FileConfigStore::save_config *)
Inductive control_step : control -> control -> Prop :=
| task_starts c i t : tasks c !! i = None -> starts t ->
    control_step c (Control (shared c) (<[i := t]> (tasks c)) (past c))
| task_turns c i e t t' p ds : tasks c !! i = Some t -> sha256_hex e = sha -> in_one_step t (shared c) ->
    turn e t (shared c) = (t', p, ds) ->
    control_step c (Control p (<[i := t']> (tasks c)) (map (pair i) ds ++ past c))
| save_begins c i text cfg reload alone : tasks c !! i = Some (Save text cfg reload) -> one_step = false ->
    (alone = true <-> alone_in (tasks c) i) ->
    control_step c (Control (shared c) (<[i := Writing text cfg reload alone]> (came_across <$> tasks c)) ((i, Begun text) :: past c))
| save_garbles c i text cfg reload s s' : tasks c !! i = Some (Writing text cfg reload false) -> store (shared c) = Some s ->
    control_step c (Control (Plane (Some s') (dynamic (shared c)) (world (shared c))) (tasks c) ((i, Garbled) :: past c))
| save_tears c i text cfg reload s s' r t' ds : tasks c !! i = Some (Writing text cfg reload false) -> store (shared c) = Some s ->
    torn_turn text cfg reload r = (t', ds) ->
    control_step c (Control (Plane (Some s') (dynamic (shared c)) (world (shared c))) (<[i := t']> (tasks c)) (map (pair i) ds ++ past c))
| world_turns c w : control_step c (Control (Plane (store (shared c)) (dynamic (shared c)) w) (tasks c) (past c)).

(** The state that a history leaves running, those that have been running, and what a
    read of the store answers after it. Histories are newest first. *)
Section Past.
Variable first : plane.
Definition swapped_in (d : deed) : option running :=
  match d with Replaced _ _ st | Readdressed _ st => Some st | _ => None end.
Fixpoint running_after (l : list (nat * deed)) : option running :=
  match l with
  | [] => dynamic first
  | (_, d) :: l => match swapped_in d with Some st => Some st | None => running_after l end
  end.
Definition has_run (l : list (nat * deed)) st : Prop :=
  dynamic first = Some st \/ exists i d, (i, d) ∈ l /\ swapped_in d = Some st.
Fixpoint read_after (l : list (nat * deed)) (r : result string (option string)) : Prop :=
  match l with
  | [] => match store first with Some s => r = load_config s | None => True end
  | (_, Saved text) :: _ => r = Ok (Some text)
  | (_, NotSaved text) :: l => r = Ok (Some text) \/ read_after l r
  | (_, Garbled) :: _ | (_, Torn _) :: _ => True
  | _ :: l => read_after l r
  end.

(** A state that is the text's, whole: its digest, names, routes, applications and
    interceptors are those of one configuration, and every upstream has an address. *)
Definition whole text st : Prop :=
  raw_config st = text /\ config_hash st = sha text /\ dom (named_upstreams st) = dom (upstream_targets st) /\
  exists cfg, parse_toml text = Ok cfg /\ dns_config st = dns cfg /\ dy_mode_a st = mode_a (gql cfg) /\
    dy_routes st = routes (gql cfg) /\ dy_apps st = apps cfg /\ dy_default_app st = default_app cfg /\
    telemetry_config st = error_capture cfg /\
    (exists resolve (ups : gmap string SocketAddr), resolve_all_upstreams_with_targets resolve cfg = Ok (ups, upstream_targets st)) /\
    exists e w w', from_config (proc e) cfg (json_error e) w = Ok (interceptor_manager st, w').
(** Only addresses and the time differ. *)
Definition readdressed loaded st : Prop :=
  st = Dynamic (named_upstreams st) (upstream_targets loaded) (dns_config loaded) (dy_mode_a loaded) (dy_routes loaded)
         (dy_apps loaded) (dy_default_app loaded) (interceptor_manager loaded) (telemetry_config loaded)
         (raw_config loaded) (version loaded) (updated_at_epoch_ms st) (config_hash loaded) /\
  dom (named_upstreams loaded) ⊆ dom (named_upstreams st) /\
  dom (named_upstreams st) ⊆ dom (named_upstreams loaded) ∪ dom (upstream_targets loaded).
(** A save goes on; and it has come across another: one of the two began while the other went on. *)
Definition ends (d : deed) : bool := match d with Saved _ | NotSaved _ | Torn _ => true | _ => false end.
Definition unended (l : list (nat * deed)) (i : nat) : Prop := forall d, ends d = true -> (i, d) ∉ l.
Definition going_on (l : list (nat * deed)) (i : nat) : Prop := (exists text, (i, Begun text) ∈ l) /\ unended l i.
Definition overlapped (l : list (nat * deed)) (i : nat) : Prop :=
  exists j k newer text older, j <> i /\ l = (newer ++ (k, Begun text) :: older)%list /\
    (k = i /\ going_on older j \/ k = j /\ going_on older i).
(** A text was written, or read, by a task. *)
Definition wrote (l : list (nat * deed)) (i : nat) text : Prop := (i, Saved text) ∈ l \/ (i, Torn text) ∈ l.
Definition got (l : list (nat * deed)) (i : nat) text : Prop := wrote l i text \/ (i, Fetched text) ∈ l.
(** What an answer of success says: the state that was swapped in by the same task, or,
    without a swap, the one that runs. *)
Definition tells (older : list (nat * deed)) (i : nat) (r : response) : Prop :=
  (exists o text prev st, (i, Replaced text prev st) ∈ older /\ r = swapped_response o st) \/
  (exists o, running_after older = None /\ r = success_response 1 "untracked" 0 true (message o)) \/
  (exists text v h u m, wrote older i text /\ r = success_response v h u false m /\
     match running_after older with
     | Some st => v = version st /\ h = config_hash st /\ u = updated_at_epoch_ms st
     | None => v = 1%Z /\ h = "untracked" /\ u = 0%Z
     end).
(** Every step as the history before it says: what a save leaves in the store is not its own
    text only when it came across another; a reload reads what the store holds; a
    state that is swapped in is whole, its text was saved or read by the same task, and
    its version follows that of a state that has run; a rescan gives addresses to a state
    that has run; an answer of success tells what the task did. *)
Definition explains (older : list (nat * deed)) (i : nat) (d : deed) : Prop :=
  match d with
  | Saved text | NotSaved text => is_ok (parse_toml text) = true
  | Begun text => is_ok (parse_toml text) = true /\ one_step = false
  | Garbled => overlapped older i
  | Torn text => is_ok (parse_toml text) = true /\ overlapped older i
  | Fetched text => read_after older (Ok (Some text))
  | Replaced text prev st =>
      got older i text /\ whole text st /\
      has_run older prev /\ version st = Int.wrap 64 (version prev + 1)
  | Readdressed loaded st => has_run older loaded /\ readdressed loaded st
  | Told r => status r = 200%Z -> tells older i r
  end.
Fixpoint explained (l : list (nat * deed)) : Prop :=
  match l with
  | [] => True
  | (i, d) :: older => explains older i d /\ explained older
  end.
(** What a task knows. *)
Definition knows (l : list (nat * deed)) (i : nat) (t : task) : Prop :=
  match t with
  | Save text cfg _ => parse_toml text = Ok cfg /\ unended l i
  | Writing text cfg _ alone => parse_toml text = Ok cfg /\ going_on l i /\ (alone = false -> overlapped l i)
  | Load _ text cfg => parse_toml text = Ok cfg /\ got l i text
  | Build _ text cfg prev => parse_toml text = Ok cfg /\ got l i text /\ has_run l prev
  | Swap _ text prev st =>
      got l i text /\ has_run l prev /\ whole text st /\ version st = Int.wrap 64 (version prev + 1)
  | Skip text => wrote l i text
  | Resolve loaded => has_run l loaded
  | _ => True
  end.

(** A state that is built is its text's, whole. *)
Lemma add_upstream_doms name (a : SocketAddr) addr t : dom (fst t) = dom (snd t) ->
  dom (fst (add_upstream name a addr t)) = dom (snd (add_upstream name a addr t)).
Proof. intros Ht. cbn. by rewrite !dom_insert_L, Ht. Qed.
Lemma add_alias_doms name (a : SocketAddr) addr t : dom (fst t) = dom (snd t) ->
  dom (fst (add_alias name a addr t)) = dom (snd (add_alias name a addr t)).
Proof. unfold add_alias. case_match; [apply add_upstream_doms|done]. Qed.
Lemma resolved_doms resolve cfg (ups : gmap string SocketAddr) targets :
  resolve_all_upstreams_with_targets resolve cfg = Ok (ups, targets) -> dom ups = dom targets.
Proof.
  unfold resolve_all_upstreams_with_targets. destruct (first_addr _ _ _) as [a|]; [|done]. cbn [mbind result_bind].
  assert (Hgo : forall l t t', dom (fst t) = dom (snd t) -> fold_left (add_named resolve) l (Ok t) = Ok t' ->
    dom (fst t') = dom (snd t')).
  { induction l as [|x l IH]; intros t t' Ht; [by intros [= <-]|]. cbn [fold_left]. unfold add_named at 2. cbn [mbind result_bind].
    destruct (first_addr _ _ _) as [b|w]; cbn [mbind result_bind].
    - apply IH. by apply add_alias_doms, add_upstream_doms.
    - intros He. exfalso. clear -He. induction l as [|y l IH]; [done|by apply IH]. }
  intros Hf. apply (Hgo _ _ _) in Hf; [done|]. by apply add_alias_doms, add_upstream_doms.
Qed.
Lemma built_whole e cfg text prev w st w' : parse_toml text = Ok cfg -> sha256_hex e = sha ->
  reload_config e cfg text prev w = Ok (st, w') -> whole text st /\ version st = Int.wrap 64 (version prev + 1).
Proof.
  intros Hp Hs. unfold reload_config, new_from_config.
  destruct (resolve_all_upstreams_with_targets _ _) as [[ups targets]|] eqn:Er; [|done].
  destruct (from_config _ _ _ _) as [[m w1]|] eqn:Em; [|done]. intros [= <- _]. split; [|done].
  split_and!; [done|by rewrite <- Hs|by eapply resolved_doms|]. exists cfg.
  split_and!; [done..|by eexists _, _|by eexists _, _, _].
Qed.
Lemma rescan_readdresses e now loaded st : rescan_dns e now loaded = Some st -> readdressed loaded st.
Proof.
  intros Hr. pose proof (rescan_dns_spec e now loaded) as Hs. rewrite Hr in Hs. destruct Hs as [Hn He].
  assert (Hu : updated_at_epoch_ms st = now) by (by rewrite He). split; [by rewrite Hu|].
  split; intros name; rewrite ?elem_of_union, !elem_of_dom, Hn.
  - destruct (upstream_targets loaded !! name) as [t|]; cbn; [|done]. by destruct (resolved e t).
  - destruct (upstream_targets loaded !! name) as [t|]; cbn; [|by left]. intros _. by right.
Qed.

(** ** The history of the control plane *)

Lemma run_grows l l' st : has_run l st -> has_run (l' ++ l) st.
Proof. intros [?|(i & d & Hin & Hs)]; [by left|]. right. exists i, d. split; [|done]. apply elem_of_app. by right. Qed.
Lemma wrote_grows l l' i text : wrote l i text -> wrote (l' ++ l) i text.
Proof. intros [?|?]; [left|right]; apply elem_of_app; by right. Qed.
Lemma got_grows l l' i text : got l i text -> got (l' ++ l) i text.
Proof. intros [?|?]; [left; by apply wrote_grows|right; apply elem_of_app; by right]. Qed.
Lemma unended_grows l l' i : unended l i -> unended l' i -> unended (l' ++ l) i.
Proof. intros Hl Hl' d Hd [Hin|Hin]%elem_of_app; [by eapply Hl'|by eapply Hl]. Qed.
Lemma going_on_grows l l' i : going_on l i -> unended l' i -> going_on (l' ++ l) i.
Proof. intros [[text Hb] Hu] Hl'. split; [exists text; apply elem_of_app; by right|by apply unended_grows]. Qed.
Lemma overlapped_grows l l' i : overlapped l i -> overlapped (l' ++ l) i.
Proof.
  intros (j & k & newer & text & older & Hj & -> & Ho). exists j, k, (l' ++ newer)%list, text, older.
  by rewrite <- app_assoc.
Qed.
Lemma knows_grows l l' i t : unended l' i -> knows l i t -> knows (l' ++ l) i t.
Proof.
  intros Hl'. destruct t; cbn; try done.
  - intros [? ?]. eauto using unended_grows.
  - intros (? & ? & ?). eauto 6 using going_on_grows, overlapped_grows.
  - intros [? ?]. eauto using got_grows.
  - intros (? & ? & ?). eauto using got_grows, run_grows.
  - intros (? & ? & ? & ?). eauto 7 using got_grows, run_grows.
  - apply wrote_grows.
  - apply run_grows.
Qed.
Lemma unended_others i j ds : j <> i -> unended (map (pair i) ds) j.
Proof. intros Hne d _ Hin%list_elem_of_In%in_map_iff. destruct Hin as (d' & [= <- <-] & _). done. Qed.
Lemma running_has_run l st : running_after l = Some st -> has_run l st.
Proof.
  induction l as [|[i d] l IH]; cbn; [by left|]. destruct (swapped_in d) eqn:Ed.
  - intros [= <-]. right. exists i, d. split; [apply list_elem_of_here|done].
  - intros Hr%IH. by apply (run_grows l [(i, d)]).
Qed.

(** The store and the cell are what the history says. *)
Definition agrees p (l : list (nat * deed)) : Prop :=
  dynamic p = running_after l /\
  match store p, store first with
  | Some s, Some _ => read_after l (load_config s)
  | None, None => True
  | _, _ => False
  end.
(** What one step has to show. *)
Definition accounted (l : list (nat * deed)) (i : nat) (out : task * plane * list deed) : Prop :=
  let '(t', p', ds) := out in
  agrees p' (map (pair i) ds ++ l) /\ explained (map (pair i) ds ++ l) /\ knows (map (pair i) ds ++ l) i t'.
Lemma quietly_accounted l i t' p : agrees p l -> explained l -> knows l i t' -> accounted l i (t', p, []).
Proof. by intros. Qed.
Lemma refusal_accounted l i r p : agrees p l -> explained l -> status r <> 200%Z -> accounted l i (Answered r, p, [Told r]).
Proof. intros Ha He Hr. split_and!; try done. all: cbn; by destruct Ha. Qed.

Lemma save_accounted l i text cfg reload p : agrees p l -> explained l -> parse_toml text = Ok cfg ->
  accounted l i (save_turn text cfg reload p).
Proof.
  intros [Hd Hs] He Hp. assert (Hok : is_ok (parse_toml text) = true) by by rewrite Hp.
  assert (Hnext : forall s, agrees (Plane s (dynamic p) (world p)) ((i, Saved text) :: l) ->
    accounted l i (if reload then Load Updated text cfg else Skip text, Plane s (dynamic p) (world p), [Saved text])).
  { intros s Ha. split; [done|]. split; [done|]. destruct reload; cbn; [split; [done|left; left]|left]; apply list_elem_of_here. }
  unfold save_turn. destruct p as [o d w]; cbn in *. destruct o as [s|].
  - destruct (store first) as [s0|] eqn:Ef; [|done]. pose proof (save_ok text s) as Hsave.
    pose proof (save_atomic text s) as Hatom. destruct (save_config text s) as [[[]|why] s']; cbn in *.
    + apply Hnext. split; [done|]. cbn. rewrite Ef. by apply Hsave.
    + split; [split; [done|]|by split_and!]. cbn. rewrite Ef. destruct Hatom as [->| ->]; [by left|by right].
  - apply Hnext. split; [done|]. cbn. by destruct (store first).
Qed.
Lemma fetch_accounted l i p : agrees p l -> explained l -> accounted l i (fetch_turn p).
Proof.
  intros Ha He. unfold fetch_turn. destruct (store p) as [s|] eqn:Es; [|by apply refusal_accounted].
  destruct (load_config s) as [[text|]|why] eqn:El; try by apply refusal_accounted.
  destruct (parse_toml text) as [cfg|] eqn:Ep; [|by apply refusal_accounted].
  destruct Ha as [Hd Hs]. rewrite Es in Hs. destruct (store first) as [s0|] eqn:Ef; [|done]. rewrite El in Hs.
  split; [|split].
  - split; [done|]. rewrite Es, Ef. cbn. by rewrite El.
  - by split.
  - split; [done|]. right. apply list_elem_of_here.
Qed.
Lemma skip_accounted e l i text p : agrees p l -> explained l -> wrote l i text ->
  accounted l i (turn e (Skip text) p).
Proof.
  intros Ha He Hin. cbn -[running_tag]. destruct (running_tag p) as [[v h] u] eqn:Et.
  split; [by destruct Ha|]. split; [|done]. split; [|done]. intros _. right; right.
  exists text, v, h, u. eexists. split; [done|]. split; [done|]. destruct Ha as [Hd _]. unfold running_tag in Et. rewrite Hd in Et.
  cbn [map app]. destruct (running_after l) as [st|]; injection Et as <- <- <-; by split_and!.
Qed.
Lemma turn_accounted e l i t p : agrees p l -> explained l -> knows l i t -> sha256_hex e = sha ->
  accounted l i (turn e t p).
Proof.
  intros Ha He Hk Hsha. pose proof Ha as [Hd Hs]. destruct t as [text cfg reload|text cfg reload alone| |o text cfg|o text cfg prev|o text prev st|text| |loaded|r| |why].
  - destruct Hk as [Hp _]. by apply save_accounted.
  - destruct Hk as [Hp _]. by apply save_accounted.
  - by apply fetch_accounted.
  - destruct Hk as [Hp Hg]. cbn. destruct (dynamic p) as [prev|] eqn:Edyn.
    + apply quietly_accounted; [done..|]. cbn. split_and!; [done..|]. by apply running_has_run.
    + split; [done|]. split; [|done]. split; [|done]. intros _. right; left. by exists o.
  - destruct Hk as (Hp & Hg & Hr). cbn. destruct (reload_config _ _ _ _ _) as [[st w]|] eqn:Eb.
    + destruct (built_whole _ _ _ _ _ _ _ Hp Hsha Eb). apply quietly_accounted; [by split|done|]. by cbn.
    + apply refusal_accounted; by try destruct o.
  - destruct Hk as (Hg & Hr & Hw & Hv). cbn. split; [by split|]. split; [|done]. split; [|done].
    intros _. left. exists o, text, prev, st. split; [apply list_elem_of_here|done].
  - by apply skip_accounted.
  - cbn. apply quietly_accounted; [done..|]. destruct (dynamic p) as [st|] eqn:Edyn; [|done]. by apply running_has_run.
  - cbn. destruct (rescan_dns e _ loaded) as [st|] eqn:Er; [|by apply quietly_accounted].
    split; [by split|]. split; [|done]. split; [|done]. split; [done|]. by eapply rescan_readdresses.
  - by apply quietly_accounted.
  - by apply quietly_accounted.
  - by apply quietly_accounted.
Qed.

(** A save that others came across leaves anything and answers anything. *)
Lemma torn_accounted l i text cfg reload s s' r t' ds p : agrees p l -> explained l -> store p = Some s ->
  knows l i (Writing text cfg reload false) -> torn_turn text cfg reload r = (t', ds) ->
  accounted l i (t', Plane (Some s') (dynamic p) (world p), ds).
Proof.
  intros [Hd Hs] He Hst (Hp & _ & Ho) Ht. rewrite Hst in Hs. destruct (store first) as [s0|] eqn:Ef; [|done].
  assert (Hok : is_ok (parse_toml text) = true) by by rewrite Hp. specialize (Ho eq_refl).
  destruct r as [u|why]; injection Ht as <- <-; cbn [map app].
  - split; [split; [done|by cbn; rewrite Ef]|]. split; [by split|].
    destruct reload; cbn; [split; [done|left; right]|right]; apply list_elem_of_here.
  - split; [split; [done|by cbn; rewrite Ef]|]. split; [|done]. by split.
Qed.
Lemma garbled_accounted l i text cfg reload s s' p : agrees p l -> explained l -> store p = Some s ->
  knows l i (Writing text cfg reload false) ->
  agrees (Plane (Some s') (dynamic p) (world p)) ((i, Garbled) :: l) /\ explained ((i, Garbled) :: l).
Proof.
  intros [Hd Hs] He Hst (Hp & _ & Ho). rewrite Hst in Hs. destruct (store first) as [s0|] eqn:Ef; [|done].
  split; [split; [done|by cbn; rewrite Ef]|]. split; [by apply Ho|done].
Qed.

Definition recorded (c : control) : Prop :=
  agrees (shared c) (past c) /\ explained (past c) /\ map_Forall (fun i t => knows (past c) i t) (tasks c) /\
  forall i d, (i, d) ∈ past c -> is_Some (tasks c !! i).
Lemma start_knows l i t : starts t -> (forall d, (i, d) ∉ l) -> knows l i t.
Proof.
  intros Ht Hl. destruct Ht as [authorized chunks|[]|]; try done. unfold start_update. destruct (negb authorized); [done|].
  destruct (read_body _ _ _) as [b|]; [|done]. destruct (requested b) as [[text reload]|]; [|done].
  destruct (parse_toml text) eqn:Ep; [|done]. split; [done|]. intros d _. apply Hl.
Qed.
(** One task goes on, with its deeds, the others as they were. *)
Lemma tasks_recorded c i t t' ds p : recorded c -> tasks c !! i = Some t -> accounted (past c) i (t', p, ds) ->
  recorded (Control p (<[i := t']> (tasks c)) (map (pair i) ds ++ past c)).
Proof.
  intros (_ & _ & Hk & Hin) Hi (Ha & He & Hkt). split; [done|]. split; [done|]. split; cbn.
  - intros j t1. destruct (decide (j = i)) as [->|Hne]; [rewrite lookup_insert_eq; by intros [= <-]|].
    rewrite lookup_insert_ne by done. intros Hj. apply knows_grows; [by apply unended_others|by apply Hk].
  - intros j d [Hj|Hj]%elem_of_app.
    + apply list_elem_of_In, in_map_iff in Hj as (d' & [= <- <-] & _). rewrite lookup_insert_eq. by eexists.
    + destruct (decide (j = i)) as [->|]; [rewrite lookup_insert_eq; by eexists|]. rewrite lookup_insert_ne by done. by eapply Hin.
Qed.
(** Those that came across a save that begins go on. *)
Lemma begins_recorded c i text cfg reload alone : recorded c -> tasks c !! i = Some (Save text cfg reload) -> one_step = false ->
  (alone = true <-> alone_in (tasks c) i) ->
  recorded (Control (shared c) (<[i := Writing text cfg reload alone]> (came_across <$> tasks c)) ((i, Begun text) :: past c)).
Proof.
  intros ([Hd Hs] & He & Hk & Hin) Hi Hone Halone. destruct (Hk i _ Hi) as [Hp Hu].
  assert (Hok : is_ok (parse_toml text) = true) by by rewrite Hp.
  assert (Hone1 : forall j, unended [(i, Begun text)] j) by (intros j d Hd' [= _ ->]%list_elem_of_singleton; done).
  split; [done|]. split; [by split|]. split; cbn.
  - intros j t. destruct (decide (j = i)) as [->|Hne].
    + rewrite lookup_insert_eq. intros [= <-]. split; [done|]. split.
      { split; [exists text; apply list_elem_of_here|]. by apply (unended_grows _ [(i, Begun text)]). }
      intros ->. destruct (decide (alone_in (tasks c) i)) as [Hal|Hal]; [by apply Halone in Hal|].
      apply map_not_Forall in Hal as (j & t & Hj & Hw); [|intros; apply _].
      destruct (decide (j = i)) as [->|Hne]; [by destruct Hw; left|]. destruct t; try by destruct Hw; right. destruct (Hk j _ Hj) as (_ & Hg & _).
      exists j, i, [], text, (past c). split; [done|]. split; [done|]. by left.
    + rewrite lookup_insert_ne, lookup_fmap by done. destruct (tasks c !! j) as [tj|] eqn:Ej; [|done]. intros [= <-].
      specialize (Hk j _ Ej). apply (knows_grows _ [(i, Begun text)]) in Hk as Hk'; [|done].
      destruct tj; try exact Hk'. destruct Hk as (Hpj & Hgj & _). destruct Hk' as (_ & Hg' & _).
      split; [done|]. split; [done|]. intros _. exists i, i, [], text, (past c). split; [done|]. split; [done|]. by right.
  - intros j d [[= -> ->]|Hj]%elem_of_cons; [rewrite lookup_insert_eq; by eexists|].
    destruct (decide (j = i)) as [->|]; [rewrite lookup_insert_eq; by eexists|].
    rewrite lookup_insert_ne, lookup_fmap by done. apply fmap_is_Some. by eapply Hin.
Qed.
Lemma step_recorded c c' : recorded c -> control_step c c' -> recorded c'.
Proof.
  intros Hc Hs. revert Hc.
  destruct Hs as [c0 i t Hi Hst|c0 i e t t' p ds Hi Hsha _ Ht|c0 i text cfg reload alone Hi Hone Hal
    |c0 i text cfg reload s s' Hi Hst|c0 i text cfg reload s s' r t' ds Hi Hst Ht|c0 w]; intros Hc; pose proof Hc as (Ha & He & Hk & Hin).
  - assert (Hno : forall d, (i, d) ∉ past c0) by (intros d Hd; apply Hin in Hd; rewrite Hi in Hd; by destruct Hd).
    split; [done|]. split; [done|]. split; [apply map_Forall_insert_2; [by apply start_knows|done]|].
    intros j d Hj. cbn. destruct (decide (j = i)) as [->|]; [rewrite lookup_insert_eq; by eexists|].
    rewrite lookup_insert_ne by done. by eapply Hin.
  - eapply tasks_recorded; [done|exact Hi|]. rewrite <- Ht. apply turn_accounted; [done..|by apply Hk|done].
  - by eapply begins_recorded.
  - destruct (garbled_accounted (past c0) i text cfg reload s s' (shared c0) Ha He Hst (Hk i _ Hi)) as [Ha' He'].
    split; [done|]. split; [done|]. split; cbn.
    + intros j t Hj. apply (knows_grows _ [(i, Garbled)]); [intros d Hd [= _ ->]%list_elem_of_singleton; done|by apply Hk].
    + intros j d [[= -> ->]|Hj]%elem_of_cons; [by eexists|by eapply Hin].
  - eapply tasks_recorded; [done|exact Hi|]. eapply torn_accounted; [done..|by apply Hk|done].
  - split; [by destruct Ha|by split_and!].
Qed.
Lemma reachable_recorded c : rtc control_step (Control first ∅ []) c -> recorded c.
Proof.
  apply (rtc_ind_r (fun c => recorded c)).
  - split; [|split; [done|split; [apply map_Forall_empty|by intros i d ?%elem_of_nil]]]. split; [done|]. cbn. by destruct (store first).
  - intros c1 c2 _ Hs IH. by eapply step_recorded.
Qed.
(** A store that writes in one step is never torn. *)
Lemma never_torn l i d : one_step = true -> explained l -> (i, d) ∈ l ->
  match d with Begun _ | Garbled | Torn _ => False | _ => True end.
Proof.
  intros Hone. assert (Hbeg : forall l, explained l -> forall j text, (j, Begun text) ∉ l).
  { clear l i d. induction l as [|[i d] l IH]; [by intros _ ?? ?%elem_of_nil|]. intros [Hx He] j text [[= -> <-]|Hin]%elem_of_cons.
    - destruct Hx as [_ Hx]. congruence.
    - by eapply IH. }
  assert (Hov : forall l j, explained l -> ~ overlapped l j).
  { intros l' j He (j' & k & newer & text & older & _ & -> & _). apply (Hbeg _ He k text).
    apply elem_of_app. right. apply list_elem_of_here. }
  induction l as [|[j d'] l IH]; [by intros _ ?%elem_of_nil|]. intros [Hx He] [[= -> ->]|Hin]%elem_of_cons; [|by apply IH].
  destruct d'; try done; cbn in Hx; [destruct Hx; congruence|by eapply Hov|destruct Hx; by eapply Hov].
Qed.

(** What has run is the text's, whole, when the first state is. *)
Lemma readdressed_same loaded st : readdressed loaded st ->
  raw_config st = raw_config loaded /\ version st = version loaded.
Proof. intros [He _]. rewrite He. done. Qed.
Lemma readdressed_whole text loaded st : readdressed loaded st -> whole text loaded -> whole text st.
Proof.
  intros (He & Hl & Hu) (Hr & Hh & Hd & Hcfg). rewrite He. split_and!; cbn; [done..| |done].
  apply set_eq. intros name. rewrite <- Hd in Hu |- *. specialize (Hl name). specialize (Hu name). set_solver.
Qed.
Lemma ran_whole l st : (forall st0, dynamic first = Some st0 -> whole (raw_config st0) st0) -> explained l -> has_run l st ->
  whole (raw_config st) st.
Proof.
  intros Hv0. revert st. induction l as [|[i d] l IH]; intros st; [intros _ [?|(i & d & []%elem_of_nil & _)]; by apply Hv0|].
  intros [Hd He] [?|(j & d' & [[= -> ->]|Hin]%elem_of_cons & Hs)]; [by apply Hv0| |].
  - destruct d; cbn in Hs; try done; injection Hs as ->; cbn in Hd.
    + destruct Hd as (_ & Hw & _). assert (Hr : raw_config st = text) by apply Hw. by rewrite Hr.
    + destruct Hd as [Hl Hr]. destruct (readdressed_same _ _ Hr) as [-> _]. eapply readdressed_whole; [done|]. by apply IH.
  - apply IH; [done|]. right. by exists j, d'.
Qed.
(** Versions count the swaps, or fewer. *)
Definition replaced (x : nat * deed) : bool := match snd x with Replaced _ _ _ => true | _ => false end.
Definition swaps (l : list (nat * deed)) : Z := Z.of_nat (length (List.filter replaced l)).
Lemma version_bound l st st0 : explained l -> dynamic first = Some st0 ->
  (0 <= version st0)%Z -> (version st0 + swaps l < 2 ^ 64)%Z -> has_run l st ->
  (version st0 <= version st <= version st0 + swaps l)%Z.
Proof.
  intros He Hf Hv0. unfold swaps. revert st. induction l as [|[i d] l IH]; intros st Hlt.
  - intros [Hr|(i & d & []%elem_of_nil & _)]. assert (st = st0) as -> by congruence. cbn. lia.
  - destruct He as [Hd He]. assert (Hcnt : (length (List.filter replaced l) <= length (List.filter replaced ((i, d) :: l)))%nat).
    { cbn. destruct (replaced _); cbn; lia. }
    specialize (IH He). intros [?|(j & d' & [[= -> ->]|Hin]%elem_of_cons & Hs)].
    + assert (st = st0) as -> by congruence. lia.
    + destruct d; cbn in Hs; try done; injection Hs as ->; cbn in Hd, Hlt, Hcnt |- *.
      * destruct Hd as (_ & _ & Hrun & ->). specialize (IH _ ltac:(lia) Hrun). unfold Int.wrap. rewrite Z.mod_small; lia.
      * destruct Hd as [Hrun Hr]. destruct (readdressed_same _ _ Hr) as [_ ->]. specialize (IH _ ltac:(lia) Hrun). lia.
    + specialize (IH st ltac:(lia) ltac:(by right; exists j, d')). lia.
Qed.
End Past.
#[local] Hint Resolve list_elem_of_here : core.

(** A task that is alone, among others that wait, where a save is one step. *)
Lemma in_one_step_writes t p : one_step = true -> is_writing t = false -> in_one_step t p.
Proof. destruct t; cbn; auto; done. Qed.
Lemma turn_not_writing e t p : is_writing (fst (fst (turn e t p))) = false \/ finished t = true.
Proof. destruct t; cbn -[running_tag]; auto; unfold save_turn, fetch_turn; repeat case_match; auto. Qed.
Lemma alone_runs e n : one_step = true -> forall i t c, tasks c !! i = Some t -> is_writing t = false -> sha256_hex e = sha ->
  exists l, rtc control_step c (Control (snd (alone e n t (shared c))) (<[i := fst (alone e n t (shared c))]> (tasks c)) l).
Proof.
  intros Hone. induction n as [|n IH]; intros i t c Hi Hw Hsha.
  - exists (past c). cbn. rewrite insert_id by done. by destruct c.
  - cbn. pose proof (turn_not_writing e t (shared c)) as Hw'. destruct (turn e t (shared c)) as [[t' p] ds] eqn:Et.
    assert (Hwt : is_writing t' = false).
    { destruct Hw' as [?|Hf]; [done|]. destruct t; try done; by injection Et as <- _ _. }
    destruct (IH i t' (Control p (<[i := t']> (tasks c)) (map (pair i) ds ++ past c)) (lookup_insert_eq _ _ _) Hwt Hsha) as [l Hl].
    exists l. eapply rtc_l; [by eapply task_turns; [..|apply in_one_step_writes|]|]. cbn in Hl. by rewrite insert_insert_eq in Hl.
Qed.
Lemma started_runs e n i t c : one_step = true -> tasks c !! i = None -> starts t -> sha256_hex e = sha ->
  exists l, rtc control_step c (Control (snd (alone e n t (shared c))) (<[i := fst (alone e n t (shared c))]> (tasks c)) l).
Proof.
  intros Hone Hi Ht Hsha. assert (Hw : is_writing t = false).
  { destruct Ht as [authorized chunks|[]|]; try done. unfold start_update. by repeat case_match. }
  destruct (alone_runs e n Hone i t (Control (shared c) (<[i := t]> (tasks c)) (past c)) (lookup_insert_eq _ _ _) Hw Hsha) as [l Hl].
  exists l. eapply rtc_l; [by apply task_starts|]. cbn in Hl. by rewrite insert_insert_eq in Hl.
Qed.

(** The handlers, in one piece, are runs of the machine. *)
Lemma handlers_are_runs e i c authorized chunks : one_step = true -> tasks c !! i = None -> sha256_hex e = sha ->
  (exists l, rtc control_step c
     (match handle_config_update e parse_toml authorized chunks (shared c) with
      | Ok (r, p) => Control p (<[i := Answered r]> (tasks c)) l
      | Err why => Control (shared c) (<[i := Broken why]> (tasks c)) l
      end)) /\
  (exists l, rtc control_step c
     (let '(r, p) := handle_config_reload e parse_toml authorized (shared c) in Control p (<[i := Answered r]> (tasks c)) l)) /\
  (exists l, rtc control_step c
     (Control (match dynamic (shared c) ≫= rescan_dns e (now_ms e (world (shared c))) with
               | Some st => Plane (store (shared c)) (Some st) (world (shared c))
               | None => shared c
               end) (<[i := Rescanned]> (tasks c)) l)).
Proof.
  intros Hone Hi Hsha. split_and!.
  - destruct (started_runs e 4 i _ c Hone Hi (update_starts authorized chunks) Hsha) as [l Hl]. exists l.
    rewrite alone_update in Hl. by destruct (handle_config_update _ _ _ _ _) as [[r p]|].
  - destruct (started_runs e 4 i _ c Hone Hi (reload_starts authorized) Hsha) as [l Hl]. exists l.
    rewrite alone_reload in Hl. by destruct (handle_config_reload _ _ _ _) as [r p].
  - destruct (started_runs e 2 i _ c Hone Hi rescan_starts Hsha) as [l Hl]. exists l. by rewrite alone_rescan in Hl.
Qed.

(** C24. However updates, reloads and rescans overlap, and whatever the world does meanwhile:
    the store and the running state are what the history of their writes says, every
    entry of which is accounted for by those before it. A store that writes in one step
    is never torn; in the file store, whose saves share one temporary file (that is not
    the configuration itself), a save leaves
    something else than its whole text only when it came across another, one of the two
    having begun while the other went on, and then anything. When the first state is
    whole, so is the one that runs: its text, digest, routes, applications and
    interceptors are of one configuration and each of its upstreams has an address. As
    long as the first version and the number of swaps together stay below 2^64, where
    versions wrap, the version never falls below the first one and counts no more than
    the swaps. *)
Theorem control_plane_history first c : rtc control_step (Control first ∅ []) c ->
  agrees first (shared c) (past c) /\ explained first (past c) /\
  (one_step = true -> forall i d, (i, d) ∈ past c -> match d with Begun _ | Garbled | Torn _ => False | _ => True end) /\
  forall st, dynamic (shared c) = Some st ->
    ((forall st0, dynamic first = Some st0 -> whole (raw_config st0) st0) -> whole (raw_config st) st) /\
    forall st0, dynamic first = Some st0 -> (0 <= version st0)%Z -> (version st0 + swaps (past c) < 2 ^ 64)%Z ->
      (version st0 <= version st <= version st0 + swaps (past c))%Z.
Proof.
  intros Hr. destruct (reachable_recorded _ _ Hr) as (Ha & He & _). split; [done|]. split; [done|].
  split; [intros Hone i d; by eapply never_torn|]. intros st Hst.
  assert (Hrun : has_run first (past c) st) by (apply running_has_run; by destruct Ha as [<- _]).
  split; intros; [by eapply ran_whole|by eapply version_bound].
Qed.

(** Nobody else has written or swapped. *)
Definition undisturbed (d : deed) text prev st : Prop :=
  match d with
  | Saved _ | NotSaved _ | Garbled | Torn _ => False
  | Replaced _ _ _ | Readdressed _ _ => d = Replaced text prev st
  | Begun _ | Fetched _ | Told _ => True
  end.
(** C25. The store and the running state agree after an update that nothing has overtaken:
    between its write and its swap nobody else wrote or swapped, and nobody has since. *)
Theorem agreed_unless_overtaken first c (newer older : list (nat * deed)) i text prev st s : rtc control_step (Control first ∅ []) c ->
  past c = (newer ++ (i, Saved text) :: older)%list -> (i, Replaced text prev st) ∈ newer ->
  (forall j d, (j, d) ∈ newer -> undisturbed d text prev st) -> store (shared c) = Some s ->
  load_config s = Ok (Some text) /\ dynamic (shared c) = Some st /\ raw_config st = text.
Proof.
  intros Hr Hp Hin Hn Hs. destruct (reachable_recorded _ _ Hr) as ([Hd Hst] & He & _). rewrite Hs, Hp in Hst. rewrite Hp in Hd, He.
  destruct (store first) eqn:Ef; [|done]. clear Hr Hp Hs.
  assert (Hread : forall r, read_after first (newer ++ (i, Saved text) :: older)%list r -> r = Ok (Some text)).
  { intros r. clear Hd He Hin Hst. induction newer as [|[j d] newer IH]; [done|]. cbn.
    specialize (IH ltac:(intros; eapply Hn, list_elem_of_further; eauto)).
    specialize (Hn j d (list_elem_of_here _ _)). by destruct d. }
  split; [by apply Hread|]. rewrite Hd. clear Hd Hread Hst. induction newer as [|[j d] newer IH]; [by apply elem_of_nil in Hin|].
  destruct He as [Hx He]. cbn. pose proof (Hn j d (list_elem_of_here _ _)) as Hu.
  assert (Hraw : d = Replaced text prev st -> raw_config st = text) by (intros ->; cbn in Hx; by destruct Hx as (_ & (? & _) & _)).
  apply elem_of_cons in Hin as [[= -> <-]|Hin]; [split; [done|by apply Hraw]|].
  specialize (IH Hin ltac:(intros; eapply Hn, list_elem_of_further; eauto) He).
  destruct d; cbn in Hu |- *; try done; injection Hu as -> -> ->; (split; [done|by apply Hraw]).
Qed.

(** The next call of task [i], and its outcome by [tac]. *)
Ltac goes i e tac :=
  eapply rtc_l;
  [eapply (task_turns _ i e); [by simplify_map_eq|done|by first [left|cbn]|cbn [turn shared dynamic]; tac]|cbn [shared tasks past dynamic store world]].
(** The steps of an update that goes well. *)
Lemma update_run e c i a text cfg prev st w s : one_step = true -> tasks c !! i = None -> sha256_hex e = sha ->
  start_update true a = Save text cfg true -> store (shared c) = Some s -> fst (save_config text s) = Ok tt ->
  dynamic (shared c) = Some prev -> reload_config e cfg text prev (world (shared c)) = Ok (st, w) ->
  exists ts, rtc control_step c
    (Control (Plane (Some (snd (save_config text s))) (Some st) w) ts
       ((i, Told (swapped_response Updated st)) :: (i, Replaced text prev st) :: (i, Saved text) :: past c)).
Proof.
  intros Hone Hi Hsha Ha Hs Hsave Hp Hb. destruct c as [[o d w0] ts l]. cbn [shared tasks past dynamic store world] in *. subst o d.
  destruct (save_config text s) as [r s'] eqn:Es. cbn [fst snd] in *. subst r. eexists.
  eapply rtc_l; [eapply (task_starts _ i); [done|apply (update_starts true a)]|]. rewrite Ha.
  goes i e ltac:(unfold save_turn; cbn; by rewrite Es). goes i e ltac:(done). goes i e ltac:(cbn; by rewrite Hb).
  goes i e ltac:(done). apply rtc_refl.
Qed.

(** Two updates that overlap: each loads the same state, so both answer success with the
    same version, and the one whose text was stored last is not the one that runs. *)
Theorem overlapping_updates_diverge e c i j a b texta textb cfga cfgb prev sta stb wa wb s :
  one_step = true -> i <> j -> tasks c !! i = None -> tasks c !! j = None -> sha256_hex e = sha ->
  start_update true a = Save texta cfga true -> start_update true b = Save textb cfgb true ->
  store (shared c) = Some s -> fst (save_config texta s) = Ok tt -> fst (save_config textb (snd (save_config texta s))) = Ok tt ->
  dynamic (shared c) = Some prev ->
  reload_config e cfga texta prev (world (shared c)) = Ok (sta, wa) -> reload_config e cfgb textb prev wa = Ok (stb, wb) ->
  exists c' s', rtc control_step c c' /\ tasks c' !! i = Some (Answered (swapped_response Updated sta)) /\
    tasks c' !! j = Some (Answered (swapped_response Updated stb)) /\ version sta = version stb /\
    store (shared c') = Some s' /\ load_config s' = Ok (Some textb) /\
    dynamic (shared c') = Some sta /\ raw_config sta = texta.
Proof.
  intros Hone Hij Hi Hj Hsha Ha Hb Hs Hsa Hsb Hp Hba Hbb. destruct c as [[o d w] ts l].
  cbn [shared tasks past dynamic store world] in *. subst o d. pose proof (save_ok textb _ Hsb) as Hload.
  destruct (save_config texta s) as [ra s1] eqn:Ea. cbn [fst snd] in *. subst ra.
  destruct (save_config textb s1) as [rb s2] eqn:Eb. cbn [fst snd] in *. subst rb.
  eexists (Control (Plane (Some s2) (Some sta) wb) _ _), s2. split.
  { eapply rtc_l; [eapply (task_starts _ i); [done|apply (update_starts true a)]|]. rewrite Ha.
    eapply rtc_l; [eapply (task_starts _ j); [by simplify_map_eq|apply (update_starts true b)]|]. rewrite Hb.
    goes i e ltac:(unfold save_turn; cbn; by rewrite Ea). goes j e ltac:(unfold save_turn; cbn; by rewrite Eb).
    goes i e ltac:(done). goes j e ltac:(done). goes i e ltac:(cbn; by rewrite Hba). goes j e ltac:(cbn; by rewrite Hbb).
    goes j e ltac:(done). goes i e ltac:(done). apply rtc_refl. }
  destruct (reload_config_ok _ _ _ _ _ _ _ Hba) as (Hra & Hva & _). destruct (reload_config_ok _ _ _ _ _ _ _ Hbb) as (_ & Hvb & _).
  cbn. rewrite Hva, Hvb. split_and!; first [done|by rewrite lookup_insert_eq|by rewrite lookup_insert_ne, lookup_insert_eq].
Qed.
End Overlap.

(** ** A concrete gateway *)

Section Witnesses.
#[local] Existing Instances list_http ascii_tables bits_json_text list_lru demo_auth_lib demo_cel demo_types
  demo_wasm no_gql manager_clocks MemoryConfigStore.
Abbreviation demo_running := (DynamicGatewayState (W := manager_world) (SocketAddr := string)).
(** Every text is the same configuration. *)
Definition any_toml (_ : string) : result string SpectraConfig := Ok demo_managed.
Definition demo_sha (s : string) : string := String.append "#" s.
Definition demo_env : State.surroundings (W := manager_world) (SocketAddr := string) := demo_surroundings "10.0.0.2:80".
Definition demo_build (text : string) (prev : demo_running) (w : manager_world) := reload_config demo_env demo_managed text prev w.
Abbreviation demo_steps := (control_step (W := manager_world) (SocketAddr := string) (S := option string) any_toml demo_sha true).
Definition demo_first (st : demo_running) (w : manager_world) : control :=
  Control (S := option string) (Plane (Some (Some "old")) (Some st) w) ∅ [].
(** Three builds one after the other. *)
Definition demo_builds : bool :=
  match demo_build "old" demo_state demo_mworld with
  | Ok (st0, w0) =>
      match demo_build "a" st0 w0 with
      | Ok (sta, wa) => Z.eqb (version st0) 2 && Z.eqb (version sta) 3 && is_ok (demo_build "b" st0 wa)
      | Err _ => false
      end
  | Err _ => false
  end.
Lemma demo_builds_ok : exists st0 w0 sta wa stb wb,
  demo_build "old" demo_state demo_mworld = Ok (st0, w0) /\ demo_build "a" st0 w0 = Ok (sta, wa) /\
  demo_build "b" st0 wa = Ok (stb, wb) /\ version st0 = 2%Z /\ version sta = 3%Z.
Proof.
  assert (Hb : demo_builds = true) by (vm_compute; reflexivity). unfold demo_builds in Hb.
  destruct (demo_build "old" _ _) as [[st0 w0]|]; [|done]. destruct (demo_build "a" _ _) as [[sta wa]|] eqn:Ea; [|done].
  destruct (demo_build "b" _ _) as [[stb wb]|] eqn:Eb; [|by rewrite andb_false_r in Hb].
  apply andb_true_iff in Hb as [[H0%Z.eqb_eq H1%Z.eqb_eq]%andb_true_iff _]. by exists st0, w0, sta, wa, stb, wb.
Qed.
Lemma demo_update_starts text : text = "a" \/ text = "b" ->
  start_update (W := manager_world) (SocketAddr := string) any_toml true [Ok text] = Save text demo_managed true.
Proof. intros [->| ->]; reflexivity. Qed.

Lemma demo_update_runs st0 w0 sta wa : demo_build "a" st0 w0 = Ok (sta, wa) -> exists ts,
  rtc demo_steps (demo_first st0 w0)
    (Control (Plane (Some (Some "a")) (Some sta) wa) ts
       [(0%nat, Told (swapped_response Updated sta)); (0%nat, Replaced "a" st0 sta); (0%nat, Saved "a")]).
Proof.
  intros Ea. change (Some "a") with (snd (save_config "a" (Some "old"))).
  eapply (update_run any_toml demo_sha true demo_env (demo_first st0 w0) 0%nat [Ok "a"] "a" demo_managed);
    first [exact Ea|apply demo_update_starts; by left|reflexivity].
Qed.

(** Two saves of a store that takes several steps: the second begins while the first goes
    on, and the first is told to have succeeded although the store is left empty. *)
Abbreviation torn_steps := (control_step (W := manager_world) (SocketAddr := string) (S := option string) any_toml demo_sha false).
Definition torn_past : list (nat * deed (W := manager_world) (SocketAddr := string)) :=
  [(0%nat, Torn "a"); (1%nat, Begun "b"); (0%nat, Begun "a")].
Lemma torn_run st0 w0 : exists ts, rtc torn_steps (demo_first st0 w0) (Control (Plane (Some (Some "")) (Some st0) w0) ts torn_past).
Proof.
  eexists. unfold demo_first, torn_past.
  eapply rtc_l; [eapply (task_starts _ _ _ _ 0%nat); [done|apply (update_starts _ true [Ok "a"])]|]. rewrite demo_update_starts by by left.
  eapply rtc_l; [eapply (task_starts _ _ _ _ 1%nat); [by simplify_map_eq|apply (update_starts _ true [Ok "b"])]|]. rewrite demo_update_starts by by right.
  cbn [shared tasks past].
  eapply rtc_l; [eapply (save_begins _ _ _ _ 0%nat "a" demo_managed true true); [by simplify_map_eq|done|]|].
  { split; [intros _|done]. intros j t. cbn. rewrite !lookup_insert_Some, lookup_empty. naive_solver. }
  cbn [shared tasks past]. rewrite !fmap_insert, fmap_empty. cbn [came_across].
  eapply rtc_l; [eapply (save_begins _ _ _ _ 1%nat "b" demo_managed true false); [by simplify_map_eq|done|]|].
  { split; [done|]. intros Hal. cbn in Hal. specialize (Hal 0%nat (Writing "a" demo_managed true true)).
    destruct Hal as [Hal|Hal]; [by simplify_map_eq|discriminate Hal|discriminate Hal]. }
  cbn [shared tasks past]. rewrite !fmap_insert, fmap_empty. cbn [came_across].
  eapply rtc_l; [|apply rtc_refl].
  match goal with |- control_step _ _ _ ?c _ =>
    refine (save_tears any_toml demo_sha false c 0%nat "a" demo_managed true (Some "old") (Some "") (Ok tt)
      (Load Updated "a" demo_managed) [Torn "a"] _ _ _) end; [by simplify_map_eq|done|done].
Qed.

Lemma control_plane_history_witness : exists first c st,
  rtc demo_steps (Control (S := option string) first ∅ []) c /\
  dynamic (shared c) = Some st /\ whole any_toml demo_sha "a" st /\ (2 <= version st <= 3)%Z /\
  exists c1, rtc torn_steps (Control (S := option string) first ∅ []) c1 /\ past c1 = torn_past /\
    overlapped [(1%nat, Begun (W := manager_world) (SocketAddr := string) "b"); (0%nat, Begun "a")] 0%nat.
Proof.
  destruct demo_builds_ok as (st0 & w0 & sta & wa & _ & _ & E0 & Ea & _ & Hv0 & _).
  destruct (demo_update_runs st0 w0 sta wa Ea) as [ts Hrun].
  destruct (control_plane_history any_toml demo_sha true _ _ Hrun) as (_ & _ & _ & H). destruct (H sta eq_refl) as [Hw Hv].
  destruct (reload_config_ok demo_env _ _ _ _ _ _ Ea) as (Hraw & _).
  eexists _, _, sta. split; [exact Hrun|]. split; [reflexivity|]. split; [|split].
  - rewrite <- Hraw. apply Hw. intros st [= <-].
    destruct (built_whole any_toml demo_sha demo_env demo_managed "old" demo_state demo_mworld st0 w0 eq_refl eq_refl E0) as [Hw0 _].
    destruct (reload_config_ok demo_env _ _ _ _ _ _ E0) as (Hraw0 & _). by rewrite Hraw0.
  - specialize (Hv st0 eq_refl). rewrite Hv0 in Hv. apply Hv; [discriminate|]. reflexivity.
  - destruct (torn_run st0 w0) as [ts' Htorn]. eexists. split; [exact Htorn|]. split; [reflexivity|].
    destruct (control_plane_history any_toml demo_sha false _ _ Htorn) as (_ & [[_ Ho] _] & _). exact Ho.
Defined.
Lemma agreed_unless_overtaken_witness : exists first c sta s,
  rtc demo_steps (Control (S := option string) first ∅ []) c /\
  store (shared c) = Some s /\ load_config s = Ok (Some "a") /\ dynamic (shared c) = Some sta /\ raw_config sta = "a".
Proof.
  destruct demo_builds_ok as (st0 & w0 & sta & wa & _ & _ & _ & Ea & _).
  destruct (demo_update_runs st0 w0 sta wa Ea) as [ts Hrun]. eexists _, _, sta, (Some "a").
  split; [exact Hrun|]. split; [reflexivity|].
  apply (agreed_unless_overtaken any_toml demo_sha true _ _
    [(0%nat, Told (swapped_response Updated sta)); (0%nat, Replaced "a" st0 sta)] [] 0%nat "a" st0 sta (Some "a") Hrun).
  - reflexivity.
  - apply list_elem_of_further, list_elem_of_here.
  - intros j d. rewrite !elem_of_cons, elem_of_nil. intros [[= _ ->]|[[= _ ->]|[]]]; by cbn.
  - reflexivity.
Defined.
Lemma handlers_are_runs_witness : exists l, rtc demo_steps (demo_first demo_state demo_mworld)
  (let '(r, p) := handle_config_reload demo_env any_toml true (shared (demo_first demo_state demo_mworld)) in
   Control p {[0%nat := Answered r]} l).
Proof.
  destruct (handlers_are_runs any_toml demo_sha true demo_env 0%nat (demo_first demo_state demo_mworld) true [] eq_refl eq_refl eq_refl)
    as (_ & H & _). exact H.
Defined.
Lemma overlapping_updates_diverge_witness : exists c c' r s sta,
  rtc demo_steps c c' /\ tasks c' !! 0%nat = Some (Answered r) /\ status r = 200%Z /\
  store (shared c') = Some s /\ load_config s = Ok (Some "b") /\ dynamic (shared c') = Some sta /\ raw_config sta = "a".
Proof.
  destruct demo_builds_ok as (st0 & w0 & sta & wa & stb & wb & _ & Ea & Eb & _).
  destruct (overlapping_updates_diverge any_toml demo_sha true demo_env (demo_first st0 w0) 0%nat 1%nat [Ok "a"] [Ok "b"] "a" "b"
    demo_managed demo_managed st0 sta stb wa wb (Some "old")) as (c' & s' & Hrun & Hi & _ & _ & Hs & Hl & Hd & Hr);
    try reflexivity; try done.
  exists (demo_first st0 w0), c', (swapped_response Updated sta), s', sta. by split_and!.
Defined.
End Witnesses.
