(* ===== verification/Saving.v ===== *)
(** * Saving: the file store's save, call by call, [FileConfigStore::save_config] of
    [src/core/config_store.rs].

    A save makes the directory, opens the temporary file, writes it piece by piece and
    renames it. Names stand for files as on a POSIX disk: an open file stays the one it
    was when its name is given to another. Saves one after the other leave the
    configuration whole whatever fails; saves that overlap share the temporary file. *)

From S2P Require Import Prelude ConfigStore.
Local Open Scope string_scope.

(** ** The disk *)

(** Which file a name stands for, and what the files hold. *)
Record disk := Disk { names : gmap string nat; files : list string }.
Definition content (name : string) (d : disk) : option string := names d !! name ≫= fun i => files d !! i.
(** A disk as [ConfigStore] sees it. *)
Definition view (d : disk) : filesystem := omap (fun i => files d !! i) (names d).
Lemma view_lookup d name : view d !! name = content name d.
Proof. apply lookup_omap. Qed.

Fixpoint zeros (n : nat) : string := match n with O => "" | S n => String "000" (zeros n) end.
(** Bytes written at an offset; what was missing before it reads as zeros. *)
Definition overwrite (off : nat) (piece s : string) : string :=
  String.append (String.append (str_take off s) (zeros (off - String.length s)))
    (String.append piece (str_skip (off + String.length piece) s)).
Lemma str_take_all n s : (String.length s <= n)%nat -> str_take n s = s.
Proof. revert n. induction s as [|a s IH]; intros [|n] Hn; cbn in *; try done; [lia|]. by rewrite IH by lia. Qed.
Lemma str_skip_all n s : (String.length s <= n)%nat -> str_skip n s = "".
Proof. revert n. induction s as [|a s IH]; intros [|n] Hn; cbn in *; try done; [lia|]. by apply IH; lia. Qed.
Lemma str_take_more off n s : str_take (off + n) s = String.append (str_take off s) (str_take n (str_skip off s)).
Proof. revert off. induction s as [|a s IH]; intros [|off]; cbn; try done; [by destruct n|]. by rewrite IH. Qed.
Lemma overwrite_end piece s : overwrite (String.length s) piece s = String.append s piece.
Proof.
  unfold overwrite. rewrite Nat.sub_diag, str_take_all, str_skip_all by lia. cbn. by rewrite !str_app_nil_r.
Qed.

Section Saving.
Variable path : string.
Abbreviation tmp := (with_extension_tmp path).

(** [tokio::fs::write] first opens: [O_CREAT] and [O_TRUNC]. @core/config_store.rs:114-117 FileConfigStore::save_config *)
Definition open_tmp (d : disk) : nat * disk :=
  match names d !! tmp with
  | Some i => (i, Disk (names d) (<[i := ""]> (files d)))
  | None => (length (files d), Disk (<[tmp := length (files d)]> (names d)) (files d ++ [""]))
  end.
(** And writes, in as many calls as it takes. @core/config_store.rs:114-117 FileConfigStore::save_config *)
Definition write_at (i off : nat) (piece : string) (d : disk) : disk :=
  match files d !! i with
  | Some s => Disk (names d) (<[i := overwrite off piece s]> (files d))
  | None => d
  end.
(** @core/config_store.rs:118-120 FileConfigStore::save_config *)
Definition rename_tmp (d : disk) : option disk :=
  match names d !! tmp with
  | Some i => Some (Disk (<[path := i]> (delete tmp (names d))) (files d))
  | None => None
  end.

(** ** A save *)

Inductive phase :=
| Making
| Opening
| Writing (i off : nat)
| Renaming
| Finished (r : result string unit)
| Crashed.
Definition ended (p : phase) : bool := match p with Finished _ | Crashed => true | _ => false end.
Definition failed (what : string) : phase := Finished (Err what).
(** The calls of one save, each of which may fail; a piece is what one call writes.
    @core/config_store.rs:104-122 FileConfigStore::save_config *)
Inductive save_step (text : string) : phase * disk -> phase * disk -> Prop :=
| makes d : save_step text (Making, d) (Opening, d)
| make_fails d : save_step text (Making, d) (failed "Failed to create parent directory", d)
| opens d i d' : open_tmp d = (i, d') -> save_step text (Opening, d) (Writing i 0, d')
| open_fails d : save_step text (Opening, d) (failed "Failed to write temporary config", d)
| writes d i off n : (0 < n)%nat -> (off + n <= String.length text)%nat ->
    save_step text (Writing i off, d) (Writing i (off + n), write_at i off (str_take n (str_skip off text)) d)
| write_fails d i off : save_step text (Writing i off, d) (failed "Failed to write temporary config", d)
| written d i : save_step text (Writing i (String.length text), d) (Renaming, d)
| renames d d' : rename_tmp d = Some d' -> save_step text (Renaming, d) (Finished (Ok tt), d')
| rename_misses d : rename_tmp d = None -> save_step text (Renaming, d) (failed "Failed to replace config file", d)
| rename_fails d : save_step text (Renaming, d) (failed "Failed to replace config file", d)
| crashes d p : ended p = false -> save_step text (p, d) (Crashed, d).

(** ** Saves side by side *)

(** The disk, the saves with their texts, and the text of the last one that renamed. *)
Record saves := Saves { disk_of : disk; savers : gmap nat (string * phase); kept : option string }.
Definition keeps (text : string) (p : phase) (old : option string) : option string :=
  match p with Finished (Ok _) => Some text | _ => old end.
Inductive turn : saves -> saves -> Prop :=
| save_turn c i text p d' p' : savers c !! i = Some (text, p) -> save_step text (p, disk_of c) (p', d') ->
    turn c (Saves d' (<[i := (text, p')]> (savers c)) (keeps text p' (kept c))).
Inductive starts : saves -> saves -> Prop :=
| save_starts c i text : savers c !! i = None ->
    starts c (Saves (disk_of c) (<[i := (text, Making)]> (savers c)) (kept c)).
(** Saves start whenever they like, or only when the others have ended. *)
Definition any_step (c c' : saves) : Prop := starts c c' \/ turn c c'.
Definition idle (c : saves) : Prop := map_Forall (fun _ s => ended (snd s) = true) (savers c).
Definition serial_step (c c' : saves) : Prop := (starts c c' /\ idle c) \/ turn c c'.

(** Where the only save that goes on is. *)
Definition in_place (d : disk) (text : string) (p : phase) : Prop :=
  match p with
  | Writing i off => names d !! tmp = Some i /\ names d !! path <> Some i /\ files d !! i = Some (str_take off text) /\
      (off <= String.length text)%nat
  | Renaming => exists i, names d !! tmp = Some i /\ names d !! path <> Some i /\ files d !! i = Some text
  | _ => True
  end.
(** The temporary file has no other name, and names stand for files. *)
Definition apart (d : disk) : Prop :=
  (forall name i, names d !! tmp = Some i -> name <> tmp -> names d !! name <> Some i) /\
  forall name i, names d !! name = Some i -> (i < length (files d))%nat.
Definition alone_at_most (c : saves) : Prop :=
  forall i j text text' p p', savers c !! i = Some (text, p) -> savers c !! j = Some (text', p') ->
    ended p = false -> ended p' = false -> i = j.
Definition orderly (c : saves) : Prop :=
  apart (disk_of c) /\ content path (disk_of c) = kept c /\ alone_at_most c /\
  map_Forall (fun _ s => in_place (disk_of c) (fst s) (snd s)) (savers c).

Hypothesis Hpath : tmp <> path.
Lemma save_step_orderly text p d p' d' : apart d -> in_place d text p -> save_step text (p, d) (p', d') ->
  apart d' /\ in_place d' text p' /\ content path d' = keeps text p' (content path d).
Proof using Hpath.
  intros Ha Hp Hs. pose proof Ha as [Ha1 Ha2]. inversion Hs; subst; cbn [keeps failed]; try (split; [done|by split]).
  - rename H0 into Ho. unfold open_tmp in Ho. destruct (names d !! tmp) as [j|] eqn:Et; injection Ho as <- <-.
    + assert (Hlt := Ha2 _ _ Et). pose proof (Ha1 path j eq_refl (not_eq_sym Hpath)) as Hk.
      split; [split; cbn; [by rewrite Et|intros name i'; rewrite length_insert; apply Ha2]|].
      split; [cbn; split_and!; [done|done|by apply list_lookup_insert_eq|lia]|].
      unfold content. cbn. destruct (names d !! path) as [k|] eqn:Ek; [|done]. cbn. apply list_lookup_insert_ne. congruence.
    + split; [split; cbn|].
      * intros name i. rewrite lookup_insert_eq. intros [= <-] Hne. rewrite lookup_insert_ne by done. intros Hk%Ha2. lia.
      * intros name i. rewrite length_app. cbn. destruct (decide (name = tmp)) as [->|Hne].
        -- rewrite lookup_insert_eq. intros [= <-]. lia.
        -- rewrite lookup_insert_ne by done. intros Hi%Ha2. lia.
      * split; [cbn; rewrite lookup_insert_eq, lookup_insert_ne by done; split_and!; [done| |by rewrite lookup_app_r, Nat.sub_diag by lia|lia]|].
        -- intros Hk. apply Ha2 in Hk. lia.
        -- unfold content. cbn. rewrite lookup_insert_ne by done. destruct (names d !! path) as [k|] eqn:Ek; [|done]. cbn.
           apply Ha2 in Ek. by rewrite lookup_app_l.
  - destruct Hp as (Ht & Hk & Hf & Hle). unfold write_at. rewrite Hf. assert (Hlt : (i < length (files d))%nat) by by eapply Ha2.
    split; [split; cbn; [done|intros name i'; rewrite length_insert; apply Ha2]|]. split.
    + cbn. split_and!; [done|done| |done]. rewrite list_lookup_insert_eq by done. f_equal.
      assert (Hoff : off = String.length (str_take off text)) by (rewrite str_take_length; lia).
      rewrite Hoff at 1. rewrite overwrite_end. by rewrite str_take_more.
    + unfold content. cbn. destruct (names d !! path) as [k|] eqn:Ek; [|done]. cbn. apply list_lookup_insert_ne. congruence.
  - destruct Hp as (Ht & Hk & Hf & _). split; [done|]. split; [|done]. exists i. split_and!; [done|done|]. by rewrite str_take_all in Hf.
  - destruct Hp as (i & Ht & Hk & Hf). unfold rename_tmp in *. rewrite Ht in *. match goal with H : Some _ = Some _ |- _ => injection H as <- end.
    split; [split; cbn|].
    + intros name j. rewrite lookup_insert_ne, lookup_delete_eq by done. done.
    + intros name j. destruct (decide (name = path)) as [->|Hne]; [rewrite lookup_insert_eq; intros [= <-]; by eapply Ha2|].
      rewrite lookup_insert_ne by done. intros [_ Hj]%lookup_delete_Some. by eapply Ha2.
    + split; [done|]. unfold content. cbn. by rewrite lookup_insert_eq.
Qed.
(** Others are unmoved: they have ended. *)
Lemma ended_in_place d text p : ended p = true -> in_place d text p.
Proof. by destruct p. Qed.
Lemma turn_orderly c c' : orderly c -> turn c c' -> orderly c'.
Proof using Hpath.
  intros (Ha & Hk & Hone & Hin) Ht. destruct Ht as [c i text p d' p' Hi Hs].
  destruct (save_step_orderly text p (disk_of c) p' d' Ha (Hin _ _ Hi) Hs) as (Ha' & Hp' & Hk').
  assert (Hrun : ended p = false) by by inversion Hs.
  split; [done|]. split; [cbn; by rewrite Hk', Hk|]. split.
  - intros j k tj tk pj pk Hj Hk0 Ej Ek. cbn in Hj, Hk0.
    destruct (decide (j = i)) as [->|Hji], (decide (k = i)) as [->|Hki]; [done| | |].
    + rewrite lookup_insert_ne in Hk0 by done. by eapply (Hone i k).
    + rewrite lookup_insert_ne in Hj by done. by eapply (Hone j i).
    + rewrite lookup_insert_ne in Hj, Hk0 by done. by eapply (Hone j k).
  - intros j [tj pj] Hj. cbn in Hj |- *. apply lookup_insert_Some in Hj as [[_ [= <- <-]]|[Hji Hj]]; [done|].
    destruct (ended pj) eqn:Ej; [by apply ended_in_place|]. destruct Hji. symmetry. by eapply (Hone j i).
Qed.
Lemma start_orderly c c' : orderly c -> idle c -> starts c c' -> orderly c'.
Proof.
  intros Ho Hidle Hs. revert Ho Hidle. destruct Hs as [c i text Hi]. intros (Ha & Hk & Hone & Hin) Hidle.
  split; [done|]. split; [done|]. split.
  - intros j k tj tk pj pk Hj Hk0 Ej Ek. cbn in Hj, Hk0. apply lookup_insert_Some in Hj as [[-> _]|[_ Hj]], Hk0 as [[-> _]|[_ Hk0]]; try done.
    + apply Hidle in Hk0. cbn in Hk0. congruence.
    + apply Hidle in Hj. cbn in Hj. congruence.
    + by eapply Hone.
  - by apply map_Forall_insert_2.
Qed.

(** A disk on which no save goes on, the temporary file of an earlier one perhaps left. *)
Definition at_rest (d : disk) : saves := Saves d ∅ (content path d).
(** C21. Saves that start one after the other, of a configuration whose path does not
    itself end in [.tmp], on a disk where no other name leads to the temporary file
    ([apart]): whatever fails, and wherever the process is killed, the configuration
    file holds at every moment the whole text of the last save that renamed, or what
    it held before the first. Without the first condition the file is its own
    temporary file and is written in place ([ConfigStore.tmp_in_place]); saves that
    overlap can tear it ([overlapping_saves_tear]). *)
Theorem one_at_a_time_is_atomic d c : apart d -> rtc serial_step (at_rest d) c -> content path (disk_of c) = kept c.
Proof using Hpath.
  intros Ha Hr. enough (Ho : orderly c) by by destruct Ho as (_ & ? & _). revert c Hr.
  apply (rtc_ind_r (fun c => orderly c)).
  - split; [done|]. split; [done|]. split; [intros i j ???? Hi; cbn in Hi; by rewrite lookup_empty in Hi|apply map_Forall_empty].
  - intros c1 c2 _ [[Hs Hidle]|Ht] IH; [by eapply start_orderly|by eapply turn_orderly].
Qed.

(** A save that nothing disturbs, in pieces of any size, is [ConfigStore.file_save]. *)
Lemma writes_all text d i off : names d !! tmp = Some i -> files d !! i = Some (str_take off text) -> (off <= String.length text)%nat ->
  exists d', rtc (save_step text) (Writing i off, d) (Renaming, d') /\ names d' = names d /\ files d' = <[i := text]> (files d).
Proof.
  intros Ht Hf Hoff. destruct (decide (off = String.length text)) as [->|Hne].
  - exists d. split; [apply rtc_once, written|]. split; [done|]. rewrite str_take_all in Hf by done. by rewrite list_insert_id.
  - eexists. split.
    + eapply rtc_l; [apply (writes text d i off (String.length text - off)); lia|].
      replace (off + (String.length text - off))%nat with (String.length text) by lia. apply rtc_once, written.
    + unfold write_at. rewrite Hf. cbn. split; [done|]. f_equal.
      assert (Hl : off = String.length (str_take off text)) by (rewrite str_take_length; lia).
      rewrite Hl at 1. rewrite overwrite_end, <- str_take_more. replace (off + _)%nat with (String.length text) by lia.
      by apply str_take_all.
Qed.
Theorem undisturbed_save text d : apart d -> exists d',
  rtc (save_step text) (Making, d) (Finished (Ok tt), d') /\
  file_save NoFault path text (view d) = (Ok tt, view d').
Proof using Hpath.
  intros [Ha1 Ha2]. destruct (open_tmp d) as [i d1] eqn:Eo.
  assert (Ho : names d1 !! tmp = Some i /\ files d1 !! i = Some "" /\
    forall name, name <> tmp -> names d1 !! name = names d !! name /\ names d !! name <> Some i /\
      forall k, names d !! name = Some k -> files d1 !! k = files d !! k).
  { unfold open_tmp in Eo. destruct (names d !! tmp) as [j|] eqn:Et; injection Eo as <- <-; cbn.
    - split; [done|]. split; [by eapply list_lookup_insert_eq, Ha2|]. intros name Hne. split; [done|]. split; [by apply Ha1|].
      intros k Hk. apply list_lookup_insert_ne. intros ->. by eapply Ha1.
    - rewrite lookup_insert_eq, lookup_app_r, Nat.sub_diag by lia. split; [done|]. split; [done|]. intros name Hne.
      rewrite lookup_insert_ne by done. split; [done|]. split; [intros Hk%Ha2; lia|]. intros k Hk%Ha2. by apply lookup_app_l. }
  destruct Ho as (Ht & Hf & Hother). destruct (writes_all text d1 i 0 Ht) as (d2 & Hrun & Hn2 & Hf2); [by destruct text|lia|].
  exists (Disk (<[path := i]> (delete tmp (names d2))) (files d2)). split.
  - eapply rtc_l; [apply makes|]. eapply rtc_l; [by apply opens|]. etrans; [exact Hrun|].
    apply rtc_once, renames. unfold rename_tmp. by rewrite Hn2, Ht.
  - unfold file_save. f_equal. apply map_eq. intros name. rewrite view_lookup. unfold content. cbn. rewrite Hn2, Hf2.
    destruct (decide (name = path)) as [->|Hp].
    { rewrite !lookup_insert_eq. cbn. symmetry. apply list_lookup_insert_eq. by eapply lookup_lt_Some. }
    rewrite !(lookup_insert_ne _ path) by done. destruct (decide (name = tmp)) as [->|Hnt]; [by rewrite !lookup_delete_eq|].
    rewrite !lookup_delete_ne, lookup_insert_ne, view_lookup by done. destruct (Hother name Hnt) as (Hn & Hi & Hk). rewrite Hn.
    unfold content. destruct (names d !! name) as [k|] eqn:Ek; [|done]. cbn. rewrite list_lookup_insert_ne by congruence.
    symmetry. by apply Hk.
Qed.

(** ** Runs, played *)

Inductive move := Start (text : string) | Make | Open | Write (n : nat) | Close | Rename | Kill.
Definition act (text : string) (m : move) (p : phase) (d : disk) : option (phase * disk) :=
  match m, p with
  | Make, Making => Some (Opening, d)
  | Open, Opening => let '(i, d') := open_tmp d in Some (Writing i 0, d')
  | Write n, Writing i off =>
      if (0 <? n) && (off + n <=? String.length text)
      then Some (Writing i (off + n), write_at i off (str_take n (str_skip off text)) d) else None
  | Close, Writing i off => if off =? String.length text then Some (Renaming, d) else None
  | Rename, Renaming =>
      Some (match rename_tmp d with Some d' => (Finished (Ok tt), d') | None => (failed "Failed to replace config file", d) end)
  | Kill, _ => if ended p then None else Some (Crashed, d)
  | _, _ => None
  end%nat.
Definition move_on (serial : bool) (i : nat) (m : move) (c : saves) : option saves :=
  match m, savers c !! i with
  | Start text, None =>
      if negb serial || bool_decide (idle c) then Some (Saves (disk_of c) (<[i := (text, Making)]> (savers c)) (kept c)) else None
  | Start _, Some _ => None
  | _, Some (text, p) =>
      '(p', d') ← act text m p (disk_of c); Some (Saves d' (<[i := (text, p')]> (savers c)) (keeps text p' (kept c)))
  | _, None => None
  end.
Fixpoint play (serial : bool) (l : list (nat * move)) (c : saves) : option saves :=
  match l with
  | [] => Some c
  | (i, m) :: l => c' ← move_on serial i m c; play serial l c'
  end.
Lemma act_step text m p d p' d' : act text m p d = Some (p', d') -> save_step text (p, d) (p', d').
Proof.
  destruct m, p; cbn [act]; try done.
  all: repeat case_match; try done; intros [= <- <-].
  all: try match goal with Hc : (_ && _)%nat = true |- _ => apply andb_true_iff in Hc as [?%Nat.ltb_lt ?%Nat.leb_le] end.
  all: try match goal with Hc : (_ =? _)%nat = true |- _ => apply Nat.eqb_eq in Hc as -> end.
  all: by constructor.
Qed.
Lemma move_step serial i m c c' : move_on serial i m c = Some c' ->
  if serial then serial_step c c' else any_step c c'.
Proof.
  assert (Hgo : (exists text, savers c !! i = None /\ (serial = true -> idle c) /\
      c' = Saves (disk_of c) (<[i := (text, Making)]> (savers c)) (kept c)) \/ turn c c' ->
    if serial then serial_step c c' else any_step c c').
  { intros [(text & Hi & Hs & ->)|Ht]; [|destruct serial; by right].
    destruct serial; left; [split; [by constructor|by apply Hs]|by constructor]. }
  intros Hm. apply Hgo. unfold move_on in Hm. destruct m as [text| | |n| | |].
  { destruct (savers c !! i) eqn:Ei; [done|]. destruct (negb serial || bool_decide (idle c)) eqn:Eb; [|done].
    injection Hm as <-. left. exists text. split; [done|]. split; [|done]. intros ->. by apply bool_decide_eq_true_1 in Eb. }
  all: right; destruct (savers c !! i) as [[t p]|] eqn:Ei; [|done]; destruct (act _ _ _ _) as [[p' d']|] eqn:Ea; [|done];
    injection Hm as <-; by eapply save_turn, act_step.
Qed.
Lemma play_steps serial l : forall c c', play serial l c = Some c' ->
  if serial then rtc serial_step c c' else rtc any_step c c'.
Proof.
  induction l as [|[i m] l IH]; intros c c'; cbn; [intros [= <-]; by destruct serial|].
  destruct (move_on serial i m c) as [c1|] eqn:E; [|done]. intros Hp%IH. apply move_step in E. destruct serial; by eapply rtc_l.
Qed.
End Saving.

(** ** A concrete disk *)

Section Witnesses.
Definition demo_path : string := "/etc/spectra.toml".
Definition demo_disk : disk := Disk {[demo_path := 0%nat]} ["old"].
Lemma demo_apart : apart demo_path demo_disk.
Proof.
  split; cbn; intros name i Hi.
  - intros _ _. by vm_compute in Hi.
  - apply lookup_singleton_Some in Hi as [_ <-]. cbn. lia.
Qed.
(** The first save is killed half-way, the second goes through. *)
Definition killed_then_saved : list (nat * move) :=
  [(0, Start "lost"); (0, Make); (0, Open); (0, Write 2); (0, Kill);
   (1, Start "new"); (1, Make); (1, Open); (1, Write 1); (1, Write 2); (1, Close); (1, Rename)]%nat.
Definition shows (c : option saves) (name_holds : string) (i : nat) (r : string * phase) : bool :=
  match c with
  | Some c => bool_decide (content demo_path (disk_of c) = Some name_holds) &&
      match savers c !! i with
      | Some (text, Finished (Ok _)) => match r with (t, Finished (Ok _)) => String.eqb text t | _ => false end
      | Some (text, Finished (Err e)) => match r with (t, Finished (Err e')) => String.eqb text t && String.eqb e e' | _ => false end
      | _ => false
      end
  | None => false
  end.
Lemma one_at_a_time_is_atomic_witness : exists c, rtc (serial_step demo_path) (at_rest demo_path demo_disk) c /\
  content demo_path (disk_of c) = kept c /\ content demo_path (disk_of c) = Some "new".
Proof.
  destruct (play demo_path true killed_then_saved (at_rest demo_path demo_disk)) as [c|] eqn:E.
  2: { assert (Hs : shows (play demo_path true killed_then_saved (at_rest demo_path demo_disk)) "new" 1 ("new", Finished (Ok tt)) = true)
         by (vm_compute; reflexivity). rewrite E in Hs. discriminate Hs. }
  assert (Hs : shows (play demo_path true killed_then_saved (at_rest demo_path demo_disk)) "new" 1 ("new", Finished (Ok tt)) = true)
    by (vm_compute; reflexivity).
  rewrite E in Hs. apply andb_true_iff in Hs as [Hc _]. apply bool_decide_eq_true_1 in Hc.
  exists c. pose proof (play_steps demo_path true _ _ _ E) as Hr. split; [exact Hr|]. split; [|exact Hc].
  apply (one_at_a_time_is_atomic demo_path ltac:(discriminate) demo_disk); [exact demo_apart|exact Hr].
Defined.
Lemma undisturbed_save_witness : exists d', rtc (save_step demo_path "new") (Making, demo_disk) (Finished (Ok tt), d').
Proof.
  destruct (undisturbed_save demo_path ltac:(discriminate) "new" demo_disk demo_apart) as (d' & Hr & _). exists d'. exact Hr.
Defined.
(** Two saves that overlap open one temporary file: the first renames what the second has
    just emptied, and answers success; the second then writes into the configuration
    itself, and answers an error. *)
Definition first_moves : list (nat * move) :=
  [(0, Start "first"); (1, Start "second"); (0, Make); (1, Make); (0, Open); (0, Write 5); (0, Close); (1, Open); (0, Rename)]%nat.
Definition second_moves : list (nat * move) := [(1, Write 6); (1, Close); (1, Rename)]%nat.
Example overlapping_saves_tear :
  let c1 := play demo_path false first_moves (at_rest demo_path demo_disk) in
  shows c1 "" 0 ("first", Finished (Ok tt)) = true /\
  shows (c1 ≫= play demo_path false second_moves) "second" 1 ("second", failed "Failed to replace config file") = true.
Proof. split; vm_compute; reflexivity. Qed.
End Witnesses.
