(* ===== verification/Traffic.v ===== *)
(** * Traffic: the recorder of recent requests, [src/admin/traffic.rs].

    The rolling buffer with its counters, the filtered answer of the administrative
    interface, and the 64-bit floating-point arithmetic its latencies use. *)

From Stdlib Require Import SpecFloat.
From S2P Require Import Prelude.
Local Open Scope string_scope.

(** ** [f64] *)

Module F64.
(** IEEE 754 binary64, rounding to the nearest even. *)
Abbreviation f64 := spec_float.
Definition of_Z (n : Z) : f64 := binary_normalize 53 1024 n 0 false.
Definition mul : f64 -> f64 -> f64 := SFmul 53 1024.
Definition add : f64 -> f64 -> f64 := SFadd 53 1024.
Definition div : f64 -> f64 -> f64 := SFdiv 53 1024.
(** The integer part of a finite number's magnitude. *)
Definition magnitude (m : positive) (e : Z) : Z :=
  if (0 <=? e)%Z then Z.shiftl (Zpos m) e else Z.shiftr (Zpos m) (- e).
(** [x.max(0.0) as u64]: the fraction is cut off, what is too large saturates. *)
Definition to_u64 (x : f64) : Z :=
  match x with
  | S754_finite false m e => Z.min Int.u64_max (magnitude m e)
  | S754_infinity false => Int.u64_max
  | _ => 0
  end.
(** [f64::round]: half-way cases away from zero. *)
Definition round (x : f64) : f64 :=
  match x with
  | S754_finite s m e =>
      if (0 <=? e)%Z then x
      else
        let d := Z.shiftl 1 (- e) in
        let q := ((2 * Zpos m + d) / (2 * d))%Z in
        match q with
        | Z0 => S754_zero s
        | _ => binary_normalize 53 1024 (if s then - q else q)%Z 0 s
        end
  | _ => x
  end.
End F64.
Example f64_examples :
  F64.to_u64 (F64.mul (F64.div (F64.of_Z 5) (F64.of_Z 4)) (F64.of_Z 1000)) = 1250%Z /\
  F64.div (F64.round (F64.mul (F64.div (F64.of_Z 1) (F64.of_Z 3)) (F64.of_Z 100))) (F64.of_Z 100) =
    F64.div (F64.of_Z 33) (F64.of_Z 100) /\
  F64.round (F64.div (F64.of_Z (-5)) (F64.of_Z 2)) = F64.of_Z (-3) /\
  F64.to_u64 (F64.of_Z (-7)) = 0%Z.
Proof. vm_compute. split_and!; reflexivity. Qed.

(** ** Records *)

(** [TrafficRecord] @admin/traffic.rs:{struct TrafficRecord} TrafficRecord *)
Record TrafficRecord := Traffic {
  t_id : string;
  t_hlc : string;
  timestamp_epoch_ms : Z;
  timestamp_formatted : string;
  t_client_ip : string;
  t_method : string;
  t_path : string;
  t_app_id : string;
  t_operation_name : option string;
  t_operation_type : string;
  t_mode : string;
  status_code : Z;
  t_receipt_status : option string;
  latency_ms : F64.f64;
  t_target : string;
  t_query_preview : option string;
  t_variables_preview : option string;
  t_audit_tag : option string;
  t_audit_rule : option string;
  t_response_preview : option string;
  t_error_preview : option string
}.
(** [TrafficStats] @admin/traffic.rs:{struct TrafficStats} TrafficStats *)
Record TrafficStats := Stats {
  s_total : Z; s_async : Z; s_sync : Z; s_mode_b : Z; s_mode_a : Z; s_errors : Z;
  avg_latency_ms : F64.f64; buffer_size : nat }.
(** [TrafficResponse] @admin/traffic.rs:{struct TrafficResponse} TrafficResponse *)
Record TrafficResponse := TResponse { stats : TrafficStats; resp_records : list TrafficRecord }.

(** [TrafficRecorder]: the buffer, newest first, and the counters. @admin/traffic.rs:{struct TrafficRecorder} TrafficRecorder *)
Record TrafficRecorder := Recorder {
  max_entries : nat;
  records : list TrafficRecord;
  total_requests : Z;
  mode_b_requests : Z;
  mode_a_requests : Z;
  error_requests : Z;
  total_latency_us : Z;
  recorded_count : Z
}.
(** @admin/traffic.rs:{fn new} TrafficRecorder::new *)
Definition recorder_new (max : nat) : TrafficRecorder :=
  Recorder (if (max =? 0)%nat then 200 else max) [] 0 0 0 0 0 0.

Definition bump (yes : bool) (n : Z) : Z := if yes then Int.wrap 64 (n + 1) else n.
(** @admin/traffic.rs:95-95 TrafficRecorder::record *)
Definition is_async (r : TrafficRecord) : bool :=
  str_contains "Async" (t_mode r) || str_contains "Mode B" (t_mode r).
(** @admin/traffic.rs:97-97 TrafficRecorder::record *)
Definition is_sync (r : TrafficRecord) : bool :=
  str_contains "Sync" (t_mode r) || str_contains "Mode A" (t_mode r).
(** @admin/traffic.rs:101-102 TrafficRecorder::record *)
Definition bad_status (r : TrafficRecord) : bool :=
  (400 <=? status_code r)%Z || bool_decide (t_receipt_status r = Some "DISPATCH_FAILED").
(** [while lock.len() > max_entries { lock.pop_back() }]; a buffer of that many
    entries needs at most as many turns. @admin/traffic.rs:116-118 TrafficRecorder::record *)
Fixpoint pop_back_to (fuel : nat) (max : nat) (l : list TrafficRecord) : list TrafficRecord :=
  match fuel with
  | O => l
  | S fuel => if (max <? length l)%nat then pop_back_to fuel max (removelast l) else l
  end.
(** [lock_free] says whether [try_write] gets the lock. @admin/traffic.rs:{fn record} TrafficRecorder::record *)
Definition record (lock_free : bool) (r : TrafficRecord) (t : TrafficRecorder) : TrafficRecorder :=
  let b := is_async r in
  let a := negb b && is_sync r in
  let err := bad_status r || match t_error_preview r with Some _ => true | None => false end in
  let us := F64.to_u64 (F64.mul (latency_ms r) (F64.of_Z 1000)) in
  Recorder (max_entries t)
    (if lock_free then pop_back_to (S (length (records t))) (max_entries t) (r :: records t) else records t)
    (bump true (total_requests t)) (bump b (mode_b_requests t)) (bump a (mode_a_requests t))
    (bump err (error_requests t)) (Int.wrap 64 (total_latency_us t + us)) (bump true (recorded_count t)).

(** An application filter that filters. *)
Definition selects (app_filter : option string) : option string :=
  match app_filter with
  | Some app => if negb (String.eqb app "") && negb (String.eqb app "all") then Some app else None
  | None => None
  end.
Definition of_app (app : string) (r : TrafficRecord) : bool := eq_ignore_ascii_case (t_app_id r) app.
Definition count (p : TrafficRecord -> bool) (l : list TrafficRecord) : Z := Z.of_nat (length (List.filter p l)).
(** The average of the counters. @admin/traffic.rs:159-172 TrafficRecorder::get_response_with_filter *)
Definition overall_latency (t : TrafficRecorder) : F64.f64 :=
  if (0 <? recorded_count t)%Z then
    F64.div (F64.div (F64.of_Z (total_latency_us t)) (F64.of_Z 1000)) (F64.of_Z (recorded_count t))
  else S754_zero false.
(** The average of the records. @admin/traffic.rs:148-155 TrafficRecorder::get_response_with_filter *)
Definition app_latency (l : list TrafficRecord) : F64.f64 :=
  match l with
  | [] => S754_zero false
  | _ => F64.div (fold_left (fun acc r => F64.add acc (latency_ms r)) l (S754_zero false))
           (F64.of_Z (Z.of_nat (length l)))
  end.
(** @admin/traffic.rs:{fn get_response_with_filter} TrafficRecorder::get_response_with_filter *)
Definition get_response_with_filter (limit : nat) (app_filter : option string) (t : TrafficRecorder) :
    TrafficResponse :=
  let n := if (limit =? 0)%nat then length (records t) else limit in
  let recs := take n (List.filter (fun r => match selects app_filter with
                                            | Some app => of_app app r
                                            | None => true
                                            end) (records t)) in
  let '(total, mode_b, mode_a, errors, avg) :=
    match selects app_filter with
    | Some app =>
        let app_records := List.filter (of_app app) recs in
        (Z.of_nat (length app_records), count is_async app_records, count is_sync app_records,
         count bad_status app_records, app_latency app_records)
    | None =>
        (total_requests t, mode_b_requests t, mode_a_requests t, error_requests t, overall_latency t)
    end in
  TResponse
    (Stats total mode_b mode_a mode_b mode_a errors
       (F64.div (F64.round (F64.mul avg (F64.of_Z 100))) (F64.of_Z 100)) (length recs)) recs.
(** @admin/traffic.rs:{fn get_response} TrafficRecorder::get_response *)
Definition get_response (limit : nat) (t : TrafficRecorder) : TrafficResponse :=
  get_response_with_filter limit None t.
(** @admin/traffic.rs:{fn clear} TrafficRecorder::clear *)
Definition clear (t : TrafficRecorder) : TrafficRecorder :=
  Recorder (max_entries t) [] (total_requests t) (mode_b_requests t) (mode_a_requests t) (error_requests t) 0 0.

(** [{:02}:{:02}:{:02}.{:03}] @admin/traffic.rs:{fn format_timestamp} format_timestamp *)
Definition format_timestamp (epoch_ms : Z) : string :=
  let total_secs := (epoch_ms / 1000)%Z in
  let ms := (epoch_ms mod 1000)%Z in
  let s := (total_secs mod 60)%Z in
  let m := (total_secs / 60 mod 60)%Z in
  let h := (total_secs / 3600 mod 24)%Z in
  str_concat [pad0 2 (dec h); ":"; pad0 2 (dec m); ":"; pad0 2 (dec s); "."; pad0 3 (dec ms)].
Example format_timestamp_example : format_timestamp 1700000001042 = "22:13:21.042".
Proof. reflexivity. Qed.

(** ** Lemmas *)

Lemma pop_back_to_take max : forall fuel l, (length l <= max + fuel)%nat -> pop_back_to fuel max l = take max l.
Proof.
  induction fuel as [|fuel IH]; intros l Hl; cbn [pop_back_to]; [symmetry; apply take_ge; lia|].
  destruct (Nat.ltb_spec max (length l)) as [Hlt|Hge]; [|symmetry; apply take_ge; lia].
  rewrite removelast_firstn_len, IH by (rewrite length_take; lia).
  rewrite take_take. f_equal. lia.
Qed.

Lemma wrap_succ n : Int.wrap 64 (Int.wrap 64 n + 1) = Int.wrap 64 (n + 1).
Proof. unfold Int.wrap. by rewrite Zplus_mod_idemp_l. Qed.

(** ** Properties *)

(** What callers do with a recorder. *)
Inductive traffic_op := TRecord (lock_free : bool) (r : TrafficRecord) | TClear.
Definition traffic_run (ops : list traffic_op) (t : TrafficRecorder) : TrafficRecorder :=
  fold_left (fun t op => match op with TRecord b r => record b r t | TClear => clear t end) ops t.
(** The records since the last clear whose lock was free, newest first. *)
Definition window (ops : list traffic_op) : list TrafficRecord :=
  fold_left (fun l op => match op with TRecord true r => r :: l | TRecord false _ => l | TClear => [] end) ops [].
(** All records of a history. *)
Definition recorded (ops : list traffic_op) : list TrafficRecord :=
  omap (fun op => match op with TRecord _ r => Some r | TClear => None end) ops.
Definition is_error (r : TrafficRecord) : bool :=
  bad_status r || match t_error_preview r with Some _ => true | None => false end.

Lemma count_app p l1 l2 : count p (l1 ++ l2) = (count p l1 + count p l2)%Z.
Proof. unfold count. rewrite List.filter_app, length_app. lia. Qed.

Lemma bump_count p r l : bump (p r) (Int.wrap 64 (count p l)) = Int.wrap 64 (count p (l ++ [r])).
Proof.
  rewrite count_app. replace (count p [r]) with (if p r then 1 else 0)%Z by (unfold count; cbn; by destruct (p r)).
  unfold bump. destruct (p r); [apply wrap_succ|by rewrite Z.add_0_r].
Qed.

(** C26. However requests are recorded, one after another, skipped by the buffer when its
    lock is held, or cleared, the buffer holds the newest of the records kept since the
    last clear, never more than its capacity, 200 when none is given. The counters go on
    over a clear and count every request of the history, also those the buffer skipped or
    lost, each as asynchronous, synchronous or neither, and as failed for its status, a
    failed dispatch or an error preview; they wrap at 64 bits. *)
Theorem traffic_window max ops :
  let t := traffic_run ops (recorder_new max) in
  records t = take (if (max =? 0)%nat then 200 else max) (window ops) /\
  total_requests t = Int.wrap 64 (Z.of_nat (length (recorded ops))) /\
  mode_b_requests t = Int.wrap 64 (count is_async (recorded ops)) /\
  mode_a_requests t = Int.wrap 64 (count (fun r => negb (is_async r) && is_sync r) (recorded ops)) /\
  error_requests t = Int.wrap 64 (count is_error (recorded ops)).
Proof.
  cbv zeta. assert (Hc : forall l : list TrafficRecord, Z.of_nat (length l) = count (fun _ => true) l).
  { intros l. unfold count. rewrite List.filter_true. reflexivity. }
  rewrite Hc. set (cap := if (max =? 0)%nat then 200 else max).
  assert (H : max_entries (traffic_run ops (recorder_new max)) = cap /\
    records (traffic_run ops (recorder_new max)) = take cap (window ops) /\
    total_requests (traffic_run ops (recorder_new max)) = Int.wrap 64 (count (fun _ => true) (recorded ops)) /\
    mode_b_requests (traffic_run ops (recorder_new max)) = Int.wrap 64 (count is_async (recorded ops)) /\
    mode_a_requests (traffic_run ops (recorder_new max)) =
      Int.wrap 64 (count (fun r => negb (is_async r) && is_sync r) (recorded ops)) /\
    error_requests (traffic_run ops (recorder_new max)) = Int.wrap 64 (count is_error (recorded ops))); [|tauto].
  induction ops as [|op ops IH] using rev_ind; [cbn; split_and!; try done; by destruct cap|].
  unfold traffic_run, window, recorded in *. rewrite !fold_left_app, omap_app.
  destruct IH as (Hm & Hr & Ht & Hb & Ha & He). cbn [fold_left List.fold_left omap list_omap].
  destruct op as [free r|].
  - cbn [record max_entries records total_requests mode_b_requests mode_a_requests error_requests].
    rewrite Hm, Ht, Hb, Ha, He. split_and!; [done| |by rewrite <- (bump_count (fun _ => true))|by rewrite <- bump_count
      |by rewrite <- (bump_count (fun r => negb (is_async r) && is_sync r))|by rewrite <- (bump_count is_error)].
    destruct free; [|done]. rewrite pop_back_to_take by (rewrite Hr; cbn; rewrite length_take; lia).
    rewrite Hr. destruct cap as [|cap]; [done|]. cbn. f_equal. rewrite take_take. f_equal. lia.
  - cbn [clear max_entries records total_requests mode_b_requests mode_a_requests error_requests]. rewrite !app_nil_r, take_nil. done.
Qed.

(** An answer for an application holds only its records, the newest first and at most
    as many as asked for; its statistics are those of the records it holds, so with
    a limit they do not count the rest of the buffer. *)
Theorem traffic_app_view limit app t :
  selects (Some app) = Some app ->
  let r := get_response_with_filter limit (Some app) t in
  resp_records r = take (if (limit =? 0)%nat then length (records t) else limit) (List.filter (of_app app) (records t)) /\
  s_total (stats r) = Z.of_nat (length (resp_records r)) /\
  s_errors (stats r) = count bad_status (resp_records r) /\
  (s_total (stats r) <= count (of_app app) (records t))%Z.
Proof.
  intros Hs. cbv zeta. unfold get_response_with_filter. rewrite Hs. cbn [stats resp_records s_total s_errors].
  set (l := take _ _).
  assert (Hl : List.filter (of_app app) l = l).
  { apply forallb_filter_id, forallb_forall. intros r Hin%list_elem_of_In. subst l.
    apply elem_of_take in Hin as (i & Hi & _). apply list_elem_of_lookup_2, list_elem_of_In, List.filter_In in Hi. tauto. }
  rewrite Hl. split_and!; [done..|]. unfold count. subst l. rewrite length_take. apply Nat2Z.inj_le, Nat.le_min_r.
Qed.

Definition sample_record (app mode : string) (code : Z) : TrafficRecord :=
  Traffic "id" "hlc" 0 (format_timestamp 0) "127.0.0.1" "POST" "/gql" app None "Query" mode code None (F64.of_Z 2) "Upstream"
    None None None None None None.
Lemma traffic_app_view_witness :
  let t := traffic_run [TRecord true (sample_record "Shop" "Sync (Proxy)" 200); TRecord true (sample_record "bill" "Async (Receipt)" 200);
                        TRecord true (sample_record "shop" "Sync (Proxy)" 502); TRecord false (sample_record "shop" "Sync (Proxy)" 200)]
             (recorder_new 3) in
  s_total (stats (get_response_with_filter 1 (Some "shop") t)) = 1%Z /\ s_errors (stats (get_response_with_filter 1 (Some "shop") t)) = 1%Z /\
  count (of_app "shop") (records t) = 2%Z.
Proof.
  cbv zeta. destruct (traffic_app_view 1 "shop" (traffic_run [TRecord true (sample_record "Shop" "Sync (Proxy)" 200);
    TRecord true (sample_record "bill" "Async (Receipt)" 200); TRecord true (sample_record "shop" "Sync (Proxy)" 502);
    TRecord false (sample_record "shop" "Sync (Proxy)" 200)] (recorder_new 3)) eq_refl) as (_ & Ht & He & _).
  split; [|split]; [rewrite Ht|rewrite He|]; reflexivity.
Defined.
