(* ===== verification/Gateway.v ===== *)
(** * Gateway: the life of a request, [src/gateway/composite_service.rs], [src/gateway/mod.rs]
    and [src/gateway/filters/].

    The proxy's phases over one request: what the gateway answers itself, what it
    claims, completes and releases in the idempotency engine, what it sends to the
    broker, what it records, and what it forwards.  The phases are state passing over
    the request's session and context, the interceptors' world, and the sequence of
    the effects so far; a phase may stop the request early, as the code returns. *)

From S2P Require Import Prelude Externals Clock Types Idempotency Sanitizer Protocol Telemetry Config.
From S2P Require Import Interceptors Auth Wasm Cel Manager Hub Access Traffic State.
Local Open Scope string_scope.

(** @gateway/mod.rs:28-28 REQUEST_ID_HEADER *)
Definition REQUEST_ID_HEADER : string := "x-spectra-request-id".

(** [t.trim_start_matches(p)]: the prefix as often as it is there. *)
Fixpoint trim_start_matches_go (fuel : nat) (p t : string) : string :=
  match fuel with
  | O => t
  | S fuel => match strip_prefix p t with Some t' => trim_start_matches_go fuel p t' | None => t end
  end.
Definition trim_start_matches (p t : string) : string := trim_start_matches_go (String.length t) p t.

Definition quoted (s : string) : string := str_concat [String (ascii_of_N 34) ""; s; String (ascii_of_N 34) ""].

Section Gateway.
Context `{HttpLib, JsonText, Unicode, GqlParser, LruLib, AuthLib, CelLib, RegexLib}.
Context {W : Type} `{Clocks W, WasmTypes, !WasmLib W}.
Context {SocketAddr : Type}.

(** ** What surrounds the gateway *)

(** The broker's answer to a message, the idempotency engine's answer to a claim, the
    matched service of a path ([matchit]), and what the two parts the gateway hands a
    whole session to do with it (the administrative engine and the WebSocket
    handler). *)
Record surroundings := Around {
  send : message -> option string;
  claim : string -> HlcTimestamp -> IdempotencyOutcome;
  service_at : string -> option nat;
  admin_answer : result string bool;
  websocket_answer : result string bool;
  headers_json : HeaderMap -> json;
  to_uppercase : string -> string;
  sha256 : string -> string;
  hv_bytes : HeaderValue -> string;
  uri_query : string -> option string;
  status_text : Z -> string;
  addr_text : SocketAddr -> string;
  favicon_svg : string
}.
Context (env : surroundings).

(** [ProxyService]: a service's decoder and its broker. @gateway/mod.rs:{enum ProxyService} ProxyService *)
Record ProxyService := Proxy { request_protocol : ProtocolDecoder; dispatch_method : DispatchMethod }.
(** A panic of [unwrap] is no answer at all.
    @gateway/gql_service.rs:{fn new} GraphQLServiceProxy::new *)
Definition gql_service_new (method endpoint : string) (extra_params : gmap string string) : option ProxyService :=
  let ops_to_dispatch := default "query, mutation, subscription" (extra_params !! "ops_to_dispatch") in
  Proxy (GraphQLDecoder (decoder_new ops_to_dispatch)) <$> ok (find_dispatch_handler_by_method method endpoint).
(** @gateway/http_service.rs:{fn new} HttpServiceProxy::new *)
Definition http_service_new (method endpoint : string) : option ProxyService :=
  Proxy HttpDecoder <$> ok (find_dispatch_handler_by_method method endpoint).
(** @gateway/mod.rs:{fn new_proxy_service} new_proxy_service *)
Definition new_proxy_service (service_type method endpoint : string) (extra_params : gmap string string) :
    option (result string ProxyService) :=
  let kind := to_lowercase service_type in
  if String.eqb kind "http" then Ok <$> http_service_new method endpoint
  else if String.eqb kind "gql" then Ok <$> gql_service_new method endpoint extra_params
  else Some (Err (String.append "Unsupported service type: " service_type)).

(** [ServiceConfig] @gateway/composite_service.rs:{struct ServiceConfig} ServiceConfig *)
Record ServiceConfig := Service { sc_service : ProxyService; sc_upstream_addr : SocketAddr; sc_upstream_routes : string }.
(** [ServiceConfig::try_new] @gateway/composite_service.rs:{fn try_new} ServiceConfig::try_new *)
Definition service_try_new (to_socket_addrs : string -> result string (list SocketAddr))
    (service_type upstream_address upstream_routes method address : string) (extra_params : gmap string string) :
    option (result string ServiceConfig) :=
  match to_socket_addrs upstream_address with
  | Err e => Some (Err (str_concat ["Failed to resolve upstream address '"; upstream_address; "': "; e]))
  | Ok [] => Some (Err (str_concat ["No socket address resolved for upstream '"; upstream_address; "'"]))
  | Ok (a :: _) =>
      (fun r => match r with Ok s => Ok (Service s a upstream_routes) | Err e => Err e end) <$>
      new_proxy_service service_type method address extra_params
  end.

(** The parts of [CompositeServiceProxy] a request reads; its running configuration is
    an argument of each phase. @gateway/composite_service.rs:{struct CompositeServiceProxy} CompositeServiceProxy *)
Record gateway := Gw {
  upstream_services : list ServiceConfig;
  admin_engine : option SpectraAdminConfig;
  subscriptions_config : SpectraSubscriptionsConfig;
  startup_telemetry : ErrorCaptureConfig
}.

(** ** A request *)

(** The session: the request, the peer, the body still to be read, and whether the
    client still takes an answer. *)
Record session := Session {
  req : HttpRequestInfo;
  client_addr : option IpAddr;
  chunks : list (result string string);
  connected : bool
}.
Definition with_headers (h : HeaderMap) (s : session) : session :=
  Session (HttpInfo (method (req s)) (uri (req s)) (Protocol.version (req s)) h) (client_addr s) (chunks s) (connected s).
Definition req_headers (s : session) : HeaderMap := headers (req s).
Definition path_of (s : session) : string := uri_path (uri (req s)).

(** [SpectraProxyCtx] with the service of [CompositeServiceProxyCtx]; the instant a
    request started is in the readings of the clock.
    @gateway/mod.rs:{struct SpectraProxyCtx} SpectraProxyCtx *)
Record proxy_ctx := PCtx {
  c_request_id : string;
  c_hlc : HlcTimestamp;
  request_topic : string;
  request_info : option RequestInfo;
  c_response_parts : option response_parts;
  c_response_body : option ResponseBody;
  buffer : string;
  idempotency_key : option string;
  is_replay : bool;
  target_upstream_addr : option SocketAddr;
  is_mode_b_terminated : bool;
  c_dispatch_policy : ModeADispatchPolicy;
  active_operation : option string;
  has_response_interception : bool;
  query_preview : option string;
  variables_preview : option string;
  c_app_id : string;
  audit_tag : option string;
  audit_rule : option string;
  response_preview : option string;
  error_preview : option string;
  service_handle : option nat;
  service : option ProxyService
}.
(** Assignments to its fields. *)
Definition set_topic v (c : proxy_ctx) : proxy_ctx :=
  PCtx (c_request_id c) (c_hlc c) v (request_info c) (c_response_parts c) (c_response_body c) (buffer c)
    (idempotency_key c) (is_replay c) (target_upstream_addr c) (is_mode_b_terminated c) (c_dispatch_policy c)
    (active_operation c) (has_response_interception c) (query_preview c) (variables_preview c) (c_app_id c)
    (audit_tag c) (audit_rule c) (response_preview c) (error_preview c) (service_handle c) (service c).
Definition set_info v (c : proxy_ctx) : proxy_ctx :=
  PCtx (c_request_id c) (c_hlc c) (request_topic c) v (c_response_parts c) (c_response_body c) (buffer c)
    (idempotency_key c) (is_replay c) (target_upstream_addr c) (is_mode_b_terminated c) (c_dispatch_policy c)
    (active_operation c) (has_response_interception c) (query_preview c) (variables_preview c) (c_app_id c)
    (audit_tag c) (audit_rule c) (response_preview c) (error_preview c) (service_handle c) (service c).
Definition set_response_parts v (c : proxy_ctx) : proxy_ctx :=
  PCtx (c_request_id c) (c_hlc c) (request_topic c) (request_info c) v (c_response_body c) (buffer c)
    (idempotency_key c) (is_replay c) (target_upstream_addr c) (is_mode_b_terminated c) (c_dispatch_policy c)
    (active_operation c) (has_response_interception c) (query_preview c) (variables_preview c) (c_app_id c)
    (audit_tag c) (audit_rule c) (response_preview c) (error_preview c) (service_handle c) (service c).
Definition set_response_body v (c : proxy_ctx) : proxy_ctx :=
  PCtx (c_request_id c) (c_hlc c) (request_topic c) (request_info c) (c_response_parts c) v (buffer c)
    (idempotency_key c) (is_replay c) (target_upstream_addr c) (is_mode_b_terminated c) (c_dispatch_policy c)
    (active_operation c) (has_response_interception c) (query_preview c) (variables_preview c) (c_app_id c)
    (audit_tag c) (audit_rule c) (response_preview c) (error_preview c) (service_handle c) (service c).
Definition set_buffer v (c : proxy_ctx) : proxy_ctx :=
  PCtx (c_request_id c) (c_hlc c) (request_topic c) (request_info c) (c_response_parts c) (c_response_body c) v
    (idempotency_key c) (is_replay c) (target_upstream_addr c) (is_mode_b_terminated c) (c_dispatch_policy c)
    (active_operation c) (has_response_interception c) (query_preview c) (variables_preview c) (c_app_id c)
    (audit_tag c) (audit_rule c) (response_preview c) (error_preview c) (service_handle c) (service c).
Definition set_key v (c : proxy_ctx) : proxy_ctx :=
  PCtx (c_request_id c) (c_hlc c) (request_topic c) (request_info c) (c_response_parts c) (c_response_body c)
    (buffer c) v (is_replay c) (target_upstream_addr c) (is_mode_b_terminated c) (c_dispatch_policy c)
    (active_operation c) (has_response_interception c) (query_preview c) (variables_preview c) (c_app_id c)
    (audit_tag c) (audit_rule c) (response_preview c) (error_preview c) (service_handle c) (service c).
Definition set_replay v (c : proxy_ctx) : proxy_ctx :=
  PCtx (c_request_id c) (c_hlc c) (request_topic c) (request_info c) (c_response_parts c) (c_response_body c)
    (buffer c) (idempotency_key c) v (target_upstream_addr c) (is_mode_b_terminated c) (c_dispatch_policy c)
    (active_operation c) (has_response_interception c) (query_preview c) (variables_preview c) (c_app_id c)
    (audit_tag c) (audit_rule c) (response_preview c) (error_preview c) (service_handle c) (service c).
Definition set_target v (c : proxy_ctx) : proxy_ctx :=
  PCtx (c_request_id c) (c_hlc c) (request_topic c) (request_info c) (c_response_parts c) (c_response_body c)
    (buffer c) (idempotency_key c) (is_replay c) v (is_mode_b_terminated c) (c_dispatch_policy c)
    (active_operation c) (has_response_interception c) (query_preview c) (variables_preview c) (c_app_id c)
    (audit_tag c) (audit_rule c) (response_preview c) (error_preview c) (service_handle c) (service c).
Definition set_mode_b v (c : proxy_ctx) : proxy_ctx :=
  PCtx (c_request_id c) (c_hlc c) (request_topic c) (request_info c) (c_response_parts c) (c_response_body c)
    (buffer c) (idempotency_key c) (is_replay c) (target_upstream_addr c) v (c_dispatch_policy c)
    (active_operation c) (has_response_interception c) (query_preview c) (variables_preview c) (c_app_id c)
    (audit_tag c) (audit_rule c) (response_preview c) (error_preview c) (service_handle c) (service c).
Definition set_policy v (c : proxy_ctx) : proxy_ctx :=
  PCtx (c_request_id c) (c_hlc c) (request_topic c) (request_info c) (c_response_parts c) (c_response_body c)
    (buffer c) (idempotency_key c) (is_replay c) (target_upstream_addr c) (is_mode_b_terminated c) v
    (active_operation c) (has_response_interception c) (query_preview c) (variables_preview c) (c_app_id c)
    (audit_tag c) (audit_rule c) (response_preview c) (error_preview c) (service_handle c) (service c).
Definition set_operation v (c : proxy_ctx) : proxy_ctx :=
  PCtx (c_request_id c) (c_hlc c) (request_topic c) (request_info c) (c_response_parts c) (c_response_body c)
    (buffer c) (idempotency_key c) (is_replay c) (target_upstream_addr c) (is_mode_b_terminated c)
    (c_dispatch_policy c) v (has_response_interception c) (query_preview c) (variables_preview c) (c_app_id c)
    (audit_tag c) (audit_rule c) (response_preview c) (error_preview c) (service_handle c) (service c).
Definition set_interception v (c : proxy_ctx) : proxy_ctx :=
  PCtx (c_request_id c) (c_hlc c) (request_topic c) (request_info c) (c_response_parts c) (c_response_body c)
    (buffer c) (idempotency_key c) (is_replay c) (target_upstream_addr c) (is_mode_b_terminated c)
    (c_dispatch_policy c) (active_operation c) v (query_preview c) (variables_preview c) (c_app_id c)
    (audit_tag c) (audit_rule c) (response_preview c) (error_preview c) (service_handle c) (service c).
Definition set_previews v1 v2 (c : proxy_ctx) : proxy_ctx :=
  PCtx (c_request_id c) (c_hlc c) (request_topic c) (request_info c) (c_response_parts c) (c_response_body c)
    (buffer c) (idempotency_key c) (is_replay c) (target_upstream_addr c) (is_mode_b_terminated c)
    (c_dispatch_policy c) (active_operation c) (has_response_interception c) v1 v2 (c_app_id c) (audit_tag c)
    (audit_rule c) (response_preview c) (error_preview c) (service_handle c) (service c).
Definition set_app v (c : proxy_ctx) : proxy_ctx :=
  PCtx (c_request_id c) (c_hlc c) (request_topic c) (request_info c) (c_response_parts c) (c_response_body c)
    (buffer c) (idempotency_key c) (is_replay c) (target_upstream_addr c) (is_mode_b_terminated c)
    (c_dispatch_policy c) (active_operation c) (has_response_interception c) (query_preview c)
    (variables_preview c) v (audit_tag c) (audit_rule c) (response_preview c) (error_preview c)
    (service_handle c) (service c).
Definition set_audit v1 v2 (c : proxy_ctx) : proxy_ctx :=
  PCtx (c_request_id c) (c_hlc c) (request_topic c) (request_info c) (c_response_parts c) (c_response_body c)
    (buffer c) (idempotency_key c) (is_replay c) (target_upstream_addr c) (is_mode_b_terminated c)
    (c_dispatch_policy c) (active_operation c) (has_response_interception c) (query_preview c)
    (variables_preview c) (c_app_id c) v1 v2 (response_preview c) (error_preview c) (service_handle c)
    (service c).
Definition set_response_preview v (c : proxy_ctx) : proxy_ctx :=
  PCtx (c_request_id c) (c_hlc c) (request_topic c) (request_info c) (c_response_parts c) (c_response_body c)
    (buffer c) (idempotency_key c) (is_replay c) (target_upstream_addr c) (is_mode_b_terminated c)
    (c_dispatch_policy c) (active_operation c) (has_response_interception c) (query_preview c)
    (variables_preview c) (c_app_id c) (audit_tag c) (audit_rule c) v (error_preview c) (service_handle c)
    (service c).
Definition set_error_preview v (c : proxy_ctx) : proxy_ctx :=
  PCtx (c_request_id c) (c_hlc c) (request_topic c) (request_info c) (c_response_parts c) (c_response_body c)
    (buffer c) (idempotency_key c) (is_replay c) (target_upstream_addr c) (is_mode_b_terminated c)
    (c_dispatch_policy c) (active_operation c) (has_response_interception c) (query_preview c)
    (variables_preview c) (c_app_id c) (audit_tag c) (audit_rule c) (response_preview c) v (service_handle c)
    (service c).
Definition set_service v1 v2 (c : proxy_ctx) : proxy_ctx :=
  PCtx (c_request_id c) (c_hlc c) (request_topic c) (request_info c) (c_response_parts c) (c_response_body c)
    (buffer c) (idempotency_key c) (is_replay c) (target_upstream_addr c) (is_mode_b_terminated c)
    (c_dispatch_policy c) (active_operation c) (has_response_interception c) (query_preview c)
    (variables_preview c) (c_app_id c) (audit_tag c) (audit_rule c) (response_preview c) (error_preview c) v1 v2.

(** ** Effects *)

(** A response the gateway writes itself. *)
Record reply := Reply { rp_code : Z; rp_fields : HeaderMap; rp_body : string }.

(** What a request does outside its own context, in order. *)
Inductive event :=
| Claimed (key : string) (o : IdempotencyOutcome)
| Finished (key : string) (h : HlcTimestamp) (code : Z) (pairs : list (string * string)) (body : string)
| Released (key : string)
| Dispatched (answer : result string unit) (ms : list message)
| Replied (r : reply)
| Recorded (r : TrafficRecord)
| Forwarded (a : SocketAddr) (r : HttpRequestInfo)
| Relayed (p : response_parts) (bodies : list string).

Record state := St { sess : session; ctx : proxy_ctx; world : W; log : list event }.

(** A step goes on with a value or stops the phase with its result. *)
Inductive flow (A : Type) := Go (a : A) | Stop (r : result string bool).
Arguments Go {A} _.
Arguments Stop {A} _.
Definition M (A : Type) : Type := state -> flow A * state.
Definition ret {A} (a : A) : M A := fun s => (Go a, s).
Definition stop {A} (r : result string bool) : M A := fun s => (Stop r, s).
Definition bind {A B} (m : M A) (k : A -> M B) : M B := fun s =>
  match m s with
  | (Go a, s') => k a s'
  | (Stop r, s') => (Stop r, s')
  end.
Definition emit (e : event) : M unit := fun s => (Go tt, St (sess s) (ctx s) (world s) (log s ++ [e])%list).
Definition get_ctx : M proxy_ctx := fun s => (Go (ctx s), s).
Definition modify (f : proxy_ctx -> proxy_ctx) : M unit := fun s =>
  (Go tt, St (sess s) (f (ctx s)) (world s) (log s)).
Definition get_sess : M session := fun s => (Go (sess s), s).
Definition modify_sess (f : session -> session) : M unit := fun s =>
  (Go tt, St (f (sess s)) (ctx s) (world s) (log s)).
(** A phase's result. *)
Definition run (m : M bool) (s : state) : result string bool * state :=
  match m s with
  | (Go b, s') => (Ok b, s')
  | (Stop r, s') => (r, s')
  end.
Local Notation "'let*' x ':=' m 'in' k" := (bind m (fun x => k)) (at level 10, x binder, k at level 200).

(** A header set from text is left as it is when the text is no header value. *)
Definition put_header (nv : string * string) (h : HeaderMap) : HeaderMap :=
  match hv_from_str (snd nv) with Some v => hm_insert (fst nv) v h | None => h end.
Definition append_header (n v : string) (h : HeaderMap) : HeaderMap :=
  match hv_from_str v with Some v => hm_append n v h | None => h end.
Definition build_headers (l : list (string * string)) : HeaderMap :=
  fold_left (fun h nv => put_header nv h) l hm_new.
(** [ResponseHeader::build], then the two writes; [false] when the client is gone. *)
Definition write_response (code : Z) (fields : HeaderMap) (body : string) : M bool :=
  if ((100 <=? code) && (code <=? 999))%Z then
    let* s := get_sess in
    if connected s then let* _ := emit (Replied (Reply code fields body)) in ret true
    else ret false
  else stop (Err "invalid status code").
Definition content_length (body : string) : string := dec (Z.of_nat (String.length body)).

(** The engine's three operations. *)
Definition check_or_insert (key : string) (h : HlcTimestamp) : M IdempotencyOutcome :=
  let o := claim env key h in
  let* _ := emit (Claimed key o) in ret o.
Definition complete (key : string) (h : HlcTimestamp) (code : Z) (fields : HeaderMap) (body : string) : M unit :=
  emit (Finished key h code (header_pairs fields) body).
Definition remove (key : string) : M unit := emit (Released key).
(** Sending messages through an adapter. *)
Definition dispatch (out : sent) : M (result string unit) :=
  let '(answer, ms) := out in
  let* _ := emit (Dispatched answer ms) in ret answer.

(** ** Traffic records *)

(** A reading of the clocks: seconds since the request's start, and the epoch. *)
Record reading := Reading { elapsed_secs : F64.f64; elapsed_ms : Z; epoch_ms : Z }.

(** [TrafficEventDetails] @gateway/composite_service.rs:{struct TrafficEventDetails} TrafficEventDetails *)
Record TrafficEventDetails := Details {
  d_operation_name : option string;
  d_operation_type : string;
  d_mode : string;
  d_status_code : Z;
  d_receipt_status : option string;
  d_target : string;
  d_query_preview : option string;
  d_variables_preview : option string;
  d_audit_tag : option string;
  d_audit_rule : option string;
  d_response_preview : option string;
  d_error_preview : option string
}.
Definition details (name : option string) (kind mode : string) (code : Z) (receipt : option string) (target : string)
    (query variables error : option string) : TrafficEventDetails :=
  Details name kind mode code receipt target query variables None None None error.
(** @gateway/composite_service.rs:{fn record_traffic_event} CompositeServiceProxy::record_traffic_event *)
Definition traffic_record (t : reading) (s : session) (c : proxy_ctx) (d : TrafficEventDetails) : TrafficRecord :=
  Traffic (c_request_id c) (to_compact_string (c_hlc c)) (epoch_ms t) (format_timestamp (epoch_ms t))
    (ip_to_string (extract_client_ip (req_headers s) (client_addr s)))
    (method (req s)) (path_of s) (c_app_id c) (d_operation_name d) (d_operation_type d) (d_mode d) (d_status_code d)
    (d_receipt_status d) (F64.mul (elapsed_secs t) (F64.of_Z 1000)) (d_target d)
    (or_else (d_query_preview d) (query_preview c)) (or_else (d_variables_preview d) (variables_preview c))
    (or_else (d_audit_tag d) (audit_tag c)) (or_else (d_audit_rule d) (audit_rule c))
    (or_else (d_response_preview d) (response_preview c)) (or_else (d_error_preview d) (error_preview c)).
Definition record_traffic_event (t : reading) (d : TrafficEventDetails) : M unit :=
  let* s := get_sess in
  let* c := get_ctx in
  emit (Recorded (traffic_record t s c d)).

(** ** Requests answered at the edge *)

(** @gateway/filters/health.rs:{fn is_health_probe} HealthFilter::is_health_probe *)
Definition is_health_probe (path : string) : bool := String.eqb path "/healthz" || String.eqb path "/livez".
(** [CARGO_PKG_VERSION] is that of [Cargo.toml]. @gateway/filters/health.rs:14-61 HealthFilter::handle *)
Definition health_handle : M bool :=
  let* s := get_sess in
  let answer j :=
    let body := json_to_string j in
    let* _ := write_response 200 (build_headers [("content-type", "application/json");
                ("content-length", content_length body); ("cache-control", "no-store")]) body in
    ret true in
  if String.eqb (path_of s) "/healthz" then
    answer (JObject (obj_of [("status", JString "ok"); ("service", JString "spectragql");
                             ("version", JString "0.1.0")]))
  else if String.eqb (path_of s) "/livez" then
    answer (JObject (obj_of [("status", JString "live"); ("gateway", JString "ready"); ("broker", JString "connected")]))
  else ret false.
(** @gateway/filters/favicon.rs:{fn is_favicon_request} FaviconFilter::is_favicon_request *)
Definition is_favicon_request (path : string) : bool :=
  existsb (String.eqb path) ["/favicon.ico"; "/favicon.svg"; "/admin/favicon.ico"; "/admin/favicon.svg";
    "/apple-touch-icon.png"; "/apple-touch-icon-precomposed.png"].
(** @gateway/filters/favicon.rs:{fn handle} FaviconFilter::handle *)
Definition favicon_handle : M bool :=
  let* s := get_sess in
  if is_favicon_request (path_of s) then
    let* _ := write_response 200 (build_headers [("content-type", "image/svg+xml");
                ("content-length", content_length (favicon_svg env));
                ("cache-control", "public, max-age=86400, immutable")]) (favicon_svg env) in
    ret true
  else ret false.
(** @gateway/filters/admin.rs:{fn is_admin_request} AdminFilter::is_admin_request *)
Definition is_admin_request (admin : option SpectraAdminConfig) (path : string) : bool :=
  match admin with
  | Some a => a_enabled a && (String.eqb path (path_prefix a) || starts_with (String.append (path_prefix a) "/") path)
  | None => false
  end.
(** @gateway/filters/admin.rs:{fn handle} AdminFilter::handle *)
Definition admin_handle (admin : option SpectraAdminConfig) : M bool :=
  let* s := get_sess in
  if is_admin_request admin (path_of s) then
    match admin_answer env with Ok b => ret b | Err e => stop (Err e) end
  else ret false.

(** ** The idempotency filter *)

(** [IdempotencyInterceptResult] @gateway/filters/idempotency.rs:{enum IdempotencyInterceptResult} IdempotencyInterceptResult *)
Inductive IdempotencyInterceptResult := IConflict | IReplay | INewKey (key : string) | INone.

(** The two headers every answer carries. *)
Definition tag_fields (c : proxy_ctx) : list (string * string) :=
  [(REQUEST_ID_HEADER, c_request_id c); ("x-spectra-hlc", to_compact_string (c_hlc c))].
Definition cors_fields : list (string * string) :=
  [("access-control-allow-origin", "*");
   ("access-control-expose-headers",
    "x-spectra-request-id, x-spectra-hlc, x-spectra-dispatch, x-spectra-idempotent-replay")].
(** [write_conflict_response] and, without a key, [write_fingerprint_conflict_response].
    @gateway/filters/idempotency.rs:{fn write_conflict_response} IdempotencyFilter::write_conflict_response *)
Definition write_conflict_response (key : option string) (conflict_hlc : HlcTimestamp) : M unit :=
  let* c := get_ctx in
  let body := error_to_json_string (error_conflict key conflict_hlc) in
  let* _ := write_response 409 (build_headers
              ([("content-type", "application/json"); ("content-length", content_length body)] ++ tag_fields c)%list) body in
  ret tt.
(** The stored fields first, a name that is none skipped, and then the gateway's own.
    @gateway/filters/idempotency.rs:{fn write_replay_response} IdempotencyFilter::write_replay_response *)
Definition write_replay_response (code : Z) (stored : list (string * string)) (body : string) : M unit :=
  let* c := get_ctx in
  let fields := build_headers
    (List.filter (fun nv => hn_valid (fst nv)) stored ++
     [("content-type", "application/json"); ("content-length", content_length body)] ++ cors_fields ++
     [(REPLAY_HEADER, "true")] ++ tag_fields c)%list in
  let* _ := write_response code fields body in
  ret tt.
(** The answer to a claim. @gateway/filters/idempotency.rs:32-58 IdempotencyFilter::handle_explicit_key *)
Definition intercept_outcome (named : option string) (key : string) (o : IdempotencyOutcome) :
    M IdempotencyInterceptResult :=
  match o with
  | Conflict conflict_hlc => let* _ := write_conflict_response named conflict_hlc in ret IConflict
  | Replay _ code stored body => let* _ := write_replay_response code stored body in ret IReplay
  | New => ret (INewKey key)
  end.
(** @gateway/filters/idempotency.rs:{fn handle_explicit_key} IdempotencyFilter::handle_explicit_key *)
Definition handle_explicit_key : M IdempotencyInterceptResult :=
  let* s := get_sess in
  let* c := get_ctx in
  match extract_idempotency_key (req_headers s) with
  | Some key => let* o := check_or_insert key (c_hlc c) in intercept_outcome (Some key) key o
  | None => ret INone
  end.
(** @gateway/filters/idempotency.rs:{fn handle_fingerprint} IdempotencyFilter::handle_fingerprint *)
Definition handle_fingerprint (client_id : string) (operation_name : option string) (body : string) :
    M IdempotencyInterceptResult :=
  let* c := get_ctx in
  let fingerprint := compute_fingerprint (sha256 env) client_id operation_name body in
  let* o := check_or_insert fingerprint (c_hlc c) in intercept_outcome None fingerprint o.

(** ** The strategy router *)

(** [generate_command_receipt] @gateway/filters/strategy.rs:{fn generate_command_receipt} generate_command_receipt *)
Definition generate_command_receipt (field_or_op command_id : string) (h : HlcTimestamp) (status : string) : json :=
  JObject [("data", JObject [(field_or_op,
    JObject (obj_of [("commandId", JString command_id); ("hlc", JString (to_compact_string h)); ("status", JString status)]))])].
(** The routes are in the order the hash map lists its values.
    @gateway/filters/strategy.rs:{fn match_route} StrategyRouter::match_route *)
Definition match_route (routes : list (string * SpectraRouteConfig)) (info : RequestInfo) : option SpectraRouteConfig :=
  match Protocol.gql info with
  | Some g => snd <$> List.find (fun kr => matches_operation g (operation (snd kr))) routes
  | None => None
  end.
(** @gateway/filters/strategy.rs:{fn resolve_mode_a_upstream} StrategyRouter::resolve_mode_a_upstream *)
Definition resolve_mode_a_upstream (route : SpectraRouteConfig) (named : gmap string SocketAddr) : option SocketAddr :=
  rt_upstream route ≫= fun name => named !! name.
Definition send_request (dm : DispatchMethod) (info : RequestInfo) : M (result string unit) :=
  dispatch (dispatch_request_info (headers_json env) (to_uppercase env) (send env) dm info).
(** The sanitized request. @gateway/filters/strategy.rs:{fn handle_mode_a_dispatch_policy} StrategyRouter::handle_mode_a_dispatch_policy *)
Definition handle_mode_a_dispatch_policy (policy : ModeADispatchPolicy) (info : RequestInfo) (dm : DispatchMethod) : M unit :=
  match policy with
  | RawAudit => let* _ := send_request dm (payload (sanitized_of_request info)) in ret tt
  | ResponseOnly | ResponseWithFailure | NoDispatch => ret tt
  end.
(** The name the receipt is given under. @gateway/filters/strategy.rs:91-97 StrategyRouter::handle_mode_b_edge *)
Definition receipt_field (route : SpectraRouteConfig) (info : RequestInfo) : string :=
  match Protocol.gql info with
  | Some g => match root_fields g with
              | f :: _ => f
              | [] => default (operation route) (operation_name g)
              end
  | None => operation route
  end.
(** The headers a receipt is stored with. @gateway/filters/strategy.rs:110-117 StrategyRouter::handle_mode_b_edge *)
Definition receipt_headers (c : proxy_ctx) : HeaderMap :=
  fold_left (fun h nv => put_header nv h) (tag_fields c)
    (hm_insert "content-type" (hv_from_static "application/json") hm_new).
(** @gateway/filters/strategy.rs:{fn handle_mode_b_edge} StrategyRouter::handle_mode_b_edge *)
Definition handle_mode_b_edge (route : SpectraRouteConfig) (info : RequestInfo) (dm : DispatchMethod) : M bool :=
  let* _ := modify (set_mode_b true) in
  let* answer := send_request dm (payload (sanitized_of_request info)) in
  let dispatch_ok := is_ok answer in
  let status := if dispatch_ok then receipt_status route else "DISPATCH_FAILED" in
  let* c := get_ctx in
  let receipt_body := json_to_string
    (generate_command_receipt (receipt_field route info) (c_request_id c) (c_hlc c) status) in
  let* _ :=
    match idempotency_key c with
    | Some key => if dispatch_ok then complete key (c_hlc c) 200 (receipt_headers c) receipt_body else remove key
    | None => ret tt
    end in
  let* _ := write_response 200 (build_headers
    ([("content-type", "application/json"); ("content-length", content_length receipt_body)] ++ cors_fields ++
     tag_fields c ++ (if dispatch_ok then [] else [("x-spectra-dispatch", "failed")]))%list) receipt_body in
  ret true.

(** ** Early request filter *)

(** @gateway/composite_service.rs:{fn resolve_app_with_apps} CompositeServiceProxy::resolve_app_with_apps *)
Definition resolve_app_with_apps (apps : list SpectraAppConfig) (default_app host header_app : option string)
    (path : string) : option SpectraAppConfig :=
  or_else (header_app ≫= find_app_by_id apps)
    (or_else (host ≫= find_app_by_host apps)
      (or_else (find_app_by_path apps path)
        (or_else (default_app ≫= find_app_by_id apps) (head apps)))).
Abbreviation dynamic_state := (DynamicGatewayState (W := W) (SocketAddr := SocketAddr)).
(** @gateway/composite_service.rs:{fn new_ctx} CompositeServiceProxy::new_ctx *)
Definition new_ctx (d : dynamic_state) (id : string) (h : HlcTimestamp) : proxy_ctx :=
  PCtx id h "spectra" None None None "" None false None false (ma_dispatch_policy (dy_mode_a d)) None false None None
    (default "default" (dy_default_app d)) None None None None None None.
(** The application and its upstream. @gateway/composite_service.rs:730-744 CompositeServiceProxy::early_request_filter *)
Definition assign_app (d : dynamic_state) (app : option SpectraAppConfig) (c : proxy_ctx) : proxy_ctx :=
  let target name c := match named_upstreams d !! name with Some a => set_target (Some a) c | None => c end in
  match app with
  | Some app => target (app_upstream app) (set_app (app_id app) c)
  | None =>
      match dy_default_app d with
      | Some def_id =>
          let c := set_app def_id c in
          match List.find (fun a => String.eqb (app_id a) def_id) (dy_apps d) with
          | Some app => target (app_upstream app) c
          | None => c
          end
      | None => target "default" c
      end
  end.
(** @gateway/composite_service.rs:{fn early_request_filter} CompositeServiceProxy::early_request_filter *)
Definition early_request_filter (g : gateway) (d : dynamic_state) : M bool :=
  let* s := get_sess in
  let path := path_of s in
  if is_health_probe path then ret false
  else if is_favicon_request path then ret false
  else if is_admin_request (admin_engine g) path then ret false
  else
    let host := header_str "host" (req_headers s) in
    let header_app :=
      match hm_get "x-app-id" (req_headers s) with
      | Some v => hv_to_str v
      | None => header_str "x-tenant-id" (req_headers s)
      end in
    let* _ := modify (assign_app d (resolve_app_with_apps (dy_apps d) (dy_default_app d) host header_app path)) in
    match service_at env path with
    | Some handle =>
        match upstream_services g !! handle with
        | Some sc => let* _ := modify (set_service (Some handle) (Some (sc_service sc))) in ret false
        | None => stop (Err "index out of bounds")
        end
    | None => stop (Err (str_concat ["No route configured for "; path; "."]))
    end.
(** @gateway/composite_service.rs:{fn upstream_peer} CompositeServiceProxy::upstream_peer *)
Definition upstream_peer (g : gateway) (d : dynamic_state) (c : proxy_ctx) : result string SocketAddr :=
  match target_upstream_addr c with
  | Some a => Ok a
  | None =>
      match named_upstreams d !! "default" with
      | Some a => Ok a
      | None =>
          match service_handle c with
          | Some handle => ok_or "index out of bounds" (sc_upstream_addr <$> upstream_services g !! handle)
          | None => Err "No upstream peer available."
          end
      end
  end.

(** ** Request filter *)

(** The requests that end before the gateway's own headers.
    @gateway/composite_service.rs:795-824 CompositeServiceProxy::request_filter *)
Definition edge_stage (g : gateway) : M unit :=
  let* health := health_handle in
  if health then stop (Ok true) else
  let* favicon := favicon_handle in
  if favicon then stop (Ok true) else
  let* admin := admin_handle (admin_engine g) in
  if admin then stop (Ok true) else
  let* s := get_sess in
  let path := path_of s in
  if sub_enabled (subscriptions_config g) && is_websocket_upgrade (hv_bytes env) (req_headers s) &&
     (starts_with "/graphql" path || starts_with "/gql" path)
  then stop (websocket_answer env)
  else ret tt.
(** The three headers added to the request. @gateway/composite_service.rs:828-850 CompositeServiceProxy::request_filter *)
Definition stamp_stage : M unit :=
  let* c := get_ctx in
  modify_sess (fun s => with_headers
    (append_header "x-spectra-app" (c_app_id c)
      (append_header "x-spectra-hlc" (to_compact_string (c_hlc c))
        (append_header REQUEST_ID_HEADER (c_request_id c) (req_headers s)))) s).

Definition replay_details (name : option string) (mode : string) : TrafficEventDetails :=
  details name "Mutation" mode 200 (Some "REPLAY") "Idempotency Cache" None None None.
(** What follows a claim, explicit or by fingerprint.
    @gateway/composite_service.rs:852-883 CompositeServiceProxy::request_filter *)
Definition after_claim (t : reading) (name : option string) (mode : string) (r : IdempotencyInterceptResult) : M unit :=
  match r with
  | IConflict => stop (Ok true)
  | IReplay =>
      let* _ := modify (set_replay true) in
      let* _ := record_traffic_event t (replay_details name mode) in
      stop (Ok true)
  | INewKey k => modify (set_key (Some k))
  | INone => ret tt
  end.
(** @gateway/composite_service.rs:852-883 CompositeServiceProxy::request_filter *)
Definition explicit_key_stage (t : reading) : M unit :=
  let* r := handle_explicit_key in after_claim t None "Replay (Idempotency)" r.

(** @gateway/composite_service.rs:886-886 MAX_GATEWAY_BODY_BYTES *)
Definition MAX_GATEWAY_BODY_BYTES : nat := (10 * 1024 * 1024)%nat.
(** The body as far as it fits the limit, and whether it did not. @gateway/composite_service.rs:891-897 CompositeServiceProxy::request_filter *)
Fixpoint read_chunks (limit : nat) (acc : string) (l : list (result string string)) : string * result string bool :=
  match l with
  | [] => (acc, Ok false)
  | Err e :: _ => (acc, Err e)
  | Ok chunk :: l' =>
      if (limit <? String.length acc + String.length chunk)%nat then (acc, Ok true)
      else read_chunks limit (String.append acc chunk) l'
  end.
Definition release_key : M unit :=
  let* c := get_ctx in
  match idempotency_key c with
  | Some key => let* _ := modify (set_key None) in remove key
  | None => ret tt
  end.
Definition too_large_body : string :=
  str_concat ["{"; quoted "errors"; ":[{"; quoted "message"; ":";
    quoted "Payload Too Large: request body exceeds 10MB limit"; "}]}"].
(** @gateway/composite_service.rs:888-923 CompositeServiceProxy::request_filter *)
Definition body_stage : M unit :=
  let* s := get_sess in
  if String.eqb (method (req s)) "POST" then
    let* c := get_ctx in
    let '(b, too_large) := read_chunks MAX_GATEWAY_BODY_BYTES (buffer c) (chunks s) in
    let* _ := modify (set_buffer b) in
    match too_large with
    | Err e => stop (Err e)
    | Ok false => ret tt
    | Ok true =>
        let* delivered := write_response 413 (build_headers
          ([("content-type", "application/json"); ("content-length", content_length too_large_body)] ++ tag_fields c)%list)
          too_large_body in
        if delivered then let* _ := release_key in stop (Ok true) else stop (Ok true)
    end
  else ret tt.

(** The topic under the application's prefix. @gateway/composite_service.rs:942-967 CompositeServiceProxy::request_filter *)
Definition app_topic (d : dynamic_state) (app : string) (base_topic : string) : string :=
  let app_prefix :=
    match List.find (fun a => String.eqb (app_id a) app) (dy_apps d) with
    | Some a => Some (effective_subject_prefix a)
    | None => if String.eqb app "" then None else Some (String.append "mutation." app)
    end in
  match app_prefix with
  | Some prefix =>
      match split_once "." base_topic with
      | Some (kind, op) =>
          if String.eqb kind "query" && starts_with "mutation." prefix then
            str_concat ["query."; trim_start_matches "mutation." prefix; "."; op]
          else if String.eqb kind "subscription" && starts_with "mutation." prefix then
            str_concat ["subscription."; trim_start_matches "mutation." prefix; "."; op]
          else str_concat [prefix; "."; op]
      | None => str_concat [prefix; "."; base_topic]
      end
  | None => base_topic
  end.
(** The query and the variables shown of a request. @gateway/composite_service.rs:977-994 CompositeServiceProxy::request_filter *)
Definition previews (info : RequestInfo) (body : string) : option string * option string :=
  match Protocol.gql info with
  | Some g =>
      let j := json_body g in
      (j_get "query" j ≫= as_str,
       j_get "variables" j ≫= fun vars =>
         match vars with
         | JNull | JObject [] => None
         | _ => Some (json_to_string vars)
         end)
  | None => if String.eqb body "" then (None, None) else (Some (str_concat (take 500 (chars body))), None)
  end.
Definition gql_name (info : RequestInfo) : option string := Protocol.gql info ≫= operation_name.
Definition gql_type (dflt : string) (info : RequestInfo) : string :=
  match Protocol.gql info with Some g => op_type_to_string (operation_type g) | None => dflt end.
(** A body that is decoded, with its service; nothing when the request goes on as it is.
    @gateway/composite_service.rs:925-997 CompositeServiceProxy::request_filter *)
Definition decode_stage (d : dynamic_state) : M (option (RequestInfo * DispatchMethod * string)) :=
  let* c := get_ctx in
  let body := buffer c in
  if String.eqb body "" then ret None
  else if negb (utf8_valid body) then ret None
  else match service c with
  | None => ret None
  | Some sv =>
      let* s := get_sess in
      match decode_request (request_protocol sv) (c_request_id c) (c_hlc c) (req s) body with
      | Err _ => ret None
      | Ok info =>
          let* _ := modify (set_topic (app_topic d (c_app_id c) (resolve_dispatch_topic (to_uppercase env) info))) in
          let* _ := modify (set_info (Some info)) in
          let* _ := modify (set_operation (gql_name info)) in
          let '(qp, vp) := previews info body in
          let* _ := modify (set_previews qp vp) in
          ret (Some (info, dispatch_method sv, body))
      end
  end.

(** The event a rejection publishes. @gateway/composite_service.rs:1078-1090 CompositeServiceProxy::request_filter *)
Definition rejection_payload (t : reading) (s : session) (c : proxy_ctx) (info : RequestInfo)
    (r : InterceptorRejection) : string :=
  let text o := match o with Some x => JString x | None => JNull end in
  json_to_string (JObject (obj_of
    [("requestId", JString (c_request_id c)); ("hlc", JString (to_compact_string (c_hlc c)));
     ("operationName", text (gql_name info)); ("operationType", JString (gql_type "GQL" info));
     ("rejectionCode", JString (rj_code r)); ("statusCode", JNumber (PosInt (rj_status_code r)));
     ("reason", JString (rj_message r));
     ("clientIp", JString (ip_to_string (extract_client_ip (req_headers s) (client_addr s))));
     ("timestamp", JNumber (PosInt (epoch_ms t))); ("queryPreview", text (query_preview c));
     ("variablesPreview", text (variables_preview c))])).
(** A rejected request: its key is released, it is answered, and while the client is
    there the rejection is published (by a task of its own) and recorded.
    @gateway/composite_service.rs:1028-1114 CompositeServiceProxy::request_filter *)
Definition reject_stage (t : reading) (info : RequestInfo) (dm : DispatchMethod) (r : InterceptorRejection) : M unit :=
  let* _ := release_key in
  let* c := get_ctx in
  let err_body := to_graphql_response r in
  let* delivered := write_response (rj_status_code r) (build_headers
    ([("content-type", "application/json")] ++ tag_fields c ++ [("content-length", content_length err_body)])%list) err_body in
  if negb delivered then stop (Ok true)
  else
    let* s := get_sess in
    let topic := rejection_topic (to_ascii_lowercase (default "anonymous" (gql_name info))) in
    let* _ := dispatch (dispatch_payload (send env) dm topic (rejection_payload t s c info r)) in
    let* _ := record_traffic_event t (details (gql_name info) (gql_type "GQL" info) "Rejected (Edge)" (rj_status_code r)
      (Some "REJECTED") (String.append "Sink: " topic) None None
      (Some (str_concat [rj_code r; ": "; rj_message r]))) in
    stop (Ok true).
(** [for (k, v) in headers]: a further value of a name comes without the name. *)
Fixpoint first_values (seen : list string) (l : list (string * HeaderValue)) : list (string * HeaderValue) :=
  match l with
  | [] => []
  | (k, v) :: l' => if existsb (String.eqb k) seen then first_values seen l' else (k, v) :: first_values (k :: seen) l'
  end.
(** @gateway/composite_service.rs:1115-1133 CompositeServiceProxy::request_filter *)
Definition transform_stage (hs : option HeaderMap) (b : option string) (body : string) : M string :=
  let* _ :=
    match hs with
    | Some hs => modify_sess (fun s => with_headers
        (fold_left (fun h kv => put_header (fst kv, default "" (hv_to_str (snd kv))) h)
           (first_values [] (hm_entries hs)) (req_headers s)) s)
    | None => ret tt
    end in
  match b with
  | Some b => let* _ := modify (set_buffer b) in ret (if utf8_valid b then b else body)
  | None => ret body
  end.
(** What an interceptor sees of a request. @gateway/composite_service.rs:1004-1013 CompositeServiceProxy::request_filter *)
Definition interceptor_context (c : proxy_ctx) (info : RequestInfo) : InterceptorContext :=
  let ic := ctx_new (c_request_id c) (c_hlc c) in
  match Protocol.gql info with
  | Some g => Ctx (ctx_request_id ic) (ctx_hlc ic) (operation_name g) (Some (operation_type g)) (Some (json_body g))
                (metadata ic) (ctx_extensions ic) (duration_ms ic) (claims ic)
  | None => ic
  end.
(** The interceptors work on a copy of the request's parts; the body the request goes
    on with. @gateway/composite_service.rs:999-1134 CompositeServiceProxy::request_filter *)
Definition intercept_stage (d : dynamic_state) (t : reading) (info : RequestInfo) (dm : DispatchMethod) (body : string) :
    M string :=
  match get_request_pipeline (interceptor_manager d) (gql_name info) with
  | [] => ret body
  | js =>
      let* c := get_ctx in
      let* s := get_sess in
      fun st =>
        let o := request_pipeline js (world st) (interceptor_context c info) (req s) body in
        (match q_verdict o with
         | Pass => ret body
         | Audit rule_name tag _ => let* _ := modify (set_audit tag (Some rule_name)) in ret body
         | Reject r => let* _ := reject_stage t info dm r in ret body
         | Transform hs b => transform_stage hs b body
         end) (St (sess st) (ctx st) (q_world o) (log st))
  end.
(** @gateway/composite_service.rs:1135-1188 CompositeServiceProxy::request_filter *)
Definition fingerprint_stage (t : reading) (info : RequestInfo) (body : string) : M unit :=
  let* c := get_ctx in
  let is_mutation :=
    match Protocol.gql info with Some g => bool_decide (operation_type g = Mutation) | None => false end in
  match idempotency_key c with
  | None =>
      if is_mutation then
        let* s := get_sess in
        let client_id := default "client" (header_str "x-forwarded-for" (req_headers s)) in
        let* r := handle_fingerprint client_id (gql_name info) body in
        after_claim t (gql_name info) "Replay (Fingerprint)" r
      else ret tt
  | Some _ => ret tt
  end.
(** @gateway/composite_service.rs:1192-1231 CompositeServiceProxy::request_filter *)
Definition disabled_route (t : reading) (route : SpectraRouteConfig) (info : RequestInfo) : M unit :=
  let err_msg := str_concat ["Operation '"; operation route; "' is disabled by gateway policy"] in
  let err_body := json_to_string (JObject (obj_of [("errors", JArray [JObject (obj_of
    [("message", JString err_msg);
     ("extensions", JObject (obj_of [("code", JString "ROUTE_DISABLED"); ("operation", JString (operation route))]))])])])) in
  let* delivered := write_response 403 (build_headers
    [("content-type", "application/json"); ("content-length", content_length err_body)]) err_body in
  if negb delivered then stop (Ok true)
  else
    let* _ := record_traffic_event t (details (gql_name info) "Mutation" "Rejected (Disabled Route)" 403
      (Some "DISABLED") "Route Policy" None None (Some err_msg)) in
    stop (Ok true).
(** A method's result, given back to the caller after what follows it. *)
Definition attempt (m : M bool) : M (result string bool) := fun s =>
  match m s with
  | (Go b, s') => (Go (Ok b), s')
  | (Stop r, s') => (Go r, s')
  end.
(** @gateway/composite_service.rs:1190-1271 CompositeServiceProxy::request_filter *)
Definition route_stage (d : dynamic_state) (t : reading) (info : RequestInfo) (dm : DispatchMethod) : M unit :=
  match match_route (dy_routes d) info with
  | None => ret tt
  | Some route =>
      if negb (rt_enabled route) then disabled_route t route info
      else if is_async_command_receipt (mode route) then
        let* res := attempt (handle_mode_b_edge route info dm) in
        let* c := get_ctx in
        let* _ := record_traffic_event t (details (gql_name info) "Mutation" "Async (Receipt)" 200
          (Some (receipt_status route)) (String.append "NATS: " (request_topic c)) None None None) in
        stop res
      else
        let* _ := match resolve_mode_a_upstream route (named_upstreams d) with
                  | Some a => modify (set_target (Some a))
                  | None => ret tt
                  end in
        match rt_dispatch_policy route with Some p => modify (set_policy p) | None => ret tt end
  end.
(** @gateway/composite_service.rs:{fn request_filter} CompositeServiceProxy::request_filter *)
Definition request_filter (g : gateway) (d : dynamic_state) (t : reading) : M bool :=
  let* _ := edge_stage g in
  let* _ := stamp_stage in
  let* _ := explicit_key_stage t in
  let* _ := body_stage in
  let* decoded := decode_stage d in
  match decoded with
  | None => ret false
  | Some (info, dm, body) =>
      let* body := intercept_stage d t info dm body in
      let* _ := fingerprint_stage t info body in
      let* _ := route_stage d t info dm in
      let* c := get_ctx in
      let* _ := handle_mode_a_dispatch_policy (c_dispatch_policy c) info dm in
      ret false
  end.

(** ** Bodies and the response *)

(** The chunk goes on to the upstream as it is. @gateway/composite_service.rs:{fn request_body_filter} CompositeServiceProxy::request_body_filter *)
Definition request_body_filter (body : option string) (c : proxy_ctx) : proxy_ctx :=
  match request_info c with
  | Some _ => c
  | None => match body with Some b => set_buffer (String.append (buffer c) b) c | None => c end
  end.
(** @gateway/composite_service.rs:{fn response_filter} CompositeServiceProxy::response_filter *)
Definition response_filter (d : dynamic_state) (resp : response_parts) (c : proxy_ctx) : response_parts * proxy_ctx :=
  let c := set_buffer "" c in
  let hs := append_header "x-spectra-hlc" (to_compact_string (c_hlc c))
              (append_header REQUEST_ID_HEADER (c_request_id c) (rp_headers resp)) in
  let c := set_response_parts (Some (RespParts (rp_status resp) hs)) c in
  if has_response_interceptors (interceptor_manager d) (active_operation c) then
    (RespParts (rp_status resp) (hm_remove "content-length" hs), set_interception true c)
  else (RespParts (rp_status resp) hs, c).
Definition is_error_status (code : Z) : bool := ((400 <=? code) && (code <=? 599))%Z.
Definition utf8_or_empty (b : string) : string := if utf8_valid b then b else "".
(** The bytes of a chunk that still fit a capture of [max] bytes. *)
Definition capture (max : nat) (buf b : string) : string :=
  if (String.length buf <? max)%nat then
    String.append buf (str_take (Nat.min (max - String.length buf) (String.length b)) b)
  else buf.
(** @gateway/composite_service.rs:1368-1368 MAX_TELEMETRY_RESPONSE_BYTES *)
Definition MAX_TELEMETRY_RESPONSE_BYTES : nat := (64 * 1024)%nat.
(** The part of a chunk kept on the fast path. @gateway/composite_service.rs:1358-1374 CompositeServiceProxy::response_body_filter *)
Definition captured (ec : ErrorCaptureConfig) (is_err : bool) (c : proxy_ctx) (b : string) : string :=
  if is_err && ec_enabled ec then capture (Z.to_nat (max_body_bytes ec)) (buffer c) b
  else match c_dispatch_policy c with
       | ResponseOnly | NoDispatch => buffer c
       | ResponseWithFailure | RawAudit => capture MAX_TELEMETRY_RESPONSE_BYTES (buffer c) b
       end.
Definition captured_body (c : proxy_ctx) (text : string) : ResponseBody :=
  match c_response_parts c with
  | Some parts => response_body_new (rp_headers parts) text
  | None => response_body_new hm_new text
  end.
(** The fast path: the chunk is not touched. @gateway/composite_service.rs:1353-1390 CompositeServiceProxy::response_body_filter *)
Definition stream_body (d : dynamic_state) (body : option string) (end_of_stream : bool) (c : proxy_ctx) : proxy_ctx :=
  let ec := State.telemetry_config d in
  let is_err := match c_response_parts c with Some p => is_error_status (rp_status p) | None => false end in
  let c := match body with Some b => set_buffer (captured ec is_err c b) c | None => c end in
  if end_of_stream then
    let text := utf8_or_empty (buffer c) in
    let c := if is_err && ec_enabled ec then set_error_preview (Some text) c else c in
    set_buffer "" (set_response_body (Some (captured_body c text)) c)
  else c.
(** The bytes a verdict leaves to send, and what the context keeps of it.
    @gateway/composite_service.rs:1425-1458 CompositeServiceProxy::response_body_filter *)
Definition final_body (max_bytes : nat) (v : InterceptorVerdict) (c : proxy_ctx) : string * proxy_ctx :=
  match v with
  | Pass => (buffer c, c)
  | Transform _ b => (default (buffer c) b, c)
  | Reject r =>
      (to_graphql_response r, set_error_preview (Some (str_concat [rj_code r; ": "; rj_message r])) c)
  | Audit rule_name tag _ =>
      let shown := from_utf8_lossy (str_take (Nat.min (String.length (buffer c)) max_bytes) (buffer c)) in
      let shown := if (max_bytes <? String.length (buffer c))%nat then String.append shown "... [truncated]" else shown in
      (buffer c, set_response_preview (Some shown) (set_audit tag (Some rule_name) c))
  end.
(** The intercepted path: nothing is sent before the end, and then the whole body.
    @gateway/composite_service.rs:1392-1470 CompositeServiceProxy::response_body_filter *)
Definition intercept_body (g : gateway) (d : dynamic_state) (t : reading) (body : option string) (end_of_stream : bool)
    (w : W) (c : proxy_ctx) : option string * W * proxy_ctx :=
  let c := match body with Some b => set_buffer (String.append (buffer c) b) c | None => c end in
  if end_of_stream then
    let js := get_response_pipeline (interceptor_manager d) (active_operation c) in
    let ic := ctx_new (c_request_id c) (c_hlc c) in
    let ic := Ctx (ctx_request_id ic) (ctx_hlc ic) (active_operation c) (ctx_operation_type ic) (ctx_json_body ic)
                (metadata ic) (ctx_extensions ic) (elapsed_ms t) (claims ic) in
    let parts := default (RespParts 200 hm_new) (c_response_parts c) in
    let o := response_pipeline js w ic parts (buffer c) in
    let '(bytes, c) := final_body (Z.to_nat (max_body_bytes (startup_telemetry g))) (s_verdict o) c in
    (Some bytes, s_world o, set_buffer "" (set_response_body (Some (captured_body c (utf8_or_empty bytes))) c))
  else (None, w, c).
(** @gateway/composite_service.rs:{fn response_body_filter} CompositeServiceProxy::response_body_filter *)
Definition response_body_filter (g : gateway) (d : dynamic_state) (t : reading) (body : option string)
    (end_of_stream : bool) (w : W) (c : proxy_ctx) : option string * W * proxy_ctx :=
  if negb (has_response_interception c) then (body, w, stream_body d body end_of_stream c)
  else intercept_body g d t body end_of_stream w c.

(** ** Logging *)

Definition suppressed (p : ModeADispatchPolicy) : bool :=
  match p with ResponseOnly | NoDispatch => true | ResponseWithFailure | RawAudit => false end.
Definition send_terminal (dm : DispatchMethod) (topic : string) (e : CompletionEvent) : M unit :=
  let* _ := dispatch (dispatch_terminal_event (headers_json env) (send env) dm topic e) in ret tt.
Definition release_held : M unit :=
  let* c := get_ctx in
  match idempotency_key c with Some key => remove key | None => ret tt end.
(** An operation that failed: its key is released, and unless the policy says
    otherwise a failure is published.
    @gateway/filters/telemetry.rs:70-103 TelemetryDispatcher::dispatch_logging *)
Definition log_failure (t : reading) (dm : DispatchMethod) (info : RequestInfo) (response : option ResponseInfo)
    (err_msg : string) : M unit :=
  let* _ := release_held in
  let* c := get_ctx in
  if suppressed (c_dispatch_policy c) then ret tt
  else send_terminal dm (failed_topic (request_topic c))
         (event_failure (c_request_id c) (c_hlc c) (elapsed_ms t) (gql_name info) (sanitized_of_request info) response err_msg).
(** @gateway/filters/telemetry.rs:162-210 TelemetryDispatcher::dispatch_logging *)
Definition log_success (t : reading) (dm : DispatchMethod) (info : RequestInfo) (parts : response_parts)
    (response_body : ResponseBody) : M unit :=
  let* c := get_ctx in
  let* _ :=
    match idempotency_key c with
    | Some key => complete key (c_hlc c) (rp_status parts) (rp_headers parts) (default (rb_json response_body) (rb_text response_body))
    | None => ret tt
    end in
  match c_dispatch_policy c with
  | NoDispatch => ret tt
  | _ => send_terminal dm (request_topic c)
           (event_success (c_request_id c) (c_hlc c) (elapsed_ms t) (gql_name info) (sanitized_of_request info)
              (response_info_new (c_request_id c) (c_hlc c) response_body (rp_headers parts)))
  end.
(** The outcome of a request the upstream was to answer.
    @gateway/filters/telemetry.rs:70-213 TelemetryDispatcher::dispatch_logging *)
Definition log_outcome (t : reading) (dm : DispatchMethod) (error : option string) (info : RequestInfo) : M unit :=
  match error with
  | Some err => log_failure t dm info None err
  | None =>
      let* c := get_ctx in
      let hs := match c_response_parts c with Some p => rp_headers p | None => hm_new end in
      let body := default (response_body_new hs "") (c_response_body c) in
      let* _ := modify (set_response_body None) in
      let response := Some (response_info_new (c_request_id c) (c_hlc c) body hs) in
      match c_response_parts c with
      | Some p =>
          if is_error_status (rp_status p) then
            log_failure t dm info response (String.append "HTTP " (status_text env (rp_status p)))
          else log_success t dm info p body
      | None => log_failure t dm info response "No upstream response received"
      end
  end.
(** The topic of the events, when there is one. @gateway/filters/telemetry.rs:55-66 TelemetryDispatcher::dispatch_logging *)
Definition logging_topic (dm : DispatchMethod) (c : proxy_ctx) (info : RequestInfo) : option string :=
  if String.eqb (request_topic c) "spectra" then
    match active_operation c with
    | Some op => Some (String.append "operation." (to_lowercase op))
    | None => match Protocol.gql info with
              | Some _ => Some (resolve_dispatch_topic (to_uppercase env) info)
              | None => None
              end
    end
  else Some (request_topic c).
(** @gateway/filters/telemetry.rs:{fn dispatch_logging} TelemetryDispatcher::dispatch_logging *)
Definition dispatch_logging (t : reading) (error : option string) (dm : DispatchMethod) : M unit :=
  let* c := get_ctx in
  let* s := get_sess in
  if is_replay c then modify (set_buffer "")
  else if is_mode_b_terminated c then modify (set_buffer "")
  else if String.eqb (method (req s)) "OPTIONS" || String.eqb (method (req s)) "HEAD" then modify (set_buffer "")
  else
    let info := default (request_info_new (c_request_id c) (c_hlc c) (req s)) (request_info c) in
    let* _ := modify (set_info None) in
    match logging_topic dm c info with
    | None => modify (set_buffer "")
    | Some topic =>
        let* _ := modify (set_topic topic) in
        let* _ := log_outcome t dm error info in
        modify (set_buffer "")
    end.
(** The traffic record of a proxied request. @gateway/composite_service.rs:1481-1556 CompositeServiceProxy::logging *)
Definition proxied_details (g : gateway) (c : proxy_ctx) (error : option string) : TrafficEventDetails :=
  let status := match c_response_parts c with
                | Some p => rp_status p
                | None => match error with Some _ => 502%Z | None => 200%Z end
                end in
  let op_name := or_else (active_operation c) (request_info c ≫= gql_name) in
  let target := match target_upstream_addr c with
                | Some a => String.append "Upstream: " (addr_text env a)
                | None =>
                    match service_handle c ≫= fun h => upstream_services g !! h with
                    | Some sc => String.append "Upstream: " (addr_text env (sc_upstream_addr sc))
                    | None => "Upstream"
                    end
                end in
  let '(qp, vp) :=
    match query_preview c with
    | Some _ => (query_preview c, variables_preview c)
    | None =>
        (request_info c ≫= fun r =>
           if String.eqb (default "" (uri_query env (uri (http r)))) "" then None else Some (uri (http r)), None)
    end in
  details op_name (match request_info c with Some r => gql_type "Query" r | None => "Query" end) "Sync (Proxy)" status None
    target qp vp None.
(** @gateway/composite_service.rs:{fn logging} CompositeServiceProxy::logging *)
Definition logging (g : gateway) (t_record t_dispatch : reading) (error : option string) : M unit :=
  let* c := get_ctx in
  match service c with
  | None => ret tt
  | Some sv =>
      let* s := get_sess in
      let path := path_of s in
      let* _ :=
        if negb (is_mode_b_terminated c) && negb (is_replay c) && (starts_with "/gql" path || starts_with "/graphql" path) then
          let d := proxied_details g c error in
          let* _ := match error with Some e => modify (set_error_preview (Some e)) | None => ret tt end in
          record_traffic_event t_record d
        else ret tt in
      dispatch_logging t_dispatch error (dispatch_method sv)
  end.

(** ** A request's life *)

(** The phases that load the running configuration; it may be another one each time,
    with each chunk of a response too. *)
Inductive phase := OnNew | OnEarly | OnRequest | OnPeer | OnResponse | OnBody (chunk : nat).
(** What the upstream does: it fails, or it answers with a head and chunks of a body,
    and the answer may break off. *)
Inductive upstream_answer :=
| UpFails (e : string)
| UpAnswers (head : response_parts) (body : list (option string * bool)) (error : option string).

(** A response's chunks, [d] being what the filter loads with each. *)
Fixpoint relay (g : gateway) (d : nat -> dynamic_state) (t : reading) (l : list (option string * bool)) (w : W) (c : proxy_ctx) :
    list string * W * proxy_ctx :=
  match l with
  | [] => ([], w, c)
  | (b, fin) :: l' =>
      let '(out, w, c) := response_body_filter g (d 0%nat) t b fin w c in
      let '(outs, w, c) := relay g (fun k => d (Datatypes.S k)) t l' w c in
      (match out with Some x => x :: outs | None => outs end, w, c)
  end.
(** The upstream's part, between the request's and the logging phase; the proxy hands
    the request's body to [request_body_filter] chunk by chunk. What is logged as
    forwarded is the head; the body goes through the proxy library, and so does its own
    second attempt when a pooled connection turns out to be closed, which asks for the
    peer again and is counted here as the same one. *)
Definition proxy_stage (g : gateway) (loads : phase -> dynamic_state) (t : reading) (sent_chunks : list (option string))
    (up : upstream_answer) : state -> option string * state := fun s =>
  match upstream_peer g (loads OnPeer) (ctx s) with
  | Err e => (Some e, s)
  | Ok a =>
      let c := fold_left (fun c b => request_body_filter b c) sent_chunks (ctx s) in
      let log1 := (log s ++ [Forwarded a (req (sess s))])%list in
      match up with
      | UpFails e => (Some e, St (sess s) c (world s) log1)
      | UpAnswers head body error =>
          let '(head, c) := response_filter (loads OnResponse) head c in
          let '(outs, w, c) := relay g (fun k => loads (OnBody k)) t body (world s) c in
          (error, St (sess s) c w (log1 ++ [Relayed head outs])%list)
      end
  end.
(** The phases before logging, in the order the proxy library calls them: an error of
    any of them, and a request answered by a filter, go straight to logging. *)
Definition before_logging (g : gateway) (loads : phase -> dynamic_state) (t : reading) (id : string) (h : HlcTimestamp)
    (sent_chunks : list (option string)) (up : upstream_answer) (s : session) (w : W) : option string * state :=
  match run (early_request_filter g (loads OnEarly)) (St s (new_ctx (loads OnNew) id h) w []) with
  | (Err e, st) => (Some e, st)
  | (Ok _, st) =>
      match run (request_filter g (loads OnRequest) t) st with
      | (Err e, st) => (Some e, st)
      | (Ok true, st) => (None, st)
      | (Ok false, st) => proxy_stage g loads t sent_chunks up st
      end
  end.
Definition serve (g : gateway) (loads : phase -> dynamic_state) (t : reading) (id : string) (h : HlcTimestamp)
    (sent_chunks : list (option string)) (up : upstream_answer) (s : session) (w : W) : state :=
  let '(error, st) := before_logging g loads t id h sent_chunks up s w in
  snd (logging g t t error st).
End Gateway.
Arguments Go {A} _.
Arguments Stop {A} _.
