(* ===== verification/Lifecycle.v ===== *)
(** * Lifecycle: what holds of every request the gateway serves.

    A weakest-precondition calculus for the steps of [Gateway], the invariant its
    stages keep, and from it: a request's claim of an idempotency key is settled, with
    the exact exception; a request is answered at most once, and not both here and by
    the upstream; what of a request is forwarded; what of a response is relayed, kept
    and stored for replay. *)

From S2P Require Import Prelude Externals Clock Types Idempotency Sanitizer Protocol Telemetry Config.
From S2P Require Import Interceptors Auth Wasm Cel Manager Hub Access Traffic State Gateway.
Local Open Scope string_scope.

Section Calculus.
Context `{HttpLib, JsonText, Unicode, GqlParser, LruLib, AuthLib, CelLib, RegexLib}.
Context {W : Type} `{Clocks W, WasmTypes, !WasmLib W}.
Context {SocketAddr : Type}.
Abbreviation state := (state (W := W) (SocketAddr := SocketAddr)).
Abbreviation M := (M (W := W) (SocketAddr := SocketAddr)).
Abbreviation event := (event (SocketAddr := SocketAddr)).
Abbreviation proxy_ctx := (proxy_ctx (SocketAddr := SocketAddr)).
Context (env : surroundings (SocketAddr := SocketAddr)).

(** ** Weakest preconditions *)

Definition wp {A} (m : M A) (Q : A -> state -> Prop) (E : result string bool -> state -> Prop) (s : state) : Prop :=
  match m s with
  | (Go a, s') => Q a s'
  | (Stop r, s') => E r s'
  end.
Lemma wp_bind {A B} (m : M A) (k : A -> M B) Q E s :
  wp m (fun a => wp (k a) Q E) E s -> wp (bind m k) Q E s.
Proof. unfold wp, bind. by destruct (m s) as [[a|r] s']. Qed.
Lemma wp_ret {A} (a : A) (Q : A -> state -> Prop) E s : Q a s -> wp (ret a) Q E s.
Proof. done. Qed.
Lemma wp_stop {A} r (Q : A -> state -> Prop) (E : result string bool -> state -> Prop) s : E r s -> wp (stop r) Q E s.
Proof. done. Qed.
Lemma wp_get_sess (Q : session -> state -> Prop) E s : Q (sess s) s -> wp get_sess Q E s.
Proof. done. Qed.
Lemma wp_get_ctx (Q : proxy_ctx -> state -> Prop) E s : Q (ctx s) s -> wp get_ctx Q E s.
Proof. done. Qed.
Definition push (e : event) (s : state) : state := St (sess s) (ctx s) (world s) (log s ++ [e]).
Definition update (f : proxy_ctx -> proxy_ctx) (s : state) : state := St (sess s) (f (ctx s)) (world s) (log s).
Definition update_sess (f : session -> session) (s : state) : state := St (f (sess s)) (ctx s) (world s) (log s).
Lemma wp_emit e (Q : unit -> state -> Prop) E s : Q tt (push e s) -> wp (emit e) Q E s.
Proof. done. Qed.
Lemma wp_modify f (Q : unit -> state -> Prop) E s : Q tt (update f s) -> wp (modify f) Q E s.
Proof. done. Qed.
Lemma wp_modify_sess f (Q : unit -> state -> Prop) E s : Q tt (update_sess f s) -> wp (modify_sess f) Q E s.
Proof. done. Qed.
Lemma wp_mono {A} (m : M A) (Q Q' : A -> state -> Prop) (E E' : result string bool -> state -> Prop) s :
  wp m Q E s -> (forall a s, Q a s -> Q' a s) -> (forall r s, E r s -> E' r s) -> wp m Q' E' s.
Proof. unfold wp. destruct (m s) as [[a|r] s']; auto. Qed.
Lemma wp_write_response code fields body Q E s :
  (if connected (sess s) then Q true (push (Replied (Reply code fields body)) s)
   else Q false s) ->
  (forall e, E (Err e) s) ->
  wp (write_response code fields body) Q E s.
Proof.
  intros HQ HE. unfold wp, write_response, bind, get_sess, emit, ret, stop.
  destruct (_ && _); [|apply HE]. by destruct (connected (sess s)).
Qed.

Lemma wp_dispatch out (Q : result string unit -> state -> Prop) E s :
  Q (fst out) (push (Dispatched (fst out) (snd out)) s) -> wp (dispatch out) Q E s.
Proof. by destruct out. Qed.

(** ** The effects of a request by kind *)

Definition is_engine (e : event) : bool :=
  match e with Claimed _ _ | Finished _ _ _ _ _ | Released _ => true | _ => false end.
Definition is_answer (e : event) : bool :=
  match e with Replied _ | Forwarded _ _ => true | _ => false end.
Definition engine_events (l : list event) : list event := List.filter is_engine l.
Definition answers (l : list event) : list event := List.filter is_answer l.
Lemma engine_events_app l l' : engine_events (l ++ l') = (engine_events l ++ engine_events l')%list.
Proof. apply List.filter_app. Qed.
Lemma answers_app l l' : answers (l ++ l') = (answers l ++ answers l')%list.
Proof. apply List.filter_app. Qed.

(** A claim is settled when it was refused, or when what it started is finished or
    released; a request that claims nothing has nothing to settle. *)
Inductive settled : list event -> Prop :=
| settled_none : settled []
| settled_refused k o : o <> New -> settled [Claimed k o]
| settled_finished k h code pairs body : settled [Claimed k New; Finished k h code pairs body]
| settled_released k : settled [Claimed k New; Released k].

(** The state of a request's key: it has none; it holds the one it claimed; or all is
    settled, and logging will not touch it again. *)
Definition clean (s : state) : Prop :=
  engine_events (log s) = [] /\ idempotency_key (ctx s) = None /\
  is_replay (ctx s) || is_mode_b_terminated (ctx s) = false.
Definition held (k : string) (s : state) : Prop :=
  engine_events (log s) = [Claimed k New] /\ idempotency_key (ctx s) = Some k /\
  is_replay (ctx s) || is_mode_b_terminated (ctx s) = false.
Definition over (s : state) : Prop :=
  settled (engine_events (log s)) /\ (idempotency_key (ctx s) = None \/ is_mode_b_terminated (ctx s) = true).
Definition open_key (s : state) : Prop := clean s \/ exists k, held k s.

(** A request that goes on is unanswered; only decoded requests have their details, and
    those came with [POST] and through a service. *)
Definition decoded_ok (s : state) : Prop :=
  request_info (ctx s) = None \/ (service (ctx s) <> None /\ method (req (sess s)) = "POST").
Definition going (s : state) : Prop := answers (log s) = [] /\ open_key s /\ decoded_ok s.
Definition undecoded (s : state) : Prop :=
  answers (log s) = [] /\ open_key s /\ request_info (ctx s) = None /\
  (buffer (ctx s) = "" \/ method (req (sess s)) = "POST").
Definition stopped (r : result string bool) (s : state) : Prop :=
  (length (answers (log s)) <= 1)%nat /\ (open_key s \/ over s) /\ decoded_ok s /\ (r = Ok false -> going s).

Lemma undecoded_going s : undecoded s -> going s.
Proof. intros (? & ? & ? & ?). split_and!; [done..|by left]. Qed.
Lemma going_stopped r s : going s -> stopped r s.
Proof. intros (Ha & Ho & Hd). split_and!; [by rewrite Ha; cbn; lia|by left|done|done]. Qed.
Lemma over_of_clean s : clean s -> over s.
Proof. intros (He & Hk & _). split; [rewrite He; constructor|by left]. Qed.

(** Adding events that are neither, or changing what the invariant does not read. *)
Definition same_view (s s' : state) : Prop :=
  engine_events (log s') = engine_events (log s) /\
  idempotency_key (ctx s') = idempotency_key (ctx s) /\
  is_mode_b_terminated (ctx s') = is_mode_b_terminated (ctx s) /\ is_replay (ctx s') = is_replay (ctx s) /\
  request_info (ctx s') = request_info (ctx s) /\ service (ctx s') = service (ctx s) /\
  method (req (sess s')) = method (req (sess s)).
Lemma same_view_open s s' : same_view s s' -> open_key s -> open_key s'.
Proof.
  intros (He & Hk & Hb & Hr & _). unfold open_key, clean, held. by rewrite He, Hk, Hb, Hr.
Qed.
Lemma same_view_over s s' : same_view s s' -> over s -> over s'.
Proof. intros (He & Hk & Hb & _). unfold over. by rewrite He, Hk, Hb. Qed.
Lemma same_view_decoded s s' : same_view s s' -> decoded_ok s -> decoded_ok s'.
Proof. intros (_ & _ & _ & _ & Hi & Hs & Hm). unfold decoded_ok. by rewrite Hi, Hs, Hm. Qed.
Lemma same_view_going s s' : same_view s s' -> answers (log s') = answers (log s) -> going s -> going s'.
Proof.
  intros Hv Ha (? & Ho & Hd). split_and!; [congruence|by eapply same_view_open|by eapply same_view_decoded].
Qed.
End Calculus.

Create HintDb gateway.
#[export] Hint Resolve going_stopped undecoded_going : gateway.
(** Runs the primitive steps of a goal about [wp]. *)
Ltac wp_step :=
  match goal with
  | |- wp (bind _ _) _ _ _ => apply wp_bind
  | |- wp (ret _) _ _ _ => apply wp_ret
  | |- wp (stop _) _ _ _ => apply wp_stop
  | |- wp get_sess _ _ _ => apply wp_get_sess
  | |- wp get_ctx _ _ _ => apply wp_get_ctx
  | |- wp (emit _) _ _ _ => apply wp_emit
  | |- wp (dispatch _) _ _ _ => apply wp_dispatch
  | |- wp (modify _) _ _ _ => apply wp_modify
  | |- wp (modify_sess _) _ _ _ => apply wp_modify_sess
  end; cbn beta iota zeta.
Ltac wp_steps := cbn beta iota zeta; repeat wp_step.

Section Stages.
Context `{HttpLib, JsonText, Unicode, GqlParser, LruLib, AuthLib, CelLib, RegexLib}.
Context {W : Type} `{Clocks W, WasmTypes, !WasmLib W}.
Context {SocketAddr : Type}.
Abbreviation state := (state (W := W) (SocketAddr := SocketAddr)).
Abbreviation event := (event (SocketAddr := SocketAddr)).
Abbreviation dynamic := (DynamicGatewayState (W := W) (SocketAddr := SocketAddr)).
Context (env : surroundings (SocketAddr := SocketAddr)).

(** ** The stages of the request filter *)

Lemma push_same_view (e : event) (s : state) : is_engine e = false -> same_view s (push e s).
Proof.
  intros He. unfold same_view, push. cbn [log ctx sess]. rewrite engine_events_app.
  unfold engine_events at 2. cbn [List.filter]. rewrite He, app_nil_r. by split_and!.
Qed.
Lemma push_answers (e : event) (s : state) : answers (log (push e s)) = (answers (log s) ++ answers [e])%list.
Proof. apply answers_app. Qed.
(** Answering a request that goes on, for a result that ends it. *)
Lemma stopped_replied r rp (s : state) : going s -> r <> Ok false -> stopped r (push (Replied rp) s).
Proof.
  intros (Ha & Ho & Hd) Hr. pose proof (push_same_view (Replied rp) s eq_refl) as Hv.
  split_and!; [|left; by eapply same_view_open|by eapply same_view_decoded|done].
  rewrite push_answers, Ha. cbn. lia.
Qed.
(** Recording or dispatching changes nothing the invariant reads. *)
Lemma stopped_push r (e : event) (s : state) : is_engine e = false -> is_answer e = false -> r <> Ok false -> stopped r s -> stopped r (push e s).
Proof.
  intros He Ha Hr (Hl & Ho & Hd & _). pose proof (push_same_view e s He) as Hv.
  split_and!; [|destruct Ho; [left; by eapply same_view_open|right; by eapply same_view_over]|by eapply same_view_decoded|done].
  rewrite push_answers. cbn. by rewrite Ha, app_nil_r.
Qed.
Lemma going_push (e : event) (s : state) : is_engine e = false -> is_answer e = false -> going s -> going (push e s).
Proof.
  intros He Ha. apply same_view_going; [by apply push_same_view|]. rewrite push_answers. cbn. by rewrite Ha, app_nil_r.
Qed.

(** Writing an answer and then stopping, whatever comes in between. *)
Lemma wp_reply_then code fields body (Q : bool -> state -> Prop) s :
  going s -> (forall s', (forall r, r <> Ok false -> stopped r s') -> forall b, Q b s') ->
  wp (write_response code fields body) Q stopped s.
Proof.
  intros Hg HQ. apply wp_write_response; [|intros e; by apply going_stopped].
  destruct (connected (sess s)); apply HQ; intros r Hr; [by apply stopped_replied|by apply going_stopped].
Qed.
(** A request an edge filter does not answer is left as it is. *)
Definition edge_answer (s : state) (b : bool) (s' : state) : Prop :=
  if b then stopped (Ok true) s' else s' = s.
Lemma health_ok (s : state) : going s -> wp health_handle (edge_answer s) stopped s.
Proof.
  intros Hg. unfold health_handle. wp_steps.
  destruct (String.eqb _ _); [|destruct (String.eqb _ _); [|by wp_steps]].
  all: wp_steps; apply wp_reply_then; [done|]; intros s' Hs b; wp_steps; by apply Hs.
Qed.
Lemma favicon_ok (s : state) : going s -> wp (favicon_handle env) (edge_answer s) stopped s.
Proof.
  intros Hg. unfold favicon_handle. wp_steps. destruct (is_favicon_request _); [|by wp_steps].
  wp_steps; apply wp_reply_then; [done|]; intros s' Hs b; wp_steps; by apply Hs.
Qed.
Lemma admin_ok admin (s : state) : going s -> wp (admin_handle env admin) (edge_answer s) stopped s.
Proof.
  intros Hg. unfold admin_handle. wp_steps. destruct (is_admin_request _ _); [|by wp_steps].
  destruct (admin_answer env) as [[|]|]; wp_steps; [by apply going_stopped|done|by apply going_stopped].
Qed.
Lemma edge_stage_ok g (s : state) : undecoded s -> wp (edge_stage env g) (fun _ s' => s' = s) stopped s.
Proof.
  intros Hu. pose proof (undecoded_going s Hu) as Hg. unfold edge_stage.
  apply wp_bind. eapply wp_mono; [by apply health_ok| |done]. intros [|] s1; cbn; [done|intros ->].
  apply wp_bind. eapply wp_mono; [by apply favicon_ok| |done]. intros [|] s1; cbn; [done|intros ->].
  apply wp_bind. eapply wp_mono; [by apply admin_ok| |done]. intros [|] s1; cbn; [done|intros ->].
  wp_steps. destruct (_ && _); wp_steps; [|done]. by apply going_stopped.
Qed.

Lemma stamp_stage_ok (s : state) : undecoded s -> 
  wp stamp_stage (fun _ s' => undecoded s' /\ (clean s -> clean s')) stopped s.
Proof. intros Hu. unfold stamp_stage. wp_steps. split; [exact Hu|done]. Qed.

Lemma stopped_same r (s s' : state) :
  same_view s s' -> answers (log s') = answers (log s) -> r <> Ok false -> stopped r s -> stopped r s'.
Proof.
  intros Hv Ha Hr (Hl & Ho & Hd & _).
  split_and!; [congruence|destruct Ho; [left; by eapply same_view_open|right; by eapply same_view_over]
              |by eapply same_view_decoded|done].
Qed.
Lemma claimed_view key o (s : state) : going s -> clean s ->
  engine_events (log (push (Claimed key o) s)) = [Claimed key o] /\
  answers (log (push (Claimed key o) s)) = [].
Proof.
  intros (Ha & _) (He & _). unfold push. cbn [log]. rewrite engine_events_app, answers_app, He, Ha. done.
Qed.
(** A refused claim leaves nothing to settle, whether its answer reaches the client or
    not. *)
Lemma stopped_refused r key o (s : state) : going s -> clean s -> o <> New -> r <> Ok false ->
  (over (push (Claimed key o) s) /\ stopped r (push (Claimed key o) s)) /\
  forall rp, over (push (Replied rp) (push (Claimed key o) s)) /\ stopped r (push (Replied rp) (push (Claimed key o) s)).
Proof.
  intros Hg Hc Ho Hr. destruct (claimed_view key o s Hg Hc) as [He Ha].
  destruct Hg as (_ & _ & Hd). destruct Hc as (_ & Hk & _).
  assert (Hov : over (push (Claimed key o) s)) by (split; [rewrite He; by constructor|by left]).
  split; [split; [done|split_and!; [rewrite Ha; cbn; lia|by right|done|done]]|]. intros rp.
  assert (Hov' : over (push (Replied rp) (push (Claimed key o) s)))
    by (eapply same_view_over; [by apply push_same_view|done]).
  split; [done|]. split_and!; [rewrite push_answers, Ha; cbn; lia|by right|done|done].
Qed.

Lemma replayed (s : state) : over s /\ stopped (Ok true) s -> stopped (Ok true) (update (set_replay true) s).
Proof. intros [Ho (Hl & _ & Hd & _)]. split_and!; [done|right; exact Ho|exact Hd|done]. Qed.
(** A claim and what follows it: the request goes on with its key, or ends refused. *)
Lemma claim_ok named key h t name mode_text (Q : unit -> state -> Prop) (s : state) :
  going s -> clean s ->
  Q tt (update (set_key (Some key)) (push (Claimed key New) s)) ->
  wp (check_or_insert env key h)
    (fun o => wp (intercept_outcome named key o) (fun r => wp (after_claim t name mode_text r) Q stopped) stopped)
    stopped s.
Proof.
  intros Hg Hc HQ. unfold check_or_insert. wp_steps.
  destruct (claim env key h) as [|ch|rh code stored body]; cbn [intercept_outcome].
  - wp_steps. exact HQ.
  - destruct (stopped_refused (Ok true) key (Conflict ch) s Hg Hc ltac:(done) ltac:(done)) as [Hr1 Hr2].
    unfold write_conflict_response. wp_steps. apply wp_write_response.
    + destruct (connected _); wp_steps; cbn [after_claim]; wp_steps; [apply Hr2|apply Hr1].
    + intros e. by apply stopped_refused.
  - destruct (stopped_refused (Ok true) key (Replay rh code stored body) s Hg Hc ltac:(done) ltac:(done)) as [Hr1 Hr2].
    unfold write_replay_response. wp_steps. apply wp_write_response.
    + assert (Hr : forall s', over s' /\ stopped (Ok true) s' ->
        wp (after_claim t name mode_text IReplay) Q stopped s').
      { intros s' Hs'. cbn [after_claim]. unfold record_traffic_event. wp_steps.
        apply stopped_push; [done..|]. by apply replayed. }
      destruct (connected _); wp_steps; apply Hr; auto.
    + intros e. by apply stopped_refused.
Qed.
Lemma claimed_going key (s : state) : going s -> clean s ->
  let s' := update (set_key (Some key)) (push (Claimed key New) s) in
  going s' /\ held key s'.
Proof.
  intros Hg Hc. cbv zeta. destruct (claimed_view key New s Hg Hc) as [He Ha].
  assert (Hh : held key (update (set_key (Some key)) (push (Claimed key New) s))).
  { split_and!; [exact He|done|by destruct Hc as (_ & _ & ?)]. }
  split; [|done]. destruct Hg as (_ & _ & Hd). split_and!; [exact Ha|by right; exists key|exact Hd].
Qed.

Lemma explicit_key_stage_ok t (s : state) : undecoded s -> clean s ->
  wp (explicit_key_stage env t) (fun _ s' => undecoded s') stopped s.
Proof.
  intros Hu Hc. unfold explicit_key_stage, handle_explicit_key. wp_steps.
  destruct (extract_idempotency_key _) as [key|]; wp_steps; [|done].
  apply claim_ok; [by apply undecoded_going|done|].
  destruct (claimed_going key s (undecoded_going s Hu) Hc) as [(Ha & Ho & _) _].
  destruct Hu as (_ & _ & Hi & Hb). by split_and!.
Qed.

(** Releasing the key settles the request. *)
Lemma release_key_ok (Q : unit -> state -> Prop) E (s : state) : open_key s -> decoded_ok s ->
  (forall s', answers (log s') = answers (log s) -> over s' -> decoded_ok s' -> sess s' = sess s -> Q tt s') ->
  wp release_key Q E s.
Proof.
  intros Ho Hd HQ. unfold release_key. wp_steps. destruct Ho as [Hc|(k & He & Hk & Hb)].
  - pose proof Hc as (_ & -> & _). wp_steps. apply HQ; [done|by apply over_of_clean|done|done].
  - rewrite Hk. unfold remove. wp_steps. unfold push, update. cbn [sess ctx world log].
    apply HQ; [|split|done|done]; cbn [sess ctx world log].
    + rewrite answers_app. apply app_nil_r.
    + rewrite engine_events_app, He. constructor.
    + by left.
Qed.
Lemma over_stopped r (s : state) : (length (answers (log s)) <= 1)%nat -> over s -> decoded_ok s -> r <> Ok false -> stopped r s.
Proof. intros Ha Ho Hd Hr. split_and!; [done|by right|done|done]. Qed.

Lemma body_stage_ok (s : state) : undecoded s -> wp body_stage (fun _ s' => undecoded s') stopped s.
Proof.
  intros Hu. unfold body_stage. wp_steps. destruct (String.eqb_spec (method (req (sess s))) "POST") as [Hp|]; [|by wp_steps].
  wp_steps. destruct (read_chunks _ _ _) as [b too_large]. wp_steps.
  assert (Hu' : undecoded (update (set_buffer b) s)).
  { destruct Hu as (Ha & Ho & Hi & _). split_and!; [done|done|done|by right]. }
  pose proof (undecoded_going _ Hu') as Hg. destruct too_large as [[|]|e]; wp_steps; [|done|by apply going_stopped].
  apply wp_write_response; [|intros e; by apply going_stopped].
  destruct (connected _); wp_steps; [|by apply going_stopped].
  pose proof (push_same_view (Replied (Reply 413 (build_headers
    ([("content-type", "application/json"); ("content-length", content_length too_large_body)] ++ tag_fields (ctx s))%list)
    too_large_body)) (update (set_buffer b) s) eq_refl) as Hv.
  destruct Hg as (Ha & Ho & Hd).
  apply release_key_ok; [by eapply same_view_open|by eapply same_view_decoded|].
  intros s' Ha' Ho' Hd' _. wp_steps. apply over_stopped; [|done..].
  rewrite Ha', push_answers, Ha. cbn. lia.
Qed.

Lemma decode_stage_ok d (s : state) : undecoded s ->
  wp (decode_stage env d) (fun o s' => match o with
     | None => undecoded s' /\ s' = s
     | Some (info, _, _) => going s' /\ request_info (ctx s') = Some info
     end) stopped s.
Proof.
  intros Hu. unfold decode_stage. wp_steps.
  destruct (String.eqb_spec (buffer (ctx s)) "") as [|Hne]; [by wp_steps|].
  destruct (utf8_valid _); cbn [negb]; [|by wp_steps].
  destruct (service (ctx s)) as [sv|] eqn:Es; [|by wp_steps].
  wp_steps. destruct (decode_request _ _ _ _ _) as [info|]; [|by wp_steps].
  wp_steps. destruct (previews info _) as [qp vp]. wp_steps.
  destruct Hu as (Ha & Ho & Hi & [?|Hp]); [done|].
  split; [|done]. split_and!; [exact Ha|exact Ho|]. right. cbn. by rewrite Es.
Qed.

Lemma reject_stage_ok t info dm r (Q : unit -> state -> Prop) (s : state) : going s ->
  wp (reject_stage env t info dm r) Q stopped s.
Proof.
  intros (Ha & Ho & Hd). unfold reject_stage. apply wp_bind. apply release_key_ok; [done..|].
  intros s' Ha' Ho' Hd' _. rewrite Ha in Ha'. wp_steps.
  apply wp_write_response; [|intros e; apply over_stopped; rewrite ?Ha'; cbn; by (done || lia)].
  destruct (connected _); cbn [negb].
  - unfold record_traffic_event. wp_steps.
    apply stopped_push; [done..|]. apply stopped_push; [done..|].
    apply over_stopped; [rewrite push_answers, Ha'; cbn; lia| |done|done].
    eapply same_view_over; [by apply push_same_view|done].
  - wp_steps. apply over_stopped; [rewrite Ha'; cbn; lia|done..].
Qed.
Lemma going_same (s s' : state) : same_view s s' -> answers (log s') = answers (log s) -> going s -> going s'.
Proof. apply same_view_going. Qed.
Lemma intercept_stage_ok d t info dm body (s : state) : going s ->
  wp (intercept_stage env d t info dm body) (fun _ s' => going s' /\ request_info (ctx s') = request_info (ctx s)) stopped s.
Proof.
  intros Hg. unfold intercept_stage. destruct (get_request_pipeline _ _) as [|i js]; [by wp_steps|]. wp_steps.
  pose (o := request_pipeline (i :: js) (world s) (interceptor_context (ctx s) info) (req (sess s)) body).
  set (s1 := St (sess s) (ctx s) (q_world o) (log s)).
  assert (Hg1 : going s1) by exact Hg.
  change (wp (match q_verdict o with
     | Pass => ret body
     | Audit rule_name tag _ => bind (modify (set_audit tag (Some rule_name))) (fun _ => ret body)
     | Reject r => bind (reject_stage env t info dm r) (fun _ => ret body)
     | Transform hs b => transform_stage hs b body
     end) (fun _ s' => going s' /\ request_info (ctx s') = request_info (ctx s)) stopped s1).
  destruct (q_verdict o) as [|r|hs b|rule tag reason].
  - by wp_steps.
  - wp_steps. by apply reject_stage_ok.
  - unfold transform_stage. destruct hs as [hs|]; wp_steps; destruct b as [b|]; wp_steps; (split; [|done]);
      exact Hg.
  - wp_steps. split; [exact Hg|done].
Qed.

Lemma fingerprint_stage_ok t info body (s : state) : going s ->
  wp (fingerprint_stage env t info body) (fun _ s' => going s' /\ request_info (ctx s') = request_info (ctx s)) stopped s.
Proof.
  intros Hg. unfold fingerprint_stage. wp_steps. destruct (idempotency_key (ctx s)) as [k|] eqn:Ek; [by wp_steps|].
  match goal with |- wp (if ?c then _ else _) _ _ _ => destruct c end; [|by wp_steps].
  assert (Hc : clean s) by (destruct Hg as (_ & [Hc|(k & _ & Hk & _)] & _); [done|congruence]).
  unfold handle_fingerprint. wp_steps. apply claim_ok; [done|done|]. split; [|done].
  by apply claimed_going.
Qed.

(** A command answered with its receipt has settled its key. *)
Definition receipted (s : state) : Prop := (length (answers (log s)) <= 1)%nat /\ over s /\ decoded_ok s.
Lemma handle_mode_b_edge_ok route info dm (s : state) : going s ->
  wp (handle_mode_b_edge env route info dm) (fun b s' => b = true /\ receipted s')
    (fun r s' => r <> Ok false /\ receipted s') s.
Proof.
  intros (Ha & Ho & Hd). unfold handle_mode_b_edge, send_request. wp_steps.
  set (answer := fst _). set (ms := snd _).
  set (s1 := push (Dispatched answer ms) (update (set_mode_b true) s)).
  assert (H1e : engine_events (log s1) = engine_events (log s)).
  { unfold s1, push, update. cbn [log]. rewrite engine_events_app. apply app_nil_r. }
  assert (H1a : answers (log s1) = []).
  { unfold s1, push, update. cbn [log]. rewrite answers_app, Ha. done. }
  assert (Hkey : forall P : state -> Prop,
    (forall s2, answers (log s2) = [] -> over s2 -> decoded_ok s2 -> P s2) ->
    wp (match idempotency_key (ctx s1) with
        | Some key => if is_ok answer then complete key (c_hlc (ctx s1)) 200 (receipt_headers (ctx s1))
                            (json_to_string (generate_command_receipt (receipt_field route info) (c_request_id (ctx s1))
                               (c_hlc (ctx s1)) (if is_ok answer then receipt_status route else "DISPATCH_FAILED")))
                      else remove key
        | None => ret tt
        end) (fun _ => P) (fun r s' => r <> Ok false /\ receipted s') s1).
  { intros P HP. destruct Ho as [(He & Hk & Hb)|(k & He & Hk & Hb)].
    - assert (idempotency_key (ctx s1) = None) as -> by exact Hk. wp_steps.
      apply HP; [done|split; [rewrite H1e, He; constructor|by right]|done].
    - assert (idempotency_key (ctx s1) = Some k) as -> by exact Hk.
      destruct (is_ok answer); unfold complete, remove; wp_steps; apply HP; try done.
      all: rewrite ?push_answers, ?H1a; try done.
      all: split; [|by right]; unfold push at 1; cbn [log]; rewrite engine_events_app, H1e, He; constructor. }
  apply Hkey. intros s2 Ha2 Ho2 Hd2. wp_steps. apply wp_write_response.
  - destruct (connected (sess s2)); wp_steps; (split; [done|]); split_and!; try done.
    + rewrite push_answers, Ha2. cbn. lia.
    + eapply same_view_over; [by apply push_same_view|done].
    + rewrite Ha2. cbn. lia.
  - intros e. split; [done|]. split_and!; [rewrite Ha2; cbn; lia|done..].
Qed.

Lemma wp_attempt m (Q : result string bool -> state -> Prop) E (s : state) :
  wp m (fun b => Q (Ok b)) Q s -> wp (attempt m) Q E s.
Proof. unfold wp, attempt. by destruct (m s) as [[b|r] s']. Qed.
Lemma receipted_stopped r (s : state) : receipted s -> r <> Ok false -> stopped r s.
Proof. intros (? & ? & ?) Hr. by apply over_stopped. Qed.
Lemma route_stage_ok d t info dm (s : state) : going s ->
  wp (route_stage env d t info dm) (fun _ s' => going s' /\ request_info (ctx s') = request_info (ctx s)) stopped s.
Proof.
  intros Hg. unfold route_stage. destruct (match_route _ _) as [route|]; [|by wp_steps].
  destruct (rt_enabled route); cbn [negb].
  - destruct (is_async_command_receipt _).
    + wp_steps. apply wp_attempt.
      assert (Hfin : forall r s', r <> Ok false -> receipted s' ->
        wp (bind get_ctx (fun c => bind (record_traffic_event t (details (gql_name info) "Mutation" "Async (Receipt)" 200
              (Some (receipt_status route)) (String.append "NATS: " (request_topic c)) None None None)) (fun _ => stop r)))
          (fun (_ : unit) s'' => going s'' /\ request_info (ctx s'') = request_info (ctx s)) stopped s').
      { intros r s' Hr Hs'. unfold record_traffic_event. wp_steps. apply stopped_push; [done..|by apply receipted_stopped]. }
      eapply wp_mono; [by apply handle_mode_b_edge_ok| |].
      * intros b s' [-> Hs']. by apply Hfin.
      * intros r s' [Hr Hs']. by apply Hfin.
    + wp_steps. destruct (resolve_mode_a_upstream _ _); wp_steps; destruct (rt_dispatch_policy route); wp_steps;
        (split; [exact Hg|done]).
  - unfold disabled_route. wp_steps. apply wp_reply_then; [done|]. intros s' Hs' b.
    destruct b; cbn [negb]; unfold record_traffic_event; wp_steps; [|by apply Hs'].
    by apply stopped_push; [..|apply Hs'].
Qed.

Lemma policy_stage_ok policy info dm (s : state) : going s ->
  wp (handle_mode_a_dispatch_policy env policy info dm)
    (fun _ s' => going s' /\ request_info (ctx s') = request_info (ctx s)) stopped s.
Proof.
  intros Hg. unfold handle_mode_a_dispatch_policy, send_request. destruct policy; wp_steps; try done.
  split; [by apply going_push|done].
Qed.

(** A decoded request passed on is the operation it was decoded to. *)
Lemma request_filter_ok g d t (s : state) : undecoded s -> clean s ->
  wp (request_filter env g d t) (fun b s' => b = false /\ going s') stopped s.
Proof.
  intros Hu Hc. unfold request_filter. apply wp_bind.
  eapply wp_mono; [by apply edge_stage_ok| |done]. intros _ ? ->. apply wp_bind.
  eapply wp_mono; [by apply stamp_stage_ok| |done]. intros _ s1 [Hu1 Hc1]. apply wp_bind.
  eapply wp_mono; [by apply explicit_key_stage_ok; auto| |done]. intros ? s2 Hu2. apply wp_bind.
  eapply wp_mono; [by apply body_stage_ok| |done]. intros ? s3 Hu3. apply wp_bind.
  eapply wp_mono; [by apply decode_stage_ok| |done]. intros [[[info dm] body]|] s4.
  - intros [Hg4 Hi4]. apply wp_bind.
    eapply wp_mono; [by apply intercept_stage_ok| |done]. intros body' s5 [Hg5 _]. apply wp_bind.
    eapply wp_mono; [by apply fingerprint_stage_ok| |done]. intros _ s6 [Hg6 _]. apply wp_bind.
    eapply wp_mono; [by apply route_stage_ok| |done]. intros _ s7 [Hg7 _]. wp_steps.
    eapply wp_mono; [by apply policy_stage_ok| |done]. intros _ s8 [Hg8 _]. by wp_steps.
  - intros [Hu4 _]. wp_steps. split; [done|by apply undecoded_going].
Qed.

(** ** Logging *)

Definition never : result string bool -> state -> Prop := fun _ _ => False.
(** Whether an event settles a claim of [k]. *)
Definition settles (k : string) (e : event) : Prop :=
  e = Released k \/ exists h code pairs body, e = Finished k h code pairs body.
(** The engine events a held key adds: one that settles it. *)
Definition settled_by (key : option string) (s s' : state) : Prop :=
  answers (log s') = answers (log s) /\
  match key with
  | None => engine_events (log s') = engine_events (log s)
  | Some k => exists e, settles k e /\ engine_events (log s') = (engine_events (log s) ++ [e])%list
  end.
Lemma settled_by_push key e (s s' : state) : is_engine e = false -> is_answer e = false ->
  settled_by key s s' -> settled_by key s (push e s').
Proof.
  intros He Hans [Ha Hk]. pose proof (push_same_view e s' He) as [Hv _]. split.
  - rewrite push_answers, Ha. unfold answers at 2. cbn [List.filter]. by rewrite Hans, app_nil_r.
  - by rewrite Hv.
Qed.
Lemma settled_by_now k e (s : state) : settles k e -> settled_by (Some k) s (push e s).
Proof.
  intros He. unfold settled_by, push. cbn [log]. rewrite answers_app, engine_events_app.
  destruct He as [->|(h & code & pairs & body & ->)]; cbn; rewrite app_nil_r; (split; [done|]).
  - exists (Released k). split; [by left|done].
  - exists (Finished k h code pairs body). split; [right; by eexists _, _, _, _|done].
Qed.
Lemma settled_by_none (s : state) : settled_by None s s.
Proof. done. Qed.

Lemma log_failure_ok t dm info response msg (s : state) :
  wp (log_failure env t dm info response msg) (fun _ s' => settled_by (idempotency_key (ctx s)) s s') never s.
Proof.
  unfold log_failure, release_held, send_terminal. wp_steps.
  destruct (idempotency_key (ctx s)) as [k|]; unfold remove; wp_steps; destruct (suppressed _); wp_steps;
    try (apply settled_by_push; [done..|]); try (apply settled_by_now; by left); apply settled_by_none.
Qed.
Lemma log_success_ok t dm info parts body (s : state) :
  wp (log_success env t dm info parts body) (fun _ s' => settled_by (idempotency_key (ctx s)) s s') never s.
Proof.
  unfold log_success, send_terminal. wp_steps.
  destruct (idempotency_key (ctx s)) as [k|]; unfold complete; wp_steps; destruct (c_dispatch_policy _); wp_steps;
    try (apply settled_by_push; [done..|]);
    try (apply settled_by_now; right; by eexists _, _, _, _); apply settled_by_none.
Qed.
Lemma log_outcome_ok t dm error info (s : state) :
  wp (log_outcome env t dm error info) (fun _ s' => settled_by (idempotency_key (ctx s)) s s') never s.
Proof.
  unfold log_outcome. destruct error as [err|]; [apply log_failure_ok|]. wp_steps.
  destruct (c_response_parts (ctx s)) as [p|]; [destruct (is_error_status _)|];
    (eapply wp_mono; [first [apply log_failure_ok|apply log_success_ok]|intros ? s' Hs'; exact Hs'|done]).
Qed.

(** Why a held key would stay: the request is one telemetry skips. *)
Definition skipped (s : state) : Prop :=
  method (req (sess s)) = "OPTIONS" \/ method (req (sess s)) = "HEAD" \/
  (request_info (ctx s) ≫= Protocol.gql = None /\ active_operation (ctx s) = None /\ request_topic (ctx s) = "spectra").
Definition logged (s s' : state) : Prop :=
  settled_by (if is_replay (ctx s) || is_mode_b_terminated (ctx s) then None else idempotency_key (ctx s)) s s' \/
  (answers (log s') = answers (log s) /\ engine_events (log s') = engine_events (log s) /\ skipped s).
Lemma dispatch_logging_ok t error dm (s : state) :
  wp (dispatch_logging env t error dm) (fun _ s' => logged s s') never s.
Proof.
  unfold dispatch_logging, logged. wp_steps.
  destruct (is_replay (ctx s)); [wp_steps; left; by split|]. cbn [orb].
  destruct (is_mode_b_terminated (ctx s)); [wp_steps; left; by split|].
  destruct (String.eqb_spec (method (req (sess s))) "OPTIONS") as [Ho|_]; cbn [orb];
    [wp_steps; right; split_and!; [done..|by left]|].
  destruct (String.eqb_spec (method (req (sess s))) "HEAD") as [Hh|_];
    [wp_steps; right; split_and!; [done..|by right; left]|].
  wp_steps. set (info := default _ _). unfold logging_topic.
  destruct (String.eqb_spec (request_topic (ctx s)) "spectra") as [Hsp|_].
  - destruct (active_operation (ctx s)) as [op|] eqn:Eop.
    + wp_steps. eapply wp_mono; [apply log_outcome_ok| |done]. intros ? s' Hs'. wp_steps. left. exact Hs'.
    + destruct (Protocol.gql info) as [gi|] eqn:Eg.
      * wp_steps. eapply wp_mono; [apply log_outcome_ok| |done]. intros ? s' Hs'. wp_steps. left. exact Hs'.
      * wp_steps. right. split_and!; [done..|]. right. right. split_and!; [|done..].
        unfold info in Eg. by destruct (request_info (ctx s)).
  - wp_steps. eapply wp_mono; [apply log_outcome_ok| |done]. intros ? s' Hs'. wp_steps. left. exact Hs'.
Qed.
Lemma logging_ok g t1 t2 error (s : state) :
  wp (logging env g t1 t2 error)
    (fun _ s' => logged s s' \/ (service (ctx s) = None /\ s' = s)) never s.
Proof.
  unfold logging. wp_steps. destruct (service (ctx s)) as [sv|] eqn:Es; [|wp_steps; by right]. wp_steps.
  assert (Hcont : forall s1, settled_by None s s1 -> sess s1 = sess s ->
    is_replay (ctx s1) = is_replay (ctx s) -> is_mode_b_terminated (ctx s1) = is_mode_b_terminated (ctx s) ->
    idempotency_key (ctx s1) = idempotency_key (ctx s) -> request_info (ctx s1) = request_info (ctx s) ->
    active_operation (ctx s1) = active_operation (ctx s) -> request_topic (ctx s1) = request_topic (ctx s) ->
    wp (dispatch_logging env t2 error (dispatch_method sv)) (fun _ s' => logged s s' \/ (Some sv = None /\ s' = s)) never s1).
  { intros s1 [Ha He] Hse Hre Hmo Hke Hri Hac Hto.
    eapply wp_mono; [apply dispatch_logging_ok| |done]. intros ? s' Hl. left. unfold logged, settled_by, skipped in *.
    by rewrite Ha, He, Hse, Hre, Hmo, Hke, Hri, Hac, Hto in Hl. }
  destruct (negb _ && _ && _).
  - unfold record_traffic_event. destruct error as [e|]; wp_steps; apply Hcont; try done;
      apply settled_by_push; done.
  - wp_steps. by apply Hcont.
Qed.

(** ** The upstream's part *)

(** What the response's phases leave of a context. *)
Definition kept (c c' : proxy_ctx (SocketAddr := SocketAddr)) : Prop :=
  idempotency_key c' = idempotency_key c /\ is_mode_b_terminated c' = is_mode_b_terminated c /\
  is_replay c' = is_replay c /\ service c' = service c /\ request_info c' = request_info c /\
  active_operation c' = active_operation c /\ request_topic c' = request_topic c /\ c_app_id c' = c_app_id c.
Lemma kept_refl c : kept c c.
Proof. split_and!; auto. Qed.
Lemma kept_trans c c' c'' : kept c c' -> kept c' c'' -> kept c c''.
Proof. unfold kept. intuition congruence. Qed.
Lemma stream_body_kept d body fin c : kept c (stream_body (W := W) d body fin c).
Proof. unfold stream_body. repeat case_match; split_and!; auto. Qed.
Lemma final_body_kept max v c : kept c (snd (final_body max v c)).
Proof. destruct v; split_and!; auto. Qed.
Lemma response_body_filter_kept g (d : DynamicGatewayState) t body fin (w : W) c :
  kept c (snd (response_body_filter g d t body fin w c)).
Proof.
  unfold response_body_filter. destruct (has_response_interception c); cbn [negb snd]; [|apply stream_body_kept].
  unfold intercept_body. set (c1 := match body with Some b => _ | None => c end).
  assert (Hk : kept c c1) by (unfold c1; destruct body; split_and!; auto).
  destruct fin; [|exact Hk]. eapply kept_trans; [exact Hk|].
  match goal with |- context [final_body ?m ?v ?c] => pose proof (final_body_kept m v c) as Hf; destruct (final_body m v c) as [bytes c2] end.
  cbn [snd] in *. eapply kept_trans; [exact Hf|]. split_and!; auto.
Qed.
Lemma relay_kept g t l : forall (d : nat -> DynamicGatewayState) (w : W) c, kept c (snd (relay g d t l w c)).
Proof.
  induction l as [|[b fin] l IH]; intros d w c; cbn [relay]; [apply kept_refl|].
  pose proof (response_body_filter_kept g (d 0%nat) t b fin w c) as Hk.
  destruct (response_body_filter g (d 0%nat) t b fin w c) as [[out w1] c1]. cbn [snd] in Hk.
  specialize (IH (fun k => d (Datatypes.S k)) w1 c1). destruct (relay g _ t l w1 c1) as [[outs w2] c2]. cbn [snd] in *.
  by eapply kept_trans.
Qed.
Lemma request_bodies_kept l : forall c, kept c (fold_left (fun c b => request_body_filter b c) l c).
Proof.
  induction l as [|b l IH]; intros c; cbn; [apply kept_refl|]. eapply kept_trans; [|apply IH].
  unfold request_body_filter. destruct (request_info c) eqn:E, b; split_and!; auto.
Qed.

(** What holds of a request when its logging begins. *)
Definition served (s : state) : Prop :=
  (length (answers (log s)) <= 1)%nat /\ (open_key s \/ over s) /\ decoded_ok s.
Lemma kept_served c (l : list event) w (s : state) : kept (ctx s) c -> going s ->
  engine_events l = engine_events (log s) -> (length (answers l) <= 1)%nat ->
  served (St (sess s) c w l).
Proof.
  intros (Hk & Hm & Hr & Hs & Hi & _) (Ha & Ho & Hd) He Hl. split; [done|]. split.
  - left. revert Ho. unfold open_key, clean, held. cbn [log ctx]. by rewrite He, Hk, Hm, Hr.
  - destruct Hd as [Hd|[Hd Hp]]; unfold decoded_ok; cbn [ctx sess]; [left; congruence|]. right. by rewrite Hs.
Qed.
Lemma proxy_stage_ok g (loads : phase -> dynamic) t chunks up (s : state) : going s ->
  served (snd (proxy_stage g loads t chunks up s)).
Proof.
  intros Hg. pose proof Hg as (Ha & _). unfold proxy_stage.
  destruct (upstream_peer g (loads OnPeer) (ctx s)) as [a|e]; cbn [snd].
  - pose proof (request_bodies_kept chunks (ctx s)) as Hk. set (c := fold_left _ _ _) in *.
    assert (He1 : engine_events (log s ++ [Forwarded a (req (sess s))]) = engine_events (log s)).
    { rewrite engine_events_app. apply app_nil_r. }
    assert (Ha1 : length (answers (log s ++ [Forwarded a (req (sess s))])) = 1%nat).
    { by rewrite answers_app, Ha. }
    destruct up as [e|head body error]; cbn [snd]; [apply kept_served; [done..|lia]|].
    assert (Hk1 : kept c (snd (response_filter (loads OnResponse) head c))).
    { unfold response_filter. destruct (has_response_interceptors _ _); split_and!; auto. }
    destruct (response_filter (loads OnResponse) head c) as [head' c1]. cbn [snd] in Hk1.
    pose proof (relay_kept g t body (fun k => loads (OnBody k)) (world s) c1) as Hk2.
    destruct (relay g _ t body (world s) c1) as [[outs w] c2]. cbn [snd] in *.
    apply kept_served; [|done| |].
    + eapply kept_trans; [exact Hk|]. by eapply kept_trans.
    + rewrite engine_events_app, He1. apply app_nil_r.
    + rewrite answers_app, length_app, Ha1. cbn. lia.
  - destruct Hg as (_ & Ho & Hd). split_and!; [rewrite Ha; cbn; lia|by left|done].
Qed.
Lemma early_ok g d (s : state) : undecoded s -> clean s ->
  wp (early_request_filter env g d) (fun _ s' => undecoded s' /\ clean s') (fun r s' => is_ok r = false /\ served s') s.
Proof.
  intros Hu Hc. pose proof (undecoded_going s Hu) as (_ & Ho & Hd). unfold early_request_filter. wp_steps.
  destruct (is_health_probe _); [by wp_steps|]. destruct (is_favicon_request _); [by wp_steps|].
  destruct (is_admin_request _ _); [by wp_steps|]. wp_steps.
  match goal with |- context [assign_app d ?app] => set (app' := app) end.
  assert (Ha : (idempotency_key (assign_app d app' (ctx s)) = idempotency_key (ctx s) /\
    is_mode_b_terminated (assign_app d app' (ctx s)) = is_mode_b_terminated (ctx s) /\
    is_replay (assign_app d app' (ctx s)) = is_replay (ctx s) /\ service (assign_app d app' (ctx s)) = service (ctx s) /\
    request_info (assign_app d app' (ctx s)) = request_info (ctx s)) /\ buffer (assign_app d app' (ctx s)) = buffer (ctx s)).
  { unfold assign_app. repeat case_match; split; try done; split_and!; auto. }
  destruct Ha as [(Hk & Hm & Hr & Hs & Hi) Hb].
  set (s1 := update (assign_app d app') s).
  assert (Hc1 : clean s1) by (unfold clean, s1, update; cbn [log ctx]; by rewrite Hk, Hm, Hr).
  assert (Hu1 : undecoded s1).
  { destruct Hu as (Ha & _ & Hin & Hbu). split_and!; [done|by left|by rewrite <- Hin|]. unfold s1, update. cbn [ctx sess]. by rewrite Hb. }
  assert (Hserved : forall e, is_ok (@Err string bool e) = false /\ served s1).
  { intros e. split; [done|]. destruct Hu1 as (Ha & _ & Hin & _). split_and!; [rewrite Ha; cbn; lia|left; by left|by left]. }
  destruct (service_at env _) as [handle|]; [|wp_steps; apply Hserved].
  destruct (upstream_services g !! handle) as [sc|]; wp_steps; [|apply Hserved].
  split; [|exact Hc1]. destruct Hu1 as (? & ? & ? & ?). by split_and!.
Qed.
Lemma before_logging_ok g (loads : phase -> dynamic) t id h chunks up s (w : W) :
  served (snd (before_logging env g loads t id h chunks up s w)).
Proof.
  unfold before_logging. set (s0 := St s _ w []).
  assert (Hc : clean s0) by done.
  assert (Hu : undecoded s0) by (split_and!; [done|by left|done|by left]).
  pose proof (early_ok g (loads OnEarly) s0 Hu Hc) as He. unfold wp in He. unfold run.
  destruct (early_request_filter env g (loads OnEarly) s0) as [[b|r] s1].
  - destruct He as [Hu1 Hc1]. pose proof (request_filter_ok g (loads OnRequest) t s1 Hu1 Hc1) as Hf. unfold wp in Hf.
    destruct (request_filter env g (loads OnRequest) t s1) as [[b'|r] s2].
    + destruct Hf as [-> Hg]. by apply proxy_stage_ok.
    + destruct Hf as (Hl & Ho & Hd & Hf). destruct r as [[|]|e]; cbn [snd]; [by split_and!|by apply proxy_stage_ok, Hf|by split_and!].
  - destruct He as [Hr Hs]. by destruct r.
Qed.

(** ** Properties *)

Lemma claims_settled g (loads : phase -> dynamic) t id h chunks up s (w : W) :
  let events := engine_events (log (serve env g loads t id h chunks up s w)) in
  settled events \/
  (exists k, events = [Claimed k New]) /\
  request_info (ctx (snd (before_logging env g loads t id h chunks up s w))) ≫= Protocol.gql = None.
Proof.
  cbv zeta. unfold serve. pose proof (before_logging_ok g loads t id h chunks up s w) as Hs.
  destruct (before_logging env g loads t id h chunks up s w) as [error st]. cbn [snd] in *.
  destruct Hs as (_ & Ho & Hd). pose proof (logging_ok g t t error st) as Hl. unfold wp in Hl.
  destruct (logging env g t t error st) as [[[]|r] st']; [|done]. cbn [snd].
  assert (Hstay : engine_events (log st') = engine_events (log st) -> request_info (ctx st) ≫= Protocol.gql = None ->
    settled (engine_events (log st')) \/
    (exists k, engine_events (log st') = [Claimed k New]) /\ request_info (ctx st) ≫= Protocol.gql = None).
  { intros -> Hn. destruct Ho as [[(He & _)|(k & He & _)]|[Ho _]]; [left; rewrite He; constructor|right|by left].
    split; [by exists k|done]. }
  destruct Hl as [[[_ Hl]|(_ & He & Hsk)]|[Hsv ->]].
  - left. destruct Ho as [[(He & Hk & Hq)|(k & He & Hk & Hq)]|[Hse Hk]].
    + rewrite Hq, Hk in Hl. rewrite Hl, He. constructor.
    + rewrite Hq, Hk in Hl. destruct Hl as (e & [->|(h' & code & pairs & body & ->)] & ->); rewrite He; constructor.
    + assert (Hn : (if is_replay (ctx st) || is_mode_b_terminated (ctx st) then None else idempotency_key (ctx st)) = None).
      { destruct Hk as [-> | ->]; [by destruct (_ || _)|by rewrite orb_true_r]. }
      rewrite Hn in Hl. by rewrite Hl.
  - apply Hstay; [done|]. destruct Hsk as [Hm|[Hm|[Hn _]]]; [..|done].
    all: destruct Hd as [->|[_ Hp]]; [done|congruence].
  - apply Hstay; [done|]. destruct Hd as [->|[Hn _]]; [done|congruence].
Qed.

(** C6. Whatever a request meets, what it does in the idempotency engine is settled when
    it ends: it claims nothing, or its one claim is refused, or the claim is finished
    with a response or released; the exception is a request in which no operation was
    decoded, whose claim stays in flight. *)
Theorem every_claim_settled g (loads : phase -> dynamic) t id h chunks up s (w : W) :
  let events := engine_events (log (serve env g loads t id h chunks up s w)) in
  settled events \/
  (exists k, events = [Claimed k New]) /\
  request_info (ctx (snd (before_logging env g loads t id h chunks up s w))) ≫= Protocol.gql = None.
Proof. apply claims_settled. Qed.

(** C7. A request is answered at most once: by one response of the gateway's own, or by
    being forwarded, never both. *)
Theorem answered_at_most_once g (loads : phase -> dynamic) t id h chunks up s (w : W) :
  (length (answers (log (serve env g loads t id h chunks up s w))) <= 1)%nat.
Proof.
  unfold serve. pose proof (before_logging_ok g loads t id h chunks up s w) as Hs.
  destruct (before_logging env g loads t id h chunks up s w) as [error st]. cbn [snd] in Hs.
  destruct Hs as (Ha & _). pose proof (logging_ok g t t error st) as Hl. unfold wp in Hl.
  destruct (logging env g t t error st) as [[[]|r] st']; [|done]. cbn [snd].
  destruct Hl as [[(Ha1 & _)|(Ha1 & _)]|[_ Ha1]]; [by rewrite Ha1|by rewrite Ha1|by subst].
Qed.

(** ** Requests without a decoded operation *)

(** Nothing is known of the operation yet. *)
Definition bare (c : proxy_ctx (SocketAddr := SocketAddr)) : Prop :=
  request_info c = None /\ active_operation c = None /\ request_topic c = "spectra".
Lemma kept_bare c c' : kept c c' -> bare c -> bare c'.
Proof. intros (_ & _ & _ & _ & Hi & Ho & Ht & _) (? & ? & ?). unfold bare. by rewrite Hi, Ho, Ht. Qed.

Lemma append_header_other n m v h : eq_ignore_ascii_case m n = false -> hm_get m (append_header n v h) = hm_get m h.
Proof.
  intros Hne. unfold append_header. destruct (hv_from_str v); [|done].
  rewrite hm_get_append, Hne. by destruct (hm_get m h).
Qed.
Lemma stamped_key (s : session) app hlc id :
  extract_idempotency_key (append_header "x-spectra-app" app (append_header "x-spectra-hlc" hlc
    (append_header REQUEST_ID_HEADER id (req_headers s)))) = extract_idempotency_key (req_headers s).
Proof.
  unfold extract_idempotency_key, key_from_header. by rewrite !append_header_other by reflexivity.
Qed.

Lemma logging_skips g t1 t2 error (s : state) : bare (ctx s) ->
  wp (logging env g t1 t2 error) (fun _ s' => engine_events (log s') = engine_events (log s)) never s.
Proof.
  intros Hbare. unfold logging. wp_steps. destruct (service (ctx s)) as [sv|]; [|by wp_steps]. wp_steps.
  assert (Hcont : forall s1, engine_events (log s1) = engine_events (log s) -> bare (ctx s1) ->
    wp (dispatch_logging env t2 error (dispatch_method sv)) (fun _ s' => engine_events (log s') = engine_events (log s)) never s1).
  { intros s1 He (Hi & Ho & Ht). unfold dispatch_logging. wp_steps.
    destruct (is_replay _); [by wp_steps|]. destruct (is_mode_b_terminated _); [by wp_steps|].
    destruct (_ || _); [by wp_steps|]. wp_steps. unfold logging_topic. rewrite Hi, Ho, Ht. by wp_steps. }
  destruct (negb _ && _ && _); [|wp_steps; by apply Hcont].
  unfold record_traffic_event. destruct error as [e|]; wp_steps; (apply Hcont; [|done]); unfold push, update; cbn [log];
    rewrite engine_events_app; apply app_nil_r.
Qed.

(** The request passes the edge filters, whatever the administrative engine is. *)
Definition not_edge (g : gateway (SocketAddr := SocketAddr)) (s : session) : Prop :=
  is_health_probe (path_of s) = false /\ is_favicon_request (path_of s) = false /\
  is_admin_request (admin_engine g) (path_of s) = false /\
  is_websocket_upgrade (hv_bytes env) (req_headers s) = false.
Lemma edge_stage_passes g (s : state) (Q : unit -> state -> Prop) E : not_edge g (sess s) -> Q tt s -> wp (edge_stage env g) Q E s.
Proof.
  intros (Hh & Hf & Ha & Hw) HQ. unfold edge_stage, health_handle, favicon_handle, admin_handle.
  apply orb_false_iff in Hh as [Hh1 Hh2]. wp_steps. rewrite Hh1, Hh2. wp_steps. rewrite Hf. wp_steps. rewrite Ha. wp_steps.
  rewrite Hw, andb_false_r. by wp_steps.
Qed.
Lemma request_filter_bodyless g d t k (s : state) :
  not_edge g (sess s) -> bare (ctx s) -> clean s -> answers (log s) = [] -> buffer (ctx s) = "" ->
  method (req (sess s)) <> "POST" -> extract_idempotency_key (req_headers (sess s)) = Some k ->
  (forall h, claim env k h = New) ->
  wp (request_filter env g d t) (fun b s' => b = false /\ held k s' /\ going s' /\ bare (ctx s')) never s.
Proof.
  intros He Hb Hc Ha Hbuf Hm Hk Hnew. unfold request_filter. apply wp_bind. apply edge_stage_passes; [done|].
  unfold stamp_stage. wp_steps.
  unfold explicit_key_stage, handle_explicit_key, check_or_insert. wp_steps.
  match goal with |- context [extract_idempotency_key ?hs] => assert (extract_idempotency_key hs = Some k) as -> end.
  { rewrite <- Hk. apply stamped_key. }
  rewrite Hnew. wp_steps. cbn [intercept_outcome]. wp_steps. cbn [after_claim]. wp_steps.
  unfold body_stage. wp_steps. cbn [sess update push update_sess with_headers req method].
  destruct (String.eqb_spec (method (req (sess s))) "POST") as [|_]; [done|]. wp_steps.
  unfold decode_stage. wp_steps. cbn [ctx buffer update push update_sess set_key]. rewrite Hbuf. cbn [String.eqb]. wp_steps.
  split; [done|]. destruct (claimed_view k New s) as [Hce Hca]; [|done|].
  { split_and!; [done|by left|]. left. by destruct Hb. }
  assert (Hh : held k (update (set_key (Some k)) (push (Claimed k New)
     (update_sess (fun s0 => with_headers (append_header "x-spectra-app" (c_app_id (ctx s))
        (append_header "x-spectra-hlc" (to_compact_string (c_hlc (ctx s)))
          (append_header REQUEST_ID_HEADER (c_request_id (ctx s)) (req_headers s0)))) s0) s)))).
  { destruct Hc as (_ & _ & Hq). split_and!; [exact Hce|done|exact Hq]. }
  split; [exact Hh|]. split; [|exact Hb]. split_and!; [exact Hca|right; by exists k|left; by destruct Hb].
Qed.
Lemma proxy_stage_held g (loads : phase -> dynamic) t chunks up (s : state) :
  bare (ctx s) ->
  bare (ctx (snd (proxy_stage g loads t chunks up s))) /\
  engine_events (log (snd (proxy_stage g loads t chunks up s))) = engine_events (log s).
Proof.
  intros Hb. unfold proxy_stage. destruct (upstream_peer g (loads OnPeer) (ctx s)) as [a|e]; [|by split].
  pose proof (request_bodies_kept chunks (ctx s)) as Hk. set (c := fold_left _ _ _) in *.
  assert (He1 : engine_events (log s ++ [Forwarded a (req (sess s))]) = engine_events (log s)).
  { rewrite engine_events_app. apply app_nil_r. }
  destruct up as [e|head body error]; [split; [by eapply kept_bare|done]|].
  assert (Hk1 : kept c (snd (response_filter (loads OnResponse) head c))).
  { unfold response_filter. destruct (has_response_interceptors _ _); split_and!; auto. }
  destruct (response_filter (loads OnResponse) head c) as [head' c1]. cbn [snd] in Hk1.
  pose proof (relay_kept g t body (fun k => loads (OnBody k)) (world s) c1) as Hk2.
  destruct (relay g _ t body (world s) c1) as [[outs w] c2]. cbn [snd log ctx] in *. split.
  - eapply kept_bare; [|done]. eapply kept_trans; [exact Hk|]. by eapply kept_trans.
  - rewrite engine_events_app, He1. apply app_nil_r.
Qed.

(** C12. The exception is met: a request with an idempotency key and another method than
    POST, passed on to a service, leaves its claim in flight whatever the upstream
    answers. *)
Theorem bodyless_claim_stays g (loads : phase -> dynamic) t id h chunks up s (w : W) k handle :
  not_edge g s -> service_at env (path_of s) = Some handle -> is_Some (upstream_services g !! handle) ->
  method (req s) <> "POST" -> extract_idempotency_key (req_headers s) = Some k -> (forall h, claim env k h = New) ->
  engine_events (log (serve env g loads t id h chunks up s w)) = [Claimed k New].
Proof.
  intros Hedge Hat [sc Hsc] Hm Hk Hnew. pose proof Hedge as (Hh & Hf & Had & _). unfold serve, before_logging, run.
  set (s0 := St s _ w []).
  assert (Hearly : exists c, early_request_filter env g (loads OnEarly) s0 = (Go false, St s c w []) /\
     bare c /\ buffer c = "" /\ idempotency_key c = None /\ is_replay c || is_mode_b_terminated c = false).
  { unfold early_request_filter, bind, get_sess, modify, ret. cbn [sess s0]. rewrite Hh, Hf, Had, Hat, Hsc. cbn [ctx s0 sess world log].
    eexists. split; [done|]. unfold assign_app. repeat case_match; done. }
  destruct Hearly as (c & -> & Hb & Hbuf & Hkey & Hq).
  pose proof (request_filter_bodyless g (loads OnRequest) t k (St s c w []) Hedge Hb ltac:(done) eq_refl Hbuf Hm Hk Hnew) as Hr.
  unfold wp in Hr. destruct (request_filter env g (loads OnRequest) t (St s c w [])) as [[b|r] s2]; [|done].
  destruct Hr as (-> & (He & _) & _ & Hb2). destruct (proxy_stage_held g loads t chunks up s2 Hb2) as [Hb3 He3].
  destruct (proxy_stage g loads t chunks up s2) as [error st]. cbn [snd] in *.
  pose proof (logging_skips g t t error st Hb3) as Hl. unfold wp in Hl.
  destruct (logging env g t t error st) as [[[]|r] st']; [|done]. cbn [snd]. congruence.
Qed.
End Stages.

(** ** A concrete gateway *)

Section Witnesses.
#[local] Existing Instances list_http ascii_tables bits_json_text list_lru demo_auth_lib demo_cel demo_types
  demo_wasm no_gql manager_clocks no_match_regex.
(** A broker that takes everything, an engine whose keys are all new, and one service
    for every path. *)
Definition demo_env : Gateway.surroundings (SocketAddr := string) :=
  Around (fun _ => None) (fun _ _ => New) (fun _ => Some 0%nat) (Ok true) (Ok true) (fun _ => JNull) id id id
    (fun _ => None) (fun _ => "Bad Gateway") id "<svg/>".
Definition demo_service : ProxyService := Proxy HttpDecoder (Webhook "http://sink").
Definition demo_gateway : gateway (SocketAddr := string) :=
  Gw [Service demo_service "10.0.0.1:80" "/{*rest}"] None subscriptions_default error_capture_default.
Definition demo_session (m : string) : session :=
  @Session list_http (@HttpInfo list_http m "/graphql" "HTTP/1.1" [("idempotency-key", "k1"); ("x-user-id", "u1")])
    (Some (V4 0)) [] true.
Definition demo_loads (p : phase) : DynamicGatewayState (W := manager_world) (SocketAddr := string) := demo_state.

Lemma bodyless_claim_stays_witness :
  engine_events (log (serve demo_env demo_gateway demo_loads (Reading (F64.of_Z 0) 0 0) "r1" (HLC 0 0) []
    (UpFails "down") (demo_session "GET") demo_mworld)) = [Claimed "k1" New].
Proof.
  apply (bodyless_claim_stays demo_env demo_gateway demo_loads _ "r1" (HLC 0 0) [] (UpFails "down") (demo_session "GET")
    demo_mworld "k1" 0).
  - split_and!; reflexivity.
  - reflexivity.
  - by eexists.
  - done.
  - reflexivity.
  - reflexivity.
Defined.
End Witnesses.

(** A gateway with access control: mutations need the role their operation is granted
    to, and a token tells the roles. *)
Section Guarded.
(** Every text but the empty one is the mutation [publish]. *)
Definition publish_gql : GqlParser := {|
  gql_parse text := ([], if String.eqb text "" then [] else [OperationDefinition (CstOperation (Some (CstOpType false true false)) (Some "publish")
    (Some [SelField None (Some "publish") []]))])
|}.
#[local] Existing Instances list_http ascii_tables bits_json_text list_lru demo_auth_lib demo_cel demo_types
  demo_wasm publish_gql manager_clocks no_match_regex.

Definition guard_rbac : RbacRequestInterceptor manager_world :=
  grant_role "editor" ["publish"]
    (with_policies DenyUnlisted DenyUnlisted (with_provider (Hmac []) (rbac_new (cache_cell demo_process "guard")))).
Definition guarded_state : DynamicGatewayState (W := manager_world) (SocketAddr := string) :=
  Dynamic {["default" := "10.0.0.1:80"]} {["default" := "up:80"]} dns_default mode_a_default [] [] None
    (set_global_request_pipeline [rbac guard_rbac] manager_empty) error_capture_default "old" 1 0 "".
Definition guarded_loads (p : phase) : DynamicGatewayState (W := manager_world) (SocketAddr := string) := guarded_state.
Definition guarded_gateway : gateway (SocketAddr := string) :=
  Gw [Service (Proxy (GraphQLDecoder (decoder_new "mutation")) (Webhook "http://sink")) "10.0.0.1:80" "/{*rest}"] None
    subscriptions_default error_capture_default.
Definition guarded_env (o : IdempotencyOutcome) : Gateway.surroundings (SocketAddr := string) :=
  Around (fun _ => None) (fun _ _ => o) (fun _ => Some 0%nat) (Ok true) (Ok true) (fun _ => JNull) id id id
    (fun _ => None) (fun _ => "Bad Gateway") id "<svg/>".
Definition publish_text : string := json_to_string (JObject [("query", JString "mutation publish { publish }")]).
Definition publish_session (hs : HeaderMap) (body : string) : session :=
  @Session list_http (@HttpInfo list_http "POST" "/graphql" "HTTP/1.1" hs) (Some (V4 0)) [Ok body] true.
Definition editor_token : string := String.append "Bearer " (demo_token hs256 (demo_payload 990)).
End Guarded.
