(* ===== verification/Relay.v ===== *)
(** * Relay: what a request hands on, and what of a response is relayed, kept and
    stored.

    The headers the upstream gets when no interceptor transforms a request, the bytes
    the client gets with and without response interceptors, the bounds of what is kept
    of them, and what of it a replay gives back. *)

From S2P Require Import Prelude Externals Clock Types Idempotency Sanitizer Protocol Telemetry Config.
From S2P Require Import Interceptors Auth Wasm Cel Manager Hub Access Traffic State Gateway Lifecycle.
Local Open Scope string_scope.

Section Relay.
Context `{HttpLib, JsonText, Unicode, GqlParser, LruLib, AuthLib, CelLib, RegexLib}.
Context {W : Type} `{Clocks W, WasmTypes, !WasmLib W}.
Context {SocketAddr : Type}.
Abbreviation state := (state (W := W) (SocketAddr := SocketAddr)).
Abbreviation M := (M (W := W) (SocketAddr := SocketAddr)).
Abbreviation dynamic := (DynamicGatewayState (W := W) (SocketAddr := SocketAddr)).
Context (env : surroundings (SocketAddr := SocketAddr)).

(** ** The session's request *)

(** A step that leaves the session, and says nothing of forwarding. *)
Definition frames {A} (m : M A) : Prop :=
  forall s, sess (snd (m s)) = sess s /\
    forall a r, Forwarded a r ∈ log (snd (m s)) -> Forwarded a r ∈ log s.
Lemma frames_ret {A} (a : A) : frames (ret a).
Proof. by intros s. Qed.
Lemma frames_stop {A} r : frames (stop (A := A) r).
Proof. by intros s. Qed.
Lemma frames_get_sess : frames get_sess.
Proof. by intros s. Qed.
Lemma frames_get_ctx : frames get_ctx.
Proof. by intros s. Qed.
Lemma frames_modify f : frames (modify f).
Proof. by intros s. Qed.
Lemma frames_emit e : (forall a r, e <> Forwarded a r) -> frames (emit e).
Proof.
  intros He s. split; [done|]. intros a r [Hin|Hin]%elem_of_app; [done|]. apply list_elem_of_singleton in Hin. by destruct (He a r).
Qed.
Lemma frames_bind {A B} (m : M A) (k : A -> M B) : frames m -> (forall a, frames (k a)) -> frames (bind m k).
Proof.
  intros Hm Hk s. specialize (Hm s). unfold bind. destruct (m s) as [[a|r] s1]; cbn [snd] in *; [|done].
  destruct Hm as [Hs Hl]. destruct (Hk a s1) as [Hs' Hl']. split; [congruence|auto].
Qed.
Lemma frames_attempt m : frames m -> frames (attempt m).
Proof. intros Hm s. specialize (Hm s). unfold attempt. by destruct (m s) as [[a|r] s1]. Qed.
End Relay.

Create HintDb frames.
#[export] Hint Resolve frames_ret frames_stop frames_get_sess frames_get_ctx frames_modify : frames.
(** Shows that a step built from the primitives leaves the session. *)
Ltac frame :=
  cbv zeta;
  repeat first
    [ apply frames_ret | apply frames_stop | apply frames_get_sess | apply frames_get_ctx | apply frames_modify
    | apply frames_attempt
    | apply frames_emit; discriminate
    | apply frames_bind; [|intros ?]
    | progress auto with frames
    | match goal with
      | |- frames (match ?x with _ => _ end) => destruct x
      end ].

Section Frames.
Context `{HttpLib, JsonText, Unicode, GqlParser, LruLib, AuthLib, CelLib, RegexLib}.
Context {W : Type} `{Clocks W, WasmTypes, !WasmLib W}.
Context {SocketAddr : Type}.
Abbreviation state := (state (W := W) (SocketAddr := SocketAddr)).
Abbreviation dynamic := (DynamicGatewayState (W := W) (SocketAddr := SocketAddr)).
Context (env : surroundings (SocketAddr := SocketAddr)).

Lemma write_response_frames code fields body : frames (W := W) (SocketAddr := SocketAddr) (write_response code fields body).
Proof. unfold write_response. frame. Qed.
Lemma dispatch_frames out : frames (W := W) (SocketAddr := SocketAddr) (dispatch out).
Proof. unfold dispatch. frame. Qed.
Lemma record_frames t d : frames (W := W) (SocketAddr := SocketAddr) (record_traffic_event t d).
Proof. unfold record_traffic_event. frame. Qed.
Lemma check_frames key h : frames (W := W) (check_or_insert env key h).
Proof. unfold check_or_insert. frame. Qed.
Lemma release_key_frames : frames (W := W) (SocketAddr := SocketAddr) release_key.
Proof. unfold release_key, remove. frame. Qed.
End Frames.
#[export] Hint Resolve write_response_frames dispatch_frames record_frames check_frames release_key_frames : frames.

Section Forwarded.
Context `{HttpLib, JsonText, Unicode, GqlParser, LruLib, AuthLib, CelLib, RegexLib}.
Context {W : Type} `{Clocks W, WasmTypes, !WasmLib W}.
Context {SocketAddr : Type}.
Abbreviation state := (state (W := W) (SocketAddr := SocketAddr)).
Abbreviation M := (M (W := W) (SocketAddr := SocketAddr)).
Abbreviation dynamic := (DynamicGatewayState (W := W) (SocketAddr := SocketAddr)).
Context (env : surroundings (SocketAddr := SocketAddr)).

Lemma edge_frames g : frames (W := W) (edge_stage env g).
Proof. unfold edge_stage, health_handle, favicon_handle, admin_handle. frame. Qed.
Lemma outcome_frames named key o : frames (W := W) (SocketAddr := SocketAddr) (intercept_outcome named key o).
Proof. unfold intercept_outcome, write_conflict_response, write_replay_response. frame. Qed.
Lemma after_claim_frames t name text r : frames (W := W) (SocketAddr := SocketAddr) (after_claim t name text r).
Proof. unfold after_claim. frame. Qed.
#[local] Hint Resolve outcome_frames after_claim_frames : frames.
Lemma explicit_frames t : frames (W := W) (explicit_key_stage env t).
Proof. unfold explicit_key_stage, handle_explicit_key. frame. Qed.
Lemma body_frames : frames (W := W) (SocketAddr := SocketAddr) body_stage.
Proof. unfold body_stage. frame. Qed.
Lemma decode_frames (d : dynamic) : frames (decode_stage env d).
Proof. unfold decode_stage. frame. Qed.
Lemma reject_frames t info dm r : frames (W := W) (reject_stage env t info dm r).
Proof. unfold reject_stage. frame. Qed.
Lemma fingerprint_frames t info body : frames (W := W) (fingerprint_stage env t info body).
Proof. unfold fingerprint_stage, handle_fingerprint. frame. Qed.
Lemma route_frames (d : dynamic) t info dm : frames (route_stage env d t info dm).
Proof.
  unfold route_stage, disabled_route, handle_mode_b_edge, send_request, complete, remove. frame.
Qed.
Lemma policy_frames p info dm : frames (W := W) (handle_mode_a_dispatch_policy env p info dm).
Proof. unfold handle_mode_a_dispatch_policy, send_request. frame. Qed.
Lemma logging_frames g t1 t2 error : frames (W := W) (logging env g t1 t2 error).
Proof.
  unfold logging, dispatch_logging, log_outcome, log_failure, log_success, release_held, send_terminal, complete, remove.
  frame.
Qed.
Lemma early_frames g (d : dynamic) : frames (early_request_filter env g d).
Proof. unfold early_request_filter. frame. Qed.

(** No interceptor of the configuration transforms a request. *)
Definition no_transform (d : dynamic) : Prop :=
  forall name w ic parts body hs b,
    q_verdict (request_pipeline (get_request_pipeline (interceptor_manager d) name) w ic parts body) <> Transform hs b.
Lemma intercept_frames (d : dynamic) t info dm body : no_transform d -> frames (intercept_stage env d t info dm body).
Proof.
  intros Hno. unfold intercept_stage. specialize (Hno (gql_name info)).
  destruct (get_request_pipeline _ _) as [|i js]; [apply frames_ret|].
  apply frames_bind; [apply frames_get_ctx|intros c]. apply frames_bind; [apply frames_get_sess|intros s0].
  intros st. pose proof (Hno (world st) (interceptor_context c info) (req s0) body) as Hv.
  set (o := request_pipeline _ _ _ _ _) in *. set (st1 := St (sess st) (ctx st) (q_world o) (log st)).
  change (sess st) with (sess st1). change (log st) with (log st1). revert st1. generalize (q_world o) as w. intros w st1.
  destruct (q_verdict o) as [|r|hs b|rule tag reason].
  - apply frames_ret.
  - assert (Hf : frames (bind (reject_stage env t info dm r) (fun _ => ret body)))
      by (apply frames_bind; [apply reject_frames|intros ?; apply frames_ret]). apply (Hf st1).
  - by destruct (Hv hs b).
  - assert (Hf : frames (W := W) (SocketAddr := SocketAddr) (bind (modify (set_audit tag (Some rule))) (fun _ => ret body))) by frame.
    apply (Hf st1).
Qed.

Lemma wp_unbind {A B} (m : M A) (k : A -> M B) Q E s :
  wp (bind m k) Q E s -> wp m (fun a => wp (k a) Q E) E s.
Proof. unfold wp, bind. by destruct (m s) as [[a|r] s']. Qed.

(** The client's request with the gateway's three headers. *)
Definition stamped (id hlc app : string) (r : HttpRequestInfo) : HttpRequestInfo :=
  HttpInfo (method r) (uri r) (Protocol.version r)
    (append_header "x-spectra-app" app (append_header "x-spectra-hlc" hlc (append_header REQUEST_ID_HEADER id (headers r)))).
Definition unforwarded (l : list (event (SocketAddr := SocketAddr))) : Prop := forall a r, Forwarded a r ∉ l.

Lemma frames_wp {A} (m : M A) s : frames m ->
  wp m (fun _ s' => sess s' = sess s /\ (unforwarded (log s) -> unforwarded (log s')))
    (fun _ s' => sess s' = sess s /\ (unforwarded (log s) -> unforwarded (log s'))) s.
Proof.
  intros Hm. specialize (Hm s) as [Hs Hf]. unfold wp. destruct (m s) as [[a|r] s']; cbn [snd] in *;
    (split; [done|]; intros Hu a' q Hin; by eapply Hu, Hf).
Qed.
Definition handed_on (s s' : state) : Prop :=
  unforwarded (log s') /\
  (sess s' = sess s \/ exists id hlc app, req (sess s') = stamped id hlc app (req (sess s))).
Lemma request_filter_stamps g (d : dynamic) t s : no_transform d -> unforwarded (log s) ->
  wp (request_filter env g d t) (fun _ => handed_on s) (fun _ => handed_on s) s.
Proof.
  intros Hno Hl. unfold request_filter. apply wp_bind. eapply wp_mono; [apply frames_wp, edge_frames| |].
  2: { intros r s1 [Hs Hu]. split; [auto|by left]. }
  intros ? s1 [Hs Hu]. unfold stamp_stage. wp_steps. set (s2 := update_sess _ s1).
  assert (Hs2 : unforwarded (log s2) /\ exists id hlc app, req (sess s2) = stamped id hlc app (req (sess s))).
  { split; [by apply Hu|]. rewrite <- Hs. by eexists _, _, _. }
  destruct Hs2 as [Hu2 Hst].
  assert (Hfin : forall s', sess s' = sess s2 /\ (unforwarded (log s2) -> unforwarded (log s')) -> handed_on s s').
  { intros s' [He Hu']. unfold handed_on. rewrite He. split; [auto|by right]. }
  apply wp_unbind. eapply wp_mono; [apply frames_wp| |]; [|intros ? s' Hs'; by apply Hfin..].
  apply frames_bind; [apply explicit_frames|intros ?]. apply frames_bind; [apply body_frames|intros ?].
  apply frames_bind; [apply decode_frames|intros [[[info dm] body]|]]; [|apply frames_ret].
  apply frames_bind; [by apply intercept_frames|intros ?]. apply frames_bind; [apply fingerprint_frames|intros ?].
  apply frames_bind; [apply route_frames|intros ?]. apply frames_bind; [apply frames_get_ctx|intros ?].
  apply frames_bind; [apply policy_frames|intros ?]. apply frames_ret.
Qed.

(** The upstream's part forwards the session's request. *)
Lemma proxy_stage_forwards g (loads : phase -> dynamic) t chunks up s a r : unforwarded (log s) ->
  Forwarded a r ∈ log (snd (proxy_stage g loads t chunks up s)) -> r = req (sess s).
Proof.
  intros Hu. unfold proxy_stage. destruct (upstream_peer g (loads OnPeer) (ctx s)) as [a'|e']; [|intros Hin; by apply Hu in Hin].
  destruct up as [e'|head body error].
  - cbn [snd log]. rewrite elem_of_app, list_elem_of_singleton. intros [Hin|[= _ ->]]; [by apply Hu in Hin|done].
  - destruct (response_filter _ _ _) as [head' c1]. destruct (relay _ _ _ _ _ _) as [[outs w'] c2]. cbn [snd log].
    rewrite !elem_of_app, !list_elem_of_singleton. intros [[Hin|[= _ ->]]|[=]]; [by apply Hu in Hin|done].
Qed.
Lemma before_logging_forwards g (loads : phase -> dynamic) t id h chunks up s (w : W) a r : no_transform (loads OnRequest) ->
  Forwarded a r ∈ log (snd (before_logging env g loads t id h chunks up s w)) ->
  r = req s \/ exists id hlc app, r = stamped id hlc app (req s).
Proof.
  intros Hno. unfold before_logging. set (s0 := St s _ w []).
  assert (Hu0 : unforwarded (log s0)) by (intros ? ? Hin; by apply elem_of_nil in Hin).
  pose proof (frames_wp _ s0 (early_frames g (loads OnEarly))) as He. unfold wp in He. unfold run at 1.
  assert (Hgo : forall s1, sess s1 = s -> unforwarded (log s1) ->
    Forwarded a r ∈ log (snd (match run (request_filter env g (loads OnRequest) t) s1 with
      | (Err e, st) => (Some e, st)
      | (Ok true, st) => (None, st)
      | (Ok false, st) => proxy_stage g loads t chunks up st
      end)) -> r = req s \/ exists id hlc app, r = stamped id hlc app (req s)).
  { intros s1 Hs1 Hu1. pose proof (request_filter_stamps g (loads OnRequest) t s1 Hno Hu1) as Hst. unfold wp in Hst. unfold run.
    destruct (request_filter env g (loads OnRequest) t s1) as [f s2].
    assert (Hs2 : handed_on s1 s2) by (by destruct f). destruct Hs2 as [Hu2 Hreq].
    assert (Hfwd : Forwarded a r ∈ log (snd (proxy_stage g loads t chunks up s2)) ->
      r = req s \/ exists id hlc app, r = stamped id hlc app (req s)).
    { intros Hin. apply proxy_stage_forwards in Hin as ->; [|done]. rewrite <- Hs1.
      destruct Hreq as [->|Hreq]; [by left|by right]. }
    destruct f as [b|[b|e]]; cbn [snd]; [destruct b|destruct b|]; cbn [snd]; try exact Hfwd; intros Hin; by apply Hu2 in Hin. }
  destruct (early_request_filter env g (loads OnEarly) s0) as [[b|[b|e]] s1]; destruct He as [Hs1 Hu1]; cbn [snd];
    [apply Hgo; auto..|]. intros Hin. by apply (Hu1 Hu0) in Hin.
Qed.

(** C9. Whatever headers the interceptors set on a request they pass (identity, tenant,
    roles), the head the upstream gets is the client's own: while no interceptor
    transforms a request, what is forwarded has the client's method and URI, and
    under every name but those of the gateway's own three headers the client's
    value or none. So the headers of a verified identity, which the documentation
    says are injected into the upstream request, are not, and those a client makes
    up itself are not removed. This is of the head only; the body is the proxy
    library's to forward. *)
Theorem forwarded_is_the_clients g (loads : phase -> dynamic) t id h chunks up s (w : W) a r :
  no_transform (loads OnRequest) ->
  Forwarded a r ∈ log (serve env g loads t id h chunks up s w) ->
  method r = method (req s) /\ uri r = uri (req s) /\
  forall n, forallb (fun m => negb (eq_ignore_ascii_case n m)) [REQUEST_ID_HEADER; "x-spectra-hlc"; "x-spectra-app"] = true ->
    hm_get n (headers r) = hm_get n (headers (req s)).
Proof.
  intros Hno. unfold serve. pose proof (before_logging_forwards g loads t id h chunks up s w a r Hno) as Hbl.
  destruct (before_logging env g loads t id h chunks up s w) as [error st]. cbn [snd] in Hbl.
  intros Hin. apply (logging_frames g t t error st), Hbl in Hin.
  destruct Hin as [->|(i & hl & ap & ->)]; [done|]. split_and!; [done..|]. intros n Hn. cbn in Hn.
  apply andb_true_iff in Hn as [Hn1 Hn]. apply andb_true_iff in Hn as [Hn2 Hn]. apply andb_true_iff in Hn as [Hn3 _].
  apply negb_true_iff in Hn1, Hn2, Hn3. cbn [headers stamped]. by rewrite !append_header_other.
Qed.
End Forwarded.

Section Responses.
Context `{HttpLib, JsonText, Unicode, GqlParser, LruLib, AuthLib, CelLib, RegexLib}.
Context {W : Type} `{Clocks W, WasmTypes, !WasmLib W}.
Context {SocketAddr : Type}.
Abbreviation state := (state (W := W) (SocketAddr := SocketAddr)).
Abbreviation dynamic := (DynamicGatewayState (W := W) (SocketAddr := SocketAddr)).
Abbreviation proxy_ctx := (proxy_ctx (SocketAddr := SocketAddr)).
Context (env : surroundings (SocketAddr := SocketAddr)).

(** ** The streamed path *)

Lemma capture_le max buf b : (String.length (capture max buf b) <= Nat.max max (String.length buf))%nat.
Proof.
  unfold capture. destruct (Nat.ltb_spec (String.length buf) max); [|lia].
  rewrite str_length_app. rewrite str_take_length. lia.
Qed.
(** The most the gateway keeps of a streamed response. *)
Definition capture_bound (d : dynamic) : nat :=
  Nat.max MAX_TELEMETRY_RESPONSE_BYTES (Z.to_nat (max_body_bytes (State.telemetry_config d))).
Lemma stream_body_bound (d : dynamic) body fin c bound : (capture_bound d <= bound)%nat ->
  (String.length (buffer c) <= bound)%nat ->
  (String.length (buffer (stream_body (SocketAddr := SocketAddr) d body fin c)) <= bound)%nat.
Proof.
  intros Hd Hb. unfold stream_body.
  set (is_err := match c_response_parts c with Some p => _ | None => false end).
  set (c1 := match body with Some b => _ | None => c end).
  assert (Hc1 : (String.length (buffer c1) <= bound)%nat).
  { unfold c1. destruct body as [b|]; [|done]. cbn [buffer set_buffer]. unfold captured, capture_bound in *.
    pose proof (capture_le MAX_TELEMETRY_RESPONSE_BYTES (buffer c) b) as Hm.
    pose proof (capture_le (Z.to_nat (max_body_bytes (State.telemetry_config d))) (buffer c) b) as Hm'.
    revert Hd Hm. generalize MAX_TELEMETRY_RESPONSE_BYTES. intros n Hd Hm.
    destruct (is_err && _); [|destruct (c_dispatch_policy c)]; lia. }
  destruct fin; [apply Nat.le_0_l|exact Hc1].
Qed.
Lemma stream_body_interception (d : dynamic) body fin c :
  has_response_interception (stream_body (SocketAddr := SocketAddr) d body fin c) = has_response_interception c.
Proof. unfold stream_body. by repeat case_match. Qed.
Lemma relay_streams g t l : forall (d : nat -> dynamic) (w : W) c, has_response_interception c = false ->
  let '(outs, w', c') := relay g d t l w c in
  outs = omap fst l /\ w' = w /\ has_response_interception c' = false /\
  forall bound, (forall k, (capture_bound (d k) <= bound)%nat) ->
    (String.length (buffer c) <= bound)%nat -> (String.length (buffer c') <= bound)%nat.
Proof.
  induction l as [|[b fin] l IH]; intros d w c Hc; cbn [relay]; [done|].
  unfold response_body_filter. rewrite Hc. cbn [negb].
  specialize (IH (fun k => d (Datatypes.S k)) w (stream_body (d 0%nat) b fin c)). rewrite stream_body_interception in IH.
  specialize (IH Hc). destruct (relay g _ t l w (stream_body (d 0%nat) b fin c)) as [[outs w'] c'].
  destruct IH as (-> & -> & Hc' & Hb). split_and!; [by destruct b|done|done|].
  intros bound Hd Hl. apply Hb; [done|]. by apply stream_body_bound.
Qed.

(** C11. A response streamed to the client is not touched: without response interceptors
    every chunk is relayed as it came, in order, at any point of the stream, and what
    the gateway keeps of it stays under the bound of the configurations loaded
    meanwhile. *)
Theorem streamed_untouched g (d : nat -> dynamic) t l (w : W) c bound : has_response_interception c = false -> buffer c = "" ->
  (forall k, (capture_bound (d k) <= bound)%nat) ->
  let '(outs, w', c') := relay g d t l w c in
  outs = omap fst l /\ (String.length (buffer c') <= bound)%nat.
Proof.
  intros Hc Hb Hbound. pose proof (relay_streams g t l d w c Hc) as Hr.
  destruct (relay g d t l w c) as [[outs w'] c']. destruct Hr as (-> & _ & _ & Hl). split; [done|].
  apply Hl; [done|]. rewrite Hb. cbn. lia.
Qed.

(** ** The intercepted path *)

Definition joined (l : list (option string)) : string := fold_right (fun o s => String.append (default "" o) s) "" l.
(** The buffered chunks, nothing sent. *)
Lemma relay_buffers g t tail : forall bs (d : nat -> dynamic) (w : W) c, has_response_interception c = true ->
  relay g d t (map (fun b => (b, false)) bs ++ tail) w c =
  relay g (fun k => d (length bs + k)%nat) t tail w (set_buffer (String.append (buffer c) (joined bs)) c).
Proof.
  induction bs as [|b bs IH]; intros d w c Hc; cbn [map app joined fold_right].
  - rewrite str_app_nil_r. by destruct c.
  - cbn [relay]. unfold response_body_filter, intercept_body. rewrite Hc. cbn [negb].
    rewrite IH by (by destruct b). destruct b as [b|]; cbn [default from_option id].
    + cbn [buffer set_buffer]. rewrite str_app_assoc. destruct (relay _ _ _ _ _ _) as [[outs w'] c']. done.
    + cbn [String.append]. destruct (relay _ _ _ _ _ _) as [[outs w'] c']. done.
Qed.
(** What the response interceptors say of a whole body. *)
Definition response_verdict (d : dynamic) (t : reading) (w : W) (c : proxy_ctx) (whole : string) : InterceptorVerdict :=
  let ic := ctx_new (c_request_id c) (c_hlc c) in
  s_verdict (response_pipeline (get_response_pipeline (interceptor_manager d) (active_operation c)) w
    (Ctx (ctx_request_id ic) (ctx_hlc ic) (active_operation c) (ctx_operation_type ic) (ctx_json_body ic)
       (metadata ic) (ctx_extensions ic) (elapsed_ms t) (claims ic))
    (default (RespParts 200 hm_new) (c_response_parts c)) whole).

(** C10. With response interceptors nothing of a body is relayed before its end; then those
    of the configuration loaded with the last chunk judge the whole body, and the client gets one chunk: the body itself, the body
    they put in its place, or the rejection. *)
Theorem intercepted_whole g (d : nat -> dynamic) t bs b (w : W) c : has_response_interception c = true -> buffer c = "" ->
  fst (fst (relay g d t (map (fun b => (b, false)) bs ++ [(b, true)]) w c)) =
  [match response_verdict (d (length bs)) t w c (joined (bs ++ [b])) with
   | Pass | Audit _ _ _ => joined (bs ++ [b])
   | Transform _ body => default (joined (bs ++ [b])) body
   | Reject r => to_graphql_response r
   end].
Proof.
  intros Hc Hb. rewrite relay_buffers, Hb by done. cbn [String.append relay]. rewrite Nat.add_0_r.
  unfold response_body_filter. cbn [has_response_interception set_buffer]. rewrite Hc. cbn [negb].
  assert (Hj : joined (bs ++ [b]) = String.append (joined bs) (default "" b)).
  { induction bs as [|x bs IH]; cbn; [apply str_app_nil_r|]. fold joined. unfold joined in IH. by rewrite IH, str_app_assoc. }
  rewrite Hj. unfold intercept_body, response_verdict.
  destruct b as [b|]; cbn [default from_option id buffer set_buffer c_request_id c_hlc active_operation c_response_parts].
  - match goal with |- context [s_verdict ?o] => destruct (s_verdict o) end; cbn; done.
  - rewrite str_app_nil_r. match goal with |- context [s_verdict ?o] => destruct (s_verdict o) end; cbn; done.
Qed.
End Responses.

Section Replays.
Context `{HttpLib, JsonText, Unicode, GqlParser, LruLib, AuthLib, CelLib, RegexLib}.
Context {W : Type} `{Clocks W, WasmTypes, !WasmLib W}.
Context {SocketAddr : Type}.
Abbreviation state := (state (W := W) (SocketAddr := SocketAddr)).
Abbreviation dynamic := (DynamicGatewayState (W := W) (SocketAddr := SocketAddr)).
Abbreviation proxy_ctx := (proxy_ctx (SocketAddr := SocketAddr)).
Context (env : surroundings (SocketAddr := SocketAddr)).

(** ** What is stored for a replay *)

(** A request ready for a successful end: its operation is known and its key held. *)
Definition finishing (k : string) (head : response_parts) (body : ResponseBody) (s : state) : Prop :=
  idempotency_key (ctx s) = Some k /\ is_replay (ctx s) || is_mode_b_terminated (ctx s) = false /\
  service (ctx s) <> None /\ method (req (sess s)) = "POST" /\ request_info (ctx s) ≫= Protocol.gql <> None /\
  is_error_status (rp_status head) = false /\ c_response_parts (ctx s) = Some head /\ c_response_body (ctx s) = Some body.
(** The stored response is the kept part of the relayed one. *)
Definition stores (k : string) (head : response_parts) (body : ResponseBody) (s s' : state) : Prop :=
  exists h, engine_events (log s') = (engine_events (log s) ++
    [Finished k h (rp_status head) (header_pairs (rp_headers head)) (default (rb_json body) (rb_text body))])%list.
Lemma log_success_stores t dm info parts body k (s : state) : idempotency_key (ctx s) = Some k ->
  wp (log_success env t dm info parts body) (fun _ => stores k parts body s) never s.
Proof.
  intros Hk. unfold log_success, send_terminal, complete. wp_steps. rewrite Hk. wp_steps.
  destruct (c_dispatch_policy _); wp_steps; exists (c_hlc (ctx s)); unfold push; cbn [log];
    rewrite ?engine_events_app; cbn; by rewrite ?app_nil_r.
Qed.
Lemma dispatch_logging_stores t dm k head body (s : state) : finishing k head body s ->
  wp (dispatch_logging env t None dm) (fun _ => stores k head body s) never s.
Proof.
  intros (Hk & Hq & Hsv & Hm & Hg & He & Hp & Hb). unfold dispatch_logging. wp_steps.
  apply orb_false_iff in Hq as [-> ->]. rewrite Hm. cbn [String.eqb Ascii.eqb Bool.eqb orb]. wp_steps.
  destruct (request_info (ctx s)) as [info|]; [|done]. cbn [default from_option id]. cbn in Hg.
  assert (Ht : exists topic, logging_topic env dm (ctx s) info = Some topic).
  { unfold logging_topic. destruct (String.eqb _ _); [|by eexists]. destruct (active_operation _); [by eexists|].
    destruct (Protocol.gql info); [by eexists|done]. }
  destruct Ht as [topic ->]. wp_steps. unfold log_outcome. wp_steps.
  cbn [ctx update c_response_parts c_response_body set_topic set_info]. rewrite Hp, Hb. cbn [default from_option id]. rewrite He.
  eapply wp_mono; [by apply (log_success_stores _ _ _ _ _ k)| |done]. intros ? s' Hs'. wp_steps. exact Hs'.
Qed.
Lemma logging_stores g t1 t2 k head body (s : state) : finishing k head body s ->
  wp (logging env g t1 t2 None) (fun _ => stores k head body s) never s.
Proof.
  intros Hf. unfold logging. wp_steps. pose proof Hf as (_ & _ & Hsv & _).
  destruct (service (ctx s)) as [sv|]; [|done]. wp_steps.
  destruct (negb _ && _ && _); [|wp_steps; by apply dispatch_logging_stores].
  unfold record_traffic_event. wp_steps. eapply wp_mono; [apply dispatch_logging_stores; exact Hf| |done].
  intros ? s' [h Hs']. exists h. rewrite Hs'. unfold push. cbn [log]. rewrite engine_events_app. cbn. by rewrite app_nil_r.
Qed.

Lemma omap_fst_map (l : list (option string)) : omap fst (map (fun b => (b, false)) l) = omap id l.
Proof. induction l as [|[x|] l IH]; [done|exact (f_equal (cons x) IH)|exact IH]. Qed.
(** Under a policy that keeps nothing of a response, the whole stream leaves an empty
    text. *)
Lemma relay_keeps_nothing g t : forall bs b (d : nat -> dynamic) (w : W) (c : proxy_ctx),
  has_response_interception c = false -> buffer c = "" -> suppressed (c_dispatch_policy c) = true ->
  (match c_response_parts c with Some p => is_error_status (rp_status p) | None => false end) = false ->
  let c' := snd (relay g d t (map (fun b => (b, false)) bs ++ [(b, true)]) w c) in
  kept c c' /\ c_response_parts c' = c_response_parts c /\ c_response_body c' = Some (captured_body c "").
Proof.
  assert (Hstep : forall (d : dynamic) b fin c, buffer c = "" -> suppressed (c_dispatch_policy c) = true ->
    (match c_response_parts c with Some p => is_error_status (rp_status p) | None => false end) = false ->
    stream_body d b fin c = (if fin then set_buffer "" (set_response_body (Some (captured_body c "")) (set_buffer "" c)) else set_buffer "" c)).
  { intros d b fin c Hb Hs He. unfold stream_body. rewrite He. cbn [andb].
    assert (Hc : match b with Some b0 => set_buffer (captured (State.telemetry_config d) false c b0) c | None => c end = set_buffer "" c).
    { destruct b as [b|]; [|by destruct c; cbn in *; subst]. unfold captured. cbn [andb].
      by destruct (c_dispatch_policy c); [|rewrite Hb| |rewrite Hb]. }
    rewrite Hc. by destruct fin. }
  induction bs as [|x bs IH]; intros b d w c Hi Hb Hs He; cbn [map app relay]; cbv zeta.
  - unfold response_body_filter. rewrite Hi. cbn [negb]. rewrite Hstep by done. cbn.
    split_and!; [done..|]. unfold captured_body. done.
  - assert (Hx : response_body_filter g (d 0%nat) t x false w c = (x, w, set_buffer "" c))
      by (unfold response_body_filter; rewrite Hi; cbn [negb]; by rewrite Hstep).
    rewrite Hx. specialize (IH b (fun k => d (Datatypes.S k)) w (set_buffer "" c) Hi eq_refl Hs He). cbv zeta in IH.
    destruct (relay g _ t _ w (set_buffer "" c)) as [[outs w'] c']. cbn [snd] in *. destruct IH as (Hk & Hp & Hr).
    split; [|split; [exact Hp|exact Hr]]. eapply kept_trans; [|exact Hk]. split_and!; done.
Qed.

(** Under the policies that keep nothing of a response (response only, none), a
    successful response the client got in full is stored for the replays of its key
    with an empty body. *)
Theorem response_only_replays_nothing g (loads : phase -> dynamic) t k info a head bs b (s : state) :
  json_from_str EmptyString = None ->
  held k s -> request_info (ctx s) = Some info -> Protocol.gql info <> None ->
  service (ctx s) <> None -> method (req (sess s)) = "POST" ->
  suppressed (c_dispatch_policy (ctx s)) = true -> has_response_interception (ctx s) = false ->
  has_response_interceptors (interceptor_manager (loads OnResponse)) (active_operation (ctx s)) = false ->
  is_error_status (rp_status head) = false -> upstream_peer g (loads OnPeer) (ctx s) = Ok a ->
  let up := UpAnswers head (map (fun b => (b, false)) bs ++ [(b, true)]) None in
  let '(error, s1) := proxy_stage g loads t [] up s in
  exists head' h pairs,
    Relayed head' (omap id (bs ++ [b])%list) ∈ log s1 /\
    engine_events (log (snd (logging env g t t error s1))) = [Claimed k New; Finished k h (rp_status head) pairs EmptyString].
Proof.
  intros Hjson (He & Hk & Hq) Hinfo Hgql Hsv Hm Hpol Hint Hno Herr Hpeer. cbv zeta. unfold proxy_stage. rewrite Hpeer.
  cbn [fold_left]. unfold response_filter. cbn [active_operation set_response_parts set_buffer].
  set (hs := append_header "x-spectra-hlc" _ _). rewrite Hno.
  set (c := set_response_parts _ _). set (l := (map _ bs ++ _)%list).
  pose proof (relay_keeps_nothing g t bs b (fun k => loads (OnBody k)) (world s) c Hint eq_refl Hpol Herr) as (Hkept & Hp & Hb).
  pose proof (relay_streams g t l (fun k => loads (OnBody k)) (world s) c Hint) as Hst. fold l in Hkept, Hp, Hb.
  destruct (relay g _ t l (world s) c) as [[outs w'] c']. cbn [snd] in *. destruct Hst as (-> & _).
  set (s1 := St _ _ _ _).
  assert (Hfin : finishing k (RespParts (rp_status head) hs) (captured_body c "") s1).
  { destruct Hkept as (Hk1 & Hk2 & Hk3 & Hk4 & Hk5 & _). unfold finishing, s1. cbn [ctx sess].
    rewrite Hk1, Hk2, Hk3, Hk4, Hk5, Hp, Hb. cbn. rewrite Hinfo. by split_and!. }
  pose proof (logging_stores g t t k _ _ s1 Hfin) as Hl. unfold wp in Hl.
  destruct (logging env g t t None s1) as [[[]|r] s2]; [|done]. cbn [snd]. destruct Hl as [h Hl].
  eexists _, h, _. split.
  - unfold s1. cbn [log]. apply elem_of_app. right.
    assert (Hl' : omap fst l = omap id (bs ++ [b])%list).
    { unfold l. rewrite !omap_app. rewrite omap_fst_map. by destruct b. }
    rewrite Hl'. by left.
  - assert (Hbody : default (rb_json (captured_body c "")) (rb_text (captured_body c "")) = "").
    { unfold captured_body, c. cbn [c_response_parts set_response_parts]. unfold response_body_new. rewrite Hjson.
      match goal with |- context [if ?c then _ else _] => by destruct c end. }
    rewrite Hl, Hbody. unfold s1. cbn [log]. rewrite !engine_events_app, He. reflexivity.
Qed.
End Replays.

Section Receipts.
Context `{HttpLib, JsonText, Unicode, GqlParser, LruLib, AuthLib, CelLib, RegexLib}.
Context {W : Type} `{Clocks W, WasmTypes, !WasmLib W}.
Context {SocketAddr : Type}.
Abbreviation state := (state (W := W) (SocketAddr := SocketAddr)).
Abbreviation event := (event (SocketAddr := SocketAddr)).
Context (env : surroundings (SocketAddr := SocketAddr)).

(** ** Receipts *)

(** The receipt of a command for a status. *)
Definition receipt (route : SpectraRouteConfig) (info : RequestInfo) (s : state) (status : string) : string :=
  json_to_string (generate_command_receipt (receipt_field route info) (c_request_id (ctx s)) (c_hlc (ctx s)) status).

(** A reply in the log, when the client is there. *)
Definition reply_to (ss : session) (r : reply) : list event := if connected ss then [Replied r] else [].
Lemma wp_reply code fields body (Q : bool -> state -> Prop) E s :
  (100 <= code <= 999)%Z ->
  (forall b s', sess s' = sess s -> ctx s' = ctx s -> log s' = (log s ++ reply_to (sess s) (Reply code fields body))%list ->
     world s' = world s -> Q b s') ->
  wp (write_response code fields body) Q E s.
Proof.
  intros Hc HQ. unfold write_response. replace (_ && _)%Z with true by (symmetry; apply andb_true_iff; lia).
  unfold reply_to in HQ. wp_steps. destruct (connected (sess s)); wp_steps; apply HQ; try done. by rewrite app_nil_r.
Qed.
(** What settles a command's key. *)
Definition receipt_settles (dispatched : bool) (route : SpectraRouteConfig) (info : RequestInfo) (s : state) : list event :=
  match idempotency_key (ctx s) with
  | Some k =>
      if dispatched then [Finished k (c_hlc (ctx s)) 200 (header_pairs (receipt_headers (set_mode_b true (ctx s))))
                            (receipt route info s (receipt_status route))]
      else [Released k]
  | None => []
  end.
Lemma receipt_log route info dm (s : state) :
  let sent := dispatch_request_info (headers_json env) (to_uppercase env) (send env) dm (payload (sanitized_of_request info)) in
  wp (handle_mode_b_edge env route info dm)
    (fun _ s' => exists fields, log s' = (log s ++ [Dispatched (fst sent) (snd sent)] ++ receipt_settles (is_ok (fst sent)) route info s ++
       reply_to (sess s) (Reply 200 fields (receipt route info s (if is_ok (fst sent) then receipt_status route else "DISPATCH_FAILED"))))%list)
    never s.
Proof.
  cbv zeta. unfold handle_mode_b_edge, send_request, receipt_settles, complete, remove. wp_steps.
  cbn [ctx update push idempotency_key set_mode_b c_request_id c_hlc].
  destruct (idempotency_key (ctx s)) as [k|]; [destruct (is_ok _)|]; wp_steps.
  all: apply wp_reply; [lia|]; intros b s' _ _ Hl _; wp_steps; rewrite Hl; eexists.
  all: unfold push, update; cbn [log sess]; rewrite <- ?app_assoc; reflexivity.
Qed.

(** C8. A command is given to the broker before it is answered, redacted.  Only when the
    broker took it does the answer name the route's status, and then the very answer
    is what the key's replays give; when the broker refused it, the answer says so,
    and the key is released for another try. *)
Theorem receipt_after_commit route info dm (s : state) :
  let s' := snd (handle_mode_b_edge env route info dm s) in
  let sent := dispatch_request_info (headers_json env) (to_uppercase env) (send env) dm (payload (sanitized_of_request info)) in
  exists after, log s' = (log s ++ Dispatched (fst sent) (snd sent) :: after)%list /\
    (forall r, Replied r ∈ after -> connected (sess s) = true /\ rp_code r = 200%Z /\
       rp_body r = receipt route info s (if is_ok (fst sent) then receipt_status route else "DISPATCH_FAILED")) /\
    (forall k h code pairs body, Finished k h code pairs body ∈ after ->
       is_ok (fst sent) = true /\ idempotency_key (ctx s) = Some k /\ code = 200%Z /\
       body = receipt route info s (receipt_status route)) /\
    (forall k, idempotency_key (ctx s) = Some k ->
       if is_ok (fst sent) then exists h pairs, Finished k h 200 pairs (receipt route info s (receipt_status route)) ∈ after
       else Released k ∈ after).
Proof.
  cbv zeta. pose proof (receipt_log route info dm s) as Hl. cbv zeta in Hl. unfold wp in Hl.
  set (sent := dispatch_request_info _ _ _ _ _) in *.
  destruct (handle_mode_b_edge env route info dm s) as [[b|r] s']; [|done]. destruct Hl as [fields Hl].
  exists (receipt_settles (is_ok (fst sent)) route info s ++ reply_to (sess s) (Reply 200 fields (receipt route info s
    (if is_ok (fst sent) then receipt_status route else "DISPATCH_FAILED"))))%list.
  split; [exact Hl|]. unfold receipt_settles, reply_to.
  destruct (idempotency_key (ctx s)) as [k|], (is_ok (fst sent)), (connected (sess s)); split_and!; set_solver.
Qed.
End Receipts.

(** ** A concrete gateway *)

Section Witnesses.
#[local] Existing Instances list_http ascii_tables bits_json_text list_lru demo_auth_lib demo_cel demo_types
  demo_wasm no_gql manager_clocks no_match_regex.
Definition demo_at : reading := Reading (F64.of_Z 0) 0 0.

Definition demo_ctx (intercepted : bool) : proxy_ctx (SocketAddr := string) :=
  set_interception intercepted (new_ctx (demo_loads OnNew) "r1" (HLC 0 0)).
Lemma streamed_untouched_witness :
  let '(outs, _, c') := relay demo_gateway (fun k => demo_loads (OnBody k)) demo_at [(Some "a", false); (Some "b", true)]
    demo_mworld (demo_ctx false) in
  outs = ["a"; "b"] /\ (String.length (buffer c') <= capture_bound demo_state)%nat.
Proof.
  exact (streamed_untouched demo_gateway (fun k => demo_loads (OnBody k)) demo_at [(Some "a", false); (Some "b", true)]
    demo_mworld (demo_ctx false) (capture_bound demo_state) eq_refl eq_refl (fun _ => le_n _)).
Defined.
Lemma intercepted_whole_witness :
  fst (fst (relay demo_gateway (fun k => demo_loads (OnBody k)) demo_at [(Some "a", false); (Some "b", true)]
    demo_mworld (demo_ctx true))) = ["ab"].
Proof.
  exact (intercepted_whole demo_gateway (fun k => demo_loads (OnBody k)) demo_at [Some "a"] (Some "b")
    demo_mworld (demo_ctx true) eq_refl eq_refl).
Defined.

Definition demo_info : RequestInfo :=
  ReqInfo "r1" (HLC 0 0) (req (demo_session "POST")) (Some (GqlInfo Mutation (Some "publish") ["publish"] None JNull None))
    None PRequest 1.
Definition demo_held : state (W := manager_world) (SocketAddr := string) :=
  St (demo_session "POST")
    (set_service (Some 0%nat) (Some demo_service) (set_policy ResponseOnly (set_key (Some "k1") (set_info (Some demo_info)
      (demo_ctx false))))) demo_mworld [Claimed "k1" New].
Lemma response_only_replays_nothing_witness :
  let '(error, s1) := proxy_stage demo_gateway demo_loads demo_at []
    (UpAnswers (@RespParts list_http 200 []) [(Some "a", false); (Some "b", true)] None) demo_held in
  exists head' h pairs,
    Relayed head' ["a"; "b"] ∈ log s1 /\
    engine_events (log (snd (logging demo_env demo_gateway demo_at demo_at error s1))) =
      [Claimed "k1" New; Finished "k1" h 200 pairs ""].
Proof.
  refine (response_only_replays_nothing demo_env demo_gateway demo_loads demo_at "k1" demo_info "10.0.0.1:80"
    (@RespParts list_http 200 []) [Some "a"] (Some "b") demo_held _ _ _ _ _ _ _ _ _ _ _); try reflexivity; try done.
Defined.
End Witnesses.

Section Spoofed.
#[local] Existing Instances list_http ascii_tables bits_json_text list_lru demo_auth_lib demo_cel demo_types
  demo_wasm publish_gql manager_clocks no_match_regex.
(** A mutation of "u1", whose token is verified, that calls itself "root". *)
Definition spoofing : session :=
  publish_session [("authorization", editor_token); ("x-user-id", "root")] publish_text.
Definition publish_context : InterceptorContext :=
  Ctx "r1" (HLC 0 0) (Some "publish") (Some Mutation) None ∅ ∅ 0 None.
Lemma guarded_no_transform : no_transform (guarded_loads OnRequest).
Proof.
  intros name w ic parts body hs b. unfold guarded_loads, guarded_state, get_request_pipeline.
  assert (Hl : (global_request_pipeline (set_global_request_pipeline [rbac guard_rbac] manager_empty) ++
     match name with Some op => default [] (route_request_pipelines (set_global_request_pipeline
       [rbac guard_rbac] (manager_empty (W := manager_world))) !! op) | None => [] end)%list = [rbac guard_rbac]).
  { by destruct name. }
  cbn [interceptor_manager]. rewrite Hl. cbn [request_pipeline request_loop].
  pose proof (rbac_never_transforms guard_rbac w ic parts body) as Hn.
  unfold request_pipeline. cbn [request_loop]. destruct (q_verdict (rbac _ _ _ _ _)) eqn:E; cbn; congruence.
Qed.
(** The access control passes it and sets the verified name on the copy it is given; the
    upstream is sent the one the client made up. *)
Lemma forwarded_is_the_clients_witness :
  (let o := rbac guard_rbac demo_mworld publish_context (req spoofing) publish_text in
   match q_verdict o, header_str "x-user-id" (headers (q_parts o)) with
   | Pass, Some name => String.eqb name "u1"
   | _, _ => false
   end) = true /\
  exists a r, Forwarded a r ∈ log (serve (guarded_env New) guarded_gateway guarded_loads demo_at "r1" (HLC 0 0) []
    (UpFails "down") spoofing demo_mworld) /\ header_str "x-user-id" (headers r) = Some "root".
Proof.
  split; [vm_compute; reflexivity|].
  assert (Hf : existsb (fun e => match e with Forwarded _ _ => true | _ => false end)
    (log (serve (guarded_env New) guarded_gateway guarded_loads demo_at "r1" (HLC 0 0) [] (UpFails "down") spoofing
      demo_mworld)) = true) by (vm_compute; reflexivity).
  apply existsb_exists in Hf as (e & Hf & He). apply list_elem_of_In in Hf. destruct e as [| | | | | |a r|]; try done.
  exists a, r. split; [exact Hf|].
  destruct (forwarded_is_the_clients (guarded_env New) guarded_gateway guarded_loads demo_at "r1" (HLC 0 0) [] (UpFails "down")
    spoofing demo_mworld a r guarded_no_transform Hf) as (_ & _ & Hh).
  unfold header_str. rewrite (Hh "x-user-id") by (vm_compute; reflexivity). reflexivity.
Defined.
End Spoofed.
