(* ===== verification/Retry.v ===== *)
(** * Retry: what a client's retry meets, the gateway's request and the idempotency
    engine put together.

    The engine's part of a request (its claim and what settles it) is played on the
    in-memory engine, the operations of other requests in between and after. *)

From S2P Require Import Prelude Externals Clock Types Idempotency Sanitizer Protocol Telemetry Config.
From S2P Require Import Interceptors Auth Wasm Cel Manager Hub Access Traffic State Gateway Lifecycle Relay.
Local Open Scope string_scope.
Local Open Scope Z_scope.

Section Engine.
Context `{HttpLib, LruLib} {SocketAddr : Type}.
Variable hash : string -> Z.

(** An event of a request as the engine's operation, at a time of the wall clock. *)
Definition play (now : Z) (ev : event (SocketAddr := SocketAddr)) (e : engine) : engine :=
  match ev with
  | Finished k h code pairs body => Idempotency.complete hash now k h code pairs body e
  | Released k => Idempotency.remove hash k e
  | _ => e
  end.
(** What the next claim of the key meets after what followed a claim. *)
Definition met (h0 : HlcTimestamp) (rest : list (event (SocketAddr := SocketAddr))) : IdempotencyOutcome :=
  match rest with
  | Finished _ h code pairs body :: _ => Replay h code pairs body
  | Released _ :: _ => New
  | _ => Conflict h0
  end.
Definition key_of (op : Idempotency.operation) : string :=
  match op with OpCheck _ _ k _ | OpComplete _ k _ _ _ _ | OpRemove k => k end.

Lemma claimed_view_new busy t0 key h0 e : engine_ok hash e -> fst (Idempotency.check_or_insert hash busy t0 key h0 e) = New ->
  let e1 := snd (Idempotency.check_or_insert hash busy t0 key h0 e) in
  engine_ok hash e1 /\ Idempotency.ttl e1 = Idempotency.ttl e /\ view hash (shards e1) key = Some (InProgress h0 t0).
Proof.
  intros Hok Hnew. pose proof (check_spec hash busy t0 key h0 e Hok) as Hc. cbv zeta in *.
  destruct (Idempotency.check_or_insert hash busy t0 key h0 e) as [o e1]. cbn [fst snd] in *. subst o.
  destruct Hc as (Hok1 & _ & Ht & Hcase). split; [done|]. split; [done|].
  destruct (view hash (shards e) key ≫= answer (Idempotency.ttl e) t0) as [o|] eqn:Ha.
  - destruct Hcase as (<- & _). destruct (view hash (shards e) key) as [[? ?|? ? ? ? ?]|]; cbn in Ha; repeat case_match; simplify_eq.
  - destruct Hcase as (_ & ev & _ & _ & _ & ->). by rewrite String.eqb_refl.
Qed.
(** A claim is answered by the record of its key. *)
Lemma answered_by_record busy now key h e r : engine_ok hash e -> view hash (shards e) key = Some r ->
  forall o, answer (Idempotency.ttl e) now r = Some o -> fst (Idempotency.check_or_insert hash busy now key h e) = o.
Proof.
  intros Hok Hv o Ha. pose proof (check_spec hash busy now key h e Hok) as Hc. cbv zeta in Hc.
  destruct (Idempotency.check_or_insert hash busy now key h e) as [o' e']. destruct Hc as (_ & _ & _ & Hc).
  rewrite Hv in Hc. cbn in Hc. rewrite Ha in Hc. by destruct Hc as (-> & _).
Qed.
Lemma answered_new busy now key h e : engine_ok hash e -> view hash (shards e) key = None ->
  fst (Idempotency.check_or_insert hash busy now key h e) = New.
Proof.
  intros Hok Hv. pose proof (check_spec hash busy now key h e Hok) as Hc. cbv zeta in Hc.
  destruct (Idempotency.check_or_insert hash busy now key h e) as [o' e']. destruct Hc as (_ & _ & _ & Hc).
  rewrite Hv in Hc. by destruct Hc as (-> & _).
Qed.
(** Operations on other keys leave a key absent. *)
Lemma absent_persists key t1 ops : forall e, engine_ok hash e -> view hash (shards e) key = None ->
  Forall (fun op => key_of op <> key) ops -> quiet hash key t1 ops e ->
  engine_ok hash (run_ops hash ops e) /\ view hash (shards (run_ops hash ops e)) key = None.
Proof.
  induction ops as [|op ops IH]; intros e Hok Hv Hne; [done|]. apply Forall_cons in Hne as [Hne Hnes].
  cbn [quiet run_ops fold_left]. intros [Hop Hq]. apply IH; [..|exact Hnes|exact Hq].
  all: destruct op as [busy now k h|now k h st hd b|k]; cbn [run_op snd key_of] in *.
  - pose proof (check_spec hash busy now k h e Hok) as Hc. cbv zeta in Hc.
    destruct (Idempotency.check_or_insert hash busy now k h e). by destruct Hc.
  - destruct Hop as [_ Hroom]. by destruct (put_record_spec hash k (Completed h st hd b now) e Hok Hroom).
  - by destruct (remove_spec hash k e Hok).
  - pose proof (check_spec hash busy now k h e Hok) as Hc. cbv zeta in Hc.
    destruct (Idempotency.check_or_insert hash busy now k h e) as [o e']. destruct Hc as (_ & _ & _ & Hc).
    destruct (view hash (shards e) k ≫= answer _ now).
    + destruct Hc as (_ & _ & Hc). cbn. by rewrite Hc.
    + destruct Hc as (_ & ev & _ & _ & _ & Hc). cbn. rewrite Hc. destruct (String.eqb_spec key k); [congruence|].
      by destruct (decide (ev = Some key)).
  - destruct Hop as [_ Hroom]. destruct (put_record_spec hash k (Completed h st hd b now) e Hok Hroom) as (_ & _ & _ & Hc & _).
    unfold Idempotency.complete. rewrite Hc. by destruct (String.eqb_spec key k).
  - destruct (remove_spec hash k e Hok) as (_ & _ & _ & Hc & _). rewrite Hc. by destruct (String.eqb_spec key k).
Qed.
Lemma in_window ttl t0 t2 : t0 <= t2 -> t2 - t0 < Z.max ttl 1 -> fresh ttl t2 t0 = true.
Proof. intros. unfold fresh, Int.saturating_sub_u64. apply Z.ltb_lt. lia. Qed.

(** The engine's side: a claim, others' operations, what settles the claim, others'
    operations, and the next claim. *)
Lemma next_claim key h0 rest busy t0 e0 ops0 t1 ops1 t2 busy' h2 :
  settled (Claimed key New :: rest) \/ rest = [] ->
  engine_ok hash e0 -> fst (Idempotency.check_or_insert hash busy t0 key h0 e0) = New ->
  t0 <= t1 <= t2 -> t2 - t0 < Z.max (Idempotency.ttl e0) 1 ->
  let e1 := snd (Idempotency.check_or_insert hash busy t0 key h0 e0) in
  quiet hash key t2 ops0 e1 ->
  let e2 := fold_left (fun e ev => play t1 ev e) rest (run_ops hash ops0 e1) in
  quiet hash key t2 ops1 e2 -> ((exists k, rest = [Released k]) -> Forall (fun op => key_of op <> key) ops1) ->
  fst (Idempotency.check_or_insert hash busy' t2 key h2 (run_ops hash ops1 e2)) = met h0 rest.
Proof.
  intros Hs Hok0 Hnew Ht Hwin e1 Hq0 e2 Hq1 Hothers.
  destruct (claimed_view_new busy t0 key h0 e0 Hok0 Hnew) as (Hok1 & Httl1 & Hv1). fold e1 in Hok1, Httl1, Hv1.
  assert (Hans1 : answer (Idempotency.ttl e1) t2 (InProgress h0 t0) = Some (Conflict h0)).
  { cbn. rewrite Httl1, in_window by lia. done. }
  destruct (record_persists hash key t2 _ ops0 e1 Hok1 Hv1) as (Hok2 & Httl2 & Hv2); [by rewrite Hans1|exact Hq0|].
  assert (Hrest : rest = [] \/ (exists h code pairs body, rest = [Finished key h code pairs body]) \/ rest = [Released key]).
  { destruct Hs as [Hs| ->]; [|by left]. inversion Hs; subst; [done|right; left; eauto|by right; right]. }
  destruct Hrest as [-> |[(h & code & pairs & body & ->)| ->]]; cbn [fold_left play met] in *; subst e2.
  - destruct (record_persists hash key t2 (InProgress h0 t0) ops1 _ Hok2 Hv2) as (Hok3 & Httl3 & Hv3);
      [by rewrite Httl2, Hans1|exact Hq1|].
    eapply answered_by_record; [done|exact Hv3|]. by rewrite Httl3, Httl2.
  - set (e3 := Idempotency.complete hash t1 key h code pairs body (run_ops hash ops0 e1)) in *.
    destruct (put_record_spec hash key (Completed h code pairs body t1) _ Hok2) as (Hok3 & _ & Httl3 & Hv3 & _);
      [left; by rewrite Hv2|].
    fold (Idempotency.complete hash t1 key h code pairs body (run_ops hash ops0 e1)) in Hok3, Httl3, Hv3. fold e3 in Hok3, Httl3, Hv3.
    specialize (Hv3 key). rewrite String.eqb_refl in Hv3.
    assert (Hans3 : answer (Idempotency.ttl e3) t2 (Completed h code pairs body t1) = Some (Replay h code pairs body)).
    { cbn. rewrite Httl3, Httl2, Httl1, in_window by lia. done. }
    destruct (record_persists hash key t2 _ ops1 e3 Hok3 Hv3) as (Hok4 & Httl4 & Hv4); [by rewrite Hans3|exact Hq1|].
    eapply answered_by_record; [done|exact Hv4|]. by rewrite Httl4.
  - destruct (remove_spec hash key _ Hok2) as (Hok3 & _ & _ & Hv3 & _). specialize (Hv3 key). rewrite String.eqb_refl in Hv3.
    destruct (absent_persists key t2 ops1 _ Hok3 Hv3 (Hothers (ex_intro _ key eq_refl)) Hq1) as [Hok4 Hv4]. by apply answered_new.
Qed.
End Engine.

Section Retry.
Context `{HttpLib, JsonText, Unicode, GqlParser, LruLib, AuthLib, CelLib, RegexLib}.
Context {W : Type} `{Clocks W, WasmTypes, !WasmLib W}.
Context {SocketAddr : Type}.
Context (env : surroundings (SocketAddr := SocketAddr)) (hash : string -> Z).

(** C5. A retry of a request that was let through, inside the window of the in-memory
    engine: it gets exactly the response the request was finished with, it runs anew
    when the request's key was released, and it is refused only when no operation was
    decoded in the request. Other requests' operations may come in between: before the
    request is settled, and after it was finished or left unsettled, those on other
    keys and further claims of this one; after its key was released, those on other
    keys, since a claim of this one is the retry. None of them may drop another's
    record: no claim of another key finds the engine at capacity, and no completion of
    a key that is no longer held a full shard. *)
Theorem retry_after_request g (loads : phase -> DynamicGatewayState (W := W) (SocketAddr := SocketAddr)) t id h chunks up s
    (w : W) key h0 rest busy t0 e0 ops0 t1 ops1 t2 busy' h2 :
  engine_events (log (serve env g loads t id h chunks up s w)) = Claimed key New :: rest ->
  engine_ok hash e0 -> fst (Idempotency.check_or_insert hash busy t0 key h0 e0) = New ->
  t0 <= t1 <= t2 -> t2 - t0 < Z.max (Idempotency.ttl e0) 1 ->
  let e1 := snd (Idempotency.check_or_insert hash busy t0 key h0 e0) in
  quiet hash key t2 ops0 e1 ->
  let e2 := fold_left (fun e ev => play hash t1 ev e) rest (run_ops hash ops0 e1) in
  quiet hash key t2 ops1 e2 -> ((exists k, rest = [Released k]) -> Forall (fun op => key_of op <> key) ops1) ->
  fst (Idempotency.check_or_insert hash busy' t2 key h2 (run_ops hash ops1 e2)) = met h0 rest /\
  (rest = [] -> request_info (ctx (snd (before_logging env g loads t id h chunks up s w))) ≫= Protocol.gql = None).
Proof.
  intros Hev Hok Hnew Ht Hwin e1 Hq0 e2 Hq1 Hothers.
  pose proof (claims_settled env g loads t id h chunks up s w) as Hs. cbv zeta in Hs. rewrite Hev in Hs.
  split.
  - apply (next_claim hash key h0 rest busy t0 e0 ops0 t1 ops1 t2 busy' h2); try done.
    destruct Hs as [Hs|[[k [= -> ->]] _]]; [by left|by right].
  - intros ->. destruct Hs as [Hs|[_ Hn]]; [|done]. by inversion Hs.
Qed.
End Retry.

Section Witnesses.
#[local] Existing Instances list_http ascii_tables bits_json_text list_lru demo_auth_lib demo_cel demo_types
  demo_wasm publish_gql manager_clocks no_match_regex.
Definition demo_engine : engine := engine_new 300 10.
(** A mutation with a key and a token, and the upstream's answer to it. *)
Definition keyed_session : session :=
  publish_session [("authorization", editor_token); ("idempotency-key", "k1")] publish_text.
Definition published : upstream_answer := UpAnswers (@RespParts list_http 200 []) [(Some "a", false); (Some "b", true)] None.
#[local] Abbreviation first_claim := (Idempotency.check_or_insert hash0 free 5 "k1" (HLC 0 0) demo_engine).
(** Another key is claimed and this one once more, before and after the request is settled. *)
Definition meanwhile (now : Z) : list Idempotency.operation :=
  [OpCheck free now "k2" (HLC 7 0); OpCheck free now "k1" (HLC 8 0)].
Lemma was_finished (l : list (event (SocketAddr := string))) :
  match l with
  | [Claimed k New; Finished k' h code _ body] =>
      String.eqb k "k1" && String.eqb k' "k1" && Z.eqb (physical h) 0 && Z.eqb (logical h) 0 && Z.eqb code 200 &&
      String.eqb body "ab"
  | _ => false
  end = true ->
  exists pairs, l = [Claimed "k1" New; Finished "k1" (HLC 0 0) 200 pairs "ab"].
Proof.
  intros Ht. destruct l as [|[k [| |]| | | | | | |] [|[|k' [p l] code pairs body| | | | | |] [|? ?]]]; try done.
  cbn [physical logical] in Ht. to_prop. destruct_and?. subst. by eexists.
Qed.
Lemma was_released (l : list (event (SocketAddr := string))) :
  match l with [Claimed k New; Released k'] => String.eqb k "k1" && String.eqb k' "k1" | _ => false end = true ->
  l = [Claimed "k1" New; Released "k1"].
Proof.
  intros Ht. destruct l as [|[k [| |]| | | | | | |] [|[| |k'| | | | |] [|? ?]]]; try done.
  to_prop. destruct_and?. by subst.
Qed.
Lemma retry_after_request_witness :
  let e1 := run_ops hash0 (meanwhile 6) (snd first_claim) in
  (* finished with 200 and the upstream's body *)
  (exists pairs,
     fst (Idempotency.check_or_insert hash0 free 10 "k1" (HLC 1 0) (run_ops hash0 (meanwhile 9)
       (Idempotency.complete hash0 8 "k1" (HLC 0 0) 200 pairs "ab" e1))) = Replay (HLC 0 0) 200 pairs "ab") /\
  (* released, as the upstream was down *)
  fst (Idempotency.check_or_insert hash0 free 10 "k1" (HLC 1 0) (run_ops hash0 (take 1 (meanwhile 9))
    (Idempotency.remove hash0 "k1" e1))) = New /\
  (* no operation in a GET *)
  fst (Idempotency.check_or_insert hash0 free 10 "k1" (HLC 1 0) (run_ops hash0 (meanwhile 9) e1)) = Conflict (HLC 0 0).
Proof.
  cbv zeta. split_and!.
  - destruct (was_finished (engine_events (log (serve (guarded_env New) guarded_gateway guarded_loads demo_at "r1" (HLC 0 0) []
      published keyed_session demo_mworld)))) as [pairs Hev]; [vm_compute; reflexivity|].
    exists pairs. refine (proj1 (retry_after_request (guarded_env New) hash0 guarded_gateway guarded_loads demo_at "r1" (HLC 0 0) []
      published keyed_session demo_mworld "k1" (HLC 0 0) [Finished "k1" (HLC 0 0) 200 pairs "ab"] free 5 demo_engine
      (meanwhile 6) 8 (meanwhile 9) 10 free (HLC 1 0) Hev _ _ _ _ _ _ _));
      [apply engine_ok_new; lia|reflexivity|lia|cbn; lia|by repeat split|by repeat split|by intros [k [=]]].
  - refine (proj1 (retry_after_request (guarded_env New) hash0 guarded_gateway guarded_loads demo_at "r1" (HLC 0 0) []
      (UpFails "down") keyed_session demo_mworld "k1" (HLC 0 0) [Released "k1"] free 5 demo_engine
      (meanwhile 6) 8 (take 1 (meanwhile 9)) 10 free (HLC 1 0) _ _ _ _ _ _ _ _));
      [apply was_released; vm_compute; reflexivity|apply engine_ok_new; lia|reflexivity|lia|cbn; lia|by repeat split|by repeat split|].
    intros _. by repeat constructor.
  - refine (proj1 (retry_after_request demo_env hash0 demo_gateway demo_loads demo_at "r1" (HLC 0 0) []
      (UpFails "down") (demo_session "GET") demo_mworld "k1" (HLC 0 0) [] free 5 demo_engine
      (meanwhile 6) 8 (meanwhile 9) 10 free (HLC 1 0) _ _ _ _ _ _ _ _));
      [reflexivity|apply engine_ok_new; lia|reflexivity|lia|cbn; lia|by repeat split|by repeat split|by intros [k [=]]].
Defined.
End Witnesses.
