(* ===== verification/Crowd.v ===== *)
(** * Crowd: requests side by side, any number of requests of the gateway over one
    idempotency engine.

    What each request does in the engine, one operation at a time and in any order
    between requests. For every key the history is that of a specification with three
    states: free, in flight for one request, done with one response. *)

From S2P Require Import Prelude Externals Clock Types Idempotency Sanitizer Protocol Telemetry Config.
From S2P Require Import Interceptors Auth Wasm Cel Manager Hub Access Traffic State Gateway Lifecycle Retry.
Local Open Scope string_scope.
Local Open Scope Z_scope.

(** ** The specification of one key *)

Section Spec.
Context `{HttpLib} {SocketAddr : Type}.
Abbreviation event := (event (SocketAddr := SocketAddr)).

(** Something a request did, with the request's timestamp. *)
Record deed := Deed { who : nat; stamp : HlcTimestamp; what : event }.
Inductive once :=
| Free
| Busy (i : nat) (h : HlcTimestamp)
| Done (h : HlcTimestamp) (code : Z) (pairs : list (string * string)) (body : string).
(** What a deed about the key makes of its state; [None] when it must not happen: a claim
    succeeds only when the key is free, is refused with the timestamp of the request in
    flight, or gets the response that was kept, and only the request in flight finishes
    or releases. *)
Definition allowed (st : once) (d : deed) : option once :=
  match st, what d with
  | Free, Claimed _ New => Some (Busy (who d) (stamp d))
  | Busy i h, Claimed _ (Conflict h') => if decide (h' = h) then Some st else None
  | Busy i _, Finished _ h code pairs body => if decide (who d = i) then Some (Done h code pairs body) else None
  | Busy i _, Released _ => if decide (who d = i) then Some Free else None
  | Done h code pairs body, Claimed _ (Replay h' code' pairs' body') =>
      if decide ((h', code', pairs', body') = (h, code, pairs, body)) then Some st else None
  | _, _ => None
  end.
Definition about (k : string) (d : deed) : bool :=
  match what d with
  | Claimed k' _ | Finished k' _ _ _ _ | Released k' => String.eqb k' k
  | _ => false
  end.
(** The key's state after a history, newest first, if every deed was allowed. *)
Fixpoint state_of (k : string) (history : list deed) : option once :=
  match history with
  | [] => Some Free
  | d :: history =>
      match state_of k history with
      | Some st => if about k d then allowed st d else Some st
      | None => None
      end
  end.

(** A key is finished at most once, and is not claimed anew after that. *)
Definition finishes (k : string) (d : deed) : bool :=
  match what d with Finished k' _ _ _ _ => String.eqb k' k | _ => false end.
Definition starts (k : string) (d : deed) : bool :=
  match what d with Claimed k' New => String.eqb k' k | _ => false end.
Definition releases (k : string) (d : deed) : bool :=
  match what d with Released k' => String.eqb k' k | _ => false end.
Definition count (p : deed -> bool) (l : list deed) : nat := length (List.filter p l).

Lemma state_counts k history st : state_of k history = Some st ->
  (count (starts k) history = count (releases k) history + match st with Free => 0 | _ => 1 end)%nat /\
  count (finishes k) history = match st with Done _ _ _ _ => 1%nat | _ => 0%nat end.
Proof.
  revert st. induction history as [|d history IH]; intros st; cbn [state_of]; [by intros [= <-]|].
  destruct (state_of k history) as [st0|]; [|done]. destruct (IH st0 eq_refl) as [Hs Hf]. clear IH.
  unfold count in *. cbn [List.filter]. unfold about, starts, releases, finishes, allowed in *.
  destruct d as [i h [k' o|k' h' code pairs body|k'|a ms|r|r|a r|p b]]; cbn [what who stamp].
  - destruct (String.eqb k' k); [|intros [= <-]; by destruct o]. destruct st0, o; cbn [length]; intros; repeat case_decide; simplify_eq; try done; lia.
  - destruct (String.eqb k' k); [|by intros [= <-]]. destruct st0; intros; repeat case_decide; simplify_eq; cbn [length]; lia.
  - destruct (String.eqb k' k); [|by intros [= <-]]. destruct st0; intros; repeat case_decide; simplify_eq; cbn [length]; lia.
  - by intros [= <-].
  - by intros [= <-].
  - by intros [= <-].
  - by intros [= <-].
  - by intros [= <-].
Qed.
(** Once finished, a key is only replayed. *)
Lemma done_stays k newer older h code pairs body st :
  state_of k older = Some (Done h code pairs body) -> state_of k (newer ++ older)%list = Some st ->
  st = Done h code pairs body /\ count (starts k) newer = 0%nat.
Proof.
  intros Ho. revert st. induction newer as [|d newer IH]; intros st; cbn [app state_of]; [rewrite Ho; by intros [= <-]|].
  destruct (state_of k (newer ++ older)%list) as [st0|]; [|done]. destruct (IH st0 eq_refl) as [-> Hc].
  unfold count in *. cbn [List.filter]. unfold about, starts in *.
  destruct d as [i h1 [k' o|k' h' code' pairs' body'|k'|a ms|r|r|a r|p b]]; cbn [what]; try by intros [= <-].
  all: destruct (String.eqb k' k); [|intros [= <-]; by destruct_or?; try destruct o].
  all: unfold allowed; cbn [what]; try done.
  destruct o; try done. case_decide; [|done]. by intros [= <-].
Qed.
End Spec.

(** ** Requests over one engine *)

Section Crowd.
Context `{HttpLib, LruLib} {SocketAddr : Type}.
Abbreviation event := (event (SocketAddr := SocketAddr)).
Variable hash : string -> Z.

(** The engine, what each request has still to do in it, the wall clock, and what was
    done, newest first. *)
Record crowd := Crowd {
  cache : engine;
  pending : gmap nat (list event);
  clock : Z;
  history : list (deed (SocketAddr := SocketAddr))
}.
(** An operation of the engine with the answer the request saw. *)
Definition plays (busy : nat -> bool) (now : Z) (h : HlcTimestamp) (ev : event) (e e' : engine) : Prop :=
  match ev with
  | Claimed k o => Idempotency.check_or_insert hash busy now k h e = (o, e')
  | _ => e' = play hash now ev e
  end.
(** One request does its next operation, no earlier than the one before. *)
Inductive crowd_step : crowd -> crowd -> Prop :=
| does c i ev rest busy now h e' :
    pending c !! i = Some (ev :: rest) -> clock c <= now -> plays busy now h ev (cache c) e' ->
    crowd_step c (Crowd e' (<[i := rest]> (pending c)) now (Deed i h ev :: history c)).

(** What a request of the gateway does in the engine. *)
Definition request_log (l : list event) : Prop := settled l \/ exists k, l = [Claimed k New].
(** Requests that have not claimed yet. *)
Definition unclaimed (l : list event) : Prop := match l with Claimed _ _ :: _ => True | _ => False end.
#[local] Instance unclaimed_dec l : Decision (unclaimed l).
Proof. destruct l as [|[]]; apply _. Defined.
Definition waiting (p : gmap nat (list event)) : nat := size (filter (fun il => unclaimed il.2) p).
(** A request about to settle its claim of a key. *)
Definition settles (k : string) (l : list event) : Prop :=
  match l with Finished k' _ _ _ _ :: _ | Released k' :: _ => k' = k | _ => False end.
Definition rest_ok (l : list event) : Prop :=
  request_log l \/ (exists k h code pairs body, l = [Finished k h code pairs body]) \/ exists k, l = [Released k].

(** The engine's record of a key in a state of the specification. *)
Definition recorded (t0 t : Z) (st : once) (r : option IdempotencyRecord) : Prop :=
  match st with
  | Free => r = None
  | Busy _ h => exists s, r = Some (InProgress h s) /\ t0 <= s <= t
  | Done h code pairs body => exists s, r = Some (Completed h code pairs body s) /\ t0 <= s <= t
  end.
Definition key_inv (t0 : Z) (c : crowd) (k : string) : Prop :=
  exists st, state_of k (history c) = Some st /\ recorded t0 (clock c) st (view hash (shards (cache c)) k) /\
    forall j l, pending c !! j = Some l -> settles k l -> exists h, st = Busy j h.
Record crowd_inv (t0 ttl cap : Z) (c : crowd) : Prop := CrowdInv {
  ci_ok : engine_ok hash (cache c);
  ci_ttl : Idempotency.ttl (cache c) = ttl;
  ci_cap : max_capacity (cache c) = cap;
  ci_clock : t0 <= clock c;
  ci_room : len (cache c) + Z.of_nat (waiting (pending c)) <= cap;
  ci_rest j l : pending c !! j = Some l -> rest_ok l;
  ci_keys k : key_inv t0 c k
}.

Lemma waiting_insert p i l l' : p !! i = Some l -> ~ unclaimed l' ->
  (waiting (<[i := l']> p) = waiting p - if decide (unclaimed l) then 1 else 0)%nat.
Proof.
  intros Hl Hn. unfold waiting. rewrite map_filter_insert_False by done.
  destruct (decide (unclaimed l)) as [Hu|Hu].
  - rewrite map_filter_delete. rewrite map_size_delete_Some; [lia|]. exists l. by apply map_lookup_filter_Some.
  - rewrite map_filter_delete, delete_id, Nat.sub_0_r; [done|]. rewrite map_lookup_filter_None. right. intros x Hx. rewrite Hl in Hx. by injection Hx as <-.
Qed.
Lemma rest_after ev rest : rest_ok (ev :: rest) -> rest_ok rest /\ ~ unclaimed rest.
Proof.
  intros [[Hs|[k [= -> ->]]]|[(k & h & code & pairs & body & [= -> ->])|[k [= -> ->]]]].
  2,3,4: by split; [left; left; apply settled_none|intros []].
  inversion Hs; subst.
  - by split; [left; left; apply settled_none|intros []].
  - split; [right; left; eauto 10|by intros []].
  - split; [right; right; eauto|by intros []].
Qed.
Lemma claim_rest k o rest : rest_ok (Claimed k o :: rest) ->
  (o = New /\ forall k', settles k' rest -> k' = k) \/ (o <> New /\ rest = []).
Proof.
  intros [[Hs|[k1 [= -> -> ->]]]|[(k1 & h & code & pairs & body & [=])|[k1 [=]]]]; [|by left].
  inversion Hs; subst; [by right|by left..].
Qed.
Lemma settle_rest ev rest : rest_ok (ev :: rest) -> ~ unclaimed (ev :: rest) ->
  rest = [] /\ ((exists k h code pairs body, ev = Finished k h code pairs body) \/ exists k, ev = Released k).
Proof.
  intros [[Hs|[k1 [= -> ->]]]|[(k1 & h & code & pairs & body & [= -> ->])|[k1 [= -> ->]]]] Hn; [|by destruct (Hn I)|eauto 10..].
  inversion Hs; subst; by destruct (Hn I).
Qed.
Lemma recorded_later t0 t t' st r : t <= t' -> recorded t0 t st r -> recorded t0 t' st r.
Proof. intros Ht. destruct st; [done|..]; intros (s & -> & Hs); exists s; (split; [done|lia]). Qed.

Section Step.
Context (t0 ttl cap : Z) (c : crowd) (I : crowd_inv t0 ttl cap c) (i : nat) (ev : event) (rest : list event).
Context (Hi : pending c !! i = Some (ev :: rest)) (now : Z) (Hnow : clock c <= now) (h : HlcTimestamp).

(** The key of a deed: its state moves as the specification allows. *)
Lemma key_moves e' k st st' : about k (Deed i h ev) = true -> state_of k (history c) = Some st ->
  allowed st (Deed i h ev) = Some st' -> recorded t0 now st' (view hash (shards e') k) ->
  (settles k rest -> exists h', st' = Busy i h') ->
  (forall j l, j <> i -> pending c !! j = Some l -> settles k l -> exists h', st' = Busy j h') ->
  key_inv t0 (Crowd e' (<[i := rest]> (pending c)) now (Deed i h ev :: history c)) k.
Proof using.
  intros Ha Hst Hal Hr Hown Hothers. exists st'. cbn [history clock cache pending state_of]. rewrite Hst, Ha, Hal.
  split; [done|]. split; [done|]. intros j l Hj Hs. destruct (decide (j = i)) as [->|Hne].
  - rewrite lookup_insert_eq in Hj. injection Hj as <-. by apply Hown.
  - rewrite lookup_insert_ne in Hj by done. by apply (Hothers j l).
Qed.
(** Any other key: nothing moves. *)
Lemma key_stays e' k : about k (Deed i h ev) = false -> view hash (shards e') k = view hash (shards (cache c)) k ->
  ~ settles k rest -> key_inv t0 (Crowd e' (<[i := rest]> (pending c)) now (Deed i h ev :: history c)) k.
Proof using I Hnow.
  intros Ha Hv Hn. destruct (ci_keys _ _ _ _ I k) as (st & Hst & Hr & Hp). exists st.
  cbn [history clock cache pending state_of]. rewrite Hst, Ha, Hv. split; [done|]. split; [by eapply recorded_later|].
  intros j l Hj Hs. destruct (decide (j = i)) as [->|Hne].
  - rewrite lookup_insert_eq in Hj. by injection Hj as <-.
  - rewrite lookup_insert_ne in Hj by done. by apply (Hp j l).
Qed.
(** The invariant after a deed, from the engine's part of it and the keys. *)
Lemma step_gives e' : engine_ok hash e' -> Idempotency.ttl e' = ttl -> max_capacity e' = cap ->
  len e' <= len (cache c) + (if decide (unclaimed (ev :: rest)) then 1 else 0) ->
  (forall k, key_inv t0 (Crowd e' (<[i := rest]> (pending c)) now (Deed i h ev :: history c)) k) ->
  crowd_inv t0 ttl cap (Crowd e' (<[i := rest]> (pending c)) now (Deed i h ev :: history c)).
Proof using I Hi Hnow.
  intros Hok Ht Hc Hl Hk. destruct (rest_after ev rest (ci_rest _ _ _ _ I i _ Hi)) as [Hrest Hun].
  split; try done; cbn [clock cache pending].
  - pose proof (ci_clock _ _ _ _ I). lia.
  - pose proof (ci_room _ _ _ _ I) as Hroom. rewrite (waiting_insert _ _ _ _ Hi Hun).
    assert (Hw : unclaimed (ev :: rest) -> (0 < waiting (pending c))%nat).
    { intros Hu. unfold waiting. destruct (decide (size (filter (fun il => unclaimed il.2) (pending c)) = 0%nat)) as [Hz|]; [|lia].
      apply map_size_empty_inv in Hz. assert (Hf : filter (fun il => unclaimed il.2) (pending c) !! i = Some (ev :: rest))
        by by apply map_lookup_filter_Some. by rewrite Hz, lookup_empty in Hf. }
    destruct (decide (unclaimed (ev :: rest))) as [Hu|Hu]; [specialize (Hw Hu); lia|lia].
  - intros j l. destruct (decide (j = i)) as [->|Hne]; [rewrite lookup_insert_eq; by intros [= <-]|].
    rewrite lookup_insert_ne by done. apply (ci_rest _ _ _ _ I).
Qed.
End Step.

Lemma claim_step t0 ttl cap c i rest now h busy k o e' : crowd_inv t0 ttl cap c ->
  pending c !! i = Some (Claimed k o :: rest) -> clock c <= now -> now - t0 < Z.max ttl 1 ->
  Idempotency.check_or_insert hash busy now k h (cache c) = (o, e') ->
  crowd_inv t0 ttl cap (Crowd e' (<[i := rest]> (pending c)) now (Deed i h (Claimed k o) :: history c)).
Proof.
  intros I Hi Hnow Hwin Hc. pose proof (check_spec hash busy now k h (cache c) (ci_ok _ _ _ _ I)) as Hspec. cbv zeta in Hspec.
  rewrite Hc in Hspec. destruct Hspec as (Hok & Hm & Ht & Hcase). rewrite (ci_ttl _ _ _ _ I), (ci_cap _ _ _ _ I) in *.
  pose proof (ci_rest _ _ _ _ I i _ Hi) as Hrest. pose proof (ci_clock _ _ _ _ I) as Hclock.
  destruct (ci_keys _ _ _ _ I k) as (st & Hst & Hr & Hp).
  assert (Hroom : len (cache c) < cap).
  { pose proof (ci_room _ _ _ _ I) as Hroom. destruct (rest_after _ _ Hrest) as [_ Hun].
    assert (Hw : (0 < waiting (pending c))%nat); [|lia].
    unfold waiting. destruct (decide (size (filter (fun il => unclaimed il.2) (pending c)) = 0%nat)) as [Hz|]; [|lia].
    apply map_size_empty_inv in Hz. assert (Hf : filter (fun il => unclaimed il.2) (pending c) !! i = Some (Claimed k o :: rest))
      by by apply map_lookup_filter_Some. by rewrite Hz, lookup_empty in Hf. }
  destruct (view hash (shards (cache c)) k ≫= answer ttl now) as [o'|] eqn:Ea.
  - (* refused *)
    destruct Hcase as (-> & Hl & Hv).
    assert (Hst' : o' <> New /\ allowed st (Deed i h (Claimed k o' : event)) = Some st).
    { destruct st as [|j h0|h0 code pairs body]; cbn in Hr; [by rewrite Hr in Ea|..];
        destruct Hr as (s & Hr & Hs1 & Hs2); rewrite Hr in Ea; cbn in Ea; rewrite (in_window ttl s now) in Ea by lia;
        injection Ea as <-; cbn; by rewrite decide_True. }
    destruct Hst' as [Hne Hal]. destruct (claim_rest _ _ _ Hrest) as [[? _]|[_ ->]]; [done|].
    apply (step_gives t0 ttl cap c I i _ [] Hi now Hnow h); try done; [rewrite decide_True by done; lia|].
    intros k'. destruct (String.eqb_spec k k') as [<-|Hk].
    + eapply (key_moves t0 c i _ [] now h e' k st st); try done; [cbn; apply String.eqb_refl|rewrite Hv; by eapply recorded_later|].
      intros j l _. apply Hp.
    + apply (key_stays t0 ttl cap c I i _ [] now Hnow h); [cbn; by apply String.eqb_neq|apply Hv|intros []].
  - (* accepted *)
    destruct Hcase as (-> & evd & Hev & _ & Hl & Hv). assert (evd = None) as ->.
    { destruct evd; [|done]. specialize (Hev ltac:(done)). lia. }
    destruct (claim_rest _ _ _ Hrest) as [[_ Hown]|[? _]]; [|done].
    assert (Hfree : st = Free).
    { destruct st as [|j h0|h0 code pairs body]; [done|..]; cbn in Hr; destruct Hr as (s & Hr & Hs1 & Hs2);
        rewrite Hr in Ea; cbn in Ea; by rewrite (in_window ttl s now) in Ea by lia. }
    subst st. cbn in Hr. rewrite Hr in Hl. rewrite decide_False in Hl by done.
    apply (step_gives t0 ttl cap c I i _ rest Hi now Hnow h); try done; [rewrite decide_True by done; lia|].
    intros k'. destruct (String.eqb_spec k k') as [<-|Hk].
    + eapply (key_moves t0 c i _ rest now h e' k Free (Busy i h)); try done; [cbn; apply String.eqb_refl| |by eexists|].
      * rewrite Hv, String.eqb_refl. exists now. split; [done|lia].
      * intros j l _ Hj Hs. by destruct (Hp j l Hj Hs).
    + apply (key_stays t0 ttl cap c I i _ rest now Hnow h); [cbn; by apply String.eqb_neq| |].
      * rewrite Hv. rewrite decide_False by done. by destruct (String.eqb_spec k' k).
      * intros Hs%Hown. congruence.
Qed.
Lemma settle_step t0 ttl cap c i ev rest now h e' : crowd_inv t0 ttl cap c ->
  pending c !! i = Some (ev :: rest) -> clock c <= now -> ~ unclaimed (ev :: rest) -> e' = play hash now ev (cache c) ->
  crowd_inv t0 ttl cap (Crowd e' (<[i := rest]> (pending c)) now (Deed i h ev :: history c)).
Proof.
  intros I Hi Hnow Hun ->. pose proof (ci_clock _ _ _ _ I) as Hclock.
  destruct (settle_rest _ _ (ci_rest _ _ _ _ I i _ Hi) Hun) as [-> Hev].
  assert (Hk : exists k, settles k [ev] /\ (forall k', about k' (Deed i h ev) = String.eqb k k')).
  { destruct Hev as [(k & ? & ? & ? & ? & ->)|[k ->]]; by exists k. }
  destruct Hk as (k & Hset & Hab). destruct (ci_keys _ _ _ _ I k) as (st & Hst & Hr & Hp).
  destruct (Hp i _ Hi Hset) as [h0 ->]. cbn in Hr. destruct Hr as (s & Hr & Hs1 & Hs2).
  assert (Hothers : forall j l st', j <> i -> pending c !! j = Some l -> settles k l -> exists h', st' = Busy j h').
  { intros j l st' Hne Hj Hs. destruct (Hp j l Hj Hs) as [h1 [= ? _]]. congruence. }
  destruct Hev as [(k1 & h1 & code & pairs & body & ->)|[k1 ->]]; cbn in Hset; subst k1; cbn [play].
  - destruct (put_record_spec hash k (Completed h1 code pairs body now) _ (ci_ok _ _ _ _ I)) as (Hok & Hm & Ht & Hv & Hl);
      [left; by rewrite Hr|]. fold (Idempotency.complete hash now k h1 code pairs body (cache c)) in Hok, Hm, Ht, Hv, Hl.
    apply (step_gives t0 ttl cap c I i _ [] Hi now Hnow h); [done|rewrite Ht; apply I|rewrite Hm; apply I| |].
    { rewrite Hr in Hl. rewrite decide_False by done. lia. }
    intros k'. destruct (String.eqb_spec k k') as [<-|Hk].
    + eapply (key_moves t0 c i _ [] now h _ k (Busy i h0) (Done h1 code pairs body)); try done.
      * rewrite Hab. apply String.eqb_refl.
      * cbn. by rewrite decide_True.
      * rewrite Hv, String.eqb_refl. exists now. split; [done|lia].
      * intros j l. by apply Hothers.
    + apply (key_stays t0 ttl cap c I i _ [] now Hnow h); [rewrite Hab; by apply String.eqb_neq| |intros []].
      rewrite Hv. by destruct (String.eqb_spec k' k).
  - destruct (remove_spec hash k _ (ci_ok _ _ _ _ I)) as (Hok & Hm & Ht & Hv & Hl).
    apply (step_gives t0 ttl cap c I i _ [] Hi now Hnow h); [done|rewrite Ht; apply I|rewrite Hm; apply I| |].
    { rewrite Hr in Hl. rewrite decide_False by done. lia. }
    intros k'. destruct (String.eqb_spec k k') as [<-|Hk].
    + eapply (key_moves t0 c i _ [] now h _ k (Busy i h0) Free); try done.
      * rewrite Hab. apply String.eqb_refl.
      * cbn. by rewrite decide_True.
      * cbn. by rewrite Hv, String.eqb_refl.
      * intros j l. by apply Hothers.
    + apply (key_stays t0 ttl cap c I i _ [] now Hnow h); [rewrite Hab; by apply String.eqb_neq| |intros []].
      rewrite Hv. by destruct (String.eqb_spec k' k).
Qed.

Lemma view_new ttl cap k : view hash (shards (engine_new ttl cap)) k = None.
Proof.
  unfold view, engine_new. cbn [shards]. rewrite lookup_total_replicate_2 by apply idx_lt.
  by rewrite (proj1 (lru_new_spec _)).
Qed.
Lemma start_inv ttl cap t0 logs : 0 <= cap < 2 ^ 58 -> Z.of_nat (size logs) <= cap -> map_Forall (fun _ => request_log) logs ->
  crowd_inv t0 ttl cap (Crowd (engine_new ttl cap) logs t0 []).
Proof.
  intros Hcap Hsize Hlogs. split; try done; cbn [cache pending clock history].
  - by apply engine_ok_new.
  - change (len (engine_new ttl cap)) with 0. unfold waiting. pose proof (map_size_filter (fun il => unclaimed il.2) logs). lia.
  - intros j l Hj. left. by apply (Hlogs j l).
  - intros k. exists Free. split; [done|]. split; [apply view_new|]. intros j l Hj Hs.
    destruct (Hlogs j l Hj) as [Hl|[k' ->]]; [|done]. by inversion Hl; subst.
Qed.
Lemma crowd_reachable ttl cap t0 logs c : 0 <= cap < 2 ^ 58 -> Z.of_nat (size logs) <= cap ->
  map_Forall (fun _ => request_log) logs -> rtc crowd_step (Crowd (engine_new ttl cap) logs t0 []) c ->
  clock c - t0 < Z.max ttl 1 -> crowd_inv t0 ttl cap c.
Proof.
  intros Hcap Hsize Hlogs Hr. revert c Hr. apply (rtc_ind_r (fun c => clock c - t0 < Z.max ttl 1 -> crowd_inv t0 ttl cap c)).
  - intros _. by apply start_inv.
  - intros c1 c2 _ [c i ev rest busy now h e' Hi Hnow Hp] IH Hwin. cbn [clock] in Hwin. specialize (IH ltac:(lia)).
    destruct (decide (unclaimed (ev :: rest))) as [Hu|Hu].
    + destruct ev; try done. cbn [plays] in Hp. by eapply claim_step.
    + eapply settle_step; [done..|]. by destruct ev.
Qed.
End Crowd.

(** ** Requests of the gateway *)

Section Served.
Context `{HttpLib, JsonText, Unicode, GqlParser, LruLib, AuthLib, CelLib, RegexLib}.
Context {W : Type} `{Clocks W, WasmTypes, !WasmLib W}.
Context {SocketAddr : Type}.
Variable hash : string -> Z.

(** A request with everything it meets: its surroundings (with the engine's answer to its
    claim), the gateway, the running state at each phase, and what it is. *)
Record served := Served {
  sv_env : surroundings (SocketAddr := SocketAddr);
  sv_gateway : gateway (SocketAddr := SocketAddr);
  sv_loads : phase -> DynamicGatewayState (W := W) (SocketAddr := SocketAddr);
  sv_reading : reading;
  sv_id : string;
  sv_hlc : HlcTimestamp;
  sv_chunks : list (option string);
  sv_upstream : upstream_answer;
  sv_session : session;
  sv_world : W
}.
(** What it does in the engine. *)
Definition engine_log (r : served) : list (event (SocketAddr := SocketAddr)) :=
  engine_events (log (serve (sv_env r) (sv_gateway r) (sv_loads r) (sv_reading r) (sv_id r) (sv_hlc r) (sv_chunks r)
    (sv_upstream r) (sv_session r) (sv_world r))).
Lemma engine_log_ok r : request_log (engine_log r).
Proof.
  destruct r as [env g loads t id h chunks up s w].
  destruct (claims_settled env g loads t id h chunks up s w) as [Hs|[Hk _]]; [by left|by right].
Qed.

(** C1. Requests side by side, at most as many as the engine has capacity, their engine
    operations in any order, within the engine's window. For every key the history is one
    the specification allows: a claim succeeds only while nobody holds the key and
    nothing is kept for it; while a request holds it every claim is refused with that
    request's timestamp; once a request finished it every claim gets exactly that
    response; and the engine's record is the one of the specification. So a key is
    finished at most once, it is started once more than it is released at the most, and
    never again after it is finished. *)
Theorem once_per_key (reqs : gmap nat served) ttl cap t0 c :
  0 <= cap < 2 ^ 58 -> Z.of_nat (size reqs) <= cap ->
  rtc (crowd_step hash) (Crowd (engine_new ttl cap) (engine_log <$> reqs) t0 []) c -> clock c - t0 < Z.max ttl 1 ->
  forall k,
  (exists st, state_of k (history c) = Some st /\
     recorded t0 (clock c) st (view hash (shards (cache c)) k)) /\
  (count (finishes k) (history c) <= 1)%nat /\
  (count (starts k) (history c) <= count (releases k) (history c) + 1)%nat /\
  forall newer older, history c = (newer ++ older)%list -> (0 < count (finishes k) older)%nat ->
    count (starts k) newer = 0%nat.
Proof.
  intros Hcap Hsize Hr Hwin k.
  assert (I : crowd_inv hash t0 ttl cap c).
  { eapply crowd_reachable; [exact Hcap| | |exact Hr|exact Hwin]; [by rewrite map_size_fmap|].
    intros i l. rewrite lookup_fmap. intros (r & _ & ->)%fmap_Some. apply engine_log_ok. }
  destruct (ci_keys _ _ _ _ _ I k) as (st & Hst & Hrec & _). destruct (state_counts k _ _ Hst) as [Hs Hf].
  split_and!; [by exists st|destruct st; lia|destruct st; lia|].
  intros newer older Hh Hn. rewrite Hh in Hst.
  assert (Ho : exists sto, state_of k older = Some sto).
  { clear -Hst. revert st Hst. induction newer as [|d newer IH]; intros st; cbn [app state_of]; [by eexists|].
    destruct (state_of k (newer ++ older)%list) as [st0|]; [|done]. intros _. by eapply IH. }
  destruct Ho as [sto Ho]. destruct (state_counts k _ _ Ho) as [_ Hfo].
  destruct sto as [|i h|h code pairs body]; [lia..|]. by destruct (done_stays k newer older h code pairs body st Ho Hst).
Qed.
End Served.

Section Witnesses.
#[local] Existing Instances list_http ascii_tables bits_json_text list_lru demo_auth_lib demo_cel demo_types
  demo_wasm no_gql manager_clocks no_match_regex.
(** A second client's request with the same key, refused by the engine. *)
Definition refused_env : Gateway.surroundings (SocketAddr := string) :=
  Around (fun _ => None) (fun _ _ => Conflict (HLC 0 0)) (fun _ => Some 0%nat) (Ok true) (Ok true) (fun _ => JNull) id id id
    (fun _ => None) (fun _ => "Bad Gateway") id "<svg/>".
Definition demo_request (env : Gateway.surroundings (SocketAddr := string)) (h : HlcTimestamp) :
    served (W := manager_world) (SocketAddr := string) :=
  Served env demo_gateway demo_loads (Reading (F64.of_Z 0) 0 0) "r" h [] (UpFails "down") (demo_session "GET") demo_mworld.
Definition demo_requests : gmap nat (served (W := manager_world) (SocketAddr := string)) :=
  {[0%nat := demo_request demo_env (HLC 0 0); 1%nat := demo_request refused_env (HLC 1 0)]}.
Definition first_claim : engine := snd (Idempotency.check_or_insert hash0 free 5 "k1" (HLC 0 0) (engine_new 300 10)).
Lemma once_per_key_witness : exists c,
  rtc (crowd_step hash0) (Crowd (engine_new 300 10) (engine_log <$> demo_requests) 5 []) c /\
  map (fun d => (who d, what d)) (history c) =
    [(1%nat, Claimed (SocketAddr := string) "k1" (Conflict (HLC 0 0))); (0%nat, Claimed "k1" New)] /\
  (count (starts "k1") (history c) <= count (releases "k1") (history c) + 1)%nat.
Proof.
  set (e2 := snd (Idempotency.check_or_insert hash0 free 6 "k1" (HLC 1 0) first_claim)).
  set (p1 := <[0%nat := []]> (engine_log <$> demo_requests)).
  assert (Hr : rtc (crowd_step hash0) (Crowd (engine_new 300 10) (engine_log <$> demo_requests) 5 [])
    (Crowd e2 (<[1%nat := []]> p1) 6 [Deed 1 (HLC 1 0) (Claimed "k1" (Conflict (HLC 0 0))); Deed 0 (HLC 0 0) (Claimed "k1" New)])).
  { eapply rtc_l; [|apply rtc_once].
    - apply (does hash0 _ 0%nat (Claimed "k1" New) [] free 5 (HLC 0 0) first_claim); [reflexivity|cbn; lia|reflexivity].
    - apply (does hash0 (Crowd first_claim p1 5 _) 1%nat (Claimed "k1" (Conflict (HLC 0 0))) [] free 6 (HLC 1 0) e2);
        [reflexivity|cbn; lia|reflexivity]. }
  eexists. split; [exact Hr|]. split; [reflexivity|].
  apply (once_per_key hash0 demo_requests 300 10 5 _ ltac:(lia) ltac:(vm_compute; discriminate) Hr ltac:(cbn; lia) "k1").
Defined.
End Witnesses.
