(* ===== verification/Guard.v ===== *)
(** * Guard: what the interceptors' verdict on a request decides, end to end.

    A request that is rejected reaches neither the upstream nor the broker nor the
    store of answers; with an access-control interceptor in front, only callers it
    grants get further; and the two ways around the interceptors: requests the gateway
    does not decode, and answers that are replayed. *)

From S2P Require Import Prelude Externals Clock Types Idempotency Sanitizer Protocol Telemetry Config.
From S2P Require Import Interceptors Auth Wasm Cel Manager Hub Access Traffic State Gateway Lifecycle Relay.
Local Open Scope string_scope.

(** ** Steps within a relation *)

Section Respects.
Context `{HttpLib, JsonText, Unicode, GqlParser, LruLib, AuthLib, CelLib, RegexLib}.
Context {W : Type} `{Clocks W, WasmTypes, !WasmLib W}.
Context {SocketAddr : Type}.
Abbreviation state := (state (W := W) (SocketAddr := SocketAddr)).
Abbreviation M := (M (W := W) (SocketAddr := SocketAddr)).

(** What a step makes of a state is related to it, whether it goes on or stops. *)
Definition respects {A} (R : relation state) (m : M A) : Prop := forall s, R s (snd (m s)).

Section Preorder.
Context (R : relation state) `{!PreOrder R}.
Lemma respects_ret {A} (a : A) : respects R (ret a).
Proof. intros s. reflexivity. Qed.
Lemma respects_stop {A} r : respects R (stop (A := A) r).
Proof. intros s. reflexivity. Qed.
Lemma respects_get_sess : respects R get_sess.
Proof. intros s. reflexivity. Qed.
Lemma respects_get_ctx : respects R get_ctx.
Proof. intros s. reflexivity. Qed.
Lemma respects_modify f : (forall s, R s (update f s)) -> respects R (modify f).
Proof. intros Hf s. apply Hf. Qed.
Lemma respects_modify_sess f : (forall s, R s (update_sess f s)) -> respects R (modify_sess f).
Proof. intros Hf s. apply Hf. Qed.
Lemma respects_emit e : (forall s, R s (push e s)) -> respects R (emit e).
Proof. intros He s. apply He. Qed.
Lemma respects_bind {A B} (m : M A) (k : A -> M B) : respects R m -> (forall a, respects R (k a)) -> respects R (bind m k).
Proof.
  intros Hm Hk s. specialize (Hm s). unfold bind. destruct (m s) as [[a|r] s1]; cbn [snd] in *; [|done].
  etransitivity; [exact Hm|apply Hk].
Qed.
Lemma respects_attempt m : respects R m -> respects R (attempt m).
Proof. intros Hm s. specialize (Hm s). unfold attempt. by destruct (m s) as [[a|r] s1]. Qed.
Lemma respects_wp {A} (m : M A) s : respects R m -> wp m (fun _ => R s) (fun _ => R s) s.
Proof. intros Hm. specialize (Hm s). unfold wp. by destruct (m s) as [[a|r] s']. Qed.
End Preorder.

Lemma wp_and {A} (m : M A) Q Q' E E' s : wp m Q E s -> wp m Q' E' s ->
  wp m (fun a s' => Q a s' /\ Q' a s') (fun r s' => E r s' /\ E' r s') s.
Proof. unfold wp. by destruct (m s) as [[a|r] s']. Qed.

(** What the gateway knows of a request, kept while it is not yet judged: nothing is
    forwarded, relayed, stored or dispatched. *)
Definition quiet (e : event (SocketAddr := SocketAddr)) : Prop :=
  match e with Forwarded _ _ | Relayed _ _ | Finished _ _ _ _ _ | Dispatched _ _ => False | _ => True end.
Definition same_request (s s' : state) : Prop :=
  request_info (ctx s') = request_info (ctx s) /\ c_app_id (ctx s') = c_app_id (ctx s).
Definition calm (s s' : state) : Prop :=
  same_request s s' /\ c_request_id (ctx s') = c_request_id (ctx s) /\ c_hlc (ctx s') = c_hlc (ctx s) /\
  c_response_parts (ctx s') = c_response_parts (ctx s) /\ service (ctx s') = service (ctx s) /\
  world s' = world s /\ (Forall quiet (log s) -> Forall quiet (log s')).
#[export] Instance same_request_preorder : PreOrder same_request.
Proof. split; [by intros s|]. intros s1 s2 s3. unfold same_request. intuition congruence. Qed.
#[export] Instance calm_preorder : PreOrder calm.
Proof.
  split; [by intros s|]. intros s1 s2 s3 (Hs & ? & ? & ? & ? & ? & Hl) (Hs' & ? & ? & ? & ? & ? & Hl').
  split; [by etransitivity|]. split_and!; [congruence..|auto].
Qed.
Lemma calm_push e (s : state) : quiet e -> calm s (push e s).
Proof. intros He. split_and!; [done..|]. intros Hl. apply Forall_app. by split; [|apply Forall_singleton]. Qed.
Lemma push_same_request e (s : state) : same_request s (push e s).
Proof. done. Qed.
End Respects.

(** Shows that a step built from the primitives respects a relation. *)
Ltac respect :=
  cbv zeta;
  repeat first
    [ apply respects_ret; apply _ | apply respects_stop; apply _ | apply respects_get_sess; apply _
    | apply respects_get_ctx; apply _
    | apply respects_modify; intros ?; first [done | by split_and!]
    | apply respects_modify_sess; intros ?; first [done | by split_and!]
    | apply respects_attempt
    | apply respects_emit; intros ?; first [done | apply calm_push; done]
    | apply respects_bind; [apply _| |intros ?]
    | progress auto with respects
    | match goal with
      | |- respects _ (match ?x with _ => _ end) => destruct x
      end ].
Create HintDb respects.

Section Stages.
Context `{HttpLib, JsonText, Unicode, GqlParser, LruLib, AuthLib, CelLib, RegexLib}.
Context {W : Type} `{Clocks W, WasmTypes, !WasmLib W}.
Context {SocketAddr : Type}.
Abbreviation state := (state (W := W) (SocketAddr := SocketAddr)).
Abbreviation event := (event (SocketAddr := SocketAddr)).
Abbreviation dynamic := (DynamicGatewayState (W := W) (SocketAddr := SocketAddr)).
Abbreviation same := (same_request (W := W) (SocketAddr := SocketAddr)).
Abbreviation still := (calm (W := W) (SocketAddr := SocketAddr)).
Context (env : surroundings (SocketAddr := SocketAddr)).

(** ** Before the judgement *)

Lemma write_response_calm code fields body : respects still (write_response code fields body).
Proof. unfold write_response. respect. Qed.
Lemma record_calm t d : respects still (record_traffic_event t d).
Proof. unfold record_traffic_event. respect. Qed.
Lemma check_calm key h : respects still (check_or_insert env key h).
Proof. unfold check_or_insert. respect. Qed.
Lemma release_key_calm : respects still release_key.
Proof. unfold release_key, remove. respect. Qed.
#[local] Hint Resolve write_response_calm record_calm check_calm release_key_calm : respects.
Lemma outcome_calm named key o : respects still (intercept_outcome named key o).
Proof. unfold intercept_outcome, write_conflict_response, write_replay_response. respect. Qed.
Lemma after_claim_calm t name text r : respects still (after_claim t name text r).
Proof. unfold after_claim. respect. Qed.
#[local] Hint Resolve outcome_calm after_claim_calm : respects.
Lemma edge_calm g : respects still (edge_stage env g).
Proof. unfold edge_stage, health_handle, favicon_handle, admin_handle. respect. Qed.
Lemma stamp_calm : respects still stamp_stage.
Proof. unfold stamp_stage. respect. Qed.
Lemma explicit_calm t : respects still (explicit_key_stage env t).
Proof. unfold explicit_key_stage, handle_explicit_key. respect. Qed.
Lemma body_calm : respects still body_stage.
Proof. unfold body_stage. respect. Qed.

(** ** After it *)

Lemma write_response_same code fields body : respects same (write_response code fields body).
Proof. unfold write_response. respect. Qed.
Lemma record_same t d : respects same (record_traffic_event t d).
Proof. unfold record_traffic_event. respect. Qed.
Lemma dispatch_same out : respects same (dispatch out).
Proof. unfold dispatch. respect. Qed.
Lemma check_same key h : respects same (check_or_insert env key h).
Proof. unfold check_or_insert. respect. Qed.
Lemma release_key_same : respects same release_key.
Proof. unfold release_key, remove. respect. Qed.
#[local] Hint Resolve write_response_same record_same dispatch_same check_same release_key_same : respects.
Lemma outcome_same named key o : respects same (intercept_outcome named key o).
Proof. unfold intercept_outcome, write_conflict_response, write_replay_response. respect. Qed.
Lemma after_claim_same t name text r : respects same (after_claim t name text r).
Proof. unfold after_claim. respect. Qed.
#[local] Hint Resolve outcome_same after_claim_same : respects.
Lemma fingerprint_same t info body : respects same (fingerprint_stage env t info body).
Proof. unfold fingerprint_stage, handle_fingerprint. respect. Qed.
Lemma route_same (d : dynamic) t info dm : respects same (route_stage env d t info dm).
Proof. unfold route_stage, disabled_route, handle_mode_b_edge, send_request, complete, remove. respect. Qed.
Lemma policy_same p info dm : respects same (handle_mode_a_dispatch_policy env p info dm).
Proof. unfold handle_mode_a_dispatch_policy, send_request. respect. Qed.
Lemma transform_same hs b body : respects same (transform_stage hs b body).
Proof. unfold transform_stage. respect. Qed.
Lemma proxy_stage_same g (loads : phase -> dynamic) t chunks up (s : state) :
  same s (snd (proxy_stage g loads t chunks up s)).
Proof.
  unfold proxy_stage. destruct (upstream_peer g (loads OnPeer) (ctx s)) as [a|e]; [|done].
  destruct (request_bodies_kept chunks (ctx s)) as (_ & _ & _ & _ & Hi & _ & _ & Ha). set (c := fold_left _ _ _) in *.
  destruct up as [e|head body error]; [done|].
  assert (Hk : kept c (snd (response_filter (loads OnResponse) head c))).
  { unfold response_filter. destruct (has_response_interceptors _ _); split_and!; auto. }
  destruct (response_filter (loads OnResponse) head c) as [head' c1]. cbn [snd] in Hk.
  pose proof (relay_kept g t body (fun k => loads (OnBody k)) (world s) c1) as Hk2.
  destruct (relay g _ t body (world s) c1) as [[outs w] c2]. cbn [snd] in *.
  destruct (kept_trans _ _ _ Hk Hk2) as (_ & _ & _ & _ & Hi2 & _ & _ & Ha2).
  unfold same_request. cbn [ctx]. split; congruence.
Qed.
End Stages.

Section Judgement.
Context `{HttpLib, JsonText, Unicode, GqlParser, LruLib, AuthLib, CelLib, RegexLib}.
Context {W : Type} `{Clocks W, WasmTypes, !WasmLib W}.
Context {SocketAddr : Type}.
Abbreviation state := (state (W := W) (SocketAddr := SocketAddr)).
Abbreviation event := (event (SocketAddr := SocketAddr)).
Abbreviation dynamic := (DynamicGatewayState (W := W) (SocketAddr := SocketAddr)).
Context (env : surroundings (SocketAddr := SocketAddr)).

(** ** The judgement of a request *)

(** What the gateway reads of a request's body before it decides. *)
Definition request_body (s : session) : string :=
  if String.eqb (method (req s)) "POST" then fst (read_chunks MAX_GATEWAY_BODY_BYTES "" (chunks s)) else "".
(** The verdict of the interceptors the configuration has for an operation, on the
    client's request with the gateway's headers. *)
Definition judged (d : dynamic) (w : W) (id : string) (h : HlcTimestamp) (app : string) (info : RequestInfo) (s : session) :
    InterceptorVerdict :=
  q_verdict (request_pipeline (get_request_pipeline (interceptor_manager d) (gql_name info)) w
    (interceptor_context (new_ctx d id h) info) (stamped id (to_compact_string h) app (req s)) (request_body s)).

(** What a rejected request may do: be answered with the rejection, have it published,
    and be recorded; its claim may be released. *)
Definition contained (r : InterceptorRejection) (e : event) : Prop :=
  match e with
  | Forwarded _ _ | Relayed _ _ | Finished _ _ _ _ _ => False
  | Replied rp => rp_code rp = rj_status_code r /\ rp_body rp = to_graphql_response r
  | _ => True
  end.
(** The broker is only sent the rejection. *)
Definition only_rejection (e : event) : Prop :=
  match e with
  | Dispatched answer ms => exists dm name p, (answer, ms) = dispatch_payload (send env) dm (rejection_topic name) p
  | _ => True
  end.
Definition rejected (r : InterceptorRejection) (s : state) : Prop :=
  idempotency_key (ctx s) = None /\ c_response_parts (ctx s) = None /\
  Forall (contained r) (log s) /\ Forall only_rejection (log s).

(** While it is not judged, a request is at most claimed and recorded. *)
Lemma quiet_contained r (l : list event) : Forall quiet l -> answers l = [] -> Forall (contained r) l /\ Forall only_rejection l.
Proof.
  intros Hq. induction Hq as [|e l He Hq IH]; [done|]. unfold answers. cbn [List.filter].
  destruct e; cbn in He |- *; try done; intros Ha; destruct (IH Ha); split; by constructor.
Qed.
Lemma rejected_push r e (s : state) : rejected r s -> contained r e -> only_rejection e -> rejected r (push e s).
Proof. intros (Hk & Hp & Hl & Ho) He Hr. split_and!; [done|done|apply Forall_app; split; [done|by apply Forall_singleton]..]. Qed.

Lemma release_key_frees r (Q : unit -> state -> Prop) E (s : state) :
  c_response_parts (ctx s) = None -> Forall (contained r) (log s) -> Forall only_rejection (log s) ->
  (forall s', rejected r s' -> same_request s s' -> Q tt s') -> wp release_key Q E s.
Proof.
  intros Hp Hc Ho HQ. unfold release_key, remove. wp_steps. destruct (idempotency_key (ctx s)) as [k|] eqn:Ek; wp_steps; apply HQ; try done.
  by apply rejected_push.
Qed.
Lemma reject_stage_contains t info dm r (Q : unit -> state -> Prop) (s : state) :
  going s -> Forall quiet (log s) -> c_response_parts (ctx s) = None ->
  wp (reject_stage env t info dm r) Q (fun res s' => res <> Ok false /\ rejected r s' /\ same_request s s') s.
Proof.
  intros (Ha & _) Hq Hp. destruct (quiet_contained r _ Hq Ha) as [Hc Ho].
  unfold reject_stage. apply wp_bind. apply (release_key_frees r); [done..|]. intros s1 Hr Hs.
  wp_steps. apply wp_write_response; [|done].
  destruct (connected _); cbn [negb]; wp_steps; [|done]. unfold record_traffic_event. wp_steps.
  split; [done|]. split; [|exact Hs]. apply rejected_push; [|done..]. apply rejected_push; [|done|].
  - by apply rejected_push.
  - cbn. do 3 eexists. symmetry. apply surjective_pairing.
Qed.
Lemma intercept_contains (d : dynamic) t info dm body r (Q : string -> state -> Prop) (s : state) :
  going s -> Forall quiet (log s) -> c_response_parts (ctx s) = None ->
  q_verdict (request_pipeline (get_request_pipeline (interceptor_manager d) (gql_name info)) (world s)
    (interceptor_context (ctx s) info) (req (sess s)) body) = Reject r ->
  wp (intercept_stage env d t info dm body) Q (fun res s' => res <> Ok false /\ rejected r s' /\ same_request s s') s.
Proof.
  intros Hg Hq Hp. unfold intercept_stage. destruct (get_request_pipeline _ _) as [|i js]; [done|]. intros Hv. wp_steps.
  pose (o := request_pipeline (i :: js) (world s) (interceptor_context (ctx s) info) (req (sess s)) body).
  set (s1 := St (sess s) (ctx s) (q_world o) (log s)).
  change (wp (match q_verdict o with
     | Pass => ret body
     | Audit rule_name tag _ => bind (modify (set_audit tag (Some rule_name))) (fun _ => ret body)
     | Reject r => bind (reject_stage env t info dm r) (fun _ => ret body)
     | Transform hs b => transform_stage hs b body
     end) Q (fun res s' => res <> Ok false /\ rejected r s' /\ same_request s s') s1).
  unfold o. rewrite Hv. apply wp_bind. by apply (reject_stage_contains t info dm r _ s1).
Qed.
Lemma intercept_same (d : dynamic) t info dm body (s : state) : same_request s (snd (intercept_stage env d t info dm body s)).
Proof.
  unfold intercept_stage. destruct (get_request_pipeline _ _) as [|i js]; [done|].
  unfold bind at 1 2, get_ctx, get_sess. set (o := request_pipeline _ _ _ _ _). set (s1 := St _ _ _ _).
  assert (Hs1 : same_request s s1) by done. etransitivity; [exact Hs1|]. revert s1 Hs1. intros s1 _.
  destruct (q_verdict o) as [|r|hs b|rule tag reason]; [done| |apply transform_same|done].
  assert (Hr : respects same_request (bind (reject_stage env t info dm r) (fun _ => ret (W := W) (SocketAddr := SocketAddr) body))).
  { unfold reject_stage. pose proof (release_key_same (W := W) (SocketAddr := SocketAddr)).
    pose proof (write_response_same (W := W) (SocketAddr := SocketAddr)). pose proof (record_same (W := W) (SocketAddr := SocketAddr)).
    pose proof (dispatch_same (W := W) (SocketAddr := SocketAddr)). respect. }
  apply Hr.
Qed.
End Judgement.

Section Phases.
Context `{HttpLib, JsonText, Unicode, GqlParser, LruLib, AuthLib, CelLib, RegexLib}.
Context {W : Type} `{Clocks W, WasmTypes, !WasmLib W}.
Context {SocketAddr : Type}.
Abbreviation state := (state (W := W) (SocketAddr := SocketAddr)).
Abbreviation event := (event (SocketAddr := SocketAddr)).
Abbreviation dynamic := (DynamicGatewayState (W := W) (SocketAddr := SocketAddr)).
Context (env : surroundings (SocketAddr := SocketAddr)).

(** ** The phases of the proxy *)

Definition same_buffer (s s' : state) : Prop := buffer (ctx s') = buffer (ctx s).
#[local] Instance same_buffer_preorder : PreOrder same_buffer.
Proof. split; [by intros s|]. intros s1 s2 s3. unfold same_buffer. congruence. Qed.
Lemma explicit_buffer t : respects same_buffer (explicit_key_stage env t).
Proof.
  unfold explicit_key_stage, handle_explicit_key, check_or_insert, intercept_outcome, write_conflict_response,
    write_replay_response, write_response, after_claim, record_traffic_event. respect.
Qed.
Lemma body_reads (s : state) : buffer (ctx s) = "" ->
  wp body_stage (fun _ s' => buffer (ctx s') = request_body (sess s)) (fun _ _ => True) s.
Proof.
  intros Hb. unfold body_stage, request_body. wp_steps. destruct (String.eqb _ _); wp_steps; [|done]. rewrite Hb.
  destruct (read_chunks _ _ _) as [b [[|]|e]]; wp_steps; [|done|done].
  apply wp_write_response; [|done]. destruct (connected _); wp_steps; [|done].
  unfold release_key, remove. wp_steps. destruct (idempotency_key _); by wp_steps.
Qed.
(** What decoding makes of a request: nothing, or its details. *)
Lemma decode_gives (d : dynamic) (s : state) :
  wp (decode_stage env d) (fun o s' => match o with
     | None => s' = s
     | Some (info, dm, body) => calm (St (sess s) (set_info (Some info) (ctx s)) (world s) (log s)) s' /\
         sess s' = sess s /\ buffer (ctx s') = buffer (ctx s) /\ body = buffer (ctx s')
     end) never s.
Proof.
  unfold decode_stage. wp_steps. destruct (String.eqb _ _); [by wp_steps|]. destruct (utf8_valid _); cbn [negb]; [|by wp_steps].
  destruct (service (ctx s)) as [sv|]; [|by wp_steps]. wp_steps. destruct (decode_request _ _ _ _ _) as [info|]; [|by wp_steps].
  wp_steps. destruct (previews info _) as [qp vp]. wp_steps. by split_and!.
Qed.

(** What a phase may end in: a request whose details are known and which the
    interceptors reject does not go on. *)
Definition judged_so (d : dynamic) (w : W) id h (s0 : session) (res : result string bool) (s' : state) : Prop :=
  forall info r, request_info (ctx s') = Some info ->
    judged d w id h (c_app_id (ctx s')) info s0 = Reject r -> res <> Ok false /\ rejected env r s'.
Lemma undecided d w id h s0 res s' : request_info (ctx s') = None -> judged_so d w id h s0 res s'.
Proof. intros Hn info r. by rewrite Hn. Qed.
Lemma judged_here (d : dynamic) w id h app info (s0 : session) (s : state) :
  world s = w -> c_request_id (ctx s) = id -> c_hlc (ctx s) = h -> c_app_id (ctx s) = app ->
  req (sess s) = stamped id (to_compact_string h) app (req s0) -> buffer (ctx s) = request_body s0 ->
  judged d w id h app info s0 =
    q_verdict (request_pipeline (get_request_pipeline (interceptor_manager d) (gql_name info)) (world s)
      (interceptor_context (ctx s) info) (req (sess s)) (buffer (ctx s))).
Proof.
  intros <- Hi Hh <- Hr Hb. unfold judged. rewrite Hr, Hb. unfold interceptor_context, new_ctx.
  cbn [c_request_id c_hlc]. by rewrite Hi, Hh.
Qed.

(** The part of the request filter after decoding. *)
Definition judge_on (d : dynamic) t info dm body : M (W := W) (SocketAddr := SocketAddr) bool :=
  bind (intercept_stage env d t info dm body) (fun body =>
  bind (fingerprint_stage env t info body) (fun _ =>
  bind (route_stage env d t info dm) (fun _ =>
  bind get_ctx (fun c =>
  bind (handle_mode_a_dispatch_policy env (c_dispatch_policy c) info dm) (fun _ => ret false))))).
Lemma judge_on_same d t info dm body : respects same_request (judge_on d t info dm body).
Proof.
  unfold judge_on. pose proof (intercept_same env d t info dm body). apply respects_bind; [apply _|by intros s|intros ?].
  apply respects_bind; [apply _|apply fingerprint_same|intros ?]. apply respects_bind; [apply _|apply route_same|intros ?].
  apply respects_bind; [apply _|by intros s|intros ?]. apply respects_bind; [apply _|apply policy_same|intros ?]. by intros s.
Qed.
Lemma judge_on_so (d : dynamic) t info dm w id h (s0 : session) (s : state) :
  going s -> Forall quiet (log s) -> c_response_parts (ctx s) = None -> request_info (ctx s) = Some info ->
  world s = w -> c_request_id (ctx s) = id -> c_hlc (ctx s) = h ->
  req (sess s) = stamped id (to_compact_string h) (c_app_id (ctx s)) (req s0) -> buffer (ctx s) = request_body s0 ->
  wp (judge_on d t info dm (buffer (ctx s))) (fun b => judged_so d w id h s0 (Ok b)) (judged_so d w id h s0) s.
Proof.
  intros Hg Hq Hp Hi Hw Hid Hh Hr Hb.
  pose proof (judged_here d w id h _ info s0 s Hw Hid Hh eq_refl Hr Hb) as Hj.
  destruct (judged d w id h (c_app_id (ctx s)) info s0) as [|r0|hs b|rule tag reason] eqn:Ej.
  2: { unfold judge_on. apply wp_bind. eapply wp_mono; [by apply (intercept_contains env d t info dm _ r0 (fun _ _ => False))|done|].
    intros res s' (Hres & Hrej & Hi' & Ha') info' r. rewrite Hi', Hi, Ha'. intros [= <-]. rewrite Ej. by intros [= <-]. }
  all: eapply wp_mono; [apply (respects_wp same_request), judge_on_same| |];
    intros res s' [Hi' Ha'] info' r; rewrite Hi', Hi, Ha'; intros [= <-]; by rewrite Ej.
Qed.
Lemma request_filter_judges g (d : dynamic) t (s : state) :
  undecoded s -> clean s -> Forall quiet (log s) -> c_response_parts (ctx s) = None -> buffer (ctx s) = "" ->
  wp (request_filter env g d t) (fun b => judged_so d (world s) (c_request_id (ctx s)) (c_hlc (ctx s)) (sess s) (Ok b))
    (judged_so d (world s) (c_request_id (ctx s)) (c_hlc (ctx s)) (sess s)) s.
Proof.
  intros Hu Hc Hq Hp Hb. set (w := world s). set (id := c_request_id (ctx s)). set (h := c_hlc (ctx s)).
  assert (Hn : request_info (ctx s) = None) by by destruct Hu as (_ & _ & ? & _).
  assert (Hstop : forall res s1 s2, request_info (ctx s1) = None -> calm s1 s2 -> judged_so d w id h (sess s) res s2).
  { intros res s1 s2 Hs1 [[Hi _] _]. apply undecided. congruence. }
  unfold request_filter. fold (judge_on d t).
  apply wp_bind. eapply wp_mono; [apply wp_and; [by apply edge_stage_ok|apply (respects_wp calm), edge_calm]| |].
  2: { intros res s' [_ Hca]. by eapply Hstop. }
  intros ? ? [-> _]. apply wp_bind. unfold stamp_stage.
  apply wp_bind, wp_get_ctx, wp_modify_sess. set (s1 := update_sess _ s). destruct (stamp_stage_ok s Hu) as [Hu1 Hc1]. specialize (Hc1 Hc).
  change (undecoded s1) in Hu1. change (clean s1) in Hc1.
  assert (Hr1 : req (sess s1) = stamped id (to_compact_string h) (c_app_id (ctx s)) (req (sess s))) by done.
  apply wp_bind. eapply wp_mono; [apply wp_and; [by apply explicit_key_stage_ok|apply wp_and; [apply (respects_wp calm), explicit_calm|
    apply wp_and; [apply frames_wp, explicit_frames|apply (respects_wp same_buffer), explicit_buffer]]]| |].
  2: { intros res s' (_ & Hca & _). by eapply (Hstop _ s1). }
  intros ? s2 (Hu2 & Hca2 & [Hse2 _] & Hb2).
  apply wp_bind. eapply wp_mono; [apply wp_and; [by apply body_stage_ok|apply wp_and; [apply (respects_wp calm), body_calm|
    apply wp_and; [apply frames_wp, body_frames|apply body_reads; rewrite Hb2; exact Hb]]]| |].
  2: { intros res s' (_ & Hca & _). eapply (Hstop _ s1); [done|by etransitivity]. }
  intros ? s3 (Hu3 & Hca3 & [Hse3 _] & Hb3). assert (Hca : calm s1 s3) by by etransitivity. clear Hca2 Hca3.
  rewrite Hse2 in Hse3, Hb3.
  apply wp_bind. eapply wp_mono; [apply wp_and; [by apply decode_stage_ok|apply decode_gives]| |by intros ? ? [_ []]].
  intros [[[info dm] body]|] s4 [Hd4 Hg4]; [|subst s4; wp_steps; by eapply (Hstop _ s1)].
  destruct Hd4 as [Hgo Hi4]. destruct Hg4 as (Hca4 & Hse4 & Hbu4 & ->).
  destruct Hca as ((_ & Ha) & Hid & Hh & Hpa & _ & Hwo & Hqu). destruct Hca4 as ((_ & Ha4) & Hid4 & Hh4 & Hpa4 & _ & Hwo4 & Hqu4).
  cbn [ctx set_info c_app_id c_request_id c_hlc c_response_parts world log] in *.
  change (world s3 = w) in Hwo. change (c_request_id (ctx s3) = id) in Hid. change (c_hlc (ctx s3) = h) in Hh.
  change (c_response_parts (ctx s3) = c_response_parts (ctx s)) in Hpa. change (c_app_id (ctx s3) = c_app_id (ctx s)) in Ha.
  change (buffer (ctx s3) = request_body (sess s)) in Hb3.
  apply judge_on_so; [done|auto|congruence|done|congruence..| |congruence].
  rewrite Hse4, Hse3, Hr1, Ha4, Ha. done.
Qed.

(** The first phase finds the application and the service. *)
Definition found (s s' : state) : Prop :=
  sess s' = sess s /\ world s' = world s /\ log s' = log s /\ request_info (ctx s') = request_info (ctx s) /\
  c_request_id (ctx s') = c_request_id (ctx s) /\ c_hlc (ctx s') = c_hlc (ctx s) /\
  c_response_parts (ctx s') = c_response_parts (ctx s) /\ buffer (ctx s') = buffer (ctx s).
#[local] Instance found_preorder : PreOrder found.
Proof. split; [by intros s|]. intros s1 s2 s3. unfold found. intuition congruence. Qed.
Lemma assign_found (d : dynamic) app : respects found (modify (assign_app d app)).
Proof. intros s. cbn. unfold assign_app. repeat case_match; done. Qed.
#[local] Hint Resolve assign_found : respects.
Lemma early_found g (d : dynamic) : respects found (early_request_filter env g d).
Proof. unfold early_request_filter. respect. Qed.

Lemma before_logging_judges g (loads : phase -> dynamic) t id h chunks up s (w : W) info r :
  let st := snd (before_logging env g loads t id h chunks up s w) in
  request_info (ctx st) = Some info ->
  judged (loads OnRequest) w id h (c_app_id (ctx st)) info s = Reject r -> rejected env r st.
Proof.
  cbv zeta. unfold before_logging. set (s0 := St s _ w []).
  assert (Hc : clean s0) by done. assert (Hu : undecoded s0) by (split_and!; [done|by left|done|by left]).
  pose proof (early_ok env g (loads OnEarly) s0 Hu Hc) as He. pose proof (early_found g (loads OnEarly) s0) as Hf.
  unfold wp in He. unfold run. destruct (early_request_filter env g (loads OnEarly) s0) as [[b|res] s1]; cbn [snd] in Hf;
    destruct Hf as (Hse & Hwo & Hlo & Hin & Hid & Hh & Hpa & Hbu).
  2: { destruct He as [Hr _]. destruct res as [|e]; [done|]. cbn [snd]. by rewrite Hin. }
  destruct He as [Hu1 Hc1].
  pose proof (request_filter_judges g (loads OnRequest) t s1 Hu1 Hc1) as Hj. rewrite Hlo, Hpa, Hbu, Hwo, Hid, Hh, Hse in Hj.
  specialize (Hj (Forall_nil_2 _) eq_refl eq_refl). unfold wp in Hj.
  assert (Hon : forall s2, judged_so (loads OnRequest) w id h s (Ok false) s2 ->
    let st := snd (proxy_stage g loads t chunks up s2) in
    request_info (ctx st) = Some info -> judged (loads OnRequest) w id h (c_app_id (ctx st)) info s = Reject r -> rejected env r st).
  { intros s2 Hj2. cbv zeta. destruct (proxy_stage_same g loads t chunks up s2) as [-> ->]. intros Hi Hr.
    by destruct (Hj2 info r Hi Hr) as [[] _]. }
  destruct (request_filter env g (loads OnRequest) t s1) as [[b'|[b'|e]] s2]; cbn [snd];
    [destruct b'|destruct b'|]; cbn [snd]; try (by apply Hon); intros Hi Hr; by eapply Hj.
Qed.

(** Logging a request that was rejected. *)
Lemma contained_push r e (s : state) : Forall (contained r) (log s) -> contained r e -> Forall (contained r) (log (push e s)).
Proof. intros Hl He. apply Forall_app. split; [done|by apply Forall_singleton]. Qed.
Lemma log_failure_contains t dm info resp msg r (s : state) : idempotency_key (ctx s) = None -> Forall (contained r) (log s) ->
  wp (log_failure env t dm info resp msg) (fun _ s' => Forall (contained r) (log s')) never s.
Proof.
  intros Hk Hl. unfold log_failure, release_held, send_terminal. wp_steps. rewrite Hk. wp_steps.
  destruct (suppressed _); wp_steps; [done|]. by apply contained_push.
Qed.
Lemma logging_contains g t1 t2 error r (s : state) :
  idempotency_key (ctx s) = None -> c_response_parts (ctx s) = None -> Forall (contained r) (log s) ->
  wp (logging env g t1 t2 error) (fun _ s' => Forall (contained r) (log s')) never s.
Proof.
  intros Hk Hp Hl. unfold logging. wp_steps. destruct (service (ctx s)) as [sv|]; [|by wp_steps]. wp_steps.
  assert (Hcont : forall s1 : state, idempotency_key (ctx s1) = None -> c_response_parts (ctx s1) = None -> Forall (contained r) (log s1) ->
    wp (dispatch_logging env t2 error (dispatch_method sv)) (fun _ s' => Forall (contained r) (log s')) never s1).
  { intros s1 Hk1 Hp1 Hl1. unfold dispatch_logging. wp_steps.
    destruct (is_replay _); [by wp_steps|]. destruct (is_mode_b_terminated _); [by wp_steps|].
    destruct (_ || _); [by wp_steps|]. wp_steps. destruct (logging_topic _ _ _ _) as [tp|]; [|by wp_steps].
    wp_steps. unfold log_outcome. destruct error as [e|]; [|wp_steps; cbn [ctx update set_topic set_info c_response_parts]; rewrite Hp1];
      (eapply wp_mono; [by apply log_failure_contains|intros ? s' Hs'; by wp_steps|done]). }
  destruct (negb _ && _ && _); [|wp_steps; by apply Hcont].
  unfold record_traffic_event. destruct error as [e|]; wp_steps; (apply Hcont; [done..|]); by apply contained_push.
Qed.

Lemma contained_when_rejected g (loads : phase -> dynamic) t id h chunks up s (w : W) info r :
  let before := snd (before_logging env g loads t id h chunks up s w) in
  request_info (ctx before) = Some info ->
  judged (loads OnRequest) w id h (c_app_id (ctx before)) info s = Reject r ->
  Forall (contained r) (log (serve env g loads t id h chunks up s w)) /\ Forall (only_rejection env) (log before).
Proof.
  cbv zeta. intros Hi Hr. pose proof (before_logging_judges g loads t id h chunks up s w info r Hi Hr) as (Hk & Hp & Hl & Ho).
  unfold serve. destruct (before_logging env g loads t id h chunks up s w) as [error st]. cbn [snd] in *.
  split; [|done]. pose proof (logging_contains g t t error r st Hk Hp Hl) as Hlog. unfold wp in Hlog.
  by destruct (logging env g t t error st) as [[[]|res] st'].
Qed.

(** ** Properties *)

(** C3. A request the interceptors reject is contained.  Whatever it is, and whatever the
    rest of the configuration: it is not forwarded, no answer is kept for its key, no
    response is given but the rejection, and before its end the broker is sent nothing
    but the rejection. *)
Theorem rejected_is_contained g (loads : phase -> dynamic) t id h chunks up s (w : W) info r :
  let before := snd (before_logging env g loads t id h chunks up s w) in
  request_info (ctx before) = Some info ->
  judged (loads OnRequest) w id h (c_app_id (ctx before)) info s = Reject r ->
  Forall (contained r) (log (serve env g loads t id h chunks up s w)) /\ Forall (only_rejection env) (log before).
Proof. apply contained_when_rejected. Qed.
End Phases.

Section Access.
Context `{HttpLib, JsonText, Unicode, GqlParser, LruLib, AuthLib, CelLib, RegexLib}.
Context {W : Type} `{Clocks W, WasmTypes, !WasmLib W}.
Context {SocketAddr : Type}.
Abbreviation state := (state (W := W) (SocketAddr := SocketAddr)).
Abbreviation event := (event (SocketAddr := SocketAddr)).
Abbreviation dynamic := (DynamicGatewayState (W := W) (SocketAddr := SocketAddr)).
Context (env : surroundings (SocketAddr := SocketAddr)).

(** ** Access control in front *)

Lemma stamped_token id hlc app (r : HttpRequestInfo) : bearer_token (headers (stamped id hlc app r)) = bearer_token (headers r).
Proof. unfold bearer_token, header_str. cbn [headers stamped]. by rewrite !append_header_other. Qed.
(** A first interceptor that rejects decides for the whole pipeline. *)
Lemma first_rejects (i : RequestInterceptor W) js w ictx parts body r :
  q_verdict (i w ictx parts body) = Reject r -> q_verdict (request_pipeline (i :: js) w ictx parts body) = Reject r.
Proof. intros Hv. unfold request_pipeline. cbn. by rewrite Hv. Qed.

(** C2. Access control of the requests from which the gateway decoded a GraphQL
    operation, through all phases of their handling.  The running configuration has
    an access-control interceptor as its first and denies what it does not list for
    operations of this type. Then the operation is exempt by its name, or the
    request's own token proves an identity (verified, or found in the token cache)
    with a role granted that operation, or the request is contained, with 401 for a
    caller without identity and 403 for one without the role.  Requests without a
    decoded operation are not covered, and are not controlled: a batch of operations,
    or a body or path the gateway does not decode, is forwarded without being asked
    for anything ([unread_requests_pass]), and a request whose idempotency key has a
    stored answer is given that answer before anybody is asked
    ([replays_ask_nobody]). *)
Theorem access_is_granted_or_contained g (loads : phase -> dynamic) t id h chunks up s (w : W) info gi rb js :
  let before := snd (before_logging env g loads t id h chunks up s w) in
  global_request_pipeline (interceptor_manager (loads OnRequest)) = rbac rb :: js ->
  policy_mode rb (Some (operation_type gi)) = DenyUnlisted ->
  request_info (ctx before) = Some info -> Protocol.gql info = Some gi ->
  let op := default "" (operation_name gi) in
  op ∈ unauthenticated_ops rb \/
  (exists c, identity rb w (req_headers s) = Ok c /\ role_granted rb op c) \/
  exists r, rj_status_code r = (match identity rb w (req_headers s) with Ok _ => 403 | Err _ => 401 end)%Z /\
    Forall (contained r) (log (serve env g loads t id h chunks up s w)) /\ Forall (only_rejection env) (log before).
Proof.
  cbv zeta. intros Hjs Hmode Hi Hg. set (before := snd _) in *.
  set (parts := stamped id (to_compact_string h) (c_app_id (ctx before)) (req s)).
  set (ictx := interceptor_context (new_ctx (loads OnRequest) id h) info).
  assert (Hc : ctx_operation_name ictx = operation_name gi /\ ctx_operation_type ictx = Some (operation_type gi))
    by (unfold ictx, interceptor_context; by rewrite Hg). destruct Hc as [Hname Htype].
  assert (Hid : identity rb w (headers parts) = identity rb w (req_headers s))
    by (unfold identity, parts; by rewrite stamped_token).
  destruct (rbac_zero_trust rb w ictx parts (request_body s)) as [Hpass Hdeny]; [by rewrite Htype|].
  unfold op_of in Hpass. rewrite Hname, Hid in Hpass. rewrite Hid in Hdeny.
  assert (Hv : q_verdict (rbac rb w ictx parts (request_body s)) = Pass \/
               q_verdict (rbac rb w ictx parts (request_body s)) <> Pass) by (destruct (q_verdict _); [by left|by right..]).
  destruct Hv as [Hv|Hv]; [apply Hpass in Hv; tauto|].
  right. right. destruct (Hdeny Hv) as (status & code & msg & Hrej & Hst). exists (rejection_new status code msg).
  split; [exact Hst|]. apply (contained_when_rejected env g loads t id h chunks up s w info); [done|].
  unfold judged. unfold get_request_pipeline. rewrite Hjs. by apply first_rejects.
Qed.
End Access.

Section Around.
Context `{HttpLib, JsonText, Unicode, GqlParser, LruLib, AuthLib, CelLib, RegexLib}.
Context {W : Type} `{Clocks W, WasmTypes, !WasmLib W}.
Context {SocketAddr : Type}.
Abbreviation state := (state (W := W) (SocketAddr := SocketAddr)).
Abbreviation event := (event (SocketAddr := SocketAddr)).
Abbreviation dynamic := (DynamicGatewayState (W := W) (SocketAddr := SocketAddr)).
Context (env : surroundings (SocketAddr := SocketAddr)).

(** ** Around the interceptors *)

(** A request for a service, which no edge filter answers. *)
Definition addressed (g : gateway) (s : session) (handle : nat) (sc : ServiceConfig) : Prop :=
  not_edge env g s /\ service_at env (path_of s) = Some handle /\ upstream_services g !! handle = Some sc.
Lemma early_addressed g (d : dynamic) s handle sc id h (d0 : dynamic) (w : W) : addressed g s handle sc ->
  exists c, early_request_filter env g d (St s (new_ctx d0 id h) w []) = (Go false, St s c w []) /\
    request_info c = None /\ buffer c = "" /\ c_request_id c = id /\ c_hlc c = h /\
    service_handle c = Some handle /\ service c = Some (sc_service sc).
Proof.
  intros ((Hh & Hf & Ha & _) & Hat & Hsc). unfold early_request_filter, bind, get_sess, modify, ret. cbn [sess].
  rewrite Hh, Hf, Ha, Hat, Hsc. cbn [ctx sess world log]. eexists. split; [done|]. unfold assign_app. repeat case_match; done.
Qed.
(** The engine lets the request through: it has no key, or its key is new. *)
Definition let_through (s : session) : Prop :=
  match extract_idempotency_key (req_headers s) with Some k => forall h, claim env k h = New | None => True end.
(** The gateway finds nothing to decode in what it reads of the body. *)
Definition unread (sc : ServiceConfig (SocketAddr := SocketAddr)) (id : string) (h : HlcTimestamp) (s : session) : Prop :=
  (method (req s) = "POST" -> snd (read_chunks MAX_GATEWAY_BODY_BYTES "" (chunks s)) = Ok false) /\
  (request_body s = "" \/ utf8_valid (request_body s) = false \/
   forall app, is_ok (decode_request (request_protocol (sc_service sc)) id h
                        (stamped id (to_compact_string h) app (req s)) (request_body s)) = false).

(** Through the request filter without a word from the interceptors. *)
Lemma request_filter_unread g (d : dynamic) t handle sc id h (s : session) (c : proxy_ctx) (w : W) :
  addressed g s handle sc -> let_through s -> unread sc id h s ->
  buffer c = "" -> c_request_id c = id -> c_hlc c = h -> service_handle c = Some handle -> service c = Some (sc_service sc) ->
  wp (request_filter env g d t) (fun b s' => b = false /\ service_handle (ctx s') = Some handle /\
      req (sess s') = stamped id (to_compact_string h) (c_app_id c) (req s)) never (St s c w []).
Proof.
  intros [He _] Hk [Hread Hun] Hb <- <- Hsh Hsv. unfold request_filter. apply wp_bind. apply edge_stage_passes; [done|].
  apply wp_bind. unfold stamp_stage. apply wp_bind, wp_get_ctx, wp_modify_sess. set (s1 := update_sess _ _).
  assert (Hrest : forall s2, sess s2 = sess s1 -> buffer (ctx s2) = "" -> service (ctx s2) = Some (sc_service sc) ->
    service_handle (ctx s2) = Some handle -> c_request_id (ctx s2) = c_request_id c -> c_hlc (ctx s2) = c_hlc c ->
    wp body_stage (fun _ => wp (bind (decode_stage env d) (fun decoded => match decoded with
        | None => ret false
        | Some (info, dm, body) => judge_on env d t info dm body
        end)) (fun b s' => b = false /\ service_handle (ctx s') = Some handle /\
          req (sess s') = stamped (c_request_id c) (to_compact_string (c_hlc c)) (c_app_id c) (req s)) never) never s2).
  { intros s2 Hse Hb2 Hsv2 Hsh2 Hi2 Hh2.
    assert (Hbody : wp body_stage (fun _ s' => s' = update (set_buffer (request_body s)) s2 \/ (s' = s2 /\ request_body s = "")) never s2).
    { unfold body_stage, request_body. wp_steps. rewrite Hse. cbn [sess s1 update_sess with_headers req method chunks].
      destruct (String.eqb_spec (method (req s)) "POST") as [Hp|]; wp_steps; [|by right]. rewrite Hb2.
      specialize (Hread Hp). destruct (read_chunks _ _ _) as [b tl]. cbn [snd fst] in *. subst tl. wp_steps. by left. }
    eapply wp_mono; [exact Hbody| |done]. intros ? s3 Hs3. apply wp_bind.
    assert (Hs3' : buffer (ctx s3) = request_body s /\ sess s3 = sess s1 /\ service (ctx s3) = Some (sc_service sc) /\
      service_handle (ctx s3) = Some handle /\ c_request_id (ctx s3) = c_request_id c /\ c_hlc (ctx s3) = c_hlc c).
    { destruct Hs3 as [->|[-> Hrb]]; split_and!; try done. congruence. }
    destruct Hs3' as (Hb3 & Hse3 & Hsv3 & Hsh3 & Hi3 & Hh3). clear Hs3 Hbody.
    unfold decode_stage. wp_steps. rewrite Hb3. destruct (String.eqb_spec (request_body s) "") as [|Hne]; [wp_steps; by rewrite Hse3|].
    destruct Hun as [|Hun]; [done|]. destruct (utf8_valid (request_body s)); cbn [negb]; [|wp_steps; by rewrite Hse3].
    destruct Hun as [|Hun]; [done|]. rewrite Hsv3. wp_steps. rewrite Hi3, Hh3, Hse3. specialize (Hun (c_app_id c)).
    change (req (sess s1)) with (stamped (c_request_id c) (to_compact_string (c_hlc c)) (c_app_id c) (req s)).
    destruct (decode_request _ _ _ _ _); [done|]. wp_steps. by rewrite Hse3. }
  unfold explicit_key_stage, handle_explicit_key, check_or_insert. fold (judge_on env d t). wp_steps.
  unfold let_through in Hk.
  match goal with |- context [extract_idempotency_key ?hs] =>
    assert (extract_idempotency_key hs = extract_idempotency_key (req_headers s)) as -> by apply stamped_key end.
  destruct (extract_idempotency_key (req_headers s)) as [k|]; wp_steps; [rewrite Hk|]; cbn [intercept_outcome]; wp_steps;
    cbn [after_claim]; wp_steps; by apply Hrest.
Qed.

(** The log only grows. *)
Definition grows (s s' : state) : Prop := forall e, e ∈ log s -> e ∈ log s'.
#[local] Instance grows_preorder : PreOrder grows.
Proof. split; [by intros s e|]. intros s1 s2 s3 H12 H23 e Hin. by apply H23, H12. Qed.
Lemma emit_grows e : respects grows (emit e).
Proof. intros s e' Hin. apply elem_of_app. by left. Qed.
Lemma modify_grows f : respects grows (modify f).
Proof. by intros s e. Qed.
#[local] Hint Resolve emit_grows modify_grows : respects.
Lemma logging_grows g t1 t2 error : respects grows (logging env g t1 t2 error).
Proof.
  unfold logging, record_traffic_event, dispatch_logging, log_outcome, log_failure, log_success, release_held, send_terminal,
    dispatch, complete, remove. respect.
Qed.

(** What the gateway does not decode, no interceptor sees.  A request for a service
    with another method than POST, or whose body is empty, is not text, or is not one
    GraphQL operation the gateway can read (a batch, a persisted query) is forwarded
    with the gateway's headers whatever interceptors are configured, access control
    included. *)
Theorem unread_requests_pass g (loads : phase -> dynamic) t id h chunks up s (w : W) handle sc :
  addressed g s handle sc -> let_through s -> unread sc id h s ->
  exists a app, Forwarded a (stamped id (to_compact_string h) app (req s)) ∈ log (serve env g loads t id h chunks up s w).
Proof.
  intros Ha Hk Hun. unfold serve, before_logging, run.
  destruct (early_addressed g (loads OnEarly) s handle sc id h (loads OnNew) w Ha)
    as (c & -> & Hi & Hb & Hid & Hh & Hsh & Hsv).
  pose proof (request_filter_unread g (loads OnRequest) t handle sc id h s c w Ha Hk Hun Hb Hid Hh Hsh Hsv) as Hr.
  unfold wp in Hr. destruct (request_filter env g (loads OnRequest) t (St s c w [])) as [[b|r] s2]; [|done].
  destruct Hr as (-> & Hsh2 & Hreq).
  assert (Hpeer : exists a, upstream_peer g (loads OnPeer) (ctx s2) = Ok a).
  { unfold upstream_peer. destruct (target_upstream_addr (ctx s2)) as [a|]; [by exists a|].
    destruct (_ !! _) as [a|]; [by exists a|]. rewrite Hsh2. destruct Ha as (_ & _ & ->). by eexists. }
  destruct Hpeer as [a Hpeer]. exists a, (c_app_id c).
  assert (Hf : Forwarded a (req (sess s2)) ∈ log (snd (proxy_stage g loads t chunks up s2))).
  { unfold proxy_stage. rewrite Hpeer. destruct up as [e|head body error]; [cbn; set_solver|].
    destruct (response_filter _ _ _) as [head' c1]. destruct (relay _ _ _ _ _ _) as [[outs w'] c2]. cbn. set_solver. }
  destruct (proxy_stage g loads t chunks up s2) as [error st]. cbn [snd] in Hf. rewrite <- Hreq.
  by apply (logging_grows g t t error st).
Qed.

(** A replay asks nobody: whoever sends a request with the key of a finished one gets
    that one's answer, status and body, before its body is read and before any
    interceptor, access control included, is run; nothing else happens. *)
Theorem replays_ask_nobody g (loads : phase -> dynamic) t id h chunks up s (w : W) handle sc k h' code stored body :
  addressed g s handle sc -> extract_idempotency_key (req_headers s) = Some k ->
  claim env k h = Replay h' code stored body -> connected s = true -> (100 <= code <= 999)%Z ->
  let st := serve env g loads t id h chunks up s w in
  world st = w /\
  exists fields rec, log st = [Claimed k (Replay h' code stored body); Replied (Reply code fields body); Recorded rec].
Proof.
  intros Ha Hk Hc Hon Hcode. cbv zeta. unfold serve, before_logging, run.
  destruct (early_addressed g (loads OnEarly) s handle sc id h (loads OnNew) w Ha)
    as (c & -> & Hi & Hb & Hid & Hh & Hsh & Hsv).
  assert (Hr : wp (request_filter env g (loads OnRequest) t) (fun _ _ => False) (fun r s' => r = Ok true /\ world s' = w /\
      is_replay (ctx s') = true /\ exists fields rec,
      log s' = [Claimed k (Replay h' code stored body); Replied (Reply code fields body); Recorded rec]) (St s c w [])).
  { unfold request_filter. apply wp_bind. apply edge_stage_passes; [by destruct Ha|].
    apply wp_bind. unfold stamp_stage. apply wp_bind, wp_get_ctx, wp_modify_sess.
    unfold explicit_key_stage, handle_explicit_key, check_or_insert. wp_steps.
    match goal with |- context [extract_idempotency_key ?hs] =>
      assert (extract_idempotency_key hs = Some k) as -> by (rewrite <- Hk; apply stamped_key) end.
    wp_steps. cbn [ctx update_sess]. rewrite Hh, Hc. cbn [intercept_outcome]. unfold write_replay_response. wp_steps.
    apply wp_reply; [done|]. intros b s' Hse Hct Hlo Hwo. wp_steps. cbn [after_claim]. unfold record_traffic_event. wp_steps.
    split_and!; try done. cbn [log push update]. rewrite Hlo. unfold reply_to. cbn [sess push update_sess with_headers connected].
    rewrite Hon. by do 2 eexists. }
  unfold wp in Hr. destruct (request_filter env g (loads OnRequest) t (St s c w [])) as [[b|r] s2]; [done|].
  destruct Hr as (-> & Hw & Hre & fields & rec & Hlo).
  unfold logging, bind, get_ctx, get_sess, ret. destruct (service (ctx s2)) as [sv|]; cbn [snd]; [|by eauto].
  rewrite Hre. cbn [negb andb]. rewrite andb_false_r. unfold dispatch_logging, bind, get_ctx, get_sess, modify, ret. cbn.
  rewrite Hre. cbn. by eauto.
Qed.
End Around.

(** ** A guarded gateway *)

Section Witnesses.
#[local] Existing Instances list_http ascii_tables bits_json_text list_lru demo_auth_lib demo_cel demo_types
  demo_wasm publish_gql manager_clocks no_match_regex.

#[local] Abbreviation publish_served s :=
  (before_logging (guarded_env New) guarded_gateway guarded_loads demo_at "r1" (HLC 0 0) [] (UpFails "down") s demo_mworld).
Definition publish_info (s : session) : RequestInfo :=
  default demo_info (request_info (ctx (snd (publish_served s)))).

Lemma publish_known s : match request_info (ctx (snd (publish_served s))) with Some _ => true | None => false end = true ->
  request_info (ctx (snd (publish_served s))) = Some (publish_info s).
Proof. unfold publish_info. by destruct (request_info _). Qed.

Lemma rejection_of v code : match v with Reject r => Z.eqb (rj_status_code r) code | _ => false end = true ->
  exists r, v = Reject r /\ rj_status_code r = code.
Proof. destruct v as [|r| |]; try done. intros Hc%Z.eqb_eq. by exists r. Qed.
Definition anonymous : session := publish_session [] publish_text.

(** Without a token the mutation is refused with 401, and contained. *)
Lemma rejected_is_contained_witness : exists r, rj_status_code r = 401%Z /\
  Forall (contained r) (log (serve (guarded_env New) guarded_gateway guarded_loads demo_at "r1" (HLC 0 0) [] (UpFails "down")
    anonymous demo_mworld)).
Proof.
  pose proof (rejected_is_contained (guarded_env New) guarded_gateway guarded_loads demo_at "r1" (HLC 0 0) [] (UpFails "down")
    anonymous demo_mworld (publish_info anonymous)) as Hc. cbv zeta in Hc.
  match type of Hc with forall r, _ -> judged ?d ?w ?i ?h ?a ?info ?s = _ -> _ =>
    destruct (rejection_of (judged d w i h a info s) 401) as (r & Hj & Hr); [vm_compute; reflexivity|] end.
  exists r. split; [exact Hr|]. apply Hc; [|exact Hj]. apply publish_known. vm_compute. reflexivity.
Defined.
(** With an editor's token it goes on, and only because of the token. *)
Lemma access_is_granted_or_contained_witness :
  let s := publish_session [("authorization", editor_token)] publish_text in
  exists c, identity guard_rbac demo_mworld (req_headers s) = Ok c /\ role_granted guard_rbac "publish" c.
Proof.
  intros s. assert (Hg : match Protocol.gql (publish_info s) with
    | Some gi => bool_decide (operation_name gi = Some "publish") && bool_decide (operation_type gi = Mutation)
    | None => false end = true) by (vm_compute; reflexivity).
  destruct (Protocol.gql (publish_info s)) as [gi|] eqn:Eg; [|done]. apply andb_true_iff in Hg as [Hn Ht].
  apply bool_decide_eq_true in Hn, Ht.
  destruct (access_is_granted_or_contained (guarded_env New) guarded_gateway guarded_loads demo_at "r1" (HLC 0 0) []
    (UpFails "down") s demo_mworld (publish_info s) gi guard_rbac []) as [Hin|[Hc|(r & _ & Hl & _)]];
    [reflexivity|by rewrite Ht|apply publish_known; vm_compute; reflexivity|exact Eg| |by rewrite Hn in Hc|].
  - exfalso. rewrite Hn in Hin. apply (bool_decide_eq_true_2 _) in Hin. by vm_compute in Hin.
  - exfalso. assert (Hf : existsb (fun e => match e with Forwarded _ _ => true | _ => false end)
      (log (serve (guarded_env New) guarded_gateway guarded_loads demo_at "r1" (HLC 0 0) [] (UpFails "down") s demo_mworld)) = true)
      by (vm_compute; reflexivity).
    apply existsb_exists in Hf as (e & He & Hf). apply list_elem_of_In in He. rewrite Forall_forall in Hl. specialize (Hl e He).
    by destruct e.
Defined.
(** A batch of mutations without a token is forwarded past the same access control. *)
Definition batch_session : session :=
  publish_session [] (json_to_string (JArray [JObject [("query", JString "mutation publish { publish }")]])).
Lemma unread_requests_pass_witness : exists a app,
  Forwarded a (stamped "r1" (to_compact_string (HLC 0 0)) app (req batch_session)) ∈
    log (serve (guarded_env New) guarded_gateway guarded_loads demo_at "r1" (HLC 0 0) [] (UpFails "down") batch_session demo_mworld).
Proof.
  eapply (unread_requests_pass (guarded_env New) guarded_gateway guarded_loads demo_at "r1" (HLC 0 0) [] (UpFails "down")
    batch_session demo_mworld 0).
  - split; [split_and!; reflexivity|]. split; reflexivity.
  - exact I.
  - split; [intros _; vm_compute; reflexivity|]. right. right. intros app. vm_compute. reflexivity.
Defined.
(** Someone else's answer, to a request without a token. *)
Definition replay_session : session := publish_session [("idempotency-key", "k1")] publish_text.
Lemma replays_ask_nobody_witness :
  existsb (fun e => match e with Replied r => String.eqb (rp_body r) "secret" | _ => false end)
    (log (serve (guarded_env (Replay (HLC 0 0) 200 [] "secret")) guarded_gateway guarded_loads demo_at "r2" (HLC 1 0) []
      (UpFails "down") replay_session demo_mworld)) = true.
Proof.
  destruct (replays_ask_nobody (guarded_env (Replay (HLC 0 0) 200 [] "secret")) guarded_gateway guarded_loads demo_at "r2"
    (HLC 1 0) [] (UpFails "down") replay_session demo_mworld 0
    (Service (Proxy (GraphQLDecoder (decoder_new "mutation")) (Webhook "http://sink")) "10.0.0.1:80" "/{*rest}")
    "k1" (HLC 0 0) 200 [] "secret") as (_ & fields & rec & Hl).
  - split; [split_and!; reflexivity|]. split; reflexivity.
  - reflexivity.
  - reflexivity.
  - reflexivity.
  - lia.
  - by rewrite Hl.
Defined.
End Witnesses.
