(* ===== verification/Fleet.v ===== *)
(** * Fleet: gateways that share one Redis server.

    The distributed idempotency engine at the grain the server sees it: one command at a
    time, of any request of any gateway, some of them lost.  A claim is two commands, so
    that others come in between.  What the server holds and what every claim is told is
    determined by the history of effects; and where that is weaker than the engine of
    one process. *)

From S2P Require Import Crowd.
From S2P Require Import Prelude Externals Clock Types Idempotency Sanitizer Protocol Telemetry Config.
From S2P Require Import Interceptors Auth Wasm Cel Manager Hub Access Traffic State Gateway Lifecycle Relay Guard.
Local Open Scope string_scope.
Local Open Scope Z_scope.

(** ** The two commands of a claim *)

Section Commands.
Context `{JsonText}.
Variable key_prefix : string.
Variable ttl_secs : Z.

(** The first command and what follows from its reply: an outcome, or the second
    command. @idempotency/mod.rs:198-239 IdempotencyEngine::check_or_insert *)
Definition redis_set_nx (connected : bool) (set_reply : Idempotency.reply) (now_set now_secs : Z) (key : string) (hlc : HlcTimestamp)
    (s : redis_store) : option IdempotencyOutcome * redis_store :=
  let k := redis_key key_prefix key in
  if negb connected then (Some New, s)
  else
    let set_nx :=
      match redis_get now_set k s with
      | Some _ => (false, s)
      | None => (true, <[k := (json_to_string (record_to_json (InProgress hlc now_secs)), now_set + Z.max ttl_secs 1)]> s)
      end in
    match set_reply with
    | LostRequest => (Some New, s)
    | LostReply => (Some New, snd set_nx)
    | Done => (if fst set_nx then Some New else None, snd set_nx)
    end.
(** The second. @idempotency/mod.rs:240-267 IdempotencyEngine::check_or_insert *)
Definition redis_query (get_ok : bool) (now_get : Z) (key : string) (s : redis_store) : IdempotencyOutcome :=
  if get_ok then redis_answer (redis_get now_get (redis_key key_prefix key) s) else New.
(** Undisturbed, they are the claim. *)
Lemma claim_is_two_commands connected set_reply get_ok now_set now_get now_secs key hlc s :
  redis_check_or_insert key_prefix ttl_secs connected set_reply get_ok now_set now_get now_secs key hlc s =
  match redis_set_nx connected set_reply now_set now_secs key hlc s with
  | (Some o, s') => (o, s')
  | (None, s') => (redis_query get_ok now_get key s', s')
  end.
Proof.
  unfold redis_check_or_insert, redis_set_nx, redis_query. destruct connected; cbn [negb]; [|done].
  destruct (redis_get now_set _ s), set_reply; cbn [fst snd]; try done. by destruct get_ok.
Qed.
End Commands.

(** ** What the history determines *)

(** An effect on a key, by a request: a claim decided by its first command, which took the
    key or not; a claim that found the key; what it was told then, by the server or by a
    failure; a kept answer and a removal, which reached the server or not. *)
Inductive deed :=
| Started (k : string) (h : HlcTimestamp) (took : bool)
| Refusal (k : string)
| Told (k : string) (o : IdempotencyOutcome) (heard : bool)
| Kept (k : string) (h : HlcTimestamp) (code : Z) (pairs : list (string * string)) (body : string) (reached : bool)
| Dropped (k : string) (reached : bool).
(** What a key holds. *)
Inductive slot :=
| Empty
| InFlight (h : HlcTimestamp)
| Answer (h : HlcTimestamp) (code : Z) (pairs : list (string * string)) (body : string).
Definition slot_answer (x : slot) : IdempotencyOutcome :=
  match x with
  | Empty => New
  | InFlight h => Conflict h
  | Answer h code pairs body => Replay h code pairs body
  end.
(** The last effect that reached the server; histories are newest first. *)
Fixpoint slot_of (k : string) (past : list (nat * deed)) : slot :=
  match past with
  | [] => Empty
  | (_, d) :: past =>
      match d with
      | Started k' h true => if String.eqb k' k then InFlight h else slot_of k past
      | Kept k' h code pairs body true => if String.eqb k' k then Answer h code pairs body else slot_of k past
      | Dropped k' true => if String.eqb k' k then Empty else slot_of k past
      | _ => slot_of k past
      end
  end.
(** Since request [i] found the key, it was removed. *)
Fixpoint dropped_since (i : nat) (k : string) (past : list (nat * deed)) : bool :=
  match past with
  | [] => false
  | (j, d) :: past =>
      match d with
      | Dropped k' true => String.eqb k' k || dropped_since i k past
      | Refusal k' => if Nat.eqb j i && String.eqb k' k then false else dropped_since i k past
      | _ => dropped_since i k past
      end
  end.
(** Every claim is decided as the history before it says: one takes the key only when the
    key is empty, finds it only when it is not, and is told what the key holds when it
    asks, which is nothing only when it was removed in between. *)
Definition explains (older : list (nat * deed)) (i : nat) (d : deed) : Prop :=
  match d with
  | Started k _ true => slot_of k older = Empty
  | Refusal k => slot_of k older <> Empty
  | Told k o true => o = slot_answer (slot_of k older) /\ (o = New -> dropped_since i k older = true)
  | Told k o false => o = New
  | _ => True
  end.
Fixpoint explained (past : list (nat * deed)) : Prop :=
  match past with
  | [] => True
  | (i, d) :: older => explains older i d /\ explained older
  end.

(** How often a key was taken, removed, and found gone. *)
Definition takes (k : string) (e : nat * deed) : bool :=
  match e.2 with Started k' _ true => String.eqb k' k | _ => false end.
Definition drops (k : string) (e : nat * deed) : bool :=
  match e.2 with Dropped k' true => String.eqb k' k | _ => false end.
Definition finds_nothing (k : string) (e : nat * deed) : bool :=
  match e.2 with Told k' New true => String.eqb k' k | _ => false end.
Definition times (p : nat * deed -> bool) (past : list (nat * deed)) : nat := length (List.filter p past).

(** Without removals a key is taken once and never found gone. *)
Lemma never_dropped k past : explained past -> times (drops k) past = 0%nat ->
  (times (takes k) past <= match slot_of k past with Empty => 0 | _ => 1 end)%nat /\ times (finds_nothing k) past = 0%nat /\
  forall i, dropped_since i k past = false.
Proof.
  unfold times. induction past as [|[i d] past IH]; cbn [explained List.filter]; [intros _ _; split_and!; [cbn; lia|done..]|].
  intros [Hd He] Hn. unfold takes, drops, finds_nothing in *. destruct d as [k' h took|k'|k' o heard|k' h code pairs body reached|k' reached];
    cbn [snd slot_of dropped_since explains] in *.
  - destruct (IH He Hn) as (Ht & Hf & Hs). destruct took; [|done]. destruct (String.eqb_spec k' k) as [->|]; [|done].
    cbn [length]. rewrite Hd in Ht. split_and!; [lia|done..].
  - destruct (IH He Hn) as (Ht & Hf & Hs). split_and!; [done..|]. intros i'. by destruct (_ && _).
  - destruct (IH He Hn) as (Ht & Hf & Hs). destruct heard; [|by destruct o]. destruct Hd as [-> Hd].
    destruct (slot_of k' past) eqn:Es; cbn [slot_answer] in *; try done.
    destruct (String.eqb_spec k' k) as [->|]; [|done]. specialize (Hd eq_refl). by rewrite Hs in Hd.
  - destruct (IH He Hn) as (Ht & Hf & Hs). destruct reached; [|done]. destruct (String.eqb k' k); [|done].
    split_and!; [|done..]. destruct (slot_of k past); lia.
  - destruct reached; [|by apply IH]. destruct (String.eqb k' k); [done|]. cbn [orb]. by apply IH.
Qed.

(** ** Requests of any gateway over the server *)

Section Fleet.
Context `{HttpLib, JsonText} {SocketAddr : Type}.
Abbreviation event := (event (SocketAddr := SocketAddr)).
Variable key_prefix : string.
Variable ttl_secs : Z.
(** The timestamp of every request. *)
Variable stamps : nat -> HlcTimestamp.

(** The server, what each request has still to do, who asks for a key it found, the
    server's clock, and the effects so far. *)
Record fleet := Fleet {
  server : redis_store;
  todo : gmap nat (list event);
  asking : gmap nat string;
  time : Z;
  past : list (nat * deed)
}.
(** A command reaches the server unless the connection or the request is lost. *)
Definition reaches (connected : bool) (r : Idempotency.reply) : bool :=
  connected && match r with LostRequest => false | _ => true end.
Definition free_at (now : Z) (k : string) (s : redis_store) : bool :=
  match redis_get now (redis_key key_prefix k) s with None => true | Some _ => false end.
(** One command of one request, no earlier than the one before; the records that are
    written fit their types. *)
Inductive fleet_step : fleet -> fleet -> Prop :=
| first_command c i k o rest connected r now secs s' :
    todo c !! i = Some (Claimed k o :: rest) -> asking c !! i = None -> time c <= now ->
    record_wf (InProgress (stamps i) secs) = true ->
    redis_set_nx key_prefix ttl_secs connected r now secs k (stamps i) (server c) = (Some o, s') ->
    fleet_step c (Fleet s' (<[i := rest]> (todo c)) (asking c) now
      ((i, Started k (stamps i) (reaches connected r && free_at now k (server c))) :: past c))
| key_found c i k o rest connected r now secs s' :
    todo c !! i = Some (Claimed k o :: rest) -> asking c !! i = None -> time c <= now ->
    record_wf (InProgress (stamps i) secs) = true ->
    redis_set_nx key_prefix ttl_secs connected r now secs k (stamps i) (server c) = (None, s') ->
    fleet_step c (Fleet s' (todo c) (<[i := k]> (asking c)) now ((i, Refusal k) :: past c))
| second_command c i k o rest get_ok now :
    todo c !! i = Some (Claimed k o :: rest) -> asking c !! i = Some k -> time c <= now ->
    redis_query key_prefix get_ok now k (server c) = o ->
    fleet_step c (Fleet (server c) (<[i := rest]> (todo c)) (delete i (asking c)) now ((i, Told k o get_ok) :: past c))
| keeps c i k h code pairs body rest connected r now secs :
    todo c !! i = Some (Finished k h code pairs body :: rest) -> time c <= now ->
    record_wf (Completed h code pairs body secs) = true ->
    fleet_step c (Fleet (redis_complete key_prefix ttl_secs connected r now secs k h code pairs body (server c))
      (<[i := rest]> (todo c)) (asking c) now ((i, Kept k h code pairs body (reaches connected r)) :: past c))
| removes c i k rest connected r now :
    todo c !! i = Some (Released k :: rest) -> time c <= now ->
    fleet_step c (Fleet (redis_remove key_prefix connected r k (server c))
      (<[i := rest]> (todo c)) (asking c) now ((i, Dropped k (reaches connected r)) :: past c)).

(** The server's entry of a key, for what the history says it holds. *)
Definition entry_of (t0 : Z) (rec : IdempotencyRecord) (e : option (string * Z)) : Prop :=
  record_wf rec = true /\ exists exp, e = Some (json_to_string (record_to_json rec), exp) /\ t0 + Z.max ttl_secs 1 <= exp.
Definition holds (t0 : Z) (x : slot) (e : option (string * Z)) : Prop :=
  match x with
  | Empty => e = None
  | InFlight h => exists secs, entry_of t0 (InProgress h secs) e
  | Answer h code pairs body => exists secs, entry_of t0 (Completed h code pairs body secs) e
  end.
Definition server_ok (t0 : Z) (s : redis_store) (past : list (nat * deed)) : Prop :=
  forall k, holds t0 (slot_of k past) (s !! redis_key key_prefix k).
Record fleet_inv (t0 : Z) (c : fleet) : Prop := FleetInv {
  fi_time : t0 <= time c;
  fi_server : server_ok t0 (server c) (past c);
  fi_asking i k : asking c !! i = Some k -> dropped_since i k (past c) = true \/ slot_of k (past c) <> Empty;
  fi_past : explained (past c)
}.

Lemma entry_read t0 rec e k s now : s !! redis_key key_prefix k = e -> entry_of t0 rec e -> now < t0 + Z.max ttl_secs 1 ->
  redis_get now (redis_key key_prefix k) s = Some (json_to_string (record_to_json rec)) /\
  json_read (json_to_string (record_to_json rec)) ≫= record_of_json = Some rec.
Proof.
  intros He (Hwf & exp & -> & Hexp) Hnow. unfold redis_get. rewrite He, (proj2 (Z.ltb_lt _ _)) by lia. split; [done|].
  by apply record_text_roundtrip.
Qed.
(** What the server answers about a key, inside the window. *)
Lemma slot_read t0 x k s now : holds t0 x (s !! redis_key key_prefix k) -> now < t0 + Z.max ttl_secs 1 ->
  redis_answer (redis_get now (redis_key key_prefix k) s) = slot_answer x /\
  (free_at now k s = true <-> x = Empty).
Proof.
  unfold free_at. intros Hh Hnow. destruct x as [|h|h code pairs body]; cbn in Hh.
  - unfold redis_get. by rewrite Hh.
  - destruct Hh as [secs He]. destruct (entry_read _ _ _ _ _ now eq_refl He Hnow) as [-> Hr]. unfold redis_answer. by rewrite Hr.
  - destruct Hh as [secs He]. destruct (entry_read _ _ _ _ _ now eq_refl He Hnow) as [-> Hr]. unfold redis_answer. by rewrite Hr.
Qed.
(** An effect on one key. *)
Lemma server_effect t0 s past i d k x e :
  server_ok t0 s past -> slot_of k ((i, d) :: past) = x -> holds t0 x e ->
  (forall k', k' <> k -> slot_of k' ((i, d) :: past) = slot_of k' past) ->
  server_ok t0 (partial_alter (fun _ => e) (redis_key key_prefix k) s) ((i, d) :: past).
Proof.
  intros Hs Hx He Hother k'. destruct (decide (k' = k)) as [->|Hne].
  - by rewrite lookup_partial_alter_eq, Hx.
  - rewrite lookup_partial_alter_ne by (intros Heq; by apply redis_key_inj in Heq). rewrite Hother by done. apply Hs.
Qed.
Lemma server_same t0 s past i d : server_ok t0 s past -> (forall k, slot_of k ((i, d) :: past) = slot_of k past) ->
  server_ok t0 s ((i, d) :: past).
Proof. intros Hs Hk k. rewrite Hk. apply Hs. Qed.

Lemma slot_other k' past i d : (forall k, match d with Started k0 _ _ | Refusal k0 | Told k0 _ _ | Kept k0 _ _ _ _ _ | Dropped k0 _ => k0 end = k -> k' <> k) ->
  slot_of k' ((i, d) :: past) = slot_of k' past.
Proof.
  intros Hk. specialize (Hk _ eq_refl). destruct d as [k h [|]|k|k o heard|k h code pairs body [|]|k [|]]; cbn [slot_of]; try done;
    by destruct (String.eqb_spec k k').
Qed.
(** Asking is not disturbed but by removals. *)
Lemma asking_stays j i d k past : dropped_since i k past = true \/ slot_of k past <> Empty ->
  (forall k', d <> Refusal k') ->
  dropped_since i k ((j, d) :: past) = true \/ slot_of k ((j, d) :: past) <> Empty.
Proof.
  intros Ha Hd. destruct d as [k' h [|]|k'|k' o heard|k' h code pairs body [|]|k' [|]]; cbn [slot_of dropped_since]; try done.
  - destruct (String.eqb k' k); [by right|done].
  - by destruct (Hd k').
  - destruct (String.eqb k' k); [by right|done].
  - destruct (String.eqb k' k); [by left|done].
Qed.

Section Step.
Context (t0 : Z) (c : fleet) (I : fleet_inv t0 c).

Lemma first_command_ok i k o rest connected r now secs s' :
  asking c !! i = None -> time c <= now -> now < t0 + Z.max ttl_secs 1 -> record_wf (InProgress (stamps i) secs) = true ->
  redis_set_nx key_prefix ttl_secs connected r now secs k (stamps i) (server c) = (Some o, s') ->
  fleet_inv t0 (Fleet s' (<[i := rest]> (todo c)) (asking c) now
    ((i, Started k (stamps i) (reaches connected r && free_at now k (server c))) :: past c)).
Proof.
  intros Hask Hnow Hwin Hwf Hset. destruct I as [Ht Hs Ha He].
  destruct (slot_read t0 _ k (server c) now (Hs k) Hwin) as [_ Hfree]. set (took := reaches connected r && _).
  assert (Hcase : (took = true /\ s' = <[redis_key key_prefix k := (json_to_string (record_to_json (InProgress (stamps i) secs)),
      now + Z.max ttl_secs 1)]> (server c)) \/ (took = false /\ s' = server c)).
  { revert Hset. unfold took, reaches, free_at, redis_set_nx. destruct connected; cbn [negb andb]; [|intros [= _ <-]; by right].
    destruct (redis_get now _ (server c)), r; cbn [fst snd andb]; intros [= _ <-] || intros [=]; try (by right); by left. }
  split; cbn [time server asking past]; [lia| | |].
  - destruct Hcase as [[Htk ->]|[Htk ->]]; rewrite Htk.
    + apply (server_effect t0 (server c) (past c) i _ k (InFlight (stamps i)) (Some _)); [done|cbn; by rewrite String.eqb_refl| |].
      * exists secs. split; [done|]. eexists. split; [done|lia].
      * intros k' Hne. apply slot_other. by intros ? <-.
    + by apply server_same.
  - intros j kj Hj. apply asking_stays; [by apply Ha|done].
  - split; [|done]. destruct took eqn:Etk; [|done]. cbn. apply Hfree. unfold took in Etk. by apply andb_true_iff in Etk as [_ ?].
Qed.
Lemma key_found_ok i k connected r now secs s' :
  asking c !! i = None -> time c <= now -> now < t0 + Z.max ttl_secs 1 ->
  redis_set_nx key_prefix ttl_secs connected r now secs k (stamps i) (server c) = (None, s') ->
  fleet_inv t0 (Fleet s' (todo c) (<[i := k]> (asking c)) now ((i, Refusal k) :: past c)).
Proof.
  intros Hask Hnow Hwin Hset. destruct I as [Ht Hs Ha He].
  destruct (slot_read t0 _ k (server c) now (Hs k) Hwin) as [_ Hfree].
  assert (Hcase : s' = server c /\ free_at now k (server c) = false).
  { revert Hset. unfold free_at, redis_set_nx. destruct connected; cbn [negb]; [|intros [=]].
    destruct (redis_get now _ (server c)), r; cbn [fst snd]; intros [=]; done. }
  destruct Hcase as [-> Hnf]. assert (Hne : slot_of k (past c) <> Empty) by (intros Hx%Hfree; congruence).
  split; cbn [time server asking past]; [lia|by apply server_same| |by split].
  intros j kj. destruct (decide (j = i)) as [->|Hji].
  - rewrite lookup_insert_eq. intros [= <-]. by right.
  - rewrite lookup_insert_ne by done. intros Hj. cbn [dropped_since slot_of]. rewrite (proj2 (Nat.eqb_neq i j)) by done. by apply Ha.
Qed.
Lemma second_command_ok i k o rest get_ok now :
  asking c !! i = Some k -> time c <= now -> now < t0 + Z.max ttl_secs 1 -> redis_query key_prefix get_ok now k (server c) = o ->
  fleet_inv t0 (Fleet (server c) (<[i := rest]> (todo c)) (delete i (asking c)) now ((i, Told k o get_ok) :: past c)).
Proof.
  intros Hask Hnow Hwin <-. destruct I as [Ht Hs Ha He].
  destruct (slot_read t0 _ k (server c) now (Hs k) Hwin) as [Hans _].
  split; cbn [time server asking past]; [lia|by apply server_same| |].
  - intros j kj [_ Hj]%lookup_delete_Some. apply asking_stays; [by apply Ha|done].
  - split; [|done]. unfold redis_query. destruct get_ok; cbn [explains]; [|done]. split; [done|]. rewrite Hans.
    intros Hn. destruct (Ha i k Hask) as [|Hne]; [done|]. by destruct (slot_of k (past c)).
Qed.
Lemma keeps_ok i k h code pairs body rest connected r now secs :
  time c <= now -> record_wf (Completed h code pairs body secs) = true ->
  fleet_inv t0 (Fleet (redis_complete key_prefix ttl_secs connected r now secs k h code pairs body (server c))
      (<[i := rest]> (todo c)) (asking c) now ((i, Kept k h code pairs body (reaches connected r)) :: past c)).
Proof.
  intros Hnow Hwf. destruct I as [Ht Hs Ha He]. split; cbn [time server asking past]; [lia| | |by split].
  - unfold redis_complete, reaches. destruct connected; cbn [negb andb]; [|by apply server_same].
    destruct r; [|by apply server_same|];
      (apply (server_effect t0 (server c) (past c) i _ k (Answer h code pairs body) (Some _)); [done|cbn; by rewrite String.eqb_refl| |]);
      try (exists secs; split; [done|]; eexists; split; [done|lia]); intros k' Hne; apply slot_other; by intros ? <-.
  - intros j kj Hj. apply asking_stays; [by apply Ha|done].
Qed.
Lemma removes_ok i k rest connected r now : time c <= now ->
  fleet_inv t0 (Fleet (redis_remove key_prefix connected r k (server c)) (<[i := rest]> (todo c)) (asking c) now
    ((i, Dropped k (reaches connected r)) :: past c)).
Proof.
  intros Hnow. destruct I as [Ht Hs Ha He]. split; cbn [time server asking past]; [lia| | |by split].
  - unfold redis_remove, reaches. destruct connected; cbn [negb andb]; [|by apply server_same].
    destruct r; [|by apply server_same|];
      (apply (server_effect t0 (server c) (past c) i _ k Empty None); [done|cbn; by rewrite String.eqb_refl|done|]);
      intros k' Hne; apply slot_other; by intros ? <-.
  - intros j kj Hj. apply asking_stays; [by apply Ha|done].
Qed.
End Step.

Lemma fleet_reachable t0 logs c : rtc fleet_step (Fleet ∅ logs ∅ t0 []) c -> time c < t0 + Z.max ttl_secs 1 -> fleet_inv t0 c.
Proof.
  revert c. apply (rtc_ind_r (fun c => time c < t0 + Z.max ttl_secs 1 -> fleet_inv t0 c)).
  - intros _. split; cbn [time server asking past]; [lia|by intros k; apply lookup_empty|by intros i k Hi%lookup_empty_Some|done].
  - intros c1 c2 _ Hstep IH Hwin. destruct Hstep; cbn [time] in Hwin; specialize (IH ltac:(lia)).
    + by eapply first_command_ok.
    + by eapply key_found_ok.
    + by apply second_command_ok.
    + by apply keeps_ok.
    + by apply removes_ok.
Qed.
End Fleet.


(** ** Requests of the gateways *)

Section Served.
Context `{HttpLib, JsonText, Unicode, GqlParser, LruLib, AuthLib, CelLib, RegexLib}.
Context {W : Type} `{Clocks W, WasmTypes, !WasmLib W}.
Context {SocketAddr : Type}.

(** C4. Requests of any number of gateways over one Redis server, their commands in any
    order and any of them lost on the way, within the window in which nothing expires.
    Every claim is decided as the history of effects before it says: it takes the key
    only when the key is empty, is turned away only when it is not, and is then told what
    the key holds, the timestamp of the request in flight or exactly the answer kept; it
    is told that there is nothing only when the key was removed between its two commands;
    what the server holds is what the history says. So while nobody removes a key, one
    request at most takes it and no other finds it gone. *)
Theorem fleet_history (key_prefix : string) (ttl_secs : Z) (stamps : nat -> HlcTimestamp)
    (reqs : gmap nat (Crowd.served (W := W) (SocketAddr := SocketAddr))) t0 c :
  rtc (fleet_step key_prefix ttl_secs stamps) (Fleet ∅ (engine_log <$> reqs) ∅ t0 []) c ->
  time c < t0 + Z.max ttl_secs 1 ->
  explained (past c) /\
  forall k, holds ttl_secs t0 (slot_of k (past c)) (server c !! redis_key key_prefix k) /\
    (times (drops k) (past c) = 0%nat -> (times (takes k) (past c) <= 1)%nat /\ times (finds_nothing k) (past c) = 0%nat).
Proof.
  intros Hr Hwin. destruct (fleet_reachable _ _ _ _ _ _ Hr Hwin) as [_ Hs _ He]. split; [done|]. intros k. split; [apply Hs|].
  intros Hd. destruct (never_dropped k _ He Hd) as (Ht & Hf & _). split; [|done]. destruct (slot_of k (past c)); lia.
Qed.
End Served.

Section Witnesses.
#[local] Existing Instances list_http ascii_tables bits_json_text list_lru demo_auth_lib demo_cel demo_types
  demo_wasm publish_gql manager_clocks no_match_regex.
#[local] Abbreviation logs := (gmap nat (list (event (SocketAddr := string)))).
(** A mutation without a token, with a key: claimed, refused by the access control, and
    released. *)
Definition refused_request (h : HlcTimestamp) : Crowd.served (W := manager_world) (SocketAddr := string) :=
  Served (guarded_env New) guarded_gateway guarded_loads demo_at "r" h [] (UpFails "down")
    (publish_session [("idempotency-key", "k1")] publish_text) demo_mworld.
(** Requests with the key that the backend receives. *)
Definition passed_request (h : HlcTimestamp) : Crowd.served (W := manager_world) (SocketAddr := string) := demo_request demo_env h.
Definition three_requests : gmap nat (Crowd.served (W := manager_world) (SocketAddr := string)) :=
  {[0%nat := refused_request (HLC 0 0); 1%nat := passed_request (HLC 1 0); 2%nat := passed_request (HLC 2 0)]}.
Definition three_stamps (i : nat) : HlcTimestamp := HLC (Z.of_nat i) 0.
Definition three_logs : logs :=
  {[0%nat := [Claimed "k1" New; Released "k1"]; 1%nat := [Claimed "k1" New]; 2%nat := [Claimed "k1" New]]}.
Definition is_claim_release (l : list (event (SocketAddr := string))) : bool :=
  match l with [Claimed a New; Released b] => String.eqb a "k1" && String.eqb b "k1" | _ => false end.
Lemma refused_log : engine_log (refused_request (HLC 0 0)) = [Claimed "k1" New; Released "k1"].
Proof.
  assert (Hb : is_claim_release (engine_log (refused_request (HLC 0 0))) = true) by (vm_compute; reflexivity).
  destruct (engine_log _) as [|[a [| |]| | | | | | |] [|[| |b| | | | |] [|]]]; try done.
  apply andb_true_iff in Hb as [->%String.eqb_eq ->%String.eqb_eq]. done.
Qed.
Lemma three_logged : engine_log <$> three_requests = three_logs.
Proof. unfold three_requests, three_logs. rewrite !fmap_insert, map_fmap_singleton, refused_log. reflexivity. Qed.
(** Nothing is lost on the way. The second request finds the key of the first, which is
    then refused and removes it; the second asks, and is told that there is nothing; the
    third takes the key. *)
Definition raced : fleet (SocketAddr := string) := Fleet
  {[redis_key "spectra:" "k1" := (json_to_string (record_to_json (InProgress (HLC 2 0) 0)), 300)]}
  {[0%nat := []; 1%nat := []; 2%nat := []]} ∅ 0
  [(2%nat, Started "k1" (HLC 2 0) true); (1%nat, Told "k1" New true); (0%nat, Dropped "k1" true);
   (1%nat, Refusal "k1"); (0%nat, Started "k1" (HLC 0 0) true)].
Lemma race : rtc (fleet_step "spectra:" 300 three_stamps) (Fleet ∅ (engine_log <$> three_requests) ∅ 0 []) raced.
Proof.
  rewrite three_logged.
  eapply rtc_l; [eapply (first_command _ _ _ _ 0 "k1" New [Released "k1"] true Done 0 0); [reflexivity|reflexivity|done|vm_compute; reflexivity|reflexivity]|].
  eapply rtc_l; [eapply (key_found _ _ _ _ 1 "k1" New [] true Done 0 0); [reflexivity|reflexivity|done|vm_compute; reflexivity|reflexivity]|].
  eapply rtc_l; [eapply (removes _ _ _ _ 0 "k1" [] true Done 0); [reflexivity|done]|].
  eapply rtc_l; [eapply (second_command _ _ _ _ 1 "k1" New [] true 0); [reflexivity|reflexivity|done|reflexivity]|].
  eapply rtc_l; [eapply (first_command _ _ _ _ 2 "k1" New [] true Done 0 0); [reflexivity|reflexivity|done|vm_compute; reflexivity|reflexivity]|].
  match goal with |- rtc _ ?a ?b => assert (a = b) as ->; [|apply rtc_refl] end. unfold raced. f_equal.
Qed.
Lemma fleet_history_witness : explained (past raced) /\ holds 300 0 (InFlight (HLC 2 0)) (server raced !! redis_key "spectra:" "k1").
Proof.
  destruct (fleet_history "spectra:" 300 three_stamps three_requests 0 raced race ltac:(vm_compute; reflexivity)) as [He Hk].
  split; [exact He|]. exact (proj1 (Hk "k1")).
Defined.
Definition is_forwarded (e : event (SocketAddr := string)) : bool := match e with Forwarded _ _ => true | _ => false end.
Definition forwards (r : Crowd.served (W := manager_world) (SocketAddr := string)) : bool :=
  existsb is_forwarded (log (serve (sv_env r) (sv_gateway r) (sv_loads r) (sv_reading r) (sv_id r) (sv_hlc r) (sv_chunks r)
    (sv_upstream r) (sv_session r) (sv_world r))).

(** Removals do break it, without any failure: a request that finds a key whose
    holder removes it before it asks goes on without taking the key, and so does the
    next one that takes it; two requests with one key are sent to the backend, neither
    of which has ended. *)
Theorem fleet_two_in_flight : exists c : fleet (SocketAddr := string),
  rtc (fleet_step "spectra:" 300 three_stamps) (Fleet ∅ (engine_log <$> three_requests) ∅ 0 []) c /\
  Forall (fun d => match d.2 with Started _ _ false | Told _ _ false | Kept _ _ _ _ _ false | Dropped _ false => False | _ => True end) (past c) /\
  List.filter (fun d => negb (Nat.eqb d.1 0)) (past c) =
    [(2%nat, Started "k1" (HLC 2 0) true); (1%nat, Told "k1" New true); (1%nat, Refusal "k1")] /\
  forwards (passed_request (HLC 1 0)) = true /\ forwards (passed_request (HLC 2 0)) = true.
Proof.
  exists raced. split; [apply race|]. split; [by repeat constructor|]. split; [reflexivity|]. split; vm_compute; reflexivity.
Qed.
End Witnesses.
