(* ===== verification/Registry.v ===== *)
(** * Registry: the consumer workers the gateway knows of, [src/admin/registry.rs].

    Reports are merged into a worker's record, logs are kept newest first and bounded,
    and a worker that has not reported for the liveness timeout counts as offline. *)

From S2P Require Import Prelude Externals Serde.
Local Open Scope string_scope.
Local Open Scope serde_scope.
Import Derive.

Section Registry.
Context `{Unicode}.

(** [WorkerLogEntry] @admin/registry.rs:{struct WorkerLogEntry} WorkerLogEntry *)
Record WorkerLogEntry := LogEntry { le_timestamp : string; level : string; le_message : string; le_hlc : option string }.
(** [WorkerTelemetryReport] @admin/registry.rs:{struct WorkerTelemetryReport} WorkerTelemetryReport *)
Record WorkerTelemetryReport := Report {
  rp_worker_id : string;
  rp_app_id : option string;
  rp_sink : option string;
  rp_stream : option string;
  rp_status : option string;
  rp_uptime_seconds : option Z;
  rp_processed_events : option Z;
  rp_total_errors : option Z;
  rp_last_event_hlc : option string;
  rp_logs : option (list WorkerLogEntry)
}.
(** [WorkerLogsResponse] @admin/registry.rs:{struct WorkerLogsResponse} WorkerLogsResponse *)
Record WorkerLogsResponse := LogsResponse {
  lr_worker_id : string;
  lr_app_id : option string;
  lr_status : string;
  lr_uptime_seconds : Z;
  lr_processed_events : Z;
  lr_total_errors : Z;
  lr_last_event_hlc : option string;
  lr_logs : list WorkerLogEntry
}.
(** [WorkerSummary] @admin/registry.rs:{struct WorkerSummary} WorkerSummary *)
Record WorkerSummary := Summary {
  worker_id : string;
  app_id : option string;
  sink : string;
  stream : string;
  status : string;
  uptime_seconds : Z;
  processed_events : Z;
  total_errors : Z;
  last_seen_secs_ago : Z
}.
(** [WorkerState]; instants and durations in nanoseconds. @admin/registry.rs:{struct WorkerState} WorkerState *)
Record WorkerState := Worker {
  w_worker_id : string;
  w_app_id : option string;
  w_sink : string;
  w_stream : string;
  w_status : string;
  w_uptime_seconds : Z;
  w_processed_events : Z;
  w_total_errors : Z;
  w_last_event_hlc : option string;
  last_heartbeat : Z;
  w_logs : list WorkerLogEntry
}.
(** [WorkerRegistry] @admin/registry.rs:{struct WorkerRegistry} WorkerRegistry *)
Record WorkerRegistry := Registry_ {
  workers : gmap string WorkerState;
  max_logs_per_worker : nat;
  liveness_timeout : Z
}.
(** @admin/registry.rs:{fn new} WorkerRegistry::new *)
Definition registry_new (max_logs : nat) (timeout : Z) : WorkerRegistry :=
  Registry_ ∅ (if (max_logs =? 0)%nat then 200%nat else max_logs) timeout.
(** @admin/registry.rs:{fn default} WorkerRegistry::default *)
Definition registry_default : WorkerRegistry := registry_new 200 (15 * 10 ^ 9).

(** ** Reports *)

(** [while logs.len() > max { logs.pop_back() }] is what is left of the front.
    @admin/registry.rs:153-160 WorkerRegistry::record_report *)
Definition push_logs (max : nat) (new : list WorkerLogEntry) (logs : list WorkerLogEntry) : list WorkerLogEntry :=
  take max (fold_left (fun l e => e :: l) new logs).
(** @admin/registry.rs:112-124 WorkerRegistry::record_report *)
Definition fresh_worker (now : Z) (r : WorkerTelemetryReport) : WorkerState :=
  Worker (rp_worker_id r) (rp_app_id r) (default "unknown" (rp_sink r)) (default "default" (rp_stream r)) "online" 0 0 0
    None now [].
(** The report's fields over those the record has. @admin/registry.rs:126-160 WorkerRegistry::record_report *)
Definition merge_report (max : nat) (now : Z) (r : WorkerTelemetryReport) (e : WorkerState) : WorkerState :=
  Worker (w_worker_id e)
    (match rp_app_id r with Some a => Some a | None => w_app_id e end)
    (default (w_sink e) (rp_sink r)) (default (w_stream e) (rp_stream r)) (default (w_status e) (rp_status r))
    (default (w_uptime_seconds e) (rp_uptime_seconds r)) (default (w_processed_events e) (rp_processed_events r))
    (default (w_total_errors e) (rp_total_errors r))
    (match rp_last_event_hlc r with Some h => Some h | None => w_last_event_hlc e end)
    now
    (match rp_logs r with Some new => push_logs max new (w_logs e) | None => w_logs e end).
(** @admin/registry.rs:{fn record_report} WorkerRegistry::record_report *)
Definition record_report (now : Z) (r : WorkerTelemetryReport) (t : WorkerRegistry) : WorkerRegistry :=
  let e := default (fresh_worker now r) (workers t !! rp_worker_id r) in
  Registry_ (<[rp_worker_id r := merge_report (max_logs_per_worker t) now r e]> (workers t))
    (max_logs_per_worker t) (liveness_timeout t).
(** @admin/registry.rs:{fn clear} WorkerRegistry::clear *)
Definition clear (t : WorkerRegistry) : WorkerRegistry := Registry_ ∅ (max_logs_per_worker t) (liveness_timeout t).

(** ** What is read *)

(** [Instant::elapsed] is never negative. *)
Definition elapsed (now : Z) (s : WorkerState) : Z := Z.max 0 (now - last_heartbeat s).
(** The status shown: a silent worker is offline. @admin/registry.rs:172-180 WorkerRegistry::get_worker_logs *)
Definition shown_status (timeout now : Z) (s : WorkerState) : string :=
  if (elapsed now s <=? timeout)%Z then w_status s else "offline".
(** @admin/registry.rs:{fn get_worker_logs} WorkerRegistry::get_worker_logs *)
Definition get_worker_logs (now : Z) (id : string) (limit : nat) (t : WorkerRegistry) : option WorkerLogsResponse :=
  match workers t !! id with
  | None => None
  | Some s =>
      let take_count := if (limit =? 0)%nat then 50%nat else Nat.min limit (length (w_logs s)) in
      Some (LogsResponse (w_worker_id s) (w_app_id s) (shown_status (liveness_timeout t) now s) (w_uptime_seconds s)
              (w_processed_events s) (w_total_errors s) (w_last_event_hlc s) (take take_count (w_logs s)))
  end.
(** Whether the filter keeps a worker: by its application, or by its name when it never
    told one. @admin/registry.rs:210-220 WorkerRegistry::get_active_workers_with_filter *)
Definition filter_keeps (app_filter : option string) (s : WorkerState) : bool :=
  match app_filter with
  | Some app =>
      if negb (String.eqb app "") && negb (String.eqb app "all") then
        match w_app_id s with
        | Some a => eq_ignore_ascii_case a app
        | None => str_contains (to_lowercase app) (to_lowercase (w_worker_id s))
        end
      else true
  | None => true
  end.
(** @admin/registry.rs:222-243 WorkerRegistry::get_active_workers_with_filter *)
Definition summary_of (timeout now : Z) (s : WorkerState) : WorkerSummary :=
  Summary (w_worker_id s) (w_app_id s) (w_sink s) (w_stream s) (shown_status timeout now s) (w_uptime_seconds s)
    (w_processed_events s) (w_total_errors s) (elapsed now s / 10 ^ 9)%Z.
(** The values in the order the map lists them, then sorted.
    @admin/registry.rs:{fn get_active_workers_with_filter} WorkerRegistry::get_active_workers_with_filter *)
Definition get_active_workers_with_filter (now : Z) (app_filter : option string) (t : WorkerRegistry) : list WorkerSummary :=
  sort_by worker_id
    (map (summary_of (liveness_timeout t) now)
       (List.filter (filter_keeps app_filter) (snd <$> map_to_list (workers t)))).
(** @admin/registry.rs:{fn get_active_workers} WorkerRegistry::get_active_workers *)
Definition get_active_workers (now : Z) (t : WorkerRegistry) : list WorkerSummary :=
  get_active_workers_with_filter now None t.

(** ** Reports as they are sent *)

(** What serde makes of the records, with [rename_all = camelCase].
    @admin/registry.rs:{struct WorkerLogEntry} WorkerLogEntry::serialize *)
Definition log_entry_codec : codec WorkerLogEntry :=
  iso (struct (req "timestamp" text *** req "level" text *** req "message" text *** maybe_skipped "hlc" text text_solid) eq_refl)
    (fun e => (le_timestamp e, (level e, (le_message e, le_hlc e))))
    (fun t => let '(a, (b, (c, d))) := t in LogEntry a b c d) ltac:(by intros []) ltac:(tupled).
(** @admin/registry.rs:{struct WorkerTelemetryReport} WorkerTelemetryReport::deserialize *)
Definition report_codec : codec WorkerTelemetryReport :=
  iso (struct (req "workerId" text *** maybe_default "appId" text text_solid *** maybe_default "sink" text text_solid ***
      maybe_default "stream" text text_solid *** maybe_default "status" text text_solid ***
      maybe_default "uptimeSeconds" u64 u64_solid *** maybe_default "processedEvents" u64 u64_solid ***
      maybe_default "totalErrors" u64 u64_solid *** maybe_default "lastEventHlc" text text_solid ***
      maybe_default "logs" (vec log_entry_codec) (vec_solid _)) eq_refl)
    (fun r => (rp_worker_id r, (rp_app_id r, (rp_sink r, (rp_stream r, (rp_status r, (rp_uptime_seconds r,
      (rp_processed_events r, (rp_total_errors r, (rp_last_event_hlc r, rp_logs r))))))))))
    (fun t => let '(a, (b, (c, (d, (e, (f, (g, (h, (i, j))))))))) := t in Report a b c d e f g h i j)
    ltac:(by intros []) ltac:(tupled).
(** @admin/registry.rs:{struct WorkerLogsResponse} WorkerLogsResponse::serialize *)
Definition logs_response_codec : codec WorkerLogsResponse :=
  iso (struct (req "workerId" text *** maybe_default "appId" text text_solid *** req "status" text ***
      req "uptimeSeconds" u64 *** req "processedEvents" u64 *** req "totalErrors" u64 ***
      maybe "lastEventHlc" text text_solid *** req "logs" (vec log_entry_codec)) eq_refl)
    (fun r => (lr_worker_id r, (lr_app_id r, (lr_status r, (lr_uptime_seconds r, (lr_processed_events r,
      (lr_total_errors r, (lr_last_event_hlc r, lr_logs r))))))))
    (fun t => let '(a, (b, (c, (d, (e, (f, (g, h))))))) := t in LogsResponse a b c d e f g h) ltac:(by intros []) ltac:(tupled).
(** @admin/registry.rs:{struct WorkerSummary} WorkerSummary::serialize *)
Definition summary_codec : codec WorkerSummary :=
  iso (struct (req "workerId" text *** maybe_default "appId" text text_solid *** req "sink" text *** req "stream" text ***
      req "status" text *** req "uptimeSeconds" u64 *** req "processedEvents" u64 *** req "totalErrors" u64 ***
      req "lastSeenSecsAgo" u64) eq_refl)
    (fun s => (worker_id s, (app_id s, (sink s, (stream s, (status s, (uptime_seconds s, (processed_events s,
      (total_errors s, last_seen_secs_ago s)))))))))
    (fun t => let '(a, (b, (c, (d, (e, (f, (g, (h, i)))))))) := t in Summary a b c d e f g h i)
    ltac:(by intros []) ltac:(tupled).
#[export] Instance log_entry_codec_printable : Printable log_entry_codec.
Proof. unfold log_entry_codec. apply _. Qed.
#[export] Instance logs_response_codec_printable : Printable logs_response_codec.
Proof. unfold logs_response_codec. apply _. Qed.
#[export] Instance summary_codec_printable : Printable summary_codec.
Proof. unfold summary_codec. apply _. Qed.
(** Fields of the answers that are written where they are made. *)
Definition text_or_null (o : option string) : json := match o with Some s => JString s | None => JNull end.
Definition u64_json (n : Z) : json := JNumber (PosInt n).
End Registry.

(** ** The registry as a history of reports *)

Section History.
Context `{Unicode}.

(** A report at an instant, or a reset. *)
Inductive registry_op := Reported (now : Z) (r : WorkerTelemetryReport) | Cleared.
Definition registry_step (t : WorkerRegistry) (op : registry_op) : WorkerRegistry :=
  match op with
  | Reported now r => record_report now r t
  | Cleared => clear t
  end.
Definition registry_run (ops : list registry_op) (t : WorkerRegistry) : WorkerRegistry :=
  fold_left registry_step ops t.
(** The reports of a worker since the last reset. *)
Definition reports_of (id : string) (ops : list registry_op) : list (Z * WorkerTelemetryReport) :=
  fold_left (fun l op =>
    match op with
    | Cleared => []
    | Reported now r => if String.eqb (rp_worker_id r) id then (l ++ [(now, r)])%list else l
    end) ops [].
(** The last value reported for a field. *)
Definition latest {A} (f : WorkerTelemetryReport -> option A) (l : list (Z * WorkerTelemetryReport)) : option A :=
  fold_left (fun o nr => match f (snd nr) with Some a => Some a | None => o end) l None.
Definition all_logs (l : list (Z * WorkerTelemetryReport)) : list WorkerLogEntry :=
  concat (map (fun nr => default [] (rp_logs (snd nr))) l).
(** A worker as its reports say: the last value of each field, the newest logs first. *)
Definition told (max : nat) (id : string) (l : list (Z * WorkerTelemetryReport)) : option WorkerState :=
  match l with
  | [] => None
  | _ =>
      Some (Worker id (latest rp_app_id l) (default "unknown" (latest rp_sink l)) (default "default" (latest rp_stream l))
        (default "online" (latest rp_status l)) (default 0%Z (latest rp_uptime_seconds l))
        (default 0%Z (latest rp_processed_events l)) (default 0%Z (latest rp_total_errors l))
        (latest rp_last_event_hlc l) (fst (List.last l (0%Z, Report "" None None None None None None None None None)))
        (take max (rev (all_logs l))))
  end.

Lemma latest_snoc {A} (f : WorkerTelemetryReport -> option A) l nr :
  latest f (l ++ [nr]) = match f (snd nr) with Some a => Some a | None => latest f l end.
Proof. unfold latest. by rewrite fold_left_app. Qed.
Lemma default_latest {A} (d : A) (f : WorkerTelemetryReport -> option A) l nr :
  default (default d (latest f l)) (f (snd nr)) = default d (latest f (l ++ [nr])).
Proof. rewrite latest_snoc. by destruct (f (snd nr)). Qed.
Lemma reports_of_snoc id ops op :
  reports_of id (ops ++ [op]) =
  match op with
  | Cleared => []
  | Reported now r => if String.eqb (rp_worker_id r) id then (reports_of id ops ++ [(now, r)])%list else reports_of id ops
  end.
Proof. unfold reports_of. by rewrite fold_left_app. Qed.
Lemma push_logs_eq max new logs : push_logs max new logs = take max (rev new ++ logs).
Proof.
  unfold push_logs. f_equal. revert logs. induction new as [|e new IH]; intros logs; cbn; [done|].
  by rewrite IH, <- app_assoc.
Qed.
Lemma take_app_take {A} n (l l' : list A) : take n (l ++ take n l') = take n (l ++ l').
Proof.
  rewrite !take_app. f_equal. rewrite take_take. f_equal. lia.
Qed.
(** One more report. *)
Lemma told_snoc max id now r l : rp_worker_id r = id ->
  told max id (l ++ [(now, r)]) = Some (merge_report max now r (default (fresh_worker now r) (told max id l))).
Proof.
  intros Hid. unfold told at 1. destruct (l ++ [(now, r)])%list as [|x l0] eqn:El; [by destruct l|]. rewrite <- El.
  unfold all_logs. rewrite last_last, map_app, concat_app, rev_app_distr. cbn [map concat fst snd]. rewrite app_nil_r.
  unfold merge_report. destruct l as [|y l'].
  - clear El. cbn. destruct (rp_logs r); cbn; rewrite ?push_logs_eq, ?app_nil_r; subst id; unfold latest; cbn.
    all: f_equal; f_equal; try (by destruct r as [? [] [] [] [] [] [] [] [] ?]).
    by rewrite take_nil.
  - set (l := y :: l') in *. cbn [told l default from_option Datatypes.id].
    cbn [w_worker_id w_app_id w_sink w_stream w_status w_uptime_seconds w_processed_events w_total_errors w_last_event_hlc w_logs].
    rewrite <- !(default_latest _ _ _ (now, r)), !latest_snoc. cbn [snd]. f_equal. f_equal.
    destruct (rp_logs r) as [new|]; cbn; [|done]. by rewrite push_logs_eq, take_app_take.
Qed.

Lemma registry_is_history_in max timeout ops id : (0 < max)%nat ->
  workers (registry_run ops (registry_new max timeout)) !! id = told max id (reports_of id ops).
Proof.
  intros Hmax.
  assert (Hrun : forall ops, max_logs_per_worker (registry_run ops (registry_new max timeout)) = max /\
    workers (registry_run ops (registry_new max timeout)) !! id = told max id (reports_of id ops)); [|apply Hrun].
  clear ops. induction ops as [|op ops [IHm IH]] using rev_ind.
  - cbn. split; [|apply lookup_empty]. destruct (Nat.eqb_spec max 0); [lia|done].
  - unfold registry_run in *. rewrite fold_left_app, reports_of_snoc. cbn [fold_left].
    destruct op as [now r|]; cbn [registry_step]; [|split; [exact IHm|apply lookup_empty]].
    split; [exact IHm|]. unfold record_report. cbn [workers]. rewrite IHm.
    destruct (String.eqb_spec (rp_worker_id r) id) as [Hid|Hid].
    + rewrite told_snoc by done. subst id. by rewrite lookup_insert_eq, IH.
    + by rewrite lookup_insert_ne.
Qed.
(** C22. For any history of reports and resets, the record of a worker is what its reports
    since the last reset say: the last value of each field, the instant of the last
    report, and the newest logs, no more than the bound. *)
Theorem registry_is_history max timeout ops id :
  (0 < max)%nat -> workers (registry_run ops (registry_new max timeout)) !! id = told max id (reports_of id ops).
Proof. apply registry_is_history_in. Qed.

(** Every record is filed under its own name. *)
Lemma registry_keys max timeout ops id w :
  workers (registry_run ops (registry_new max timeout)) !! id = Some w -> w_worker_id w = id.
Proof.
  revert id w. induction ops as [|op ops IH] using rev_ind; intros id w; [cbn; by rewrite lookup_empty|].
  unfold registry_run in *. rewrite fold_left_app. cbn [fold_left]. destruct op as [now r|]; cbn; [|by rewrite lookup_empty].
  destruct (decide (rp_worker_id r = id)) as [<-|Hne]; [|rewrite lookup_insert_ne by done; apply IH].
  rewrite lookup_insert_eq. intros [= <-]. cbn. destruct (workers _ !! rp_worker_id r) as [e|] eqn:E; [|done].
  cbn. by apply IH in E.
Qed.
Lemma filter_fmap_values (p : WorkerState -> bool) (m : gmap string WorkerState) :
  List.filter p (snd <$> map_to_list m) = snd <$> List.filter (fun kv => p (snd kv)) (map_to_list m).
Proof. induction (map_to_list m) as [|[k v] l IH]; cbn; [done|]. destruct (p v); cbn; by rewrite <- IH. Qed.

(** The list of workers is in the order of their names, has each worker once, and has
    exactly those the filter keeps, each as its reports tell it; a worker that has been
    silent for longer than the timeout is shown offline whatever it last said. *)
Theorem active_workers_spec max timeout ops now app_filter : (0 < max)%nat ->
  let l := get_active_workers_with_filter now app_filter (registry_run ops (registry_new max timeout)) in
  Sorted (key_le worker_id) l /\ NoDup (map worker_id l) /\
  (forall s, s ∈ l <-> exists w, told max (worker_id s) (reports_of (worker_id s) ops) = Some w /\
     filter_keeps app_filter w = true /\ s = summary_of timeout now w) /\
  (forall s, s ∈ l -> (timeout < last_seen_secs_ago s * 10 ^ 9)%Z -> status s = "offline").
Proof.
  intros Hmax l. set (t := registry_run ops (registry_new max timeout)) in l.
  assert (Htime : liveness_timeout t = timeout).
  { subst t. clear l. unfold registry_run. induction ops as [|[] ops IH] using rev_ind; [done|..]; by rewrite fold_left_app. }
  assert (Hin : forall s, s ∈ l <-> exists w, workers t !! worker_id s = Some w /\ filter_keeps app_filter w = true /\
                  s = summary_of timeout now w).
  { intros s. unfold l, get_active_workers_with_filter. rewrite elem_of_sort_by, filter_fmap_values, Htime.
    rewrite list_elem_of_fmap. split.
    - intros (w & -> & Hw). apply list_elem_of_fmap in Hw as ([k v] & -> & Hv). cbn [snd] in *.
      apply list_elem_of_In, List.filter_In in Hv as [Hv Hf]. apply list_elem_of_In, elem_of_map_to_list in Hv.
      exists v. split; [|done]. cbn. by rewrite (registry_keys _ _ _ _ _ Hv).
    - intros (w & Hw & Hf & ->). exists w. split; [done|]. apply list_elem_of_fmap. exists (w_worker_id w, w).
      split; [done|]. apply list_elem_of_In, List.filter_In. split; [|done]. apply list_elem_of_In, elem_of_map_to_list.
      exact Hw. }
  split_and!.
  - apply sort_by_sorted.
  - unfold l, get_active_workers_with_filter. rewrite (sort_by_perm worker_id), filter_fmap_values, map_map.
    assert (Hkeys : forall kv, kv ∈ map_to_list (workers t) -> w_worker_id (snd kv) = fst kv).
    { intros [k v] Hkv. apply elem_of_map_to_list in Hkv. by apply registry_keys in Hkv. }
    pose proof (NoDup_fst_map_to_list (workers t)) as Hnd. revert Hkeys Hnd.
    induction (map_to_list (workers t)) as [|[k v] kvs IH]; intros Hkeys Hnd; [constructor|].
    rewrite fmap_cons in Hnd. apply NoDup_cons in Hnd as [Hk Hnd].
    assert (Hrest : NoDup (map (fun x => worker_id (summary_of (liveness_timeout t) now x))
              (snd <$> List.filter (fun kv => filter_keeps app_filter (snd kv)) kvs))) by (apply IH; set_solver).
    cbn. destruct (filter_keeps app_filter v); [|exact Hrest]. cbn. constructor; [|exact Hrest].
    pose proof (Hkeys (k, v) ltac:(by left)) as Hkv. cbn in Hkv. rewrite Hkv. intros Hel. apply list_elem_of_fmap in Hel as (w & Hw & Hel).
    apply list_elem_of_fmap in Hel as ([k' w'] & -> & Hel). apply list_elem_of_In, List.filter_In in Hel as [Hel _].
    apply list_elem_of_In in Hel. apply Hk. cbn in Hw. pose proof (Hkeys (k', w') ltac:(by right)) as Hk'. cbn in Hk'.
    apply list_elem_of_fmap. exists (k', w'). split; [by rewrite Hw|done].
  - intros s. rewrite Hin. unfold t. by rewrite registry_is_history_in.
  - intros s Hs. apply Hin in Hs as (w & _ & _ & ->). cbn. unfold shown_status.
    intros Hlt. destruct (Z.leb_spec (elapsed now w) timeout); [|done].
    pose proof (Z.mul_div_le (elapsed now w) (10 ^ 9)). lia.
Qed.
End History.

(** ** Types of what is reported and shown *)

Section Types.
Context `{Unicode}.

Definition is_u64 (n : Z) : Prop := (0 <= n <= Int.u64_max)%Z.
Definition opt_is_u64 (o : option Z) : Prop := match o with Some n => is_u64 n | None => True end.
(** The counters of a report are 64-bit. *)
Definition report_typed (r : WorkerTelemetryReport) : Prop :=
  opt_is_u64 (rp_uptime_seconds r) /\ opt_is_u64 (rp_processed_events r) /\ opt_is_u64 (rp_total_errors r).
Lemma report_fits_typed r : fits report_codec r -> report_typed r.
Proof. intros (_ & _ & _ & _ & _ & Hu & Hp & He & _). by split_and!. Qed.
Lemma text_fits_all l : Forall (fits log_entry_codec) l.
Proof. apply Forall_forall. intros [t l' m [h|]] _; by repeat split. Qed.
Definition worker_typed (w : WorkerState) : Prop :=
  is_u64 (w_uptime_seconds w) /\ is_u64 (w_processed_events w) /\ is_u64 (w_total_errors w) /\ (0 <= last_heartbeat w)%Z.
Lemma default_u64 d o : is_u64 d -> opt_is_u64 o -> is_u64 (default d o).
Proof. by destruct o. Qed.
Lemma merge_typed max now r w : report_typed r -> (0 <= now)%Z -> worker_typed w -> worker_typed (merge_report max now r w).
Proof. intros (? & ? & ?) ? (? & ? & ? & ?). split_and!; cbn; [by apply default_u64..|done]. Qed.
(** What comes from a body, at an instant of the clock. *)
Definition sent_in (op : registry_op) : Prop :=
  match op with
  | Reported now r => (0 <= now)%Z /\ exists j, json_typed j = true /\ de report_codec j = Some r
  | Cleared => True
  end.
Lemma registry_typed max timeout ops : Forall sent_in ops ->
  forall id w, workers (registry_run ops (registry_new max timeout)) !! id = Some w -> worker_typed w.
Proof.
  induction ops as [|op ops IH] using rev_ind; intros Hs id w; [cbn; by rewrite lookup_empty|].
  apply Forall_app in Hs as [Hs Hop]. apply Forall_cons in Hop as [Hop _]. specialize (IH Hs).
  unfold registry_run in *. rewrite fold_left_app. cbn [fold_left]. destruct op as [now r|]; cbn; [|by rewrite lookup_empty].
  destruct Hop as [Hnow (j & Hj & Hr)]. pose proof (report_fits_typed _ (de_fits report_codec _ _ Hj Hr)) as Ht.
  destruct (decide (rp_worker_id r = id)) as [<-|Hne]; [|rewrite lookup_insert_ne by done; apply IH].
  rewrite lookup_insert_eq. intros [= <-]. apply merge_typed; [done..|].
  destruct (workers _ !! rp_worker_id r) as [e|] eqn:E; cbn; [by eapply IH|]. unfold is_u64. by split_and!.
Qed.
Lemma summary_fits timeout now w : worker_typed w -> (now <= Int.u64_max * 10 ^ 9)%Z ->
  fits summary_codec (summary_of timeout now w).
Proof.
  intros (Hu & Hp & He & Hh) Hn. change (10 ^ 9)%Z with 1000000000%Z in *.
  fields.
  all: cbn -[Int.u64_max]; unfold elapsed; assert (0 <= Int.u64_max)%Z by done; change (10 ^ 9)%Z with 1000000000%Z.
  - apply Z.div_pos; lia.
  - apply Z.div_le_upper_bound; lia.
Qed.
Lemma logs_fits w id st logs : worker_typed w ->
  fits logs_response_codec (LogsResponse id (w_app_id w) st (w_uptime_seconds w) (w_processed_events w)
    (w_total_errors w) (w_last_event_hlc w) logs).
Proof.
  intros (Hu & Hp & He & _). fields. apply text_fits_all.
Qed.

(** Whatever bodies the workers send, a registry fed with the reports read from them
    answers with numbers that are unsigned 64-bit integers: no counter read from a
    body is out of the range of the field it is kept in, and none that is shown is. *)
Theorem reports_keep_types max timeout ops now app_filter :
  Forall sent_in ops -> (now <= Int.u64_max * 10 ^ 9)%Z ->
  let t := registry_run ops (registry_new max timeout) in
  Forall (fits summary_codec) (get_active_workers_with_filter now app_filter t) /\
  forall id limit r, get_worker_logs now id limit t = Some r -> fits logs_response_codec r.
Proof.
  intros Hs Hn t. pose proof (registry_typed max timeout ops Hs) as Ht. fold t in Ht. split.
  - apply Forall_forall. intros s Hin. unfold get_active_workers_with_filter in Hin. rewrite elem_of_sort_by in Hin.
    apply list_elem_of_fmap in Hin as (w & -> & Hw). apply list_elem_of_In, List.filter_In in Hw as [Hw _].
    apply list_elem_of_In, list_elem_of_fmap in Hw as ([id w'] & -> & Hw). apply elem_of_map_to_list in Hw.
    apply summary_fits; [by eapply Ht|done].
  - intros id limit r. unfold get_worker_logs. destruct (workers t !! id) as [w|] eqn:E; [|done].
    intros [= <-]. apply logs_fits. by eapply Ht.
Qed.
End Types.

(** ** Witnesses *)

Section Witnesses.
#[local] Existing Instance ascii_tables.
Definition demo_log (m : string) : WorkerLogEntry := LogEntry "t" "INFO" m None.
Definition demo_report (id st : string) (logs : list WorkerLogEntry) : WorkerTelemetryReport :=
  Report id None None None (Some st) (Some 7%Z) None None None (Some logs).
Definition demo_ops : list registry_op :=
  [Reported 0 (demo_report "b" "active" [demo_log "1"; demo_log "2"]); Reported 5 (demo_report "a" "active" []);
   Reported 9 (demo_report "b" "healthy" [demo_log "3"])].

Lemma registry_is_history_witness :
  workers (registry_run demo_ops (registry_new 2 4)) !! "b" =
  Some (Worker "b" None "unknown" "default" "healthy" 7 0 0 None 9 [demo_log "3"; demo_log "2"]).
Proof. rewrite (registry_is_history 2 4 demo_ops "b"); [reflexivity|lia]. Defined.
Lemma active_workers_spec_witness :
  (forall s, s ∈ get_active_workers_with_filter 10 None (registry_run demo_ops (registry_new 2 4)) ->
     (4 < last_seen_secs_ago s * 10 ^ 9)%Z -> status s = "offline") /\
  map (fun s => (worker_id s, status s)) (get_active_workers_with_filter 10 None (registry_run demo_ops (registry_new 2 4))) =
    [("a", "offline"); ("b", "healthy")].
Proof. split; [apply (active_workers_spec 2 4 demo_ops 10 None); lia|reflexivity]. Defined.
Lemma reports_keep_types_witness :
  Forall (fits summary_codec)
    (get_active_workers_with_filter 10 None (registry_run [Reported 0 (Report "b" None None None None (Some 7%Z) None None None None)]
      (registry_new 2 4))).
Proof.
  refine (proj1 (reports_keep_types 2 4 _ 10 None _ _)); [|done]. apply Forall_singleton. split; [done|].
  exists (JObject [("workerId", JString "b"); ("uptimeSeconds", JNumber (PosInt 7))]). split; reflexivity.
Defined.
End Witnesses.
