(* ===== verification/EventSink.v ===== *)
(** * EventSink: how the administrative interface looks at the broker,
    [src/admin/eventsink.rs].

    What each inspector reports for what the broker's client answers, the cached
    answer, and the cached NATS connection. *)

From Stdlib Require Import SpecFloat.
From S2P Require Import Prelude Externals Serde Types Protocol Telemetry Traffic Registry.
Local Open Scope string_scope.
Local Open Scope serde_scope.

(** [{:.2}] of a finite number of this sign: the exact value, half-way cases to the even
    digit. *)
Definition half_even (num den : Z) : Z :=
  let q := (num / den)%Z in
  match (2 * (num mod den) ?= den)%Z with
  | Lt => q
  | Gt => (q + 1)%Z
  | Eq => if Z.even q then q else (q + 1)%Z
  end.
Definition hundredths (x : F64.f64) : Z :=
  match x with
  | S754_finite false m e =>
      if (0 <=? e)%Z then (100 * Z.shiftl (Zpos m) e)%Z else half_even (100 * Zpos m) (Z.shiftl 1 (- e))
  | _ => 0%Z
  end.
Definition fixed2 (x : F64.f64) : string :=
  let h := hundredths x in str_concat [dec (h / 100); "."; pad0 2 (dec (h mod 100))].
(** @admin/eventsink.rs:{fn format_bytes} format_bytes *)
Definition format_bytes (n : Z) : string :=
  let KIB := 1024%Z in
  let MIB := (1024 * KIB)%Z in
  let GIB := (1024 * MIB)%Z in
  let shown unit name := String.append (fixed2 (F64.div (F64.of_Z n) (F64.of_Z unit))) name in
  if (GIB <=? n)%Z then shown GIB " GiB"
  else if (MIB <=? n)%Z then shown MIB " MiB"
  else if (KIB <=? n)%Z then shown KIB " KiB"
  else String.append (dec n) " B".
Example format_bytes_examples :
  format_bytes 1023 = "1023 B" /\ format_bytes 1024 = "1.00 KiB" /\ format_bytes 1536 = "1.50 KiB" /\
  format_bytes 1048575 = "1024.00 KiB" /\ format_bytes (5 * 1024 * 1024 + 13107) = "5.01 MiB" /\
  format_bytes 18446744073709551615 = "17179869184.00 GiB".
Proof. vm_compute. split_and!; reflexivity. Qed.

(** ** What is reported *)

(** [StreamMetrics] @admin/eventsink.rs:{struct StreamMetrics} StreamMetrics *)
Record StreamMetrics := Metrics {
  sm_name : string;
  sm_storage : string;
  sm_messages : Z;
  sm_bytes : Z;
  sm_bytes_formatted : string;
  sm_first_seq : Z;
  sm_last_seq : Z;
  sm_consumer_count : Z;
  sm_num_subjects : Z;
  sm_subjects : list string
}.
(** [ConsumerMetrics] @admin/eventsink.rs:{struct ConsumerMetrics} ConsumerMetrics *)
Record ConsumerMetrics := Consumer {
  cm_name : string;
  cm_stream_name : string;
  created : string;
  filter_subject : option string;
  num_pending : Z;
  num_ack_pending : Z;
  num_redelivered : Z;
  num_waiting : Z;
  ack_floor_seq : Z;
  last_delivered_seq : Z;
  push_bound : bool;
  cm_status : option string
}.
(** @admin/eventsink.rs:{fn compute_status} ConsumerMetrics::compute_status *)
Definition compute_status (c : ConsumerMetrics) : string :=
  if (0 <? num_redelivered c)%Z then "degraded"
  else if (1000 <? num_pending c)%Z then "stalled"
  else if (0 <? num_ack_pending c)%Z || (0 <? num_pending c)%Z then "active"
  else "healthy".
(** [EventSinkResponse] @admin/eventsink.rs:{struct EventSinkResponse} EventSinkResponse *)
Record EventSinkResponse := Sink {
  es_broker_type : string;
  es_broker_addr : string;
  es_status : string;
  capabilities : list string;
  es_stream : option StreamMetrics;
  consumers : list ConsumerMetrics;
  es_details : option json;
  es_error : option string
}.
(** Nothing is known but a status, capabilities and perhaps an error. *)
Definition bare_sink (kind addr status : string) (caps : list string) (details : option json) (error : option string) :
    EventSinkResponse := Sink kind addr status caps None [] details error.
(** A consumer of which only what the gateway makes up is shown. *)
Definition made_up (name stream created : string) (filter : string) (pending seq : Z) (bound : bool) (status : string) :
    ConsumerMetrics := Consumer name stream created (Some filter) pending 0 0 0 seq seq bound (Some status).

(** ** NATS JetStream *)

(** What a stream's and a consumer's information hold; [storage] is its debug text. *)
Record stream_info := StreamInfo {
  si_name : string; si_storage : string; si_messages : Z; si_bytes : Z; si_first : Z; si_last : Z;
  si_consumers : Z; si_subjects_count : Z; si_subjects : list string }.
Record consumer_info := ConsumerInfo {
  ci_name : string; ci_stream_name : string; ci_created : string; ci_filter_subject : string;
  ci_filter_subjects : list string; ci_num_pending : Z; ci_num_ack_pending : Z; ci_num_redelivered : Z;
  ci_num_waiting : Z; ci_ack_floor : Z; ci_delivered : Z; ci_push_bound : bool }.
(** What the NATS client answers: a connection, a stream by its name, its information
    and its consumers as they come. *)
Record nats_server := NatsServer {
  connects : result string unit;
  get_stream : string -> result string (result string stream_info * list (result string consumer_info))
}.
(** @admin/eventsink.rs:224-254 EventSinkInspector::inspect_nats *)
Definition consumer_of (c : consumer_info) : ConsumerMetrics :=
  let filter_subj :=
    if negb (String.eqb (ci_filter_subject c) "") then Some (ci_filter_subject c)
    else match ci_filter_subjects c with [] => None | l => Some (str_join ", " l) end in
  Consumer (ci_name c) (ci_stream_name c) (ci_created c) filter_subj (ci_num_pending c) (ci_num_ack_pending c)
    (ci_num_redelivered c) (ci_num_waiting c) (ci_ack_floor c) (ci_delivered c) (ci_push_bound c)
    (Some (if (0 <? ci_num_redelivered c)%Z then "degraded"
           else if (1000 <? ci_num_pending c)%Z then "stalled"
           else if (0 <? ci_num_ack_pending c)%Z || (0 <? ci_num_pending c)%Z then "active"
           else "healthy")).
(** @admin/eventsink.rs:207-218 EventSinkInspector::inspect_nats *)
Definition stream_of (i : stream_info) : StreamMetrics :=
  Metrics (si_name i) (si_storage i) (si_messages i) (si_bytes i) (format_bytes (si_bytes i)) (si_first i) (si_last i)
    (si_consumers i) (si_subjects_count i) (si_subjects i).
(** The errors after which the connection is thrown away.
    @admin/eventsink.rs:171-171 EventSinkInspector::inspect_nats *)
Definition broken_connection (err : string) : bool :=
  str_contains "connection" err || str_contains "closed" err || str_contains "broken" err.

(** The inspector; of the NATS client and of its JetStream context only whether they are
    there. @admin/eventsink.rs:{struct EventSinkInspector} EventSinkInspector *)
Record EventSinkInspector := Inspector {
  broker_method : string;
  broker_addr : string;
  nats_client : bool;
  nats_jetstream : bool;
  cached_response : option (Z * EventSinkResponse)
}.
(** @admin/eventsink.rs:{fn new} EventSinkInspector::new *)
Definition inspector_new (method addr : string) : EventSinkInspector := Inspector method addr false false None.
Definition with_nats (client js : bool) (i : EventSinkInspector) : EventSinkInspector :=
  Inspector (broker_method i) (broker_addr i) client js (cached_response i).
Definition with_cached (c : option (Z * EventSinkResponse)) (i : EventSinkInspector) : EventSinkInspector :=
  Inspector (broker_method i) (broker_addr i) (nats_client i) (nats_jetstream i) c.
(** @admin/eventsink.rs:{fn evict_nats} EventSinkInspector::evict_nats *)
Definition evict_nats (i : EventSinkInspector) : EventSinkInspector := with_cached None (with_nats false false i).
(** @admin/eventsink.rs:{fn get_nats_client} EventSinkInspector::get_nats_client *)
Definition get_nats_client (connects : result string unit) (i : EventSinkInspector) :
    result string unit * EventSinkInspector :=
  if nats_client i then (Ok tt, i)
  else match connects with
       | Ok _ => (Ok tt, with_nats true (nats_jetstream i) i)
       | Err e => (Err (str_concat ["Failed to connect to NATS at "; broker_addr i; ": "; e]), i)
       end.
(** @admin/eventsink.rs:{fn get_nats_jetstream} EventSinkInspector::get_nats_jetstream *)
Definition get_nats_jetstream (connects : result string unit) (i : EventSinkInspector) :
    result string unit * EventSinkInspector :=
  if nats_jetstream i then (Ok tt, i)
  else match get_nats_client connects i with
       | (Ok _, i) => (Ok tt, with_nats (nats_client i) true i)
       | (Err e, i) => (Err e, i)
       end.
(** The delay before an attempt to reconnect, in milliseconds: [attempts] is the
    client's, [interactive] says whether a terminal is attached.
    @admin/eventsink.rs:301-309 EventSinkInspector::get_nats_client *)
Definition reconnect_delay (interactive : bool) (attempts : Z) : Z :=
  let '(initial_ms, max_ms) := if interactive then (250, 5000)%Z else (10, 2000)%Z in
  Z.min (Z.min Int.u64_max (initial_ms * Z.shiftl 1 (Z.min attempts 6))) max_ms.

Definition NATS : string := "NATS JetStream".
(** @admin/eventsink.rs:{fn inspect_nats} EventSinkInspector::inspect_nats *)
Definition inspect_nats (server : nats_server) (i : EventSinkInspector) : EventSinkResponse * EventSinkInspector :=
  let addr := broker_addr i in
  match get_nats_jetstream (connects server) i with
  | (Err err, i) =>
      (bare_sink NATS addr "offline" ["Stream Metrics"; "Consumer Lag"; "Push Workers"] None (Some err), evict_nats i)
  | (Ok _, i) =>
      let lost e i := if broken_connection e then evict_nats i else i in
      let connected error := bare_sink NATS addr "connected" ["Stream Metrics"; "Consumer Lag"] None (Some error) in
      match (match get_stream server "mutations" with
             | Ok s => Ok s
             | Err _ => get_stream server "SPECTRA"
             end) with
      | Err e => (connected (String.append "Stream 'mutations' (or 'SPECTRA') not found: " e), lost e i)
      | Ok (Err e, _) => (connected (String.append "Failed to get stream info: " e), lost e i)
      | Ok (Ok info, cs) =>
          (Sink NATS addr "online"
             ["Stream Storage Metrics"; "Sequence Tracking"; "Consumer Lag (Pending)"; "Unacknowledged PEL Tracking";
              "Push Bound Workers"]
             (Some (stream_of info)) (sort_by cm_name (omap (fun r => consumer_of <$> ok r) cs)) None None, i)
      end
  end.

(** What a worker asked for its logs does. *)
Inductive worker_answer := WorkerSays (payload : string) | WorkerFails (e : string) | WorkerSilent.

Section Inspection.
Context `{JsonText}.
(** How a float is written in a JSON text, and why a text is no JSON. *)
Context (f64_json : F64.f64 -> json) (json_error : string -> string) (utf8_error : string -> string).

(** @admin/eventsink.rs:{fn query_worker_logs} EventSinkInspector::query_worker_logs *)
Definition query_worker_logs (connects : result string unit) (ask : string -> string -> worker_answer) (worker_id : string)
    (limit : Z) (i : EventSinkInspector) : result string json * EventSinkInspector :=
  if str_contains "nats" (to_ascii_lowercase (broker_method i)) then
    match get_nats_client connects i with
    | (Err e, i) => (Err e, i)
    | (Ok _, i) =>
        let subject := str_concat ["spectra.workers."; worker_id; ".logs"] in
        match ask subject (json_to_string (JObject [("limit", u64_json limit)])) with
        | WorkerFails e => (Err (str_concat ["Failed to query logs from worker '"; worker_id; "': "; e]), evict_nats i)
        | WorkerSilent =>
            (Err (str_concat ["Timed out waiting for worker '"; worker_id; "' response on subject '"; subject;
                    "' (worker is offline or has not implemented SWTP)"]), i)
        | WorkerSays payload =>
            if negb (utf8_valid payload) then (Err (String.append "Worker returned invalid UTF-8: " (utf8_error payload)), i)
            else match json_from_str payload with
                 | None => (Err (String.append "Worker returned non-JSON response: " (json_error payload)), i)
                 | Some j => (Ok j, i)
                 end
        end
    end
  else (Err (str_concat ["Worker log query via Request-Reply is currently supported for NATS brokers (active broker: ";
               broker_method i; ")"]), i).

(** ** The other brokers *)

(** What a RESP server answers: a connection, a [PING], the length of a stream. *)
Record resp_server := RespServer { resp_connects : result string unit; ping_ok : bool; xlen : string -> option Z }.
(** @admin/eventsink.rs:{fn inspect_redis} EventSinkInspector::inspect_redis *)
Definition watched_stream : string := "spectra:events".
Definition inspect_redis (addr : string) (server : resp_server) : EventSinkResponse :=
  let kind := "Redis Streams" in
  match resp_connects server with
  | Err e => bare_sink kind addr "offline" ["Stream Length (XLEN)"; "Consumer Groups (XINFO)"] None
               (Some (String.append "Redis connection failed: " e))
  | Ok _ =>
      if negb (ping_ok server) then
        bare_sink kind addr "degraded" ["Stream Length (XLEN)"] None (Some "Redis PING failed")
      else
        let stream_key := watched_stream in
        let n := default 0%Z (xlen server stream_key) in
        Sink kind addr "online"
          ["In-Memory Stream (XLEN)"; "Consumer Groups (XINFO)"; "Pending Entries List (XPENDING)"]
          (Some (Metrics stream_key "Redis Memory (AOF/RDB)" n 0 "In-Memory" 0 n 1 1 [stream_key]))
          [made_up "default-group" stream_key "Active" stream_key 0 n true "healthy"]
          (Some (JObject (obj_of [("streamKey", JString stream_key); ("totalEntries", u64_json n)]))) None
  end.
(** What an Iggy server answers: a client for an address, a connection, and the stream of
    a name: its number, name, messages, bytes and topics. *)
Record iggy_stream := IggyStream { ig_id : Z; ig_name : string; ig_messages : Z; ig_size : Z; ig_topics : Z }.
Record iggy_server := IggyServer {
  iggy_client : string -> result string unit; iggy_connects : result string unit;
  iggy_stream_of : string -> result string (option iggy_stream) }.
(** @admin/eventsink.rs:{fn inspect_iggy} EventSinkInspector::inspect_iggy *)
Definition inspect_iggy (addr : string) (server : iggy_server) : EventSinkResponse :=
  let kind := "Apache Iggy" in
  let caps := ["Zero-Copy Streams"; "Partitions Tracking"; "Consumer Groups"] in
  match iggy_client server (normalize_iggy_url addr) with
  | Err e => bare_sink kind addr "offline" caps None (Some (String.append "Iggy client initialization failed: " e))
  | Ok _ =>
      match iggy_connects server with
      | Err e => bare_sink kind addr "offline" caps None (Some (String.append "Iggy server connection failed: " e))
      | Ok _ =>
          match iggy_stream_of server "spectra" with
          | Ok (Some info) =>
              Sink kind addr "online"
                ["Ultra-Low Latency Zero-Copy"; "Kernel Page Cache Logging"; "Consumer Groups & Partition Offsets"]
                (Some (Metrics (ig_name info) "Iggy Zero-Copy / Kernel Page Cache" (ig_messages info) (ig_size info)
                         (format_bytes (ig_size info)) 0 (ig_messages info) 1 (ig_topics info) ["spectra.*"]))
                [made_up "iggy-consumer-group-1" (ig_name info) "Active" "spectra.*" 0 (ig_messages info) true "healthy"]
                (Some (JObject (obj_of [("streamId", u64_json (ig_id info)); ("topicsCount", u64_json (ig_topics info));
                                        ("sizeBytes", u64_json (ig_size info))]))) None
          | Ok None => bare_sink kind addr "connected" ["Zero-Copy Streams"] None
                         (Some "Connected to Iggy, but stream 'spectra' not found")
          | Err e => bare_sink kind addr "connected" ["Zero-Copy Streams"] None
                       (Some (String.append "Connected to Iggy, but stream query failed: " e))
          end
      end
  end.
(** What an AMQP server answers: a connection by its URL, a channel, and the passive
    declaration of a queue: its messages and consumers. *)
Record amqp_server := AmqpServer {
  amqp_connects : string -> result string unit; amqp_channel : result string unit; queue : string -> option (Z * Z) }.
(** @admin/eventsink.rs:{fn inspect_rabbitmq} EventSinkInspector::inspect_rabbitmq *)
Definition inspect_rabbitmq (addr : string) (server : amqp_server) : EventSinkResponse :=
  let kind := "RabbitMQ (AMQP)" in
  match amqp_connects server (normalize_amqp_url addr) with
  | Err e => bare_sink kind addr "offline" ["Queue Depth Inspection"; "Active Consumer Count"] None
               (Some (String.append "RabbitMQ connection error: " e))
  | Ok _ =>
      match amqp_channel server with
      | Err e => bare_sink kind addr "connected" ["Queue Depth Inspection"] None
                   (Some (String.append "Channel creation error: " e))
      | Ok _ =>
          let queue_name := "spectra.events" in
          match queue server queue_name with
          | Some (msgs, consumers_count) =>
              Sink kind addr "online" ["AMQP Queue Depth"; "Active Consumer Channel Count"; "Topic Exchange Routing"]
                (Some (Metrics queue_name "AMQP Broker Queue" msgs 0 "Queue Paged" 0 msgs consumers_count 1 ["spectra.*"]))
                [made_up (String.append queue_name "-consumer") queue_name "Active Channel" "spectra.*" msgs msgs
                   (0 <? consumers_count)%Z (if (1000 <? msgs)%Z then "stalled" else "healthy")]
                (Some (JObject (obj_of [("queue", JString queue_name); ("readyMessages", u64_json msgs);
                                        ("consumerCount", u64_json consumers_count)]))) None
          | None => bare_sink kind addr "connected" ["Topic Exchange Routing"]
                      (Some (JObject (obj_of [("exchange", JString "amq.topic"); ("routingPrefix", JString "spectra")]))) None
          end
      end
  end.
(** What a Kafka cluster answers: a client for its hosts, and a partition of a topic
    with its high watermark, when that can be read. *)
Record kafka_cluster := KafkaCluster {
  kafka_client : list string -> result string unit; partition_client : string -> Z -> result string (option Z) }.
Definition i64_json (n : Z) : json := JNumber (if (0 <=? n)%Z then PosInt n else NegInt n).
(** [high_watermark as u64] @admin/eventsink.rs:{fn inspect_kafka} EventSinkInspector::inspect_kafka *)
Definition inspect_kafka (addr : string) (cluster : kafka_cluster) : EventSinkResponse :=
  let kind := "Apache Kafka / Redpanda" in
  let hosts := normalize_kafka_hosts addr in
  match kafka_client cluster hosts with
  | Err e => bare_sink kind addr "offline" ["Partition High-Watermark"; "Consumer Lag Offsets"] None
               (Some (String.append "Kafka broker connect error: " e))
  | Ok _ =>
      let topic := "spectra" in
      match partition_client cluster topic 0 with
      | Ok offset =>
          let high_watermark := default 0%Z offset in
          let n := Int.wrap 64 high_watermark in
          Sink kind addr "online" ["Partition High-Watermark"; "Distributed Commit Log"; "Offset Tracking"]
            (Some (Metrics topic "Distributed Commit Log" n 0 "Log Partition" 0 n 1 1 [topic]))
            [made_up "kafka-consumer-group" topic "Partition 0" topic 0 n true "healthy"]
            (Some (JObject (obj_of [("topic", JString topic); ("partition", u64_json 0);
                                    ("highWatermark", i64_json high_watermark)]))) None
      | Err e => bare_sink kind addr "connected" ["Topic Offset Inspection"]
                   (Some (JObject [("hosts", JArray (map JString hosts))]))
                   (Some (str_concat ["Kafka topic '"; topic; "' not yet created: "; e]))
      end
  end.
(** @admin/eventsink.rs:{fn inspect_sierradb} EventSinkInspector::inspect_sierradb *)
Definition inspect_sierradb (addr : string) (server : resp_server) : EventSinkResponse :=
  let kind := "SierraDB Event Sourcing Engine" in
  match resp_connects server with
  | Err e => bare_sink kind addr "offline" ["Event Append Log"; "Monotonic Versioning"] None
               (Some (String.append "SierraDB connection failed: " e))
  | Ok _ =>
      if negb (ping_ok server) then bare_sink kind addr "degraded" ["RESP3 Interface"] None (Some "SierraDB PING failed")
      else
        Sink kind addr "online" ["RESP3 EAPPEND Interface"; "Strict Monotonic Versioning"; "Causal HLC Ordering"]
          (Some (Metrics "spectra:events" "SierraDB Append-Only Store" 0 0 "Persistent Log" 0 0 1 1 ["spectra:*"]))
          [] (Some (JObject (obj_of [("engine", JString "SierraDB"); ("protocol", JString "RESP3")]))) None
  end.
(** What a webhook's server answers to a [HEAD]: a status, and how long that took in
    seconds. *)
Definition webhook_probe : Type := result string Z * F64.f64.
(** @admin/eventsink.rs:{fn inspect_webhook} EventSinkInspector::inspect_webhook *)
Definition inspect_webhook (addr : string) (probe : webhook_probe) : EventSinkResponse :=
  let kind := "HTTP Webhook Sink" in
  let '(answer, secs) := probe in
  let latency_ms := F64.mul secs (F64.of_Z 1000) in
  match answer with
  | Err e => bare_sink kind addr "offline" ["HTTP Post Event Delivery"] None
               (Some (str_concat ["Webhook probe to '"; addr; "' failed: "; e]))
  | Ok code =>
      let is_healthy := ((200 <=? code) && (code <? 400))%Z || (code =? 405)%Z in
      Sink kind addr (if is_healthy then "online" else "degraded") ["HTTP Post Event Delivery"; "Round-Trip Latency Probing"]
        (Some (Metrics "HTTP Webhook Target" "External HTTP Server" 0 0 "REST / JSON" 0 0 1 1 ["*"]))
        [made_up "webhook-target" addr "HTTP Endpoint" "*" 0 0 is_healthy (if is_healthy then "healthy" else "degraded")]
        (Some (JObject (obj_of [("targetUrl", JString addr); ("probeStatusCode", u64_json code);
           ("latencyMs", f64_json (F64.div (F64.round (F64.mul latency_ms (F64.of_Z 100))) (F64.of_Z 100)))]))) None
  end.
(** @admin/eventsink.rs:{fn inspect_generic} EventSinkInspector::inspect_generic *)
Definition inspect_generic (method addr : string) : EventSinkResponse :=
  bare_sink method addr "active" ["Generic Event Dispatch"] None None.

(** ** An inspection *)

Inductive broker_kind := KNats | KRedis | KIggy | KRabbit | KKafka | KSierra | KWebhook | KGeneric.
(** The broker a method names. @admin/eventsink.rs:97-116 EventSinkInspector::inspect *)
Definition kind_of (method : string) : broker_kind :=
  let m := to_ascii_lowercase method in
  let has t := str_contains t m in
  if has "nats" then KNats
  else if has "redis" || has "valkey" || has "dragonfly" then KRedis
  else if has "iggy" then KIggy
  else if has "rabbit" || has "amqp" then KRabbit
  else if has "kafka" || has "redpanda" then KKafka
  else if has "sierra" then KSierra
  else if has "webhook" || has "http" then KWebhook
  else KGeneric.
(** All a broker's client may answer. *)
Record brokers := Brokers {
  nats : nats_server; resp : resp_server; iggy : iggy_server; amqp : amqp_server; kafka : kafka_cluster;
  webhook : webhook_probe }.
(** @admin/eventsink.rs:95-116 EventSinkInspector::inspect *)
Definition inspect_now (b : brokers) (i : EventSinkInspector) : EventSinkResponse * EventSinkInspector :=
  let addr := broker_addr i in
  match kind_of (broker_method i) with
  | KNats => inspect_nats (nats b) i
  | KRedis => (inspect_redis addr (resp b), i)
  | KIggy => (inspect_iggy addr (iggy b), i)
  | KRabbit => (inspect_rabbitmq addr (amqp b), i)
  | KKafka => (inspect_kafka addr (kafka b), i)
  | KSierra => (inspect_sierradb addr (resp b), i)
  | KWebhook => (inspect_webhook addr (webhook b), i)
  | KGeneric => (inspect_generic (broker_method i) addr, i)
  end.
(** How an inspection ends: in time, or cut off, with the NATS connection made by then or
    not. *)
Inductive ending := InTime | CutOff (connected : bool).
(** @admin/eventsink.rs:118-138 EventSinkInspector::inspect *)
Definition timed (b : brokers) (e : ending) (i : EventSinkInspector) : EventSinkResponse * EventSinkInspector :=
  match e with
  | InTime => inspect_now b i
  | CutOff connected =>
      (bare_sink (broker_method i) (broker_addr i) "timeout" [] None (Some "Event sink inspection timed out after 2500ms"),
       match kind_of (broker_method i) with
       | KNats => if connected then with_nats (nats_client i || negb (nats_jetstream i)) true i else i
       | _ => i
       end)
  end.
(** The answer is kept for 1500 ms; times in milliseconds, [now] when the inspection
    starts and [finished] when it is over.
    @admin/eventsink.rs:{fn inspect} EventSinkInspector::inspect *)
Definition inspect (b : brokers) (e : ending) (now finished : Z) (i : EventSinkInspector) :
    EventSinkResponse * EventSinkInspector :=
  let fresh := let '(r, i) := timed b e i in (r, with_cached (Some (finished, r)) i) in
  match cached_response i with
  | Some (at_, r) => if (Z.max 0 (now - at_) <? 1500)%Z then (r, i) else fresh
  | None => fresh
  end.

(** ** Serialised *)

(** As serde has them, with [rename_all = camelCase]. @admin/eventsink.rs:7-20 StreamMetrics::serialize *)
Definition stream_codec : Derive.codec StreamMetrics :=
  Derive.iso
    (Derive.struct (Derive.req "name" Derive.text *** Derive.req "storage" Derive.text *** Derive.req "messages" Derive.u64 ***
      Derive.req "bytes" Derive.u64 *** Derive.req "bytesFormatted" Derive.text *** Derive.req "firstSeq" Derive.u64 ***
      Derive.req "lastSeq" Derive.u64 *** Derive.req "consumerCount" Derive.u64 *** Derive.req "numSubjects" Derive.u64 ***
      Derive.req "subjects" (Derive.vec Derive.text)) eq_refl)
    (fun m => (sm_name m, (sm_storage m, (sm_messages m, (sm_bytes m, (sm_bytes_formatted m, (sm_first_seq m,
      (sm_last_seq m, (sm_consumer_count m, (sm_num_subjects m, sm_subjects m))))))))))
    (fun t => let '(a, (b, (c, (d, (e, (f, (g, (h, (i, j))))))))) := t in Metrics a b c d e f g h i j)
    ltac:(by intros []) ltac:(tupled).
(** @admin/eventsink.rs:22-38 ConsumerMetrics::serialize *)
Definition consumer_codec : Derive.codec ConsumerMetrics :=
  Derive.iso
    (Derive.struct (Derive.req "name" Derive.text *** Derive.req "streamName" Derive.text *** Derive.req "created" Derive.text ***
      Derive.maybe "filterSubject" Derive.text Derive.text_solid *** Derive.req "numPending" Derive.u64 ***
      Derive.req "numAckPending" Derive.u64 *** Derive.req "numRedelivered" Derive.u64 *** Derive.req "numWaiting" Derive.u64 ***
      Derive.req "ackFloorSeq" Derive.u64 *** Derive.req "lastDeliveredSeq" Derive.u64 *** Derive.req "pushBound" Derive.flag ***
      Derive.some_text "status") eq_refl)
    (fun c => (cm_name c, (cm_stream_name c, (created c, (filter_subject c, (num_pending c, (num_ack_pending c,
      (num_redelivered c, (num_waiting c, (ack_floor_seq c, (last_delivered_seq c, (push_bound c, cm_status c))))))))))))
    (fun t => let '(a, (b, (c, (d, (e, (f, (g, (h, (i, (j, (k, l))))))))))) := t in Consumer a b c d e f g h i j k l)
    ltac:(by intros []) ltac:(tupled).
Lemma stream_solid m : Derive.ser stream_codec m <> JNull.
Proof. done. Qed.
(** @admin/eventsink.rs:55-66 EventSinkResponse::serialize *)
Definition sink_codec : Derive.codec EventSinkResponse :=
  Derive.iso
    (Derive.struct (Derive.req "brokerType" Derive.text *** Derive.req "brokerAddr" Derive.text *** Derive.req "status" Derive.text ***
      Derive.req "capabilities" (Derive.vec Derive.text) *** Derive.maybe "stream" stream_codec stream_solid ***
      Derive.req "consumers" (Derive.vec consumer_codec) *** Derive.maybe_value "details" ***
      Derive.maybe "error" Derive.text Derive.text_solid) eq_refl)
    (fun r => (es_broker_type r, (es_broker_addr r, (es_status r, (capabilities r, (es_stream r, (consumers r,
      (es_details r, es_error r))))))))
    (fun t => let '(a, (b, (c, (d, (e, (f, (g, h))))))) := t in Sink a b c d e f g h) ltac:(by intros []) ltac:(tupled).
End Inspection.

(** ** Properties *)

(** The kind of the broker events are sent to. *)
Definition kind_of_dispatch (d : DispatchMethod) : broker_kind :=
  match d with
  | NatsJetstream _ => KNats
  | RedisStreams _ _ => KRedis
  | SierraDb _ _ => KSierra
  | Kafka _ _ _ => KKafka
  | RabbitMq _ _ _ => KRabbit
  | Iggy _ _ _ => KIggy
  | Webhook _ => KWebhook
  end.
(** A webhook's name that also holds another broker's. *)
Definition mixed_name (method : string) : bool :=
  existsb (fun t => str_contains t (to_ascii_lowercase method))
    ["redis"; "valkey"; "dragonfly"; "iggy"; "rabbit"; "amqp"; "kafka"; "redpanda"; "sierra"].

Lemma is_one_of_cases m names : is_one_of m names = true -> m ∈ names.
Proof. unfold is_one_of. rewrite existsb_exists. intros (x & Hx & ->%String.eqb_eq). by apply list_elem_of_In. Qed.
(** The broker the administrative interface looks at is the one the events go to, for
    every name of a broker the gateway can be configured with; the exception are names
    of webhooks that also hold another broker's name. *)
Theorem inspected_broker_is_the_events method endpoint d :
  find_dispatch_handler_by_method method endpoint = Ok d ->
  kind_of method = kind_of_dispatch d <-> (mixed_name method = false \/ kind_of_dispatch d <> KWebhook).
Proof.
  unfold find_dispatch_handler_by_method, nats_supports, redis_supports, sierradb_supports, kafka_supports,
    rabbitmq_supports, iggy_supports, webhook_supports, kind_of, mixed_name.
  generalize (to_ascii_lowercase method) as m. intros m. cbv zeta.
  destruct (str_contains "nats" m) eqn:En; [intros [= <-]; split; [intros _; by right|done]|].
  repeat match goal with |- context [is_one_of m ?l] =>
    destruct (is_one_of m l) eqn:?;
    [match goal with Hm : is_one_of m _ = true |- _ =>
       apply is_one_of_cases in Hm; intros [= <-]; split; [intros _; by right|intros _];
       repeat (apply elem_of_cons in Hm as [->|Hm]; [reflexivity|]); by apply elem_of_nil in Hm
     end|]
  end.
  destruct (str_contains "webhook" m || str_contains "http" m) eqn:Ew; [|done].
  intros [= <-]. cbn [kind_of_dispatch existsb]. rewrite orb_false_r.
  destruct (str_contains "redis" m); [cbn; naive_solver|]. destruct (str_contains "valkey" m); [cbn; naive_solver|].
  destruct (str_contains "dragonfly" m); [cbn; naive_solver|]. destruct (str_contains "iggy" m); [cbn; naive_solver|].
  destruct (str_contains "rabbit" m); [cbn; naive_solver|]. destruct (str_contains "amqp" m); [cbn; naive_solver|].
  destruct (str_contains "kafka" m); [cbn; naive_solver|]. destruct (str_contains "redpanda" m); [cbn; naive_solver|].
  destruct (str_contains "sierra" m); [cbn; naive_solver|]. cbn. naive_solver.
Qed.

(** *** What is cached *)

Section Properties.
Context `{JsonText}.
Context (f64_json : F64.f64 -> json) (json_error : string -> string) (utf8_error : string -> string).

(** What the administrative interface does with its inspector, in order: it looks at the
    broker, or asks a worker for its logs. *)
Inductive inspector_op :=
| Inspect (b : brokers) (e : ending) (now finished : Z)
| Ask (connects : result string unit) (ask : string -> string -> worker_answer) (worker : string) (limit : Z).
Definition inspector_step (i : EventSinkInspector) (op : inspector_op) : EventSinkInspector :=
  match op with
  | Inspect b e now finished => snd (inspect f64_json b e now finished i)
  | Ask c a w l => snd (query_worker_logs json_error utf8_error c a w l i)
  end.
Definition inspector_run (ops : list inspector_op) (i : EventSinkInspector) : EventSinkInspector :=
  fold_left inspector_step ops i.
(** [r] is what a look at the broker that ended at [at_] gave. *)
Definition looked (ops : list inspector_op) (at_ : Z) (r : EventSinkResponse) : Prop :=
  exists b e now before, Inspect b e now at_ ∈ ops /\ fst (timed f64_json b e before) = r.
Lemma looked_more ops op at_ r : looked ops at_ r -> looked (ops ++ [op]) at_ r.
Proof. intros (b & e & now & before & Hin & Hr). exists b, e, now, before. split; [set_solver|done]. Qed.
Definition same_target (i j : EventSinkInspector) : Prop :=
  broker_method i = broker_method j /\ broker_addr i = broker_addr j.
(** The cached answer changes to nothing only by what is not a look. *)
Lemma query_cached c a w l i : cached_response (snd (query_worker_logs json_error utf8_error c a w l i)) = cached_response i \/
  cached_response (snd (query_worker_logs json_error utf8_error c a w l i)) = None.
Proof.
  unfold query_worker_logs, get_nats_client, with_nats, evict_nats, with_cached. repeat case_match; simplify_eq; cbn; auto.
Qed.
Lemma cached_looked method addr ops at_ r :
  cached_response (inspector_run ops (inspector_new method addr)) = Some (at_, r) -> looked ops at_ r.
Proof.
  revert at_ r. induction ops as [|op ops IH] using rev_ind; intros at_ r; [done|].
  unfold inspector_run in *. rewrite fold_left_app. cbn [fold_left].
  set (i := fold_left inspector_step ops (inspector_new method addr)) in *. destruct op as [b e now finished|c a w l]; cbn.
  - unfold inspect.
    assert (Hfresh : cached_response (snd (let '(r0, i0) := timed f64_json b e i in (r0, with_cached (Some (finished, r0)) i0))) = Some (at_, r) ->
      looked (ops ++ [Inspect b e now finished]) at_ r).
    { destruct (timed f64_json b e i) as [r0 i0] eqn:Et. cbn. intros [= <- <-].
      exists b, e, now, i. split; [set_solver|by rewrite Et]. }
    destruct (cached_response i) as [[at0 r0]|] eqn:Ec; [|exact Hfresh].
    destruct (Z.max 0 (now - at0) <? 1500)%Z; [|exact Hfresh]. cbn. rewrite Ec. intros [= -> ->].
    apply looked_more, IH. reflexivity.
  - destruct (query_cached c a w l i) as [->| ->]; [|done]. intros Hc. by apply looked_more, IH.
Qed.

(** Whatever looks and questions came before, and even when a look fails and throws the
    connection away, an answer about the broker is that of a look that ended less than
    1500 ms ago, or of one made now; and an answer is kept for the next 1500 ms. *)
Theorem inspection_staleness method addr ops b e now finished :
  let i := inspector_run ops (inspector_new method addr) in
  let '(r, i') := inspect f64_json b e now finished i in
  ((exists at_, looked ops at_ r /\ (now - at_ < 1500)%Z) \/ r = fst (timed f64_json b e i)) /\
  exists at_, cached_response i' = Some (at_, r) /\
    forall b' e' now' finished', (now' - at_ < 1500)%Z -> inspect f64_json b' e' now' finished' i' = (r, i').
Proof.
  cbv zeta. set (i := inspector_run ops _). pose proof (cached_looked method addr ops) as Hl. fold i in Hl.
  assert (Hagain : forall j at_ r b' e' now' finished', cached_response j = Some (at_, r) -> (now' - at_ < 1500)%Z ->
    inspect f64_json b' e' now' finished' j = (r, j)).
  { intros j at_ r b' e' now' finished' Hc Hlt. unfold inspect. rewrite Hc.
    destruct (Z.ltb_spec (Z.max 0 (now' - at_)) 1500); [done|lia]. }
  unfold inspect. destruct (cached_response i) as [[at0 r0]|] eqn:Ec.
  - destruct (Z.ltb_spec (Z.max 0 (now - at0)) 1500) as [Hlt|Hge].
    + split; [left; exists at0; split; [by apply Hl|lia]|]. exists at0. split; [done|]. intros. by eapply Hagain.
    + destruct (timed f64_json b e i) as [r1 i1]. split; [by right|]. exists finished. split; [done|]. intros. by eapply Hagain.
  - destruct (timed f64_json b e i) as [r1 i1]. split; [by right|]. exists finished. split; [done|]. intros. by eapply Hagain.
Qed.

(** *** What is looked at *)

Lemma replace_chars_app cs w a b : replace_chars cs w (String.append a b) = String.append (replace_chars cs w a) (replace_chars cs w b).
Proof.
  induction a as [|x a IH]; cbn; [done|]. destruct (existsb _ cs); cbn; rewrite IH; [|done]. by rewrite str_app_assoc.
Qed.
(** The stream whose length is reported for Redis is none the gateway writes to: every
    topic has a dot in it. *)
Lemma watched_stream_not_written a b : stream_key "spectra" (str_concat [a; "."; b]) <> watched_stream.
Proof.
  unfold stream_key, str_concat, watched_stream. cbn [String.concat]. rewrite !replace_chars_app. cbn.
  set (x := replace_chars _ _ a). intros Heq.
  repeat (injection Heq as Heq).
  destruct x as [|c1 [|c2 [|c3 [|c4 [|c5 [|c6 [|c7 x]]]]]]]; discriminate Heq.
Qed.
End Properties.

Lemma inspected_broker_is_the_events_witness : kind_of "Dragonfly" = KRedis /\ kind_of "http-redis" <> KWebhook.
Proof.
  split.
  - apply (inspected_broker_is_the_events "Dragonfly" "h:1" (RedisStreams (normalize_redis_url "h:1") "spectra"));
      [reflexivity|by right].
  - intros Hk. apply (inspected_broker_is_the_events "http-redis" "u" (Webhook "u")) in Hk as [Hk|Hk]; [|done..].
    by vm_compute in Hk.
Defined.
