(* ===== verification/Inspector.v ===== *)
(** * Inspector: which mutations of the upstream's schema the routes cover,
    [src/admin/schema_inspector.rs] with the answer of [src/admin/api.rs]. *)

From Stdlib Require Import SpecFloat.
From S2P Require Import Prelude Externals Types Protocol Config Traffic Registry Gateway.
Local Open Scope string_scope.

(** [AdminMutationCoverageEntry] @admin/api.rs:{struct AdminMutationCoverageEntry} AdminMutationCoverageEntry *)
Record AdminMutationCoverageEntry := Entry {
  field_name : string;
  classification : string;
  target_upstream : option string;
  ce_mode : option string;
  ce_receipt_status : option string;
  route_name : option string;
  ce_dispatch_policy : option string;
  is_policy_override : option bool
}.
(** [AdminSchemaCoverageResponse] @admin/api.rs:{struct AdminSchemaCoverageResponse} AdminSchemaCoverageResponse *)
Record AdminSchemaCoverageResponse := Coverage {
  total_mutations : nat;
  async_count : nat;
  targeted_count : nat;
  default_fallback_count : nat;
  strangled_count : nat;
  mode_b_count : nat;
  monolith_fallback_count : nat;
  drift_count : nat;
  coverage_percent : F64.f64;
  mutations : list AdminMutationCoverageEntry;
  drifted_routes : list string;
  last_refreshed_utc : string
}.

(** The routes, in the order the hash map lists them. *)
Definition routes_t : Type := list (string * SpectraRouteConfig).
(** @admin/schema_inspector.rs:17-25 analyze_mutation_coverage *)
Definition schema_root (introspection_json : json) : option json :=
  match j_get "data" introspection_json with
  | Some data => j_get "__schema" data
  | None => j_get "__schema" introspection_json
  end.
(** @admin/schema_inspector.rs:27-32 analyze_mutation_coverage *)
Definition mutation_fields (schema : json) : list json :=
  default [] ((j_get "mutationType" schema ≫= j_get "fields") ≫= as_array).
(** @admin/schema_inspector.rs:43-50 analyze_mutation_coverage *)
Definition field_name_of (field : json) : string := default "" (j_get "name" field ≫= as_str).
(** @admin/schema_inspector.rs:54-54 analyze_mutation_coverage *)
Definition matched_route (routes : routes_t) (field : string) : option (string * SpectraRouteConfig) :=
  List.find (fun nr => String.eqb (operation (snd nr)) field) routes.
(** A field's entry, and which of the counts it adds to.
    @admin/schema_inspector.rs:56-131 analyze_mutation_coverage *)
Definition classify (routes : routes_t) (field : string) : AdminMutationCoverageEntry :=
  match matched_route routes field with
  | Some (name, route) =>
      match mode route with
      | AsyncCommandReceipt =>
          Entry field "AsyncReceipt" None (Some "Async") (Some (receipt_status route)) (Some name) (Some "event_sink")
            (Some false)
      | SyncUpstreamExecution =>
          let '(policy_str, is_override) :=
            match rt_dispatch_policy route with
            | Some p => (Some (policy_as_str p), Some true)
            | None => (None, Some false)
            end in
          let configured := Entry field "ConfiguredRoute" (Some "default") (Some "Sync") None (Some name) policy_str is_override in
          match rt_upstream route with
          | Some upstream =>
              if negb (String.eqb upstream "default") then
                Entry field "TargetedService" (Some upstream) (Some "Sync") None (Some name) policy_str is_override
              else configured
          | None => configured
          end
      end
  | None => Entry field "DefaultUpstream" (Some "default") (Some "Sync") None None None (Some false)
  end.

(** @admin/schema_inspector.rs:{fn is_chassis_operation} is_chassis_operation *)
Definition is_chassis_operation (route : SpectraRouteConfig) : bool :=
  existsb (String.eqb "deploy_guard") (rt_interceptors route) ||
  existsb (String.eqb (operation route)) ["deployFluxcell"; "activateFluxcell"; "removeFluxcell"].
(** @admin/schema_inspector.rs:136-157 analyze_mutation_coverage *)
Definition drifts (names : list string) (route : SpectraRouteConfig) : bool :=
  rt_enabled route && negb (is_chassis_operation route) && negb (existsb (String.eqb (operation route)) names).
Definition drift_message (nr : string * SpectraRouteConfig) : string :=
  str_concat ["Route '"; fst nr; "' (operation: '"; operation (snd nr); "') not found in upstream GraphQL schema"].
(** @admin/schema_inspector.rs:162-166 analyze_mutation_coverage *)
Definition percent (covered total : nat) : F64.f64 :=
  if (0 <? total)%nat then
    F64.mul (F64.div (F64.of_Z (Z.of_nat covered)) (F64.of_Z (Z.of_nat total))) (F64.of_Z 100)
  else S754_zero false.
Definition classified (c : string) (l : list AdminMutationCoverageEntry) : nat :=
  length (List.filter (fun e => String.eqb (classification e) c) l).
(** [now] is the text of the time. The counts go up where the entries are made; a field
    a route was found for is remembered by its name.
    @admin/schema_inspector.rs:{fn analyze_mutation_coverage} analyze_mutation_coverage *)
Definition analyze_mutation_coverage (now : string) (introspection_json : json) (routes : routes_t) :
    result string AdminSchemaCoverageResponse :=
  match schema_root introspection_json with
  | None => Err "Missing '__schema' in introspection response"
  | Some schema =>
      let fields := mutation_fields schema in
      let names := List.filter (fun n => negb (String.eqb n "")) (map field_name_of fields) in
      let entries := map (classify routes) names in
      let matched := List.filter (fun n => match matched_route routes n with Some _ => true | None => false end) names in
      let drifted := match fields with
                     | [] => []
                     | _ => sort_by (fun s => s) (map drift_message (List.filter (fun nr => drifts matched (snd nr)) routes))
                     end in
      let targeted := classified "TargetedService" entries in
      let async := classified "AsyncReceipt" entries in
      let fallback := classified "DefaultUpstream" entries in
      Ok (Coverage (length entries) async targeted fallback targeted async fallback (length drifted)
            (percent (targeted + async) (length entries)) entries drifted now)
  end.
(** @admin/schema_inspector.rs:{fn chrono_or_simple_timestamp} chrono_or_simple_timestamp *)
Definition chrono_or_simple_timestamp (secs : Z) : string :=
  str_concat [dec secs; " UTC (unix: "; dec secs; ")"].

(** ** The inspector *)

(** [SchemaInspector]: the last coverage. @admin/schema_inspector.rs:{struct SchemaInspector} SchemaInspector *)
Record SchemaInspector := SInspector { cached_coverage : option AdminSchemaCoverageResponse }.
(** @admin/schema_inspector.rs:{fn new} SchemaInspector::new *)
Definition schema_inspector_new : SchemaInspector := SInspector None.
(** What the upstream does with the introspection query: nothing, or a status and a
    body, which may break off. *)
Inductive introspected := Unreachable (e : string) | Answered (code : Z) (body : result string string).
(** @admin/schema_inspector.rs:{fn refresh} SchemaInspector::refresh *)
Definition refresh `{JsonText} (json_error : string -> string) (status_text : Z -> string) (upstream_url : string)
    (answer : introspected) (secs : Z) (routes : routes_t) (i : SchemaInspector) :
    result string AdminSchemaCoverageResponse * SchemaInspector :=
  match answer with
  | Unreachable e => (Err (str_concat ["Upstream HTTP request failed to '"; upstream_url; "': "; e]), i)
  | Answered code b =>
      if negb ((200 <=? code) && (code <? 300))%Z then
        (Err (str_concat ["Upstream responded with HTTP "; status_text code; " during introspection"]), i)
      else
        match b with
        | Err e => (Err (String.append "Failed to read introspection response from upstream: " e), i)
        | Ok text =>
            match json_from_str text with
            | None => (Err (String.append "Failed to parse JSON introspection from upstream: " (json_error text)), i)
            | Some j =>
                match analyze_mutation_coverage (chrono_or_simple_timestamp secs) j routes with
                | Err e => (Err e, i)
                | Ok c => (Ok c, SInspector (Some c))
                end
            end
        end
  end.
(** @admin/schema_inspector.rs:{fn get_coverage} SchemaInspector::get_coverage *)
Definition get_coverage (i : SchemaInspector) : option AdminSchemaCoverageResponse := cached_coverage i.
(** @admin/schema_inspector.rs:{fn set_coverage} SchemaInspector::set_coverage *)
Definition set_coverage (c : AdminSchemaCoverageResponse) (i : SchemaInspector) : SchemaInspector := SInspector (Some c).

(** ** Serialised *)

Definition opt_json {A} (f : A -> json) (o : option A) : json := match o with Some a => f a | None => JNull end.
Definition nat_json (n : nat) : json := u64_json (Z.of_nat n).
(** @admin/api.rs:68-81 AdminMutationCoverageEntry *)
Definition entry_json (e : AdminMutationCoverageEntry) : json :=
  JObject [("field_name", JString (field_name e)); ("classification", JString (classification e));
    ("target_upstream", text_or_null (target_upstream e)); ("mode", text_or_null (ce_mode e));
    ("receipt_status", text_or_null (ce_receipt_status e)); ("route_name", text_or_null (route_name e));
    ("dispatch_policy", text_or_null (ce_dispatch_policy e)); ("is_policy_override", opt_json JBool (is_policy_override e))].
(** @admin/api.rs:{struct AdminSchemaCoverageResponse} AdminSchemaCoverageResponse *)
Definition coverage_json (f64_json : F64.f64 -> json) (c : AdminSchemaCoverageResponse) : json :=
  JObject [("total_mutations", nat_json (total_mutations c)); ("async_count", nat_json (async_count c));
    ("targeted_count", nat_json (targeted_count c)); ("default_fallback_count", nat_json (default_fallback_count c));
    ("strangled_count", nat_json (strangled_count c)); ("mode_b_count", nat_json (mode_b_count c));
    ("monolith_fallback_count", nat_json (monolith_fallback_count c)); ("drift_count", nat_json (drift_count c));
    ("coverage_percent", f64_json (coverage_percent c)); ("mutations", JArray (map entry_json (mutations c)));
    ("drifted_routes", JArray (map JString (drifted_routes c))); ("last_refreshed_utc", JString (last_refreshed_utc c))].

(** ** Properties *)

Lemma elem_of_filter_list {A} (p : A -> bool) x l : x ∈ List.filter p l <-> x ∈ l /\ p x = true.
Proof. by rewrite !list_elem_of_In, List.filter_In. Qed.
Lemma matched_route_Some routes f nr : matched_route routes f = Some nr -> nr ∈ routes /\ operation (snd nr) = f.
Proof.
  unfold matched_route. intros Hf. apply List.find_some in Hf as [Hin Heq]. apply String.eqb_eq in Heq.
  by rewrite list_elem_of_In.
Qed.
Lemma matched_route_None routes f : matched_route routes f = None -> forall nr, nr ∈ routes -> operation (snd nr) <> f.
Proof.
  unfold matched_route. intros Hn nr Hin Heq. apply list_elem_of_In in Hin. eapply List.find_none in Hn; [|exact Hin].
  cbn in Hn. by rewrite Heq, String.eqb_refl in Hn.
Qed.
Lemma classify_cases routes f :
  classification (classify routes f) ∈ ["AsyncReceipt"; "TargetedService"; "ConfiguredRoute"; "DefaultUpstream"].
Proof. unfold classify. repeat case_match; simplify_eq; cbn; set_solver. Qed.
Lemma classify_name routes f : field_name (classify routes f) = f.
Proof. unfold classify. by repeat case_match; simplify_eq. Qed.

Definition named_fields (j : json) : list string :=
  match schema_root j with
  | Some schema => List.filter (fun n => negb (String.eqb n "")) (map field_name_of (mutation_fields schema))
  | None => []
  end.
Lemma classified_cons c e l : classified c (e :: l) = ((if String.eqb (classification e) c then 1 else 0) + classified c l)%nat.
Proof. unfold classified. cbn. by destruct (String.eqb _ c). Qed.
Lemma classes_partition routes names :
  let l := map (classify routes) names in
  (classified "AsyncReceipt" l + classified "TargetedService" l + classified "ConfiguredRoute" l +
   classified "DefaultUpstream" l)%nat = length names.
Proof.
  cbv zeta. induction names as [|n names IH]; [done|]. cbn [map length]. rewrite !classified_cons.
  pose proof (classify_cases routes n) as Hc. rewrite <- IH.
  repeat (apply elem_of_cons in Hc as [->|Hc]; [cbn [String.eqb Ascii.eqb Bool.eqb]; lia|]). by apply elem_of_nil in Hc.
Qed.

(** A coverage report has one entry for each named mutation of the schema, in its
    order; its counts are those of the four classes, which take every entry exactly
    once; and it reports as drifted exactly the enabled routes that are not the
    chassis' own and whose operation the schema does not name, when the schema has
    mutations at all. *)
Theorem coverage_report now j routes c :
  analyze_mutation_coverage now j routes = Ok c ->
  map field_name (mutations c) = named_fields j /\
  (async_count c + targeted_count c + classified "ConfiguredRoute" (mutations c) + default_fallback_count c)%nat =
    total_mutations c /\
  total_mutations c = length (named_fields j) /\ drift_count c = length (drifted_routes c) /\
  forall m, m ∈ drifted_routes c <->
    exists name route, (name, route) ∈ routes /\ m = drift_message (name, route) /\ rt_enabled route = true /\
      is_chassis_operation route = false /\ ~ (operation route ∈ named_fields j) /\
      (match schema_root j with Some s => mutation_fields s <> [] | None => False end).
Proof.
  intros Ha. unfold analyze_mutation_coverage, named_fields in *. destruct (schema_root j) as [schema|]; [|done].
  set (names := List.filter _ (map field_name_of _)) in *. injection Ha as <-.
  cbn [mutations async_count targeted_count default_fallback_count total_mutations drift_count drifted_routes].
  assert (Hnames : forall r, (exists n, (n, r) ∈ routes) ->
    existsb (String.eqb (operation r)) (List.filter (fun n => match matched_route routes n with Some _ => true | None => false end) names) =
    bool_decide (operation r ∈ names)).
  { intros r [n Hr]. apply eq_true_iff_eq. rewrite bool_decide_eq_true, existsb_exists. split.
    - intros (x & Hx & ->%String.eqb_eq). apply list_elem_of_In, elem_of_filter_list in Hx. tauto.
    - intros Hin. exists (operation r). split; [|apply String.eqb_refl]. apply list_elem_of_In, elem_of_filter_list.
      split; [done|]. destruct (matched_route routes (operation r)) eqn:E; [done|].
      exfalso. by apply (matched_route_None _ _ E (n, r)). }
  split_and!.
  - rewrite map_map. clear. induction names as [|n l IH]; cbn; [done|]. by rewrite classify_name, IH.
  - rewrite length_map. pose proof (classes_partition routes names) as Hp. cbv zeta in Hp. lia.
  - apply length_map.
  - done.
  - intros m. destruct (mutation_fields schema) as [|f fs] eqn:Ef.
    + split; [by intros ?%elem_of_nil|]. by intros (? & ? & _ & _ & _ & _ & _ & ?).
    + rewrite elem_of_sort_by, list_elem_of_fmap. split.
      * intros ([n r] & -> & Hin). apply elem_of_filter_list in Hin as [Hin Hd]. cbn in Hd. unfold drifts in Hd.
        rewrite Hnames in Hd by eauto. apply andb_true_iff in Hd as [[He Hc]%andb_true_iff Hn].
        exists n, r. split_and!; [done..| | |done].
        -- by apply negb_true_iff in Hc.
        -- by apply negb_true_iff, bool_decide_eq_false in Hn.
      * intros (n & r & Hin & -> & He & Hc & Hn & _). exists (n, r). split; [done|]. apply elem_of_filter_list.
        split; [done|]. unfold drifts. cbn. rewrite Hnames by eauto. rewrite He, Hc. cbn. by rewrite bool_decide_false.
Qed.

(** For a request of one mutation field and no operation name, whose routes spell the
    field as the schema does, the report says what the gateway's router does with it:
    an asynchronous receipt where it answers with one, the default upstream where no
    route takes it, and else the route's upstream. *)
Theorem coverage_predicts_routing `{HttpLib} (routes : list (string * SpectraRouteConfig)) info g f :
  Protocol.gql info = Some g -> operation_name g = None -> root_fields g = [f] ->
  (forall nr, nr ∈ routes -> eq_ignore_ascii_case f (operation (snd nr)) = true -> operation (snd nr) = f) ->
  let e := classify routes f in
  (classification e = "AsyncReceipt" <->
     exists r, match_route routes info = Some r /\ mode r = AsyncCommandReceipt) /\
  (classification e = "DefaultUpstream" <-> match_route routes info = None) /\
  forall r, match_route routes info = Some r -> mode r = SyncUpstreamExecution ->
    target_upstream e = Some (default "default" (rt_upstream r)).
Proof.
  intros Hg Hn Hf Hspell.
  assert (Hm : match_route routes info = snd <$> matched_route routes f).
  { unfold match_route, matched_route. rewrite Hg. f_equal. unfold matches_operation, matches_name. rewrite Hn, Hf.
    clear Hg Hn Hf. induction routes as [|nr l IH]; [done|]. cbn [List.find]. cbn [existsb].
    rewrite orb_false_r. cbn [orb].
    assert (Heq : eq_ignore_ascii_case f (operation (snd nr)) = String.eqb (operation (snd nr)) f).
    { destruct (String.eqb_spec (operation (snd nr)) f) as [->|Hne].
      - unfold eq_ignore_ascii_case. apply String.eqb_refl.
      - destruct (eq_ignore_ascii_case f _) eqn:E; [|done]. exfalso. apply Hne, Hspell; [by left|done]. }
    rewrite Heq. destruct (String.eqb _ f); [done|]. apply IH. intros nr' Hin. apply Hspell. by right. }
  cbv zeta. rewrite Hm. unfold classify. destruct (matched_route routes f) as [[n r]|]; cbn [fmap option_fmap option_map snd].
  - destruct (mode r) eqn:Er.
    + destruct (rt_dispatch_policy r), (rt_upstream r) as [u|] eqn:Eu; try destruct (String.eqb_spec u "default") as [->|];
        cbn; split_and!; try done; (split; [done|]) || (intros r' [= <-] _; by rewrite Eu); try (by intros (r' & [= <-] & ?); congruence).
    + cbn. split_and!; [split; [by eauto|done]|done|]. intros r' [= <-]. congruence.
  - cbn. split_and!; [split; [done|by intros (r & ? & _)]|done|done].
Qed.

(** ** Witnesses *)

Definition demo_route (op : string) (m : ExecutionStrategy) (up : option string) : SpectraRouteConfig :=
  Route op m true up "ACCEPTED" [] None.
Definition demo_routes : list (string * SpectraRouteConfig) :=
  [("inventory", demo_route "adjustInventory" SyncUpstreamExecution (Some "inventory"));
   ("import", demo_route "importCatalog" AsyncCommandReceipt None);
   ("ghost", demo_route "nonExistent" SyncUpstreamExecution None)].
Definition demo_field (n : string) : json := JObject [("name", JString n)].
Definition demo_introspection : json :=
  JObject [("data", JObject [("__schema", JObject [("mutationType", JObject [("fields",
    JArray [demo_field "adjustInventory"; demo_field "importCatalog"; demo_field "updateUserEmail"])])])])].
Lemma coverage_report_witness :
  exists c, analyze_mutation_coverage "now" demo_introspection demo_routes = Ok c /\
    (async_count c, targeted_count c, default_fallback_count c, total_mutations c) = (1, 1, 1, 3)%nat /\
    drift_message ("ghost", demo_route "nonExistent" SyncUpstreamExecution None) ∈ drifted_routes c.
Proof.
  destruct (analyze_mutation_coverage "now" demo_introspection demo_routes) as [c|] eqn:E; [|done].
  exists c. split; [done|]. split; [by injection E as <-|].
  destruct (coverage_report "now" demo_introspection demo_routes c E) as (_ & _ & _ & _ & Hd).
  apply Hd. exists "ghost", (demo_route "nonExistent" SyncUpstreamExecution None).
  split; [by do 2 right; left|]. do 3 (split; [reflexivity|]). split; [by apply (bool_decide_unpack _); vm_compute|done].
Defined.
Lemma coverage_predicts_routing_witness :
  exists r, match_route (H := list_http) demo_routes
    (@ReqInfo list_http "r" (Clock.HLC 0 0) (@HttpInfo list_http "POST" "/" "1" [])
       (Some (GqlInfo Mutation None ["importCatalog"] None JNull None)) None PRequest 1) = Some r /\ mode r = AsyncCommandReceipt.
Proof.
  apply (coverage_predicts_routing (H := list_http) demo_routes
    (@ReqInfo list_http "r" (Clock.HLC 0 0) (@HttpInfo list_http "POST" "/" "1" [])
       (Some (GqlInfo Mutation None ["importCatalog"] None JNull None)) None PRequest 1)
    (GqlInfo Mutation None ["importCatalog"] None JNull None) "importCatalog"); try reflexivity.
  intros nr Hin. repeat (apply elem_of_cons in Hin as [->|Hin]; [by vm_compute|]). by apply elem_of_nil in Hin.
Defined.
