(* ===== verification/Router.v ===== *)
(** * Router: the paths of the administrative interface, [src/admin/router.rs].

    The routes of the three methods under a configurable prefix, inserted in order into
    a path router ([matchit], by its documented behaviour), and the lookup with its
    second try without trailing slashes. *)

From S2P Require Import Prelude.
Local Open Scope string_scope.

(** ** The path router *)

(** A segment [{name}] is a parameter. *)
Definition brace_free (s : string) : bool :=
  str_forallb (fun a => negb (Ascii.eqb a "{" || Ascii.eqb a "}")) s.
Definition param_name (seg : string) : option string :=
  match strip_prefix "{" seg with
  | Some rest =>
      if ends_with "}" rest then
        let n := str_take (String.length rest - 1) rest in
        if negb (String.eqb n "") && brace_free n then Some n else None
      else None
  | None => None
  end.
(** Patterns of literal segments and parameters. *)
Definition plain_segment (seg : string) : bool := brace_free seg || match param_name seg with Some _ => true | None => false end.
Definition plain_pattern (p : string) : bool := forallb plain_segment (split_on "/" p).
(** A pattern up to the names of its parameters. *)
Definition shape (p : string) : list (option string) :=
  map (fun seg => match param_name seg with Some _ => None | None => Some seg end) (split_on "/" p).
Fixpoint segments_match (ps ss : list string) : option (list (string * string)) :=
  match ps, ss with
  | [], [] => Some []
  | p :: ps, s :: ss =>
      match segments_match ps ss with
      | Some params =>
          match param_name p with
          | Some n => Some ((n, s) :: params)
          | None => if String.eqb p s then Some params else None
          end
      | None => None
      end
  | _, _ => None
  end.
Definition pattern_match (p path : string) : option (list (string * string)) :=
  segments_match (split_on "/" p) (split_on "/" path).

(** [matchit::Router], for plain patterns: which patterns it takes beside those it has,
    and the pattern and parameters it finds for a path. A pattern whose shape is new is
    taken, one that is there is not; what is found matches, no parameter empty; a path that a pattern
    matches, with parameters that are not empty, is found. *)
Class Matchit := {
  mt_accepts : list string -> string -> bool;
  mt_at : list string -> string -> option (string * list (string * string));
  mt_accepts_new l p : forallb plain_pattern (p :: l) = true -> shape p ∉ map shape l -> mt_accepts l p = true;
  mt_rejects_old l p : p ∈ l -> mt_accepts l p = false;
  mt_at_sound l path p params : forallb plain_pattern l = true -> mt_at l path = Some (p, params) ->
    p ∈ l /\ pattern_match p path = Some params /\ Forall (fun nv => snd nv <> "") params;
  mt_at_complete l path p params : forallb plain_pattern l = true -> p ∈ l -> pattern_match p path = Some params ->
    Forall (fun nv => snd nv <> "") params -> mt_at l path <> None
}.

(** ** Routes *)

(** [AdminRoute] @admin/router.rs:{enum AdminRoute} AdminRoute *)
Inductive AdminRoute :=
| Dashboard | Favicon | Status | Routes | Schema | SchemaRefresh | Subscriptions | Idempotency | Eventsink | Traffic
| TrafficClear | TelemetryReport | Workers | WorkerLogs | ConfigGet | ConfigValidate | ConfigUpdate | ConfigReload
| DnsStatus | DnsRescan | AuthVerify.
#[export] Instance AdminRoute_eq_dec : EqDecision AdminRoute.
Proof. solve_decision. Defined.

(** [pattern.replacen(from, to, 1)] *)
Fixpoint replace_first (from to s : string) : string :=
  match strip_prefix from s with
  | Some rest => String.append to rest
  | None => match s with EmptyString => EmptyString | String a s' => String a (replace_first from to s') end
  end.
(** @admin/router.rs:39-43 AdminRouter::new *)
Definition clean (path_prefix : string) : string :=
  if String.eqb path_prefix "" || String.eqb path_prefix "/" then "/admin" else trim_end_char "/" path_prefix.
(** @admin/router.rs:49-65 AdminRouter::new *)
Definition ui_routes (clean_prefix : string) : list (string * AdminRoute) :=
  let custom := negb (String.eqb clean_prefix "/admin") in
  ([(clean_prefix, Dashboard); (String.append clean_prefix "/", Dashboard);
    (String.append clean_prefix "/index.html", Dashboard)] ++
   (if custom then [("/admin", Dashboard); ("/admin/", Dashboard); ("/admin/index.html", Dashboard)] else []) ++
   [(String.append clean_prefix "/favicon.svg", Favicon); (String.append clean_prefix "/favicon.ico", Favicon)] ++
   (if custom then [("/admin/favicon.svg", Favicon); ("/admin/favicon.ico", Favicon)] else []))%list.
(** @admin/router.rs:68-93 AdminRouter::new *)
Definition get_routes : list (string * AdminRoute) :=
  [("/admin/api/v1/status", Status); ("/admin/api/status", Status);
   ("/admin/api/v1/routes", Routes); ("/admin/api/routes", Routes);
   ("/admin/api/v1/schema", Schema); ("/admin/api/schema", Schema);
   ("/admin/api/v1/subscriptions", Subscriptions); ("/admin/api/subscriptions", Subscriptions);
   ("/admin/api/v1/idempotency", Idempotency); ("/admin/api/idempotency", Idempotency);
   ("/admin/api/v1/eventsink", Eventsink); ("/admin/api/eventsink", Eventsink);
   ("/admin/api/v1/traffic", Traffic); ("/admin/api/traffic", Traffic);
   ("/admin/api/v1/workers", Workers); ("/admin/api/workers", Workers);
   ("/admin/api/v1/workers/{id}/logs", WorkerLogs); ("/admin/api/workers/{id}/logs", WorkerLogs);
   ("/admin/api/v1/config", ConfigGet); ("/admin/api/config", ConfigGet);
   ("/admin/api/v1/dns", DnsStatus); ("/admin/api/dns", DnsStatus);
   ("/admin/api/v1/auth/verify", AuthVerify); ("/admin/api/auth/verify", AuthVerify)].
(** @admin/router.rs:104-121 AdminRouter::new *)
Definition post_routes : list (string * AdminRoute) :=
  [("/admin/api/v1/schema/refresh", SchemaRefresh); ("/admin/api/schema/refresh", SchemaRefresh);
   ("/admin/api/v1/traffic/clear", TrafficClear); ("/admin/api/traffic/clear", TrafficClear);
   ("/admin/api/v1/telemetry/report", TelemetryReport); ("/admin/api/telemetry/report", TelemetryReport);
   ("/admin/api/v1/config/validate", ConfigValidate); ("/admin/api/config/validate", ConfigValidate);
   ("/admin/api/v1/config/reload", ConfigReload); ("/admin/api/config/reload", ConfigReload);
   ("/admin/api/v1/config", ConfigUpdate); ("/admin/api/config", ConfigUpdate);
   ("/admin/api/v1/dns/rescan", DnsRescan); ("/admin/api/dns/rescan", DnsRescan);
   ("/admin/api/v1/auth/verify", AuthVerify); ("/admin/api/auth/verify", AuthVerify)].
(** @admin/router.rs:132-135 AdminRouter::new *)
Definition put_routes : list (string * AdminRoute) :=
  [("/admin/api/v1/config", ConfigUpdate); ("/admin/api/config", ConfigUpdate)].
(** Each pattern, and its copy under a prefix of one's own. @admin/router.rs:95-101 AdminRouter::new *)
Definition with_custom (clean_prefix : string) (l : list (string * AdminRoute)) : list (string * AdminRoute) :=
  concat (map (fun pr => pr :: if String.eqb clean_prefix "/admin" then []
                               else [(replace_first "/admin" clean_prefix (fst pr), snd pr)]) l).

Section Router.
Context `{Matchit}.
(** A router is what it took, in order. *)
Definition insert (r : list (string * AdminRoute)) (pr : string * AdminRoute) : list (string * AdminRoute) :=
  if mt_accepts (map fst r) (fst pr) then (r ++ [pr])%list else r.
(** [AdminRouter] @admin/router.rs:{struct AdminRouter} AdminRouter *)
Record AdminRouter := ARouter {
  get_router : list (string * AdminRoute);
  post_router : list (string * AdminRoute);
  put_router : list (string * AdminRoute);
  path_prefix : string
}.
(** @admin/router.rs:38-151 AdminRouter::new *)
Definition router_new (prefix : string) : AdminRouter :=
  let p := clean prefix in
  ARouter (fold_left insert (ui_routes p ++ with_custom p get_routes) [])
    (fold_left insert (with_custom p post_routes) []) (fold_left insert (with_custom p put_routes) []) p.
(** @admin/router.rs:165-171 AdminRouter::match_route *)
Definition at_path (r : list (string * AdminRoute)) (path : string) : option (AdminRoute * list (string * string)) :=
  match mt_at (map fst r) path with
  | Some (p, params) => match Assoc.get p r with Some v => Some (v, params) | None => None end
  | None => None
  end.
(** @admin/router.rs:{fn match_route} AdminRouter::match_route *)
Definition match_route (router : AdminRouter) (method path : string) : option (AdminRoute * list (string * string)) :=
  let r := if String.eqb method "GET" then Some (get_router router)
           else if String.eqb method "POST" then Some (post_router router)
           else if String.eqb method "PUT" then Some (put_router router)
           else None in
  match r with
  | None => None
  | Some r =>
      match at_path r path with
      | Some found => Some found
      | None =>
          if (1 <? String.length path)%nat && ends_with "/" path then at_path r (trim_end_char "/" path) else None
      end
  end.

(** ** Lemmas *)

Lemma insert_incl r pr x : x ∈ insert r pr -> x ∈ r \/ x = pr.
Proof. unfold insert. destruct (mt_accepts _ _); set_solver. Qed.
Lemma inserts_incl l : forall r x, x ∈ fold_left insert l r -> x ∈ r \/ x ∈ l.
Proof.
  induction l as [|pr l IH]; intros r x; cbn; [by left|]. intros Hin. apply IH in Hin as [Hin|Hin]; [|set_solver].
  apply insert_incl in Hin. set_solver.
Qed.
(** Patterns of different shapes are all taken. *)
Lemma inserts_new l : forall r, forallb plain_pattern (map fst (r ++ l)%list) = true ->
  NoDup (map shape (map fst (r ++ l)%list)) -> fold_left insert l r = (r ++ l)%list.
Proof.
  induction l as [|pr l IH]; intros r Hp Hnd; cbn; [by rewrite app_nil_r|].
  assert (Hi : insert r pr = (r ++ [pr])%list).
  { unfold insert. rewrite mt_accepts_new; [done| |].
    - rewrite map_app, forallb_app in Hp. apply andb_true_iff in Hp as [Hr Hp]. cbn in Hp.
      apply andb_true_iff in Hp as [Hp _]. cbn. by rewrite Hp, Hr.
    - rewrite !map_app in Hnd. apply NoDup_app in Hnd as (_ & Hnd & _). intros Hin. apply (Hnd _ Hin). by left. }
  rewrite Hi. rewrite IH by (by rewrite <- app_assoc). by rewrite <- app_assoc.
Qed.
(** What a table has for a path. *)
Definition found (r : list (string * AdminRoute)) (path : string) (v : AdminRoute) (params : list (string * string)) : Prop :=
  exists p, (p, v) ∈ r /\ pattern_match p path = Some params /\ Forall (fun nv => snd nv <> "") params.
Lemma at_path_sound r path v params : forallb plain_pattern (map fst r) = true -> at_path r path = Some (v, params) ->
  found r path v params.
Proof.
  intros Hp. unfold at_path. destruct (mt_at (map fst r) path) as [[p ps]|] eqn:E; [|done].
  apply mt_at_sound in E as (_ & Hm & Hne); [|done]. destruct (Assoc.get p r) as [v'|] eqn:Eg; [|done].
  intros [= -> ->]. exists p. split; [by apply Assoc.get_In|done].
Qed.
Lemma at_path_in r path v params : at_path r path = Some (v, params) -> exists p, (p, v) ∈ r.
Proof.
  unfold at_path. destruct (mt_at _ _) as [[p ps]|]; [|done]. destruct (Assoc.get p r) eqn:E; [|done].
  intros [= -> ->]. exists p. by apply Assoc.get_In.
Qed.
Lemma at_path_complete r path v params : forallb plain_pattern (map fst r) = true -> found r path v params ->
  at_path r path <> None.
Proof.
  intros Hp (p & Hin & Hm & Hne). unfold at_path.
  assert (Hin' : p ∈ map fst r) by (apply list_elem_of_fmap; by exists (p, v)).
  pose proof (mt_at_complete _ path p params Hp Hin' Hm Hne) as Hn.
  destruct (mt_at (map fst r) path) as [[q qs]|] eqn:E; [|done].
  apply mt_at_sound in E as (Hq & _); [|done]. destruct (Assoc.get q r) eqn:Eg; [done|].
  by apply Assoc.get_None in Eg.
Qed.

(** Two patterns that may match the same path. *)
Fixpoint overlap (ps qs : list string) : bool :=
  match ps, qs with
  | [], [] => true
  | p :: ps, q :: qs =>
      match param_name p, param_name q with
      | None, None => String.eqb p q
      | _, _ => true
      end && overlap ps qs
  | _, _ => false
  end.
Lemma segments_match_overlap ss : forall ps qs a b, segments_match ps ss = Some a -> segments_match qs ss = Some b -> overlap ps qs = true.
Proof.
  induction ss as [|s ss IH]; intros [|p ps] [|q qs] a b; cbn; try done.
  destruct (segments_match ps ss) as [a'|] eqn:Ea; [|done]. destruct (segments_match qs ss) as [b'|] eqn:Eb; [|done].
  rewrite (IH _ _ _ _ Ea Eb), andb_true_r. destruct (param_name p), (param_name q); try done.
  destruct (String.eqb_spec p s) as [->|]; [|done]. by destruct (String.eqb_spec q s) as [->|]; [rewrite String.eqb_refl|].
Qed.
(** No two entries of a table overlap. *)
Definition separate (r : list (string * AdminRoute)) : bool :=
  forallb (fun pv => forallb (fun qv => negb (overlap (split_on "/" (fst pv)) (split_on "/" (fst qv))) || bool_decide (pv = qv)) r) r.
Lemma found_unique r path v a v' b : separate r = true -> found r path v a -> found r path v' b -> v = v' /\ a = b.
Proof.
  intros Hs (p & Hp & Hmp & _) (q & Hq & Hmq & _). unfold separate in Hs. rewrite forallb_forall in Hs.
  specialize (Hs (p, v) ltac:(by apply list_elem_of_In)). rewrite forallb_forall in Hs.
  specialize (Hs (q, v') ltac:(by apply list_elem_of_In)). cbn in Hs. unfold pattern_match in Hmp, Hmq.
  rewrite (segments_match_overlap _ _ _ _ _ Hmp Hmq) in Hs. cbn in Hs. apply bool_decide_eq_true in Hs.
  injection Hs as <- <-. split; congruence.
Qed.
Lemma at_path_iff r path v params : forallb plain_pattern (map fst r) = true -> separate r = true ->
  at_path r path = Some (v, params) <-> found r path v params.
Proof.
  intros Hp Hs. split; [by apply at_path_sound|]. intros Hf. pose proof (at_path_complete _ _ _ _ Hp Hf) as Hn.
  destruct (at_path r path) as [[v' ps']|] eqn:E; [|done]. apply at_path_sound in E; [|done].
  by destruct (found_unique _ _ _ _ _ _ Hs E Hf) as [-> ->].
Qed.

(** ** Properties *)

(** The routes of a method under the prefix [/admin]. *)
Definition table (method : string) : list (string * AdminRoute) :=
  if String.eqb method "GET" then (ui_routes "/admin" ++ get_routes)%list
  else if String.eqb method "POST" then post_routes
  else if String.eqb method "PUT" then put_routes
  else [].
Lemma table_ok method : forallb plain_pattern (map fst (table method)) = true /\ separate (table method) = true.
Proof. unfold table. repeat case_match; split; by vm_compute. Qed.

(** Under the prefix [/admin], which the prefixes / and the empty one stand for as well, every
    route of a method's table is served: a request finds a route exactly when a pattern
    of its method's table matches its path or, when none does, its path without the
    slashes at its end; the parameters are the path's own segments, and at most one
    route can be found. *)
Theorem admin_routes_served prefix method path v params : clean prefix = "/admin" ->
  match_route (router_new prefix) method path = Some (v, params) <->
  found (table method) path v params \/
  (forall v' ps, ~ found (table method) path v' ps) /\ (1 < String.length path)%nat /\ ends_with "/" path = true /\
    found (table method) (trim_end_char "/" path) v params.
Proof.
  intros Hc. destruct (table_ok method) as [Hp Hs]. unfold match_route, router_new. rewrite Hc.
  cbn [get_router post_router put_router].
  assert (Hr : (if String.eqb method "GET" then Some (fold_left insert (ui_routes "/admin" ++ with_custom "/admin" get_routes) [])
      else if String.eqb method "POST" then Some (fold_left insert (with_custom "/admin" post_routes) [])
      else if String.eqb method "PUT" then Some (fold_left insert (with_custom "/admin" put_routes) []) else None) =
     if String.eqb method "GET" || String.eqb method "POST" || String.eqb method "PUT" then Some (table method) else None).
  { unfold table. destruct (String.eqb method "GET"); [|destruct (String.eqb method "POST"); [|destruct (String.eqb method "PUT"); [|done]]].
    all: cbn [orb]; f_equal; rewrite inserts_new; [reflexivity|by vm_compute|].
    all: apply (bool_decide_unpack _); by vm_compute. }
  rewrite Hr. destruct (_ || _) eqn:Em.
  - destruct (at_path (table method) path) as [[v' ps']|] eqn:E.
    + apply at_path_iff in E; [|done..]. split.
      * intros [= <- <-]. by left.
      * intros [Hf|(Hn & _)]; [|by apply Hn in E]. by destruct (found_unique _ _ _ _ _ _ Hs E Hf) as [-> ->].
    + assert (Hn : forall v' ps, ~ found (table method) path v' ps) by (intros v' ps Hf; by apply at_path_iff in Hf; [congruence|..]).
      destruct (Nat.ltb_spec 1 (String.length path)); cbn [andb].
      * destruct (ends_with "/" path) eqn:Ee.
        -- rewrite at_path_iff by done. split; [by right|]. by intros [Hf%Hn|(_ & _ & _ & Hf)].
        -- split; [done|]. by intros [Hf%Hn|(_ & _ & ? & _)].
      * split; [done|]. intros [Hf%Hn|(_ & ? & _)]; [done|lia].
  - apply orb_false_iff in Em as [[E1 E2]%orb_false_iff E3]. unfold table, found. rewrite E1, E2, E3.
    split; [done|]. intros [(p & Hin & _)|(_ & _ & _ & p & Hin & _)]; by apply elem_of_nil in Hin.
Qed.

(** The handlers that change more than a cache. *)
Definition changes (v : AdminRoute) : bool :=
  match v with
  | TrafficClear | TelemetryReport | ConfigUpdate | ConfigReload | DnsRescan => true
  | _ => false
  end.
(** Whatever the prefix is, no GET finds one of them. *)
Lemma get_changes_nothing prefix path v params :
  match_route (router_new prefix) "GET" path = Some (v, params) -> changes v = false.
Proof.
  unfold match_route. cbn [String.eqb Ascii.eqb Bool.eqb]. intros Hm.
  assert (Hin : exists q, at_path (get_router (router_new prefix)) q = Some (v, params)).
  { destruct (at_path _ path) eqn:E; [exists path; congruence|]. destruct (_ && _); [by eexists|done]. }
  destruct Hin as [q Hq]. apply at_path_in in Hq as [p Hp]. unfold router_new in Hp. cbn [get_router] in Hp.
  apply inserts_incl in Hp as [Hp|Hp]; [by apply elem_of_nil in Hp|]. apply elem_of_app in Hp as [Hp|Hp].
  - unfold ui_routes in Hp. destruct (negb _); set_solver.
  - unfold with_custom in Hp. rewrite list_elem_of_In in Hp. apply in_concat in Hp as (l & Hl & Hp).
    apply List.in_map_iff in Hl as (pr & <- & Hpr).
    assert (Hv : changes (snd pr) = false).
    { revert Hpr. clear. intros Hpr. repeat (destruct Hpr as [<-|Hpr]; [reflexivity|]). done. }
    destruct Hp as [->|Hp]; [exact Hv|]. destruct (String.eqb _ _); [done|]. destruct Hp as [[= <- <-]|[]]. exact Hv.
Qed.
End Router.

(** ** A path router of this kind *)

Definition nonempty_params (ps : list (string * string)) : bool := forallb (fun nv => negb (String.eqb (snd nv) "")) ps.
Definition finds (path p : string) : bool :=
  match pattern_match p path with Some ps => nonempty_params ps | None => false end.
Lemma nonempty_params_spec ps : nonempty_params ps = true <-> Forall (fun nv => snd nv <> "") ps.
Proof.
  unfold nonempty_params. rewrite forallb_forall, Forall_forall. split; intros Hf nv Hin.
  - apply list_elem_of_In, Hf in Hin. by destruct (String.eqb_spec (snd nv) "").
  - apply list_elem_of_In, Hf in Hin. by destruct (String.eqb_spec (snd nv) "").
Qed.
Definition list_matchit : Matchit.
Proof.
  refine {|
    mt_accepts l p := negb (bool_decide (shape p ∈ map shape l));
    mt_at l path := match List.find (finds path) l with
                    | Some p => Some (p, default [] (pattern_match p path))
                    | None => None
                    end
  |}.
  - intros l p _ Hs. by rewrite bool_decide_false.
  - intros l p Hin. rewrite bool_decide_true; [done|]. apply list_elem_of_fmap. by exists p.
  - intros l path p ps _. destruct (List.find (finds path) l) as [q|] eqn:E; [|done].
    apply List.find_some in E as [Hin Hf]. unfold finds in Hf. intros [= <- <-].
    destruct (pattern_match q path) as [qs|]; [|done]. split_and!; [by apply list_elem_of_In|done|].
    by apply nonempty_params_spec.
  - intros l path p ps _ Hin Hm Hne. destruct (List.find (finds path) l) as [q|] eqn:E; [done|].
    apply list_elem_of_In in Hin. eapply List.find_none in E; [|exact Hin]. unfold finds in E. rewrite Hm in E.
    apply nonempty_params_spec in Hne. congruence.
Defined.

Section Witnesses.
#[local] Existing Instance list_matchit.
Lemma admin_routes_served_witness :
  match_route (router_new "/") "GET" "/admin/api/v1/workers/w1/logs/" = Some (WorkerLogs, [("id", "w1")]).
Proof.
  apply (admin_routes_served "/" "GET"); [reflexivity|]. right. split.
  - intros v ps Hf. destruct (table_ok "GET") as [Hp Hs]. apply (at_path_iff _ _ _ _ Hp Hs) in Hf.
    assert (Hnone : at_path (table "GET") "/admin/api/v1/workers/w1/logs/" = None) by reflexivity. congruence.
  - split; [cbn; lia|]. split; [reflexivity|]. exists "/admin/api/v1/workers/{id}/logs".
    split; [apply (bool_decide_unpack _); by vm_compute|]. split; [reflexivity|].
    by repeat constructor.
Defined.
(** The prefix the gateway tests requests against is the one configured, not the cleaned
    one: with a slash at its end nothing of the interface but its front page is
    reachable. *)
Example trailing_slash_hides_the_interface :
  match_route (router_new "/ops/") "GET" "/ops/api/v1/status" = Some (Status, []) /\
  starts_with (String.append "/ops/" "/") "/ops/api/v1/status" = false /\
  match_route (router_new "/ops/") "GET" "/ops//api/v1/status" = None.
Proof. split_and!; reflexivity. Qed.
End Witnesses.
