(* ===== verification/Admin.v ===== *)
(** * Admin: the administrative engine, [src/admin/mod.rs].

    Every handler of the administrative interface over what they share (the running
    configuration and its store, the traffic recorder, the worker registry, the broker
    inspector, the schema coverage), and the dispatch of a request to its handler. *)

From Stdlib Require Import SpecFloat.
From S2P Require Import Prelude Externals Serde Api Types Sanitizer Protocol Config ConfigStore Interceptors Auth Wasm Cel Manager.
From S2P Require Import Hub Access Traffic State Gateway Registry EventSink Inspector Router.
Local Open Scope string_scope.

Section Admin.
Context `{HttpLib, JsonText, Unicode, GqlParser, LruLib, AuthLib, CelLib, Matchit}.
Context {W : Type} `{Clocks W, WasmTypes, !WasmLib W}.
Context {SocketAddr : Type} `{EqDecision SocketAddr}.
Context {S : Type} `{!ConfigStore S}.
Context (env : State.surroundings (W := W) (SocketAddr := SocketAddr)) (parse_toml : string -> result string SpectraConfig).
Abbreviation plane := (plane (W := W) (SocketAddr := SocketAddr) (S := S)).

(** [AdminEngine]: what it is built from and does not change.
    @admin/mod.rs:{struct AdminEngine} AdminEngine *)
Record AdminEngine := Engine {
  config : SpectraAdminConfig;
  default_upstream_addr : string;
  default_upstream_name : string;
  e_named_upstreams : gmap string SocketAddr;
  e_routes : list (string * SpectraRouteConfig);
  e_broker_method : string;
  e_broker_addr : string;
  mode_a_enabled : bool;
  mode_a_dispatch_policy : string;
  mode_a_timeout_ms : Z;
  e_apps : list SpectraAppSummary;
  router : AdminRouter
}.
(** What its handlers read and change: the configuration and its store, and the shared
    parts. *)
Record admin_state := AdminState {
  configuration : plane;
  traffic_recorder : TrafficRecorder;
  worker_registry : WorkerRegistry;
  eventsink_inspector : EventSinkInspector;
  schema_inspector : SchemaInspector
}.
(** @admin/mod.rs:{fn new} AdminEngine::new *)
Definition engine_new (cfg : SpectraAdminConfig) (spectra_cfg : SpectraConfig) (named : gmap string SocketAddr)
    (routes : list (string * SpectraRouteConfig)) (p : plane) (traffic : TrafficRecorder) (workers : WorkerRegistry) :
    AdminEngine * admin_state :=
  let method := d_method (gql_dispatch spectra_cfg) in
  let addr := d_addr (gql_dispatch spectra_cfg) in
  (Engine cfg (up_addr (gql_upstream spectra_cfg)) (up_name (gql_upstream spectra_cfg)) named routes method addr
     (ma_enabled (mode_a (gql spectra_cfg))) (policy_as_str (ma_dispatch_policy (mode_a (gql spectra_cfg))))
     (ma_timeout_ms (mode_a (gql spectra_cfg)))
     (map (fun a => AppSummary (Config.app_id a) (if String.eqb (app_name a) "" then Config.app_id a else app_name a) (domains a)
                      (app_upstream a)) (apps spectra_cfg))
     (router_new (Config.path_prefix cfg)),
   AdminState p traffic workers (inspector_new method addr) schema_inspector_new).

(** What a request meets: the clocks, the process environment, the other parts'
    figures, and what the broker and the upstream answer. *)
Record outside := Outside {
  process_env : string -> option string;
  uptime_secs : Z;
  wall_secs : Z;
  wall_ms : Z;
  instant_ns : Z;
  looked_from_ms : Z;
  looked_until_ms : Z;
  look_ends : ending;
  broker_answers : brokers;
  worker_answers : string -> string -> worker_answer;
  upstream_answers : introspected;
  hub : SubscriptionHub;
  topics_listed : list string;
  idempotency_figures : string * Z * Z * Z;
  store_descriptor : string;
  rescan_secs : F64.f64;
  f64_json : F64.f64 -> json;
  report_error : string -> string;
  json_text_error : string -> string;
  utf8_text_error : string -> string;
  http_status_text : Z -> string;
  socket_text : SocketAddr -> string;
  query_of : string -> option string;
  admin_html : string;
  admin_favicon : string
}.
Context (o : outside) (e : AdminEngine).

(** ** Answers *)

(** @admin/mod.rs:{fn respond_json} AdminEngine::respond_json *)
Definition respond_json (code : Z) (j : json) : reply :=
  let body := json_to_string j in
  Reply code (build_headers [("content-type", "application/json"); ("content-length", content_length body);
                             ("cache-control", "no-store")]) body.
Definition answer_of (r : response) : reply := respond_json (State.status r) (State.body r).
Definition problem (code : Z) (fields : list (string * json)) : reply := respond_json code (JObject (obj_of fields)).
(** @admin/mod.rs:{fn handle_forbidden} AdminEngine::handle_forbidden *)
Definition handle_forbidden (client_ip : IpAddr) : reply :=
  problem 403 [("error", JString "Forbidden");
    ("message", JString (str_concat ["Access denied for IP '"; ip_to_string client_ip;
       "'. Configure allowed_ips in spectra.toml to grant access."]))].
(** @admin/mod.rs:{fn handle_favicon} AdminEngine::handle_favicon *)
Definition handle_favicon : reply :=
  Reply 200 (build_headers [("content-type", "image/svg+xml"); ("content-length", content_length (admin_favicon o));
               ("cache-control", "public, max-age=86400, immutable")]) (admin_favicon o).
(** @admin/mod.rs:{fn handle_dashboard} AdminEngine::handle_dashboard *)
Definition handle_dashboard : reply :=
  if enable_ui (config e) then
    Reply 200 (build_headers [("content-type", "text/html; charset=utf-8"); ("content-length", content_length (admin_html o))])
      (admin_html o)
  else problem 404 [("error", JString "Not Found");
         ("message", JString "Admin UI is disabled in spectra.toml (enable_ui = false)")].
(** @admin/mod.rs:{fn handle_not_found} AdminEngine::handle_not_found *)
Definition handle_not_found (path : string) : reply :=
  problem 404 [("error", JString "Not Found"); ("path", JString path);
    ("available_endpoints", JArray (map JString
       ["/admin"; "/admin/api/v1/status"; "/admin/api/v1/auth/verify"; "/admin/api/v1/eventsink"; "/admin/api/v1/traffic";
        "/admin/api/v1/traffic/clear"; "/admin/api/v1/workers"; "/admin/api/v1/workers/:id/logs";
        "/admin/api/v1/telemetry/report"; "/admin/api/v1/routes"; "/admin/api/v1/schema"; "/admin/api/v1/schema/refresh";
        "/admin/api/v1/subscriptions"; "/admin/api/v1/idempotency"; "/admin/api/v1/config"; "/admin/api/v1/config/validate";
        "/admin/api/v1/config/reload"; "/admin/api/v1/dns"; "/admin/api/v1/dns/rescan"]))].

(** ** Status, routes and figures *)

(** A running state's applications keep an empty name. @admin/mod.rs:337-346 AdminEngine::handle_status *)
Definition running_app (a : SpectraAppConfig) : SpectraAppSummary :=
  AppSummary (Config.app_id a) (app_name a) (domains a) (app_upstream a).
Definition async_routes (l : list (string * SpectraRouteConfig)) : nat :=
  length (List.filter (fun nr => is_async_command_receipt (mode (snd nr))) l).
(** @admin/mod.rs:369-375 AdminEngine::handle_status *)
Definition auth_required : bool :=
  match expected_token (process_env o) (deploy_token (config e)) with
  | Some t => negb (String.eqb (trim t) "")
  | None => false
  end.
(** @admin/mod.rs:329-393 AdminEngine::handle_status *)
Definition status_of (s : admin_state) : AdminStatusResponse :=
  let '(async, enabled, policy, timeout, apps) :=
    match dynamic (configuration s) with
    | Some st => (async_routes (dy_routes st), ma_enabled (dy_mode_a st), policy_as_str (ma_dispatch_policy (dy_mode_a st)),
                  ma_timeout_ms (dy_mode_a st), map running_app (dy_apps st))
    | None => (async_routes (e_routes e), mode_a_enabled e, mode_a_dispatch_policy e, mode_a_timeout_ms e, e_apps e)
    end in
  StatusResponse "0.1.0" (uptime_secs o) enabled policy timeout async enabled policy
    timeout async (e_broker_method e) (e_broker_addr e) "online" apps auth_required.
(** @admin/mod.rs:{fn handle_status} AdminEngine::handle_status *)
Definition handle_status (s : admin_state) : reply := respond_json 200 (Derive.ser status_response (status_of s)).
(** [AdminRouteEntry] @admin/mod.rs:406-438 AdminEngine::handle_routes *)
Definition route_entry (named : gmap string SocketAddr) (policy : string) (nr : string * SpectraRouteConfig) : AdminRouteEntry :=
  let '(name, r) := nr in
  let target_name := default "default" (rt_upstream r) in
  let target_addr := match named !! target_name with Some a => socket_text o a | None => default_upstream_addr e end in
  let '(dispatch_policy, override) :=
    match mode r with
    | AsyncCommandReceipt => ("event_sink", false)
    | SyncUpstreamExecution =>
        match rt_dispatch_policy r with Some p => (policy_as_str p, true) | None => (policy, false) end
    end in
  RouteEntry name (operation r) (display_name (mode r)) target_name target_addr (receipt_status r) (rt_enabled r) dispatch_policy
    override (rt_interceptors r).
(** @admin/mod.rs:399-461 AdminEngine::handle_routes *)
Definition routes_of (s : admin_state) : AdminRoutesResponse :=
  let '(routes, named, policy) :=
    match dynamic (configuration s) with
    | Some st => (dy_routes st, named_upstreams st, policy_as_str (ma_dispatch_policy (dy_mode_a st)))
    | None => (e_routes e, e_named_upstreams e, mode_a_dispatch_policy e)
    end in
  let default_addr := match named !! "default" with Some a => socket_text o a | None => default_upstream_addr e end in
  RoutesResponse (default_upstream_name e) default_addr
    (map (fun na => NamedUpstream (fst na) (socket_text o (snd na))) (sort_by fst (map_to_list named)))
    (map (route_entry named policy) (sort_by fst routes)).
(** @admin/mod.rs:{fn handle_routes} AdminEngine::handle_routes *)
Definition handle_routes (s : admin_state) : reply := respond_json 200 (Derive.ser routes_response (routes_of s)).
Definition subscriptions_of : AdminSubscriptionsResponse :=
  SubscriptionsResponse true (active_connection_count (hub o)) "spectra" (length (topics_listed o)) (topics_listed o).
(** @admin/mod.rs:{fn handle_subscriptions} AdminEngine::handle_subscriptions *)
Definition handle_subscriptions : reply := respond_json 200 (Derive.ser subscriptions_response subscriptions_of).
Definition idempotency_of : AdminIdempotencyResponse :=
  let '(backend, ttl, capacity, active) := idempotency_figures o in IdempotencyResponse backend ttl capacity active.
(** @admin/mod.rs:{fn handle_idempotency} AdminEngine::handle_idempotency *)
Definition handle_idempotency : reply := respond_json 200 (Derive.ser idempotency_response idempotency_of).

(** ** Schema coverage *)

Definition with_inspector (i : SchemaInspector) (s : admin_state) : admin_state :=
  AdminState (configuration s) (traffic_recorder s) (worker_registry s) (eventsink_inspector s) i.
Definition introspection_url : string := str_concat ["http://"; default_upstream_addr e; "/graphql"].
Definition refreshed (s : admin_state) : result string AdminSchemaCoverageResponse * admin_state :=
  let '(r, i) := refresh (json_text_error o) (http_status_text o) introspection_url (upstream_answers o) (wall_secs o)
                   (e_routes e) (schema_inspector s) in
  (r, with_inspector i s).
(** @admin/mod.rs:{fn handle_schema} AdminEngine::handle_schema *)
Definition handle_schema (s : admin_state) : reply * admin_state :=
  match get_coverage (schema_inspector s) with
  | Some c => (respond_json 200 (coverage_json (f64_json o) c), s)
  | None =>
      match refreshed s with
      | (Ok c, s) => (respond_json 200 (coverage_json (f64_json o) c), s)
      | (Err err, s) =>
          (problem 502 [("error", JString "Upstream Introspection Unavailable"); ("details", JString err);
             ("upstream_url", JString introspection_url);
             ("suggestion", JString "Ensure the upstream GraphQL service is running and accessible.")], s)
      end
  end.
(** @admin/mod.rs:{fn handle_schema_refresh} AdminEngine::handle_schema_refresh *)
Definition handle_schema_refresh (s : admin_state) : reply * admin_state :=
  match refreshed s with
  | (Ok c, s) => (respond_json 200 (coverage_json (f64_json o) c), s)
  | (Err err, s) =>
      (problem 502 [("error", JString "Introspection Refresh Failed"); ("details", JString err);
         ("upstream_url", JString introspection_url)], s)
  end.

(** ** The broker and its workers *)

Definition with_sink (i : EventSinkInspector) (s : admin_state) : admin_state :=
  AdminState (configuration s) (traffic_recorder s) (worker_registry s) i (schema_inspector s).
Definition look (s : admin_state) : EventSinkResponse * admin_state :=
  let '(r, i) := inspect (f64_json o) (broker_answers o) (look_ends o) (looked_from_ms o) (looked_until_ms o)
                   (eventsink_inspector s) in
  (r, with_sink i s).
(** A worker that reports, as a consumer of its broker. @admin/mod.rs:544-561 AdminEngine::handle_eventsink *)
Definition consumer_of_worker (w : WorkerSummary) : ConsumerMetrics :=
  Consumer (worker_id w) (stream w)
    (str_concat ["via Telemetry API (uptime "; dec (uptime_seconds w); "s)"]) (Some (String.append (stream w) ".*"))
    0 0 0 0 0 (processed_events w) (negb (String.eqb (Registry.status w) "offline")) (Some (Registry.status w)).
Definition merge_worker (l : list ConsumerMetrics) (w : WorkerSummary) : list ConsumerMetrics :=
  if existsb (fun c => String.eqb (cm_name c) (worker_id w)) l then l else (l ++ [consumer_of_worker w])%list.
(** @admin/mod.rs:{fn handle_eventsink} AdminEngine::handle_eventsink *)
Definition handle_eventsink (s : admin_state) : reply * admin_state :=
  let '(r, s) := look s in
  let cs := fold_left merge_worker (get_active_workers (instant_ns o) (worker_registry s)) (consumers r) in
  (respond_json 200 (Derive.ser sink_codec (Sink (es_broker_type r) (es_broker_addr r) (es_status r) (capabilities r) (es_stream r) cs
                                  (es_details r) (es_error r))), s).
(** A broker's consumer as a worker. @admin/mod.rs:641-654 AdminEngine::handle_workers *)
Definition worker_of_consumer (kind : string) (c : ConsumerMetrics) : WorkerSummary :=
  Summary (cm_name c) None kind (cm_stream_name c) (default (compute_status c) (cm_status c)) 0 (ack_floor_seq c)
    (num_redelivered c) 0.
(** [q.split('&')], and of each pair the text between its first two [=].
    @admin/mod.rs:567-580 AdminEngine::handle_traffic *)
Fixpoint app_param_of (pairs : list string) : option string :=
  match pairs with
  | [] => None
  | text :: pairs' =>
      match split_on "=" text with
      | k :: v :: _ => if String.eqb k "app" then Some v else app_param_of pairs'
      | _ => app_param_of pairs'
      end
  end.
Definition app_param (ss : session) : option string :=
  query_of o (uri (req ss)) ≫= fun q => app_param_of (split_on "&" q).
(** @admin/mod.rs:{fn handle_workers} AdminEngine::handle_workers *)
Definition handle_workers (ss : session) (s : admin_state) : reply * admin_state :=
  match get_active_workers_with_filter (instant_ns o) (app_param ss) (worker_registry s) with
  | [] =>
      let '(r, s) := look s in
      (respond_json 200 (Derive.ser (Derive.vec summary_codec) (map (worker_of_consumer (es_broker_type r)) (consumers r))), s)
  | l => (respond_json 200 (Derive.ser (Derive.vec summary_codec) l), s)
  end.
(** @admin/mod.rs:{fn handle_worker_logs} AdminEngine::handle_worker_logs *)
Definition handle_worker_logs (id : string) (s : admin_state) : reply * admin_state :=
  if negb (String.eqb id "") then
    match get_worker_logs (instant_ns o) id 100 (worker_registry s) with
    | Some r => (respond_json 200 (Derive.ser logs_response_codec r), s)
    | None =>
        match query_worker_logs (json_text_error o) (utf8_text_error o) (connects (nats (broker_answers o)))
                (worker_answers o) id 100 (eventsink_inspector s) with
        | (Ok j, i) => (respond_json 200 j, with_sink i s)
        | (Err err, i) =>
            (problem 502 [("workerId", JString id); ("status", JString "unavailable"); ("error", JString err)], with_sink i s)
        end
    end
  else (handle_not_found (str_concat ["/admin/api/v1/workers/"; id; "/logs"]), s).
(** The report's body is cut after 1 MiB. @admin/mod.rs:{fn handle_telemetry_report} AdminEngine::handle_telemetry_report *)
Definition handle_telemetry_report (ss : session) (s : admin_state) : result string reply * admin_state :=
  match read_body (Z.to_nat (1024 * 1024)) "" (chunks ss) with
  | Err err => (Err err, s)
  | Ok b =>
      match json_read_slice b ≫= Derive.de report_codec with
      | Some r =>
          (Ok (problem 200 [("status", JString "accepted")]),
           AdminState (configuration s) (traffic_recorder s) (record_report (instant_ns o) r (worker_registry s))
             (eventsink_inspector s) (schema_inspector s))
      | None =>
          (Ok (problem 400 [("error", JString "Invalid telemetry report JSON"); ("details", JString (report_error o b))]), s)
      end
  end.

(** ** Traffic *)

(** [derive(Serialize)] of the records. @admin/traffic.rs:{struct TrafficRecord} TrafficRecord *)
Definition traffic_record_json (r : TrafficRecord) : json :=
  let opt k v := match v with Some x => [(k, JString x)] | None => [] end in
  JObject ([("id", JString (t_id r)); ("hlc", JString (t_hlc r)); ("timestampEpochMs", u64_json (timestamp_epoch_ms r));
    ("timestampFormatted", JString (timestamp_formatted r)); ("clientIp", JString (t_client_ip r));
    ("method", JString (t_method r)); ("path", JString (t_path r)); ("appId", JString (t_app_id r));
    ("operationName", text_or_null (t_operation_name r)); ("operationType", JString (t_operation_type r));
    ("mode", JString (t_mode r)); ("statusCode", u64_json (status_code r)); ("receiptStatus", text_or_null (t_receipt_status r));
    ("latencyMs", f64_json o (latency_ms r)); ("target", JString (t_target r));
    ("queryPreview", text_or_null (t_query_preview r)); ("variablesPreview", text_or_null (t_variables_preview r))] ++
    opt "auditTag" (t_audit_tag r) ++ opt "auditRule" (t_audit_rule r) ++ opt "responsePreview" (t_response_preview r) ++
    opt "errorPreview" (t_error_preview r))%list.
(** @admin/traffic.rs:{struct TrafficResponse} TrafficResponse *)
Definition traffic_json (r : TrafficResponse) : json :=
  let st := stats r in
  JObject [("stats", JObject [("totalRequests", u64_json (s_total st)); ("asyncRequests", u64_json (s_async st));
       ("syncRequests", u64_json (s_sync st)); ("modeBRequests", u64_json (s_mode_b st));
       ("modeARequests", u64_json (s_mode_a st)); ("errorRequests", u64_json (s_errors st));
       ("avgLatencyMs", f64_json o (avg_latency_ms st)); ("bufferSize", nat_json (buffer_size st))]);
    ("records", JArray (map traffic_record_json (resp_records r)))].
(** @admin/mod.rs:{fn handle_traffic} AdminEngine::handle_traffic *)
Definition handle_traffic (ss : session) (s : admin_state) : reply :=
  respond_json 200 (traffic_json (get_response_with_filter 50 (app_param ss) (traffic_recorder s))).
(** @admin/mod.rs:{fn handle_traffic_clear} AdminEngine::handle_traffic_clear *)
Definition handle_traffic_clear (s : admin_state) : reply * admin_state :=
  (problem 200 [("status", JString "cleared")],
   AdminState (configuration s) (Traffic.clear (traffic_recorder s)) (worker_registry s) (eventsink_inspector s)
     (schema_inspector s)).

(** ** The configuration *)

Definition authorized (ss : session) : bool :=
  is_write_authorized (process_env o) (deploy_token (config e)) (req_headers ss).
Definition with_plane (p : plane) (s : admin_state) : admin_state :=
  AdminState p (traffic_recorder s) (worker_registry s) (eventsink_inspector s) (schema_inspector s).
Definition validation (code : Z) (valid : bool) (errors warnings : list string) (summary : option AdminConfigSummary) : reply :=
  respond_json code (Derive.ser validate_response (ValidateResponse valid errors warnings summary)).
(** The configuration is only parsed and its upstreams resolved.
    @admin/mod.rs:{fn handle_config_validate} AdminEngine::handle_config_validate *)
Definition handle_config_validate (ss : session) : result string reply :=
  match read_body (Z.to_nat (2 * 1024 * 1024)) "" (chunks ss) with
  | Err err => Err err
  | Ok b =>
      match (match json_read_slice b ≫= Derive.de validate_request with
             | Some c => Some c
             | None => if utf8_valid b then Some b else None
             end) with
      | None => Ok (validation 400 false ["Request body is neither valid JSON nor valid UTF-8"] [] None)
      | Some content =>
          match parse_toml content with
          | Err err => Ok (validation 200 false [err] [] None)
          | Ok cfg =>
              let unresolved := match resolve_all_upstreams (to_socket_addrs env) cfg with
                                | Err err => [String.append "Upstream resolution warning: " err]
                                | Ok _ => []
                                end in
              let disabled := omap (fun nr => if negb (rt_enabled (snd nr)) then
                                       Some (str_concat ["Route '"; fst nr; "' ("; operation (snd nr); ") is disabled"])
                                     else None) (routes (gql cfg)) in
              Ok (validation 200 true [] (unresolved ++ disabled)%list
                    (Some (ConfigSummary (length (apps cfg)) (length (routes (gql cfg))) (length (upstreams cfg))
                       (length (interceptors cfg)) (d_method (gql_dispatch cfg)) (d_addr (gql_dispatch cfg)))))
          end
      end
  end.
(** What the page of the names shows. @admin/mod.rs:{fn handle_dns_status} AdminEngine::handle_dns_status *)
Definition dns_of (s : admin_state) : AdminDnsStatusResponse :=
  match dynamic (configuration s) with
  | Some st => DnsStatusResponse (dns_enabled (dns_config st)) (interval_secs (dns_config st)) (size (upstream_targets st))
                 (get_dns_status env st)
  | None => DnsStatusResponse false 0 0 []
  end.
(** @admin/mod.rs:{fn handle_dns_status} AdminEngine::handle_dns_status *)
Definition handle_dns_status (s : admin_state) : reply := respond_json 200 (Derive.ser dns_status_response (dns_of s)).
Definition unauthorized : reply := answer_of unauthorized_response.
(** A rescan cannot fail as a whole. @admin/mod.rs:{fn handle_dns_rescan} AdminEngine::handle_dns_rescan *)
Definition handle_dns_rescan (ss : session) (s : admin_state) : reply * admin_state :=
  if negb (authorized ss) then (unauthorized, s)
  else match dynamic (configuration s) with
  | None => (answer_of (error_response 500 "No Dynamic State" "Dynamic gateway state is not initialized"), s)
  | Some st =>
      let '(_, entries, n) := rescan env st in
      let p := configuration s in
      (respond_json 200 (JObject [("status", JString "success"); ("total_upstreams", nat_json (size (upstream_targets st)));
         ("changed_count", nat_json n); ("duration_ms", f64_json o (F64.mul (rescan_secs o) (F64.of_Z 1000)));
         ("upstreams", Derive.ser (Derive.vec dns_entry_codec) (sort_entries entries))]),
       with_plane (Plane (store p) (match rescan_dns env (wall_ms o) st with Some st' => Some st' | None => Some st end)
                     (State.world p)) s)
  end.
(** @admin/mod.rs:{fn handle_auth_verify} AdminEngine::handle_auth_verify *)
Definition handle_auth_verify (ss : session) : reply :=
  if authorized ss then
    problem 200 [("authenticated", JBool true); ("auth_required", JBool auth_required);
      ("message", JString (if auth_required then "Admin token verified successfully"
                           else "Admin write operations open (no SPECTRA_ADMIN_TOKEN configured)"))]
  else
    problem 401 [("authenticated", JBool false); ("auth_required", JBool auth_required); ("error", JString "Unauthorized");
      ("message", JString "Missing or invalid admin authorization token (set SPECTRA_ADMIN_TOKEN or provide valid Authorization: Bearer <token>)")].

(** ** Dispatch *)

(** The handler of a route; an error is that of the client's connection while its body
    is read. @admin/mod.rs:231-260 AdminEngine::handle_request *)
Definition handle_route (route : AdminRoute) (params : list (string * string)) (ss : session) (s : admin_state) :
    result string reply * admin_state :=
  let reads r := (Ok r, s) in
  let steps rs := (Ok (fst rs), snd rs) in
  match route with
  | Dashboard => reads handle_dashboard
  | Favicon => reads handle_favicon
  | Router.Status => reads (handle_status s)
  | Routes => reads (handle_routes s)
  | Schema => steps (handle_schema s)
  | SchemaRefresh => steps (handle_schema_refresh s)
  | Subscriptions => reads handle_subscriptions
  | Idempotency => reads handle_idempotency
  | Eventsink => steps (handle_eventsink s)
  | Router.Traffic => reads (handle_traffic ss s)
  | TrafficClear => steps (handle_traffic_clear s)
  | TelemetryReport => handle_telemetry_report ss s
  | Workers => steps (handle_workers ss s)
  | WorkerLogs => steps (handle_worker_logs (default "" (Assoc.get "id" params)) s)
  | ConfigGet => reads (answer_of (handle_config_get (store_descriptor o) (configuration s)))
  | ConfigValidate => (handle_config_validate ss, s)
  | ConfigUpdate =>
      match handle_config_update env parse_toml (authorized ss) (chunks ss) (configuration s) with
      | Ok (r, p) => (Ok (answer_of r), with_plane p s)
      | Err err => (Err err, s)
      end
  | ConfigReload =>
      let '(r, p) := handle_config_reload env parse_toml (authorized ss) (configuration s) in
      (Ok (answer_of r), with_plane p s)
  | DnsStatus => reads (handle_dns_status s)
  | DnsRescan => steps (handle_dns_rescan ss s)
  | AuthVerify => reads (handle_auth_verify ss)
  end.
(** What a request to the interface gets and what it leaves; an answer reaches a client
    that is still there, and either way the request is done.
    @admin/mod.rs:{fn handle_request} AdminEngine::handle_request *)
Definition handle_request (ss : session) (s : admin_state) : result string bool * option reply * admin_state :=
  let client_ip := extract_client_ip (req_headers ss) (client_addr ss) in
  let '(r, s) :=
    if negb (is_ip_allowed client_ip (allowed_ips (config e))) then (Ok (handle_forbidden client_ip), s)
    else
      match Router.match_route (router e) (method (req ss)) (path_of ss) with
      | Some (route, params) => handle_route route params ss s
      | None => (Ok (handle_not_found (path_of ss)), s)
      end in
  match r with
  | Ok r => (Ok true, if connected ss then Some r else None, s)
  | Err err => (Err err, None, s)
  end.

(** ** Properties *)

(** All but what is cached of the broker and of the upstream's schema. *)
Definition same_data (s s' : admin_state) : Prop :=
  configuration s' = configuration s /\ traffic_recorder s' = traffic_recorder s /\ worker_registry s' = worker_registry s.
Lemma refreshed_same s : same_data s (snd (refreshed s)).
Proof. unfold refreshed. by destruct (refresh _ _ _ _ _ _ _). Qed.
Lemma look_same s : same_data s (snd (look s)).
Proof. unfold look. by destruct (inspect _ _ _ _ _ _). Qed.
Lemma handle_schema_same s : same_data s (snd (handle_schema s)).
Proof.
  unfold handle_schema. destruct (get_coverage _); [done|]. pose proof (refreshed_same s). by destruct (refreshed s) as [[c|err] s'].
Qed.
Lemma handle_eventsink_same s : same_data s (snd (handle_eventsink s)).
Proof. unfold handle_eventsink. pose proof (look_same s). by destruct (look s). Qed.
Lemma handle_workers_same ss s : same_data s (snd (handle_workers ss s)).
Proof.
  unfold handle_workers. pose proof (look_same s). destruct (get_active_workers_with_filter _ _ _); [|done]. by destruct (look s).
Qed.
Lemma handle_worker_logs_same id s : same_data s (snd (handle_worker_logs id s)).
Proof.
  unfold handle_worker_logs. destruct (negb _); [|done]. destruct (get_worker_logs _ _ _ _); [done|].
  by destruct (query_worker_logs _ _ _ _ _ _ _) as [[j|err] i].
Qed.
(** A route that changes nothing but a cache. *)
Lemma handle_route_same route params ss s : changes route = false -> same_data s (snd (handle_route route params ss s)).
Proof.
  destruct route; intros Hc; try done; cbn [handle_route snd].
  - apply handle_schema_same.
  - unfold handle_schema_refresh. pose proof (refreshed_same s). by destruct (refreshed s) as [[c|err] s'].
  - apply handle_eventsink_same.
  - apply handle_workers_same.
  - apply handle_worker_logs_same.
Qed.
(** Without the token no route touches the configuration. *)
Lemma handle_route_unauthorized route params ss s : authorized ss = false ->
  configuration (snd (handle_route route params ss s)) = configuration s.
Proof.
  intros Ha. destruct (changes route) eqn:Ec; [|by apply handle_route_same].
  destruct route; try done; cbn [handle_route snd].
  - unfold handle_telemetry_report. destruct (read_body _ _ _); [|done]. by destruct (json_read_slice _ ≫= _).
  - unfold handle_config_update. by rewrite Ha.
  - unfold handle_config_reload. by rewrite Ha.
  - unfold handle_dns_rescan. by rewrite Ha.
Qed.
End Admin.

Section Requests.
Context `{HttpLib, JsonText, Unicode, GqlParser, LruLib, AuthLib, CelLib, Matchit}.
Context {W : Type} `{Clocks W, WasmTypes, !WasmLib W}.
Context {SocketAddr : Type} `{EqDecision SocketAddr}.
Context {S : Type} `{!ConfigStore S}.
Context (env : State.surroundings (W := W) (SocketAddr := SocketAddr)) (parse_toml : string -> result string SpectraConfig).

(** What a request to the interface can change: nothing, when its address is not on the
    allowlist, and the answer is 403; nothing but the caches of the broker's and the
    schema's state, when it is a GET; and never the configuration, the one running and
    the one stored, without the token that writes need. *)
Theorem admin_request_effects cfg spectra_cfg named routes p traffic workers (o : outside (SocketAddr := SocketAddr)) ss s :
  let e := fst (engine_new (S := S) (W := W) cfg spectra_cfg named routes p traffic workers) in
  let '(r, answer, s') := handle_request env parse_toml o e ss s in
  (admin_admits (req_headers ss) (client_addr ss) (allowed_ips cfg) = false ->
     s' = s /\ r = Ok true /\ forall a, answer = Some a -> rp_code a = 403%Z) /\
  (Protocol.method (req ss) = "GET" -> same_data s s') /\
  (is_write_authorized (process_env o) (deploy_token cfg) (req_headers ss) = false -> configuration s' = configuration s).
Proof.
  cbv zeta. set (e := fst (engine_new _ _ _ _ _ _ _)). unfold handle_request.
  assert (Ha : authorized o e ss = is_write_authorized (process_env o) (deploy_token cfg) (req_headers ss)) by done.
  rewrite <- Ha. change (allowed_ips (config e)) with (allowed_ips cfg). unfold admin_admits.
  destruct (is_ip_allowed _ (allowed_ips cfg)); cbn [negb].
  - destruct (Router.match_route (router e) _ _) as [[route params]|] eqn:Em.
    + pose proof (handle_route_same env parse_toml o e route params ss s) as Hs.
      pose proof (handle_route_unauthorized env parse_toml o e route params ss s) as Hu.
      destruct (handle_route env parse_toml o e route params ss s) as [[rp|err] s1]; cbn [snd] in *.
      all: (split; [done|]; split; [|exact Hu]; intros Hget; apply Hs; rewrite Hget in Em; by apply get_changes_nothing in Em).
    + by split_and!.
  - split_and!; [|done..]. intros _. split; [done|]. split; [done|]. intros a. by destruct (connected ss); intros [= <-].
Qed.
End Requests.
