(* ===== verification/Answers.v ===== *)
(** * Answers: what a client of the administrative interface reads.

    Whatever was asked before, the text of an answer made of the gateway's own state is
    read by the client's side as the record of the state the request left, every number
    of it in the range of its field. The state that is shown, the workers' records
    included, keeps its types through every request. *)

From S2P Require Import Prelude Externals Serde Api Types Sanitizer Protocol Config ConfigStore Interceptors Auth Wasm Cel.
From S2P Require Import Manager Hub Access Traffic State Gateway Registry EventSink Inspector Router Admin.
Local Open Scope string_scope.

#[local] Existing Instance Derive.vec_printable.
Definition is_size (n : nat) : Prop := (Z.of_nat n <= Int.u64_max)%Z.

Section Typed.
Context `{HttpLib, JsonText, Unicode, GqlParser, LruLib, AuthLib, CelLib, Matchit}.
Context {W : Type} `{Clocks W, WasmTypes, !WasmLib W}.
Context {SocketAddr : Type} `{EqDecision SocketAddr}.
Context {S : Type} `{!ConfigStore S}.
Context (env : State.surroundings (W := W) (SocketAddr := SocketAddr)) (parse_toml : string -> result string SpectraConfig).
Abbreviation running := (DynamicGatewayState (W := W) (SocketAddr := SocketAddr)).
Abbreviation admin_state := (admin_state (W := W) (SocketAddr := SocketAddr) (S := S)).
Abbreviation engine := (AdminEngine (SocketAddr := SocketAddr)).
Abbreviation outside := (outside (SocketAddr := SocketAddr)).
Implicit Types (s : admin_state) (st : running) (e : engine) (o : outside).

(** ** Types *)

(** A configuration as [toml] reads it: its integers in the ranges of their fields, its
    lists no longer than memory holds. *)
Definition config_typed (cfg : SpectraConfig) : Prop :=
  is_u64 (ma_timeout_ms (mode_a (gql cfg))) /\ is_u64 (interval_secs (dns cfg)) /\
  is_size (length (routes (gql cfg))) /\ is_size (length (apps cfg)) /\ is_size (length (interceptors cfg)) /\
  is_size (2 * length (upstreams cfg) + 2).
Definition state_typed st : Prop :=
  is_u64 (version st) /\ is_u64 (State.updated_at_epoch_ms st) /\ is_u64 (ma_timeout_ms (dy_mode_a st)) /\
  is_u64 (interval_secs (dns_config st)) /\ is_size (length (dy_routes st)) /\ is_size (size (upstream_targets st)).
(** The records of the workers. *)
Definition workers_typed (t : WorkerRegistry) : Prop := forall id w, workers t !! id = Some w -> worker_typed w.
(** What is shown of the interface's state. *)
Definition shown_typed s : Prop :=
  (forall st, dynamic (configuration s) = Some st -> state_typed st) /\ workers_typed (worker_registry s).
Definition engine_typed e : Prop := is_size (length (e_routes e)) /\ is_u64 (mode_a_timeout_ms e).
(** The figures a request meets: the clocks and the other parts' counts. *)
Definition outside_typed o : Prop :=
  is_u64 (uptime_secs o) /\ is_u64 (wall_ms o) /\ (0 <= instant_ns o <= Int.u64_max * 10 ^ 9)%Z /\
  (let '(_, ttl, capacity, active) := idempotency_figures o in is_u64 ttl /\ is_u64 capacity /\ is_u64 active) /\
  is_size (active_connection_count (hub o)) /\ is_size (length (topics_listed o)).

Lemma one_u64 : is_u64 1 /\ is_u64 0.
Proof. done. Qed.
Lemma wrapped_u64 n : is_u64 (Int.wrap 64 n).
Proof.
  unfold is_u64, Int.wrap. change (2 ^ 64)%Z with 18446744073709551616%Z. change Int.u64_max with 18446744073709551615%Z.
  pose proof (Z.mod_pos_bound n 18446744073709551616 ltac:(done)). lia.
Qed.

(** The table of targets has at most two names for each upstream. *)
Lemma add_upstream_size name (a : SocketAddr) addr t : (size (snd (add_upstream name a addr t)) <= size (snd t) + 1)%nat.
Proof. cbn [add_upstream snd]. rewrite map_size_insert. case_match; cbn; lia. Qed.
Lemma add_alias_size name (a : SocketAddr) addr t : (size (snd (add_alias name a addr t)) <= size (snd t) + 1)%nat.
Proof. unfold add_alias. case_match; [apply add_upstream_size|lia]. Qed.
Lemma targets_size resolve cfg (ups : gmap string SocketAddr) targets :
  resolve_all_upstreams_with_targets resolve cfg = Ok (ups, targets) -> (size targets <= 2 * length (upstreams cfg) + 2)%nat.
Proof.
  unfold resolve_all_upstreams_with_targets. destruct (first_addr _ _ _) as [a|]; [|done]. cbn [mbind result_bind].
  assert (Hgo : forall l t t', fold_left (add_named resolve) l (Ok t) = Ok t' -> (size (snd t') <= 2 * length l + size (snd t))%nat).
  { induction l as [|u l IH]; intros t t'; cbn [fold_left]; [intros [= <-]; cbn; lia|].
    unfold add_named at 2. cbn [mbind result_bind]. destruct (first_addr _ _ _) as [b|]; cbn [mbind result_bind].
    - intros Hf. apply IH in Hf. cbn [length].
      pose proof (add_alias_size (up_name (snd u)) b (up_addr (snd u)) (add_upstream (fst u) b (up_addr (snd u)) t)).
      pose proof (add_upstream_size (fst u) b (up_addr (snd u)) t). lia.
    - clear. assert (Herr : forall err, fold_left (add_named resolve) l (Err err) <> Ok t') by (induction l; intros err; [done|apply IHl]).
      intros Hf. by apply Herr in Hf. }
  intros Hf. apply Hgo in Hf. cbn [snd] in Hf.
  pose proof (add_alias_size (up_name (gql_upstream cfg)) a (up_addr (gql_upstream cfg)) (add_upstream "default" a (up_addr (gql_upstream cfg)) (∅, ∅))).
  pose proof (add_upstream_size "default" a (up_addr (gql_upstream cfg)) (∅, ∅)). cbn [snd] in *. rewrite map_size_empty in *. lia.
Qed.

(** ** The running state keeps its types *)

Section Kept.
Hypothesis Hparse : forall text cfg, parse_toml text = Ok cfg -> config_typed cfg.
Hypothesis Hnow : forall w, is_u64 (now_ms env w).

Lemma built_typed cfg raw v w st w' : config_typed cfg -> new_from_config env cfg raw v w = Ok (st, w') -> is_u64 v -> state_typed st.
Proof using Hnow.
  intros (Ht & Hi & Hr & _ & _ & Hu) Hb Hv. unfold new_from_config in Hb.
  destruct (resolve_all_upstreams_with_targets _ _) as [[ups targets]|] eqn:Er; [|done].
  destruct (from_config _ _ _ _) as [[m w1]|]; [|done]. injection Hb as <- <-. apply targets_size in Er.
  unfold state_typed. cbn. split_and!; try done; [apply Hnow..|]. unfold is_size in *. lia.
Qed.
Definition plane_typed (p : plane (W := W) (SocketAddr := SocketAddr) (S := S)) : Prop :=
  forall st, dynamic p = Some st -> state_typed st.
Lemma swap_typed content cfg p p' : config_typed cfg -> plane_typed p -> swap env content cfg p = Ok p' -> plane_typed p'.
Proof using Hnow.
  intros Hc Hp. unfold swap. destruct (dynamic p) as [prev|] eqn:Ed; [|intros [= <-]; exact Hp].
  destruct (reload_config env cfg content prev (State.world p)) as [[st w]|] eqn:Er; [|done]. intros [= <-] st' [= <-].
  eapply built_typed; [exact Hc|exact Er|apply wrapped_u64].
Qed.
(** What an update and a reload answer with 200, over the plane they leave. *)
Definition tells_running (p : plane (W := W) (SocketAddr := SocketAddr) (S := S)) (r : response) : Prop :=
  exists reloaded message,
    r = let '(v, h, u) := running_tag p in success_response v h u reloaded message.
Lemma told_plain p reloaded message :
  tells_running p (let '(v, h, u) := running_tag p in success_response v h u reloaded message).
Proof. by exists reloaded, message. Qed.
Lemma update_told authorized chunks p r p' : plane_typed p ->
  handle_config_update env parse_toml authorized chunks p = Ok (r, p') ->
  plane_typed p' /\ (State.status r = 200%Z -> tells_running p' r).
Proof using Hparse Hnow.
  intros Hp. unfold handle_config_update. destruct authorized; cbn [negb]; [|by intros [= <- <-]].
  destruct (read_body _ _ _) as [b|]; [|done]. destruct (requested b) as [[content reload]|]; [|by intros [= <- <-]].
  destruct (parse_toml content) as [cfg|] eqn:Ep; [|by intros [= <- <-]].
  destruct (match store p with Some s => _ | None => _ end) as [saved o']. destruct saved as [[]|err]; [|by intros [= <- <-]].
  set (p1 := Plane o' (dynamic p) (State.world p)). assert (Hp1 : plane_typed p1) by exact Hp. destruct reload.
  - destruct (swap env content cfg p1) as [p2|] eqn:Es; [|by intros [= <- <-]].
    pose proof (swap_typed _ _ _ _ (Hparse _ _ Ep) Hp1 Es) as Hp2. destruct (running_tag p2) as [[v h] u] eqn:Et.
    intros [= <- <-]. split; [done|]. intros _. exists true, "Configuration saved and runtime hot-reloaded successfully".
    by rewrite Et.
  - destruct (running_tag p1) as [[v h] u] eqn:Et. intros [= <- <-]. split; [done|]. intros _.
    exists false, "Configuration saved to store (hot-reload skipped)". by rewrite Et.
Qed.
Lemma reload_told authorized p : plane_typed p ->
  let '(r, p') := handle_config_reload env parse_toml authorized p in
  plane_typed p' /\ (State.status r = 200%Z -> tells_running p' r).
Proof using Hparse Hnow.
  intros Hp. unfold handle_config_reload. destruct authorized; cbn [negb]; [|done].
  destruct (store p) as [st|]; [|done]. destruct (load_config st) as [[content|]|]; [|done..].
  destruct (parse_toml content) as [cfg|] eqn:Ep; [|done]. destruct (swap env content cfg p) as [p2|] eqn:Es; [|done].
  pose proof (swap_typed _ _ _ _ (Hparse _ _ Ep) Hp Es) as Hp2. destruct (running_tag p2) as [[v h] u] eqn:Et.
  split; [done|]. intros _. exists true, "Configuration reloaded from store and hot-swapped into gateway runtime". by rewrite Et.
Qed.
Lemma rescanned_typed o st st' : is_u64 (wall_ms o) -> state_typed st -> rescan_dns env (wall_ms o) st = Some st' -> state_typed st'.
Proof.
  intros Hw (Hv & _ & Ht & Hi & Hr & Hs) Hres. pose proof (rescan_dns_spec env (wall_ms o) st) as Hspec. rewrite Hres in Hspec.
  destruct Hspec as [_ ->]. by split_and!.
Qed.
Lemma dns_rescan_typed o e ss s : is_u64 (wall_ms o) -> shown_typed s -> shown_typed (snd (handle_dns_rescan env o e ss s)).
Proof.
  intros Hw Hall. pose proof Hall as [Hs Hr]. unfold handle_dns_rescan. destruct (negb _); [exact Hall|].
  destruct (dynamic (configuration s)) as [st|] eqn:Ed; [|exact Hall].
  destruct (rescan env st) as [[ups es] n]. split; [|exact Hr]. cbn [snd]. intros st'. cbn [configuration with_plane dynamic].
  destruct (rescan_dns env (wall_ms o) st) as [st1|] eqn:Er; intros [= <-]; [|by apply Hs].
  eapply rescanned_typed; [exact Hw|by apply Hs|exact Er].
Qed.
(** A report read from a body keeps the types of the records. *)
Lemma report_typed_kept now b r t : (0 <= now)%Z -> json_read_slice b ≫= Derive.de report_codec = Some r ->
  workers_typed t -> workers_typed (record_report now r t).
Proof.
  intros Hpos Hr Ht id w. destruct (json_read_slice b) as [j|] eqn:Ej; [|done].
  assert (Hj : json_typed j = true)
    by (unfold json_read_slice in Ej; destruct (utf8_valid b); [by eapply json_read_typed|done]).
  pose proof (report_fits_typed _ (Derive.de_fits report_codec _ _ Hj Hr)) as Hrt. cbn.
  destruct (decide (rp_worker_id r = id)) as [<-|Hne]; [|rewrite lookup_insert_ne by done; apply Ht].
  rewrite lookup_insert_eq. intros [= <-]. apply merge_typed; [done..|].
  destruct (workers t !! rp_worker_id r) as [w0|] eqn:E; cbn; [by eapply Ht|]. unfold is_u64. by split_and!.
Qed.
(** Every route keeps the types. *)
Lemma handle_route_typed o e route params ss s : outside_typed o -> shown_typed s ->
  shown_typed (snd (handle_route env parse_toml o e route params ss s)).
Proof using Hparse Hnow.
  intros (_ & Hw & Hi & _) Hs. destruct (changes route) eqn:Ec.
  2: { destruct (handle_route_same env parse_toml o e route params ss s Ec) as (Hc & _ & Hr).
       unfold shown_typed. by rewrite Hc, Hr. }
  pose proof Hs as [Hp Hr]. destruct route; try done; cbn [handle_route snd].
  - unfold handle_telemetry_report. destruct (read_body _ _ _) as [b|]; [|done].
    destruct (json_read_slice b ≫= _) as [r|] eqn:Er; [|done].
    split; [done|]. eapply report_typed_kept; [apply Hi|exact Er|done].
  - destruct (handle_config_update _ _ _ _ _) as [[r p]|] eqn:Eu; [|done]. by apply update_told in Eu as [Hp' _].
  - pose proof (reload_told (authorized o e ss) (configuration s) Hp) as Ht.
    destruct (handle_config_reload _ _ _ _) as [r p]. split; [apply Ht|done].
  - by apply dns_rescan_typed.
Qed.
End Kept.

(** ** What a client reads *)

(** The client's side reads a text as a record. *)
Definition reads {A} (c : Derive.codec A) (text : string) (a : A) : Prop := json_read text ≫= Derive.de c = Some a.
(** It reads a text as an object with this member. *)
Definition member (text k : string) (v : json) : Prop := exists j, json_read text = Some j /\ j_get k j = Some v.
(** What a body offers for validation: the content of the object it is, or its own text. *)
Definition offered (b content : string) : Prop :=
  match json_read_slice b ≫= Derive.de validate_request with
  | Some c => content = c
  | None => utf8_valid b = true /\ content = b
  end.
(** What is warned of in a configuration: that its upstreams do not resolve, and each
    route that is switched off. *)
Definition warned cfg (text : string) : Prop :=
  (exists err, resolve_all_upstreams (to_socket_addrs env) cfg = Err err /\
     text = String.append "Upstream resolution warning: " err) \/
  (exists name r, (name, r) ∈ routes (gql cfg) /\ rt_enabled r = false /\
     text = str_concat ["Route '"; name; "' ("; operation r; ") is disabled"]).
(** The verdict on a content: its error, or that it is read, with the warnings and the
    numbers of its parts. *)
Definition judged (content : string) (v : AdminConfigValidateResponse) : Prop :=
  match parse_toml content with
  | Err err => v = ValidateResponse false [err] [] None
  | Ok cfg => vr_valid v = true /\ vr_errors v = [] /\ (forall text, text ∈ vr_warnings v <-> warned cfg text) /\
      vr_summary v = Some (ConfigSummary (length (apps cfg)) (length (routes (gql cfg))) (length (upstreams cfg))
        (length (interceptors cfg)) (d_method (gql_dispatch cfg)) (d_addr (gql_dispatch cfg)))
  end.
(** The answers made of the gateway's own state, and with no fraction in them: not the
    coverage's percentage, the latencies, the duration of a rescan, nor what a broker
    or a worker's own answer says. *)
Definition own_answer o (route : AdminRoute) (params : list (string * string)) ss s : bool :=
  match route with
  | Schema | SchemaRefresh | Router.Traffic | DnsRescan | Eventsink => false
  | Workers => match get_active_workers_with_filter (instant_ns o) (app_param o ss) (worker_registry s) with [] => false | _ => true end
  | WorkerLogs => bool_decide (is_Some (workers (worker_registry s) !! default "" (Assoc.get "id" params)))
  | _ => true
  end.
(** What the text of a route's answer to a request says of the state before it and of
    the state it left. *)
Definition tells o e (route : AdminRoute) (params : list (string * string)) ss s (text : string) s' : Prop :=
  match route with
  | Dashboard => text = admin_html o
  | Favicon => text = admin_favicon o
  | Router.Status => reads status_response text (status_of o e s')
  | Routes => reads routes_response text (routes_of o e s')
  | Subscriptions => reads subscriptions_response text (subscriptions_of o)
  | Router.Idempotency => reads idempotency_response text (idempotency_of o)
  | ConfigGet => reads config_response text (config_of (store_descriptor o) (configuration s'))
  | DnsStatus => reads dns_status_response text (dns_of env s')
  | ConfigUpdate | ConfigReload =>
      exists u, reads update_response text u /\ ur_success u = true /\
        (ur_version u, ur_hash u, ur_updated_at_epoch_ms u) = running_tag (configuration s')
  | ConfigValidate =>
      exists b content v, read_body (Z.to_nat (2 * 1024 * 1024)) "" (chunks ss) = Ok b /\ offered b content /\
        reads validate_response text v /\ judged content v
  | TrafficClear => member text "status" (JString "cleared") /\ traffic_recorder s' = Traffic.clear (traffic_recorder s)
  | TelemetryReport =>
      member text "status" (JString "accepted") /\
      exists b r, read_body (Z.to_nat (1024 * 1024)) "" (chunks ss) = Ok b /\ json_read_slice b ≫= Derive.de report_codec = Some r /\
        worker_registry s' = record_report (instant_ns o) r (worker_registry s)
  | Workers =>
      reads (Derive.vec summary_codec) text
        (get_active_workers_with_filter (instant_ns o) (app_param o ss) (worker_registry s'))
  | WorkerLogs =>
      exists r, get_worker_logs (instant_ns o) (default "" (Assoc.get "id" params)) 100 (worker_registry s') = Some r /\
        reads logs_response_codec text r
  | AuthVerify =>
      authorized o e ss = true /\ member text "authenticated" (JBool true) /\ member text "auth_required" (JBool (auth_required o e))
  | Schema | SchemaRefresh | Router.Traffic | DnsRescan | Eventsink => False
  end.

Lemma reads_fits {A} (c : Derive.codec A) `{!Derive.Printable c} a : Derive.fits c a -> reads c (json_to_string (Derive.ser c a)) a.
Proof. exact (Derive.fits_travels c a). Qed.
Lemma tag_u64 s : shown_typed s -> let '(v, _, u) := running_tag (configuration s) in is_u64 v /\ is_u64 u.
Proof.
  intros [Hs _]. unfold running_tag. destruct (dynamic (configuration s)) as [st|] eqn:Ed; [|done].
  by destruct (Hs st eq_refl) as (Hv & Hu & _).
Qed.
Lemma filter_size {A} (f : A -> bool) l : is_size (length l) -> is_size (length (List.filter f l)).
Proof. unfold is_size. pose proof (List.filter_length_le f l). lia. Qed.
Lemma summaries_fit l : Forall (Derive.fits app_summary) l.
Proof. apply Forall_forall. intros a _. fields. Qed.
Lemma status_fits o e s : outside_typed o -> engine_typed e -> shown_typed s -> Derive.fits status_response (status_of o e s).
Proof.
  intros (Hup & _) [He Ht] [Hs _]. unfold status_of. destruct (dynamic (configuration s)) as [st|] eqn:Ed.
  - destruct (Hs st eq_refl) as (_ & _ & Hto & _ & Hr & _). pose proof (filter_size (fun nr => is_async_command_receipt (mode (snd nr))) _ Hr).
    fields; apply summaries_fit.
  - pose proof (filter_size (fun nr => is_async_command_receipt (mode (snd nr))) _ He). fields; apply summaries_fit.
Qed.
Lemma routes_fits o e s : Derive.fits routes_response (routes_of o e s).
Proof.
  unfold routes_of. destruct (dynamic (configuration s)); fields; apply Forall_forall; intros x _; fields.
Qed.
Lemma config_fits d s : shown_typed s -> Derive.fits config_response (config_of d (configuration s)).
Proof.
  intros [Hs _]. unfold config_of. destruct (dynamic (configuration s)) as [st|] eqn:Ed.
  - destruct (Hs st eq_refl) as (Hv & Hu & _). destruct (store _); fields.
  - destruct one_u64. destruct (store _); fields.
Qed.
Lemma dns_fits s : shown_typed s -> Derive.fits dns_status_response (dns_of env s).
Proof.
  intros [Hs _]. assert (Hall : forall l, Forall (Derive.fits dns_entry_codec) l) by (intros l; apply Forall_forall; intros x _; fields).
  unfold dns_of. destruct (dynamic (configuration s)) as [st|] eqn:Ed.
  - destruct (Hs st eq_refl) as (_ & _ & _ & Hi & _ & Ht). fields; apply Hall.
  - destruct one_u64. fields; try apply Hall. done.
Qed.
Lemma told_reads p r : (let '(v, _, u) := running_tag p in is_u64 v /\ is_u64 u) -> tells_running p r ->
  exists u, reads update_response (json_to_string (State.body r)) u /\ ur_success u = true /\
    (ur_version u, ur_hash u, ur_updated_at_epoch_ms u) = running_tag p.
Proof.
  intros Ht (reloaded & message & ->). destruct (running_tag p) as [[v h] u]. destruct Ht as [Hv Hu].
  exists (UpdateResponse true v h u reloaded message). split; [|done]. cbn [success_response State.body].
  apply (reads_fits update_response). fields.
Qed.
Lemma problem_member code fields k v : json_plain (JObject (obj_of fields)) = true -> j_get k (JObject (obj_of fields)) = Some v ->
  member (rp_body (problem code fields)) k v.
Proof. intros Hp Hv. exists (JObject (obj_of fields)). split; [by apply json_read_print|done]. Qed.
Lemma warnings_warned cfg text :
  text ∈ ((match resolve_all_upstreams (to_socket_addrs env) cfg with
           | Err err => [String.append "Upstream resolution warning: " err]
           | Ok _ => []
           end) ++
          omap (fun nr => if negb (rt_enabled (snd nr)) then
                  Some (str_concat ["Route '"; fst nr; "' ("; operation (snd nr); ") is disabled"]) else None)
            (routes (gql cfg)))%list <-> warned cfg text.
Proof.
  unfold warned. rewrite elem_of_app, list_elem_of_omap. apply Morphisms_Prop.or_iff_morphism.
  - destruct (resolve_all_upstreams _ _) as [ups|err]; [split; [set_solver|by intros (err & ? & _)]|].
    rewrite list_elem_of_singleton. split; [by exists err|by intros (err' & [= <-] & ->)].
  - split.
    + intros ([name r] & Hin & Ht). exists name, r. cbn [fst snd] in Ht. destruct (rt_enabled r); [done|]. by injection Ht as <-.
    + intros (name & r & Hin & Hen & ->). exists (name, r). split; [done|]. cbn [fst snd]. by rewrite Hen.
Qed.
Lemma validation_tells (Hparse : forall text cfg, parse_toml text = Ok cfg -> config_typed cfg) ss a :
  handle_config_validate env parse_toml ss = Ok a -> rp_code a = 200%Z ->
  exists b content v, read_body (Z.to_nat (2 * 1024 * 1024)) "" (chunks ss) = Ok b /\ offered b content /\
    reads validate_response (rp_body a) v /\ judged content v.
Proof.
  assert (Hv : forall code valid es ws sum, Derive.opt_fits config_summary sum ->
    reads validate_response (rp_body (validation code valid es ws sum)) (ValidateResponse valid es ws sum)).
  { intros code valid es ws sum Hsum. apply (reads_fits validate_response). fields. }
  unfold handle_config_validate, offered, judged. destruct (read_body _ _ _) as [b|]; [|done].
  assert (Hoff : forall content,
    match json_read_slice b ≫= Derive.de validate_request with Some c => Some c | None => if utf8_valid b then Some b else None end =
      Some content -> offered b content).
  { intros content. unfold offered. destruct (json_read_slice b ≫= _) as [c|]; [by intros [= <-]|].
    destruct (utf8_valid b); [by intros [= <-]|done]. }
  destruct (match json_read_slice b ≫= _ with Some c => _ | None => _ end) as [content|]; [|by intros [= <-]].
  intros Ha _. exists b, content. specialize (Hoff content eq_refl).
  destruct (parse_toml content) as [cfg|err] eqn:Ep.
  2: { injection Ha as <-. eexists. split_and!; [done|exact Hoff|by apply Hv|done]. }
  injection Ha as <-. destruct (Hparse _ _ Ep) as (_ & _ & Hr & Ha & Hi & Hu).
  assert (is_size (length (upstreams cfg))) by (unfold is_size in *; lia).
  eexists. split_and!; [done|exact Hoff| | | | |]; [apply Hv; cbn [Derive.opt_fits]; fields|done|done|apply warnings_warned|done].
Qed.
Lemma summaries_typed now filter t : (now <= Int.u64_max * 10 ^ 9)%Z -> workers_typed t ->
  Forall (Derive.fits summary_codec) (get_active_workers_with_filter now filter t).
Proof.
  intros Hn Ht. apply Forall_forall. intros x Hin. unfold get_active_workers_with_filter in Hin.
  rewrite elem_of_sort_by in Hin. apply list_elem_of_fmap in Hin as (w & -> & Hw). apply list_elem_of_In, List.filter_In in Hw as [Hw _].
  apply list_elem_of_In, list_elem_of_fmap in Hw as ([id w'] & -> & Hw). apply elem_of_map_to_list in Hw.
  apply summary_fits; [by eapply Ht|done].
Qed.
Lemma workers_tell o e ss s : outside_typed o -> shown_typed s ->
  own_answer o Workers [] ss s = true ->
  reads (Derive.vec summary_codec) (rp_body (fst (handle_workers o ss s)))
    (get_active_workers_with_filter (instant_ns o) (app_param o ss) (worker_registry s)) /\
  worker_registry (snd (handle_workers o ss s)) = worker_registry s.
Proof.
  intros (_ & _ & [_ Hi] & _) [_ Ht]. unfold own_answer, handle_workers.
  pose proof (summaries_typed (instant_ns o) (app_param o ss) _ Hi Ht) as Hf.
  destruct (get_active_workers_with_filter _ _ _) as [|x l] eqn:El; [done|]. intros _. split; [|done].
  by apply (reads_fits (Derive.vec summary_codec)).
Qed.
(** One request to the interface, whatever it meets outside. *)
Inductive admin_step (e : engine) : admin_state -> admin_state -> Prop :=
| asked s o ss r a s' : outside_typed o -> handle_request env parse_toml o e ss s = (r, a, s') -> admin_step e s s'.

Section History.
Hypothesis Hparse : forall text cfg, parse_toml text = Ok cfg -> config_typed cfg.
Hypothesis Hnow : forall w, is_u64 (now_ms env w).

Lemma request_typed o e ss s r a s' : outside_typed o -> shown_typed s -> handle_request env parse_toml o e ss s = (r, a, s') ->
  shown_typed s'.
Proof using Hparse Hnow.
  intros Ho Hs. unfold handle_request. destruct (negb _); [by intros [= _ _ <-]|].
  destruct (Router.match_route _ _ _) as [[route params]|]; [|by intros [= _ _ <-]].
  pose proof (handle_route_typed Hparse Hnow o e route params ss s Ho Hs) as Ht.
  destruct (handle_route env parse_toml o e route params ss s) as [[rp|err] s1]; by intros [= _ _ <-].
Qed.
(** The routes that show a part as it is. *)
Definition shows (route : AdminRoute) : bool :=
  match route with Router.Status | Routes | Subscriptions | Router.Idempotency | ConfigGet | DnsStatus => true | _ => false end.
Lemma shown_tells o e route params ss s rp s' : outside_typed o -> engine_typed e -> shown_typed s ->
  shows route = true ->
  handle_route env parse_toml o e route params ss s = (Ok rp, s') -> tells o e route params ss s (rp_body rp) s'.
Proof.
  intros Ho He Hs Hr. pose proof Ho as (_ & _ & _ & Hf & Hc & Ht). destruct route; try discriminate Hr; cbn [handle_route tells];
    intros [= <- <-].
  - by apply (reads_fits status_response), status_fits.
  - apply (reads_fits routes_response), routes_fits.
  - apply (reads_fits subscriptions_response). fields.
  - apply (reads_fits idempotency_response). unfold idempotency_of.
    destruct (idempotency_figures o) as [[[b ttl] cap] act]. destruct Hf as (? & ? & ?). fields.
  - by apply (reads_fits config_response), config_fits.
  - by apply (reads_fits dns_status_response), dns_fits.
Qed.
Lemma route_tells o e route params ss s rp s' : outside_typed o -> engine_typed e -> shown_typed s ->
  own_answer o route params ss s = true ->
  handle_route env parse_toml o e route params ss s = (Ok rp, s') -> rp_code rp = 200%Z ->
  tells o e route params ss s (rp_body rp) s'.
Proof using Hparse Hnow.
  intros Ho He Hs Hown Hh Hcode. pose proof Hs as [Hp Hw]. pose proof Ho as (_ & _ & [_ Hi] & _).
  destruct (shows route) eqn:Eshows; [exact (shown_tells o e route params ss s rp s' Ho He Hs Eshows Hh)|].
  destruct route; try discriminate Eshows; try discriminate Hown; clear Eshows; cbn [handle_route tells] in *.
  - injection Hh as <- <-. unfold handle_dashboard in *. by destruct (enable_ui (config e)).
  - by injection Hh as <- <-.
  - injection Hh as <- <-. split; [|done]. by apply problem_member.
  - unfold handle_telemetry_report in Hh. destruct (read_body _ _ _) as [b|]; [|done].
    destruct (json_read_slice b ≫= _) as [r|] eqn:Er; injection Hh as <- <-; [|done].
    split; [by apply problem_member|]. by exists b, r.
  - injection Hh as <- <-. destruct (workers_tell o e ss s Ho Hs Hown) as [Hr ->]. exact Hr.
  - injection Hh as <- <-. apply bool_decide_eq_true in Hown as [w Hid]. set (id := default "" _) in *.
    unfold handle_worker_logs in *. destruct (String.eqb id ""); cbn [negb] in *; [done|].
    unfold get_worker_logs in *. rewrite Hid in *. eexists. split; [cbn; by rewrite Hid|].
    by apply (reads_fits logs_response_codec), logs_fits, (Hw id).
  - injection Hh as Hv <-. by eapply validation_tells.
  - destruct (handle_config_update _ _ _ _ _) as [[r p]|] eqn:Eu; [|done]. injection Hh as <- <-.
    apply (update_told Hparse Hnow _ _ _ _ _ Hp) in Eu as [Hp' Hr].
    apply told_reads; [by apply (tag_u64 (with_plane p s))|by apply Hr].
  - pose proof (reload_told Hparse Hnow (authorized o e ss) (configuration s) Hp) as Hr.
    destruct (handle_config_reload _ _ _ _) as [r p]. destruct Hr as [Hp' Hr]. injection Hh as <- <-.
    apply told_reads; [by apply (tag_u64 (with_plane p s))|by apply Hr].
  - injection Hh as <- <-. unfold handle_auth_verify in *. destruct (authorized o e ss); [|done].
    split; [done|]. split; by apply problem_member.
Qed.
End History.

(** C15. Whatever was asked of a started interface before, a 200 answer that is made of the
    gateway's own state, and prints no fraction, is a text its clients read, and what
    they read is so. The status, the routes, the figures, the configuration, the
    upstreams, the workers and a known worker's logs are read as those of the state the
    request left; an update and a reload as the version, digest and time of the
    configuration then running; a validation as the verdict on the content offered, with
    its error or with its parts counted and exactly the warnings it deserves. A report
    answered "accepted" is recorded as the body gives it, records answered "cleared" are
    cleared, and one answered "authenticated" held the token. The page and its icon are the
    files built in. No number read is out of the range of its field, a wrapped version
    counter included. Left out are the answers with fractions or free values in them:
    the schema's coverage, the traffic, a rescan's answer, what the broker says, and the
    workers and logs asked of the broker when the registry has none to show. The numbers met from
    outside are assumed in range: what the TOML reader returns, the clocks, the figures of
    the cache and of the hub, and the records the registry starts with. *)
Theorem answers_tell_the_state cfg spectra_cfg named routes raw w0 st0 w traffic workers store s o ss r a s' route params :
  (forall text cfg, parse_toml text = Ok cfg -> config_typed cfg) -> (forall w, is_u64 (now_ms env w)) ->
  config_typed spectra_cfg -> is_size (length routes) -> workers_typed workers ->
  new_from_config env spectra_cfg raw 1 w0 = Ok (st0, w) ->
  let '(e, s0) := engine_new cfg spectra_cfg named routes (Plane store (Some st0) w) traffic workers in
  rtc (admin_step e) s0 s -> outside_typed o ->
  handle_request env parse_toml o e ss s = (r, Some a, s') ->
  Router.match_route (router e) (method (req ss)) (path_of ss) = Some (route, params) -> rp_code a = 200%Z ->
  own_answer o route params ss s = true ->
  tells o e route params ss s (rp_body a) s'.
Proof.
  intros Hparse Hnow Hc Hr Hw Hst0. unfold engine_new. cbv zeta beta iota. set (e := Engine _ _ _ _ _ _ _ _ _ _ _ _).
  set (s0 := AdminState _ _ _ _ _). intros Hreach Ho.
  assert (He : engine_typed e) by (destruct Hc as (Ht & _); by split).
  assert (Hs : shown_typed s).
  { revert Hreach. apply (rtc_ind_r (fun s => shown_typed s)).
    - split; [|exact Hw]. intros st [= <-]. eapply built_typed; [exact Hnow|exact Hc|exact Hst0|done].
    - intros s1 s2 _ [s3 o' ss' r' a' s4 Ho' Hreq] IH. by eapply request_typed. }
  unfold handle_request. destruct (negb _) eqn:Ead; [by destruct (connected ss); intros [= _ <- _]|]. intros Hreq Hm. rewrite Hm in Hreq.
  destruct (handle_route env parse_toml o e route params ss s) as [[rp|err] s1] eqn:Eh; [|done].
  destruct (connected ss); [|done]. injection Hreq as _ <- <-. intros Hcode Hown. by eapply route_tells.
Qed.
End Typed.

Section Witnesses.
#[local] Existing Instances list_http ascii_tables bits_json_text list_lru demo_auth_lib demo_cel demo_types
  demo_wasm no_gql manager_clocks MemoryConfigStore list_matchit.
Definition quiet : brokers :=
  Brokers (NatsServer (Err "down") (fun _ => Err "down")) (RespServer (Err "down") false (fun _ => None))
    (IggyServer (fun _ => Err "down") (Err "down") (fun _ => Err "down")) (AmqpServer (fun _ => Err "down") (Err "down") (fun _ => None))
    (KafkaCluster (fun _ => Err "down") (fun _ _ => Err "down")) (Err "down", F64.of_Z 0).
Definition demo_outside : outside (SocketAddr := string) :=
  Outside (fun _ => None) 5 0 9 0 0 0 InTime quiet (fun _ _ => WorkerSilent) (Unreachable "down") hub_new [] ("memory", 300%Z, 10%Z, 0%Z)
    "memory" (F64.of_Z 0) (fun _ => JNull) id id id dec id (fun _ => None) "" "".
Definition demo_ask (method path body : string) : session :=
  @Session list_http (@HttpInfo list_http method path "HTTP/1.1" []) (Some (V4 2130706433)) [Ok body] true.
(** The interface of a gateway started with the text "good". *)
Definition demo_started : result string (DynamicGatewayState (W := manager_world) (SocketAddr := string) * manager_world) :=
  new_from_config (demo_surroundings "10.0.0.2:80") demo_managed "good" 1 demo_mworld.
Definition demo_interface (st : DynamicGatewayState (W := manager_world) (SocketAddr := string)) (w : manager_world) :=
  engine_new (W := manager_world) (SocketAddr := string) (S := option string) admin_default demo_managed ∅ []
    (Plane (Some (Some "good")) (Some st) w) (recorder_new 10) registry_default.
(** An update with the text that runs. *)
Definition demo_update_asked (st : DynamicGatewayState (W := manager_world) (SocketAddr := string)) (w : manager_world) :=
  handle_request (demo_surroundings "10.0.0.2:80") demo_toml demo_outside (fst (demo_interface st w))
    (demo_ask "POST" "/admin/api/v1/config" "good") (snd (demo_interface st w)).
Definition accepted (x : result string (DynamicGatewayState (W := manager_world) (SocketAddr := string) * manager_world)) : bool :=
  match x with
  | Ok (st, w) =>
      match demo_update_asked st w with
      | (_, Some a, s) => Z.eqb (rp_code a) 200 && Z.eqb (fst (fst (running_tag (configuration s)))) 2
      | _ => false
      end
  | Err _ => false
  end.
Lemma demo_toml_typed text cfg : demo_toml text = Ok cfg -> config_typed cfg.
Proof. unfold demo_toml. intros [= <-]. destruct (String.eqb text "good"); split_and!; done. Qed.
Lemma demo_outside_typed : outside_typed demo_outside.
Proof. unfold outside_typed. cbn. split_and!; first [discriminate|done]. Qed.
Lemma answers_tell_the_state_witness : exists text u,
  reads update_response text u /\ ur_success u = true /\ ur_version u = 2%Z.
Proof.
  assert (Hok : accepted demo_started = true) by (vm_compute; reflexivity). unfold accepted in Hok.
  destruct demo_started as [[st w]|] eqn:Est; [|discriminate Hok].
  destruct (demo_update_asked st w) as [[r [a|]] s'] eqn:Eu; [|discriminate Hok].
  apply andb_true_iff in Hok as [Hcode Hv]. apply Z.eqb_eq in Hcode, Hv.
  destruct (answers_tell_the_state (S := option string) (demo_surroundings "10.0.0.2:80") demo_toml admin_default demo_managed ∅ [] "good"
    demo_mworld st w (recorder_new 10) registry_default (Some (Some "good")) (snd (demo_interface st w)) demo_outside
    (demo_ask "POST" "/admin/api/v1/config" "good") r a s' ConfigUpdate [] demo_toml_typed) as (u & Hu & Hs & Ht).
  - intros ?. split; discriminate.
  - exact (demo_toml_typed "good" demo_managed eq_refl).
  - discriminate.
  - intros id w0 Hw. discriminate Hw.
  - exact Est.
  - apply rtc_refl.
  - exact demo_outside_typed.
  - exact Eu.
  - reflexivity.
  - exact Hcode.
  - reflexivity.
  - exists (rp_body a), u. split; [exact Hu|]. split; [exact Hs|]. rewrite <- Ht in Hv. exact Hv.
Defined.
End Witnesses.
