(* ===== verification/Boot.v ===== *)
(** * Boot: how the gateway starts, [src/lib.rs], the builder of
    [src/gateway/composite_service.rs], the path router of [src/gateway/mod.rs] and the
    DNS refresher.

    Which configuration is run and which text is stored for it, the shared cell of the
    running state that the service and the administrative engine end up with, and the
    loop that rescans names. *)

From S2P Require Import Prelude Externals Types Idempotency Sanitizer Protocol Telemetry Config ConfigStore.
From S2P Require Import Interceptors Auth Wasm Cel Manager Hub Access Traffic State Gateway Registry EventSink.
From S2P Require Import Inspector Router Admin.
Local Open Scope string_scope.

(** A build returns, fails, or panics. *)
Abbreviation built A := (option (result string A)).
Definition and_then {A B} (m : built A) (k : A -> built B) : built B :=
  match m with
  | None => None
  | Some (Err e) => Some (Err e)
  | Some (Ok a) => k a
  end.
Declare Scope boot_scope.
Notation "'do*' x ':=' m 'in' k" := (and_then m (fun x => k)) (at level 10, x pattern, k at level 200) : boot_scope.
Local Open Scope boot_scope.

(** ** The path router *)

Section PathRouter.
Context `{Matchit}.

(** [PathRouter]: the patterns with their services. @gateway/mod.rs:{struct PathRouter} PathRouter *)
Definition PathRouter : Type := list (string * nat).
(** Refused patterns are an error. @gateway/mod.rs:{fn add_service_handle} PathRouter::add_service_handle *)
Definition add_service_handle (route : string) (handle : nat) (r : PathRouter) : option PathRouter :=
  if mt_accepts r.*1 route then Some ((route, handle) :: r) else None.
(** @gateway/mod.rs:{fn get_service_handle} PathRouter::get_service_handle *)
Definition get_service_handle (path : string) (r : PathRouter) : option nat :=
  match mt_at r.*1 path with Some (p, _) => Assoc.get p r | None => None end.

(** A service's routes, in order; a refused one is a panic. @gateway/composite_service.rs:555-559 CompositeServiceProxy::add_service_config *)
Fixpoint add_routes (handle : nat) (routes : list string) (r : PathRouter) : option PathRouter :=
  match routes with
  | [] => Some r
  | route :: routes => match add_service_handle (trim route) handle r with
                       | Some r => add_routes handle routes r
                       | None => None
                       end
  end.

Lemma add_routes_bound handle n routes r r' : add_routes handle routes r = Some r' -> (handle < n)%nat ->
  Forall (fun rh => snd rh < n)%nat r -> Forall (fun rh => snd rh < n)%nat r'.
Proof.
  revert r. induction routes as [|route routes IH]; intros r; cbn; [by intros [= <-]|].
  unfold add_service_handle. destruct (mt_accepts _ _); [|done]. intros Hr Hn Hall. eapply IH; eauto.
Qed.
End PathRouter.

(** ** Which configuration is run *)

Definition nonblank (s : string) : bool := negb (String.eqb (trim s) "").

Section Hydrate.
Context {S : Type} `{!ConfigStore S}.
Context (parse_toml : string -> result string SpectraConfig) (to_toml_string : SpectraConfig -> result string string).
(** The environment, and the text of a file that can be read. *)
Context (vars : string -> option string) (read_to_string : string -> option string).

(** The text of the start-up configuration. @lib.rs:44-60 build_composite_service *)
Definition default_raw (startup : SpectraConfig) : string :=
  match env_or vars "SPECTRA_CONFIG_CONTENT" "SPECTRAGQL_CONFIG_CONTENT" ≫= (fun s => if nonblank s then Some s else None) with
  | Some s => s
  | None =>
      let path_to_read := default "spectra.toml" (env_or vars "SPECTRA_CONFIG" "SPECTRAGQL_CONFIG") in
      match read_to_string path_to_read ≫= (fun s => if nonblank s then Some s else None) with
      | Some s => s
      | None => match to_toml_string startup with Ok s => s | Err _ => "" end
      end
  end.
(** The configuration to run, its text, and the store after. @lib.rs:64-105 build_composite_service *)
Definition hydrate (startup : SpectraConfig) (store : S) : SpectraConfig * string * S :=
  let raw := default_raw startup in
  let seeded := (startup, raw, if String.eqb raw "" then store else snd (save_config raw store)) in
  match load_config store with
  | Ok (Some stored_raw) =>
      if nonblank stored_raw then
        match parse_toml stored_raw with
        | Ok parsed => (parsed, stored_raw, store)
        | Err _ => (startup, raw, store)
        end
      else seeded
  | Ok None => seeded
  | Err _ => (startup, raw, store)
  end.

Lemma hydrate_store startup store :
  load_config (snd (hydrate startup store)) = load_config store \/
  load_config (snd (hydrate startup store)) = Ok (Some (default_raw startup)).
Proof.
  unfold hydrate. destruct (load_config store) as [[stored|]|e] eqn:El; cbn.
  - destruct (nonblank stored); [destruct (parse_toml stored); by left|]. cbn.
    destruct (String.eqb _ ""); [by left|]. destruct (save_atomic (default_raw startup) store) as [-> | ->]; [by right|by left].
  - destruct (String.eqb _ ""); [by left|]. destruct (save_atomic (default_raw startup) store) as [-> | ->]; [by right|by left].
  - by left.
Qed.
End Hydrate.

(** ** The service and its builder *)

Section Boot.
Context `{HttpLib, JsonText, Unicode, GqlParser, LruLib, AuthLib, CelLib, Matchit}.
Context {W : Type} `{Clocks W, WasmTypes, !WasmLib W}.
Context {SocketAddr : Type} `{EqDecision SocketAddr}.
Context {S : Type} `{!ConfigStore S}.
Context (env : State.surroundings (W := W) (SocketAddr := SocketAddr)).
Context (parse_toml : string -> result string SpectraConfig) (to_toml_string : SpectraConfig -> result string string).
Abbreviation dynamic_state := (DynamicGatewayState (W := W) (SocketAddr := SocketAddr)).
Abbreviation InterceptorManager := (InterceptorManager (W := W)).

(** The idempotency engine a service starts with. *)
Inductive idempotency_engine := InMemory (e : Idempotency.engine) | OnRedis (addr key_prefix : string) (ttl : Z).
(** @idempotency/mod.rs:117-131 IdempotencyEngine::new_redis *)
Definition new_redis (addr : string) (ttl : Z) : idempotency_engine :=
  OnRedis (normalize_redis_url addr) DEFAULT_REDIS_KEY_PREFIX ttl.
(** @lib.rs:145-164 build_composite_service *)
Definition choose_engine (c : SpectraIdempotencyConfig) : idempotency_engine :=
  match backend c with
  | BackendRedis => new_redis (default "127.0.0.1:6379" (id_addr c)) (ttl_secs c)
  | BackendMemory => InMemory (Idempotency.engine_new (ttl_secs c) (id_max_capacity c))
  end.

(** What the administrative interface is told of it. @idempotency/mod.rs:{fn backend_name} IdempotencyEngine::backend_name *)
Definition engine_backend (e : idempotency_engine) : string :=
  match e with InMemory _ => "memory" | OnRedis _ _ _ => "redis" end.
(** @idempotency/mod.rs:{fn ttl_secs} IdempotencyEngine::ttl_secs *)
Definition engine_ttl (e : idempotency_engine) : Z :=
  match e with InMemory e => Idempotency.ttl e | OnRedis _ _ ttl => ttl end.
(** @idempotency/mod.rs:{fn max_capacity} IdempotencyEngine::max_capacity *)
Definition engine_capacity (e : idempotency_engine) : Z :=
  match e with InMemory e => Idempotency.max_capacity e | OnRedis _ _ _ => 0%Z end.
(** @idempotency/mod.rs:{fn active_record_count} IdempotencyEngine::active_record_count *)
Definition engine_active (e : idempotency_engine) : Z :=
  match e with InMemory e => Idempotency.active_record_count e | OnRedis _ _ _ => 0%Z end.

(** The administrative engine and the cell and store it was given. *)
Record admin_wired := Wired {
  wired_engine : AdminEngine (SocketAddr := SocketAddr);
  wired_cell : option nat;
  wired_store : option S
}.
(** [CompositeServiceProxy]: its own copies, and the cell of the running state. Cells are
    shared: [ArcSwap]s, by number. @gateway/composite_service.rs:{struct CompositeServiceProxy} CompositeServiceProxy *)
Record CompositeService := Composite {
  cs_services : list (ServiceConfig (SocketAddr := SocketAddr));
  cs_router : PathRouter;
  cs_idempotency : idempotency_engine;
  cs_upstreams : gmap string SocketAddr;
  cs_targets : gmap string string;
  cs_mode_a : SpectraModeAConfig;
  cs_routes : list (string * SpectraRouteConfig);
  cs_hub : SubscriptionHub;
  cs_subscriptions : SpectraSubscriptionsConfig;
  cs_admin : option admin_wired;
  cs_manager : InterceptorManager;
  cs_traffic : TrafficRecorder;
  cs_apps : list SpectraAppConfig;
  cs_default_app : option string;
  cs_telemetry : ErrorCaptureConfig;
  cs_dynamic : nat
}.
Abbreviation cells := (gmap nat dynamic_state).
(** A service under construction. *)
Definition building : Type := CompositeService * cells.

(** @gateway/composite_service.rs:{fn new#2} CompositeServiceProxy::new *)
Definition service_new (cell : nat) (h : cells) : building :=
  (Composite [] [] (InMemory (Idempotency.engine_new 300 10000)) ∅ ∅ mode_a_default [] hub_new subscriptions_default None
     manager_empty (recorder_new 250) [] None error_capture_default cell,
   <[cell := dynamic_default]> h).
(** @gateway/composite_service.rs:{fn sync_dynamic_state} CompositeServiceProxy::sync_dynamic_state *)
Definition sync_dynamic_state (b : building) : building :=
  let '(c, h) := b in
  (c, alter (fun prev => Dynamic (cs_upstreams c) (cs_targets c) (dns_config prev) (cs_mode_a c) (cs_routes c)
         (cs_apps c) (cs_default_app c) (cs_manager c) (cs_telemetry c) (raw_config prev) (version prev)
         (updated_at_epoch_ms prev) (config_hash prev)) (cs_dynamic c) h).
(** @gateway/composite_service.rs:{fn with_dynamic_state} CompositeServiceProxy::with_dynamic_state *)
Definition with_dynamic_state (cell : nat) (b : building) : building :=
  let '(c, h) := b in
  match h !! cell with
  | Some d =>
      (Composite (cs_services c) (cs_router c) (cs_idempotency c) (named_upstreams d) (upstream_targets d)
         (dy_mode_a d) (dy_routes d) (cs_hub c) (cs_subscriptions c) (cs_admin c) (interceptor_manager d)
         (cs_traffic c) (dy_apps d) (dy_default_app d) (telemetry_config d) cell, h)
  | None => b
  end.
(** @gateway/composite_service.rs:{fn with_telemetry} CompositeServiceProxy::with_telemetry *)
Definition with_telemetry (t : ErrorCaptureConfig) (b : building) : building :=
  let '(c, h) := b in
  sync_dynamic_state
    (Composite (cs_services c) (cs_router c) (cs_idempotency c) (cs_upstreams c) (cs_targets c) (cs_mode_a c)
       (cs_routes c) (cs_hub c) (cs_subscriptions c) (cs_admin c) (cs_manager c) (cs_traffic c) (cs_apps c)
       (cs_default_app c) t (cs_dynamic c), h).
(** @gateway/composite_service.rs:{fn with_routing_with_targets} CompositeServiceProxy::with_routing_with_targets *)
Definition with_routing_with_targets (ups : gmap string SocketAddr) (targets : gmap string string)
    (m : SpectraModeAConfig) (routes : list (string * SpectraRouteConfig)) (b : building) : building :=
  let '(c, h) := b in
  sync_dynamic_state
    (Composite (cs_services c) (cs_router c) (cs_idempotency c) ups targets m routes (cs_hub c)
       (cs_subscriptions c) (cs_admin c) (cs_manager c) (cs_traffic c) (cs_apps c) (cs_default_app c)
       (cs_telemetry c) (cs_dynamic c), h).
(** @gateway/composite_service.rs:{fn with_routing} CompositeServiceProxy::with_routing *)
Definition with_routing (ups : gmap string SocketAddr) (m : SpectraModeAConfig)
    (routes : list (string * SpectraRouteConfig)) : building -> building :=
  with_routing_with_targets ups (State.addr_text env <$> ups) m routes.
(** @gateway/composite_service.rs:{fn with_dns_config} CompositeServiceProxy::with_dns_config *)
Definition with_dns_config (dns : SpectraDnsConfig) (b : building) : building :=
  let '(c, h) := b in
  (c, alter (fun d => Dynamic (named_upstreams d) (upstream_targets d) dns (dy_mode_a d) (dy_routes d) (dy_apps d)
         (dy_default_app d) (interceptor_manager d) (telemetry_config d) (raw_config d) (version d)
         (updated_at_epoch_ms d) (config_hash d)) (cs_dynamic c) h).
(** @gateway/composite_service.rs:{fn with_apps} CompositeServiceProxy::with_apps *)
Definition with_apps (apps : list SpectraAppConfig) (default_app : option string) (b : building) : building :=
  let '(c, h) := b in
  sync_dynamic_state
    (Composite (cs_services c) (cs_router c) (cs_idempotency c) (cs_upstreams c) (cs_targets c) (cs_mode_a c)
       (cs_routes c) (cs_hub c) (cs_subscriptions c) (cs_admin c) (cs_manager c) (cs_traffic c) apps default_app
       (cs_telemetry c) (cs_dynamic c), h).
(** @gateway/composite_service.rs:{fn with_idempotency_engine} CompositeServiceProxy::with_idempotency_engine *)
Definition with_idempotency_engine (e : idempotency_engine) (b : building) : building :=
  let '(c, h) := b in
  (Composite (cs_services c) (cs_router c) e (cs_upstreams c) (cs_targets c) (cs_mode_a c) (cs_routes c) (cs_hub c)
     (cs_subscriptions c) (cs_admin c) (cs_manager c) (cs_traffic c) (cs_apps c) (cs_default_app c)
     (cs_telemetry c) (cs_dynamic c), h).
(** @gateway/composite_service.rs:{fn with_subscriptions} CompositeServiceProxy::with_subscriptions *)
Definition with_subscriptions (hub : SubscriptionHub) (s : SpectraSubscriptionsConfig) (b : building) : building :=
  let '(c, h) := b in
  (Composite (cs_services c) (cs_router c) (cs_idempotency c) (cs_upstreams c) (cs_targets c) (cs_mode_a c)
     (cs_routes c) hub s (cs_admin c) (cs_manager c) (cs_traffic c) (cs_apps c) (cs_default_app c)
     (cs_telemetry c) (cs_dynamic c), h).
(** @gateway/composite_service.rs:{fn with_admin} CompositeServiceProxy::with_admin *)
Definition with_admin (a : admin_wired) (b : building) : building :=
  let '(c, h) := b in
  (Composite (cs_services c) (cs_router c) (cs_idempotency c) (cs_upstreams c) (cs_targets c) (cs_mode_a c)
     (cs_routes c) (cs_hub c) (cs_subscriptions c) (Some a) (cs_manager c) (cs_traffic c) (cs_apps c)
     (cs_default_app c) (cs_telemetry c) (cs_dynamic c), h).
(** @gateway/composite_service.rs:{fn with_interceptor_manager} CompositeServiceProxy::with_interceptor_manager *)
Definition with_interceptor_manager (m : InterceptorManager) (b : building) : building :=
  let '(c, h) := b in
  sync_dynamic_state
    (Composite (cs_services c) (cs_router c) (cs_idempotency c) (cs_upstreams c) (cs_targets c) (cs_mode_a c)
       (cs_routes c) (cs_hub c) (cs_subscriptions c) (cs_admin c) m (cs_traffic c) (cs_apps c) (cs_default_app c)
       (cs_telemetry c) (cs_dynamic c), h).
(** @gateway/composite_service.rs:{fn with_traffic_recorder} CompositeServiceProxy::with_traffic_recorder *)
Definition with_traffic_recorder (t : TrafficRecorder) (b : building) : building :=
  let '(c, h) := b in
  (Composite (cs_services c) (cs_router c) (cs_idempotency c) (cs_upstreams c) (cs_targets c) (cs_mode_a c)
     (cs_routes c) (cs_hub c) (cs_subscriptions c) (cs_admin c) (cs_manager c) t (cs_apps c) (cs_default_app c)
     (cs_telemetry c) (cs_dynamic c), h).
(** A refused route is a panic. @gateway/composite_service.rs:{fn add_service_config} CompositeServiceProxy::add_service_config *)
Definition add_service_config (sc : ServiceConfig) (b : building) : built building :=
  let '(c, h) := b in
  match add_routes (length (cs_services c)) (split_on "," (sc_upstream_routes sc)) (cs_router c) with
  | Some r =>
      Some (Ok (Composite (cs_services c ++ [sc])%list r (cs_idempotency c) (cs_upstreams c) (cs_targets c)
                  (cs_mode_a c) (cs_routes c) (cs_hub c) (cs_subscriptions c) (cs_admin c) (cs_manager c)
                  (cs_traffic c) (cs_apps c) (cs_default_app c) (cs_telemetry c) (cs_dynamic c), h))
  | None => None
  end.

(** An index out of range is a panic. @gateway/composite_service.rs:{fn get_service_config} CompositeServiceProxy::get_service_config *)
Definition get_service_config (handle : nat) (c : CompositeService) : option ServiceConfig := cs_services c !! handle.
(** @gateway/composite_service.rs:{fn get_service_config_and_handle_by_path} CompositeServiceProxy::get_service_config_and_handle_by_path *)
Definition get_service_config_and_handle_by_path (path : string) (c : CompositeService) : built (ServiceConfig * nat) :=
  match get_service_handle path (cs_router c) with
  | Some handle => (fun sc => Ok (sc, handle)) <$> get_service_config handle c
  | None => Some (Err (String.append "No proxy service for " path))
  end.
(** @gateway/composite_service.rs:{fn resolve_app} CompositeServiceProxy::resolve_app *)
Definition resolve_app (c : CompositeService) (host header_app : option string) (path : string) : option SpectraAppConfig :=
  resolve_app_with_apps (cs_apps c) (cs_default_app c) host header_app path.

(** ** The start *)

(** What the start reads besides: the environment, files, the store that a configuration
    names, and the cells of the second set of interceptors. *)
Record start := Start {
  vars : string -> option string;
  read_to_string : string -> option string;
  open_store : SpectraConfigStoreConfig -> result string S;
  spare_proc : process (W := W)
}.
Context (on : start).

Definition gql_service (cfg : SpectraConfig) : built (ServiceConfig (SocketAddr := SocketAddr)) :=
  service_try_new (State.to_socket_addrs env) "gql" (up_addr (gql_upstream cfg)) (g_paths (gql cfg))
    (d_method (gql_dispatch cfg)) (d_addr (gql_dispatch cfg)) {["ops_to_dispatch" := ops_to_dispatch (gql cfg)]}.
Definition rest_service (cfg : SpectraConfig) : built (ServiceConfig (SocketAddr := SocketAddr)) :=
  service_try_new (State.to_socket_addrs env) "http" (up_addr (rest_upstream cfg)) (r_paths (rest cfg))
    (d_method (rest_dispatch cfg)) (d_addr (rest_dispatch cfg)) ∅.
(** The cells the start allocates: the running state's, and the new service's own. *)
Definition RUNNING : nat := 0.
Definition OWN : nat := 1.
(** The chain of builder calls. @lib.rs:183-201 build_composite_service *)
Definition assemble (cfg : SpectraConfig) (ups : gmap string SocketAddr) (targets : gmap string string)
    (admin : admin_wired) (m : InterceptorManager) (h : cells) : building :=
  with_dynamic_state RUNNING (with_telemetry (error_capture cfg) (with_traffic_recorder (recorder_new 250)
    (with_interceptor_manager m (with_admin admin (with_subscriptions hub_new (subscriptions cfg)
      (with_idempotency_engine (choose_engine (idempotency cfg)) (with_apps (apps cfg) (default_app cfg)
        (with_routing_with_targets ups targets (mode_a (gql cfg)) (routes (gql cfg)) (service_new OWN h))))))))).
(** @lib.rs:{fn build_composite_service} build_composite_service *)
Definition build_composite_service (startup : SpectraConfig) (w : W) : built (building * W) :=
  do* store := Some (open_store on (config_store startup)) in
  let '(cfg, active_raw, store) := hydrate parse_toml to_toml_string (vars on) (read_to_string on) startup store in
  do* (state, w) := Some (new_from_config env cfg active_raw 1 w) in
  let h : cells := {[RUNNING := state]} in
  do* gql := gql_service cfg in
  do* rest := rest_service cfg in
  do* (ups, targets) := Some (resolve_all_upstreams_with_targets (State.to_socket_addrs env) cfg) in
  let admin := Wired (fst (engine_new (admin cfg) cfg ups (routes (Config.gql cfg))
                             (Plane (Some store) (Some state) w) (recorder_new 250) registry_default))
                 (Some RUNNING) (Some store) in
  do* (m, w) := Some (from_config (spare_proc on) cfg (json_error env) w) in
  do* b := add_service_config gql (assemble cfg ups targets admin m h) in
  do* b := add_service_config rest b in
  Some (Ok (b, w)).

(** The refresher sleeps for the interval of the state it loads, and rescans the state it
    loads then. @gateway/composite_service.rs:{fn spawn_dns_refresher} spawn_dns_refresher *)
Definition refresher_turn (before after : dynamic_state) (now : Z) : Z * option dynamic_state :=
  let dns_cfg := dns_config before in
  (if (interval_secs dns_cfg =? 0)%Z then 15%Z else interval_secs dns_cfg,
   if dns_enabled (dns_config after) then rescan_dns env now after else None).

(** The process: the service, the address it listens on, and whether the refresher runs.
    Both are those of the start-up configuration. @main.rs:36-62 main *)
Record gateway_process := Process { serving : building; listening : string; refreshing : bool }.
(** @main.rs:36-62 main *)
Definition main (loaded : result string SpectraConfig) (w : W) : built (gateway_process * W) :=
  do* startup := Some loaded in
  do* (service, w) := build_composite_service startup w in
  Some (Ok (Process service (bind_addr startup) (dns_enabled (dns startup)), w)).

(** ** Lemmas *)

(** The service assembled over a running state has that state's parts and its cell, which
    no builder call has written. *)
Lemma assemble_spec cfg ups targets admin m state : exists h,
  assemble cfg ups targets admin m {[RUNNING := state]} =
    (Composite [] [] (choose_engine (idempotency cfg)) (named_upstreams state) (upstream_targets state)
       (dy_mode_a state) (dy_routes state) hub_new (subscriptions cfg) (Some admin) (interceptor_manager state)
       (recorder_new 250) (dy_apps state) (dy_default_app state) (telemetry_config state) RUNNING, h) /\
  h !! RUNNING = Some state.
Proof.
  unfold assemble. set (m' := m). set (e := choose_engine _). set (t := recorder_new 250). set (h := {[_ := _]}).
  assert (Hh : h !! RUNNING = Some state) by apply lookup_singleton_eq.
  cbv beta iota delta [with_telemetry with_traffic_recorder with_interceptor_manager with_admin with_subscriptions
    with_idempotency_engine with_apps with_routing_with_targets service_new sync_dynamic_state
    cs_services cs_router cs_idempotency cs_upstreams cs_targets cs_mode_a cs_routes cs_hub cs_subscriptions cs_admin
    cs_manager cs_traffic cs_apps cs_default_app cs_telemetry cs_dynamic].
  unfold with_dynamic_state. rewrite !lookup_alter_ne, lookup_insert_ne, Hh by done. eexists. split; [reflexivity|].
  by rewrite !lookup_alter_ne, lookup_insert_ne.
Qed.

(** Adding a service keeps the handles below the number of services. *)
Definition handles_ok (c : CompositeService) : Prop :=
  Forall (fun rh => snd rh < length (cs_services c))%nat (cs_router c).
Lemma add_service_ok sc c h c' h' : add_service_config sc (c, h) = Some (Ok (c', h')) -> handles_ok c ->
  handles_ok c' /\ h' = h /\ cs_dynamic c' = cs_dynamic c /\ cs_admin c' = cs_admin c /\
  cs_services c' = (cs_services c ++ [sc])%list /\
  (cs_upstreams c', cs_targets c', cs_mode_a c', cs_routes c', cs_apps c', cs_default_app c', cs_telemetry c',
   cs_manager c') =
  (cs_upstreams c, cs_targets c, cs_mode_a c, cs_routes c, cs_apps c, cs_default_app c, cs_telemetry c, cs_manager c).
Proof.
  cbn. destruct (add_routes _ _ _) as [r|] eqn:Er; [|done]. intros [= <- <-] Hok. cbn.
  split; [|done]. unfold handles_ok in *. cbn. rewrite length_app. cbn.
  eapply add_routes_bound; [exact Er|lia|]. eapply Forall_impl; [exact Hok|]. cbn. lia.
Qed.
Lemma handle_in_range path handle (c : CompositeService) : handles_ok c ->
  get_service_handle path (cs_router c) = Some handle -> is_Some (cs_services c !! handle).
Proof.
  intros Hok. unfold get_service_handle. destruct (mt_at _ _) as [[p params]|]; [|done]. intros Hg.
  apply Assoc.get_In in Hg. unfold handles_ok in Hok. rewrite Forall_forall in Hok. specialize (Hok _ Hg). by apply lookup_lt_is_Some.
Qed.

(** ** Properties *)

(** C18. A gateway that starts runs one state: version 1 of the configuration chosen, built
    from it and holding its text; the service's own copies are that state's parts, and
    the administrative engine has the same cell and the store, so that a configuration it
    swaps in is the one requests meet. Every path the router knows leads to one of the
    two services, so no request meets an index out of range. *)
Theorem start_runs_one_state startup w c h w' :
  build_composite_service startup w = Some (Ok ((c, h), w')) ->
  exists store cfg raw store' state w1 a,
    open_store on (config_store startup) = Ok store /\
    hydrate parse_toml to_toml_string (vars on) (read_to_string on) startup store = (cfg, raw, store') /\
    new_from_config env cfg raw 1 w = Ok (state, w1) /\
    h !! cs_dynamic c = Some state /\ version state = 1%Z /\ raw_config state = raw /\
    (cs_upstreams c, cs_targets c, cs_mode_a c, cs_routes c, cs_apps c, cs_default_app c, cs_telemetry c, cs_manager c) =
    (named_upstreams state, upstream_targets state, dy_mode_a state, dy_routes state, dy_apps state,
     dy_default_app state, telemetry_config state, interceptor_manager state) /\
    cs_admin c = Some a /\ wired_cell a = Some (cs_dynamic c) /\ wired_store a = Some store' /\
    Admin.config (wired_engine a) = admin cfg /\
    length (cs_services c) = 2%nat /\
    forall path handle, get_service_handle path (cs_router c) = Some handle -> is_Some (cs_services c !! handle).
Proof.
  unfold build_composite_service, and_then.
  destruct (open_store on (config_store startup)) as [store|]; [|done].
  destruct (hydrate _ _ _ _ startup store) as [[cfg raw] store'] eqn:Eh.
  destruct (new_from_config env cfg raw 1 w) as [[state w1]|] eqn:En; [|done].
  destruct (gql_service cfg) as [[gqls|]|]; [|done..]. destruct (rest_service cfg) as [[rests|]|]; [|done..].
  destruct (resolve_all_upstreams_with_targets _ cfg) as [[ups targets]|]; [|done].
  destruct (from_config (spare_proc on) cfg (json_error env) w1) as [[m w2]|]; [|done].
  set (a := Wired _ _ _). destruct (assemble_spec cfg ups targets a m state) as (h0 & -> & Hh0).
  match goal with |- context [add_service_config gqls (?c0, h0)] => set (c0' := c0) end.
  destruct (add_service_config gqls (c0', h0)) as [[[c1 h1]|]|] eqn:E1; [|done..].
  destruct (add_service_config rests (c1, h1)) as [[[c2 h2]|]|] eqn:E2; [|done..]. intros [= <- <- <-].
  apply add_service_ok in E1 as (Hok1 & -> & Hd1 & Ha1 & Hs1 & Hf1); [|by constructor].
  apply add_service_ok in E2 as (Hok2 & -> & Hd2 & Ha2 & Hs2 & Hf2); [|done].
  exists store, cfg, raw, store', state, w1, a. rewrite Hd2, Hd1, Ha2, Ha1, Hf2, Hf1, Hs2, Hs1.
  assert (Hv : version state = 1%Z /\ raw_config state = raw).
  { revert En. unfold new_from_config. destruct (resolve_all_upstreams_with_targets _ _) as [[? ?]|]; [|done].
    destruct (from_config _ _ _ _) as [[? ?]|]; [|done]. by intros [= <- _]. }
  destruct Hv as [Hv Hr]. split_and!; first [reflexivity|exact Eh|exact En|exact Hh0|exact Hv|exact Hr|idtac].
  intros path handle Hg. rewrite <- Hs1, <- Hs2. by eapply handle_in_range.
Qed.

(** Whatever configuration the store holds and the service runs, the process listens on
    the start-up configuration's address and refreshes names when that one says so. *)
Lemma main_binds_the_startup loaded w p w' : main loaded w = Some (Ok (p, w')) ->
  exists startup, loaded = Ok startup /\ listening p = bind_addr startup /\ refreshing p = dns_enabled (dns startup) /\
    build_composite_service startup w = Some (Ok (serving p, w')).
Proof.
  unfold main, and_then. destruct loaded as [startup|]; [|done].
  destruct (build_composite_service startup w) as [[[b w1]|]|] eqn:Eb; [|done..]. intros Hm. injection Hm as <- <-.
  exists startup. split_and!; [reflexivity..|exact Eb].
Qed.
End Boot.

Section Restart.
Context {S : Type} `{!ConfigStore S}.
Context (parse_toml : string -> result string SpectraConfig) (to_toml_string : SpectraConfig -> result string string).

(** What a start runs. A stored text that is not blank and parses is what runs, and the
    store stays as it is; otherwise the start-up configuration runs. The start-up text is
    only written to a store that answered and holds nothing. Once that text is stored, a
    later start runs the configuration the text spells, whatever configuration and
    environment it is started with. *)
Theorem start_runs_the_stored vars read startup (store : S) :
  let '(cfg, raw, store') := hydrate parse_toml to_toml_string vars read startup store in
  let seed := default_raw to_toml_string vars read startup in
  (forall stored, load_config store = Ok (Some stored) -> nonblank stored = true ->
     store' = store /\
     match parse_toml stored with Ok c => cfg = c /\ raw = stored | Err _ => cfg = startup /\ raw = seed end) /\
  ((forall stored, load_config store = Ok (Some stored) -> nonblank stored = false) -> cfg = startup /\ raw = seed) /\
  (is_ok (load_config store) = false -> store' = store) /\
  (load_config store' <> load_config store ->
     load_config store' = Ok (Some seed) /\
     forall c vars' read' startup', nonblank seed = true -> parse_toml seed = Ok c ->
       hydrate parse_toml to_toml_string vars' read' startup' store' = (c, seed, store')).
Proof.
  destruct (hydrate _ _ vars read startup store) as [[cfg raw] store'] eqn:Eh. cbv zeta.
  pose proof (hydrate_store parse_toml to_toml_string vars read startup store) as Hst. rewrite Eh in Hst. cbn [snd] in Hst.
  split_and!.
  - intros stored Hl Hn. revert Eh. unfold hydrate. rewrite Hl, Hn. by destruct (parse_toml stored); intros [= <- <- <-].
  - intros Hb. revert Eh. unfold hydrate. destruct (load_config store) as [[stored|]|e]; [|by intros [= <- <- <-]..].
    rewrite (Hb stored) by done. by intros [= <- <- <-].
  - revert Eh. unfold hydrate. destruct (load_config store) as [o|e]; [done|]. by intros [= _ _ <-].
  - intros Hne. destruct Hst as [?|Hs]; [done|]. split; [done|]. intros c vars' read' startup' Hn Hp.
    unfold hydrate. by rewrite Hs, Hn, Hp.
Qed.
End Restart.

(** ** A concrete start *)

Section Witnesses.
#[local] Existing Instances list_http ascii_tables bits_json_text list_lru demo_auth_lib demo_cel demo_types
  demo_wasm no_gql manager_clocks MemoryConfigStore list_matchit.
Definition boot_env : State.surroundings (W := manager_world) (SocketAddr := string) := demo_surroundings "10.0.0.2:80".
Definition no_toml (s : string) : result string SpectraConfig := Err "no text here is a configuration".
Definition no_print (c : SpectraConfig) : result string string := Ok "printed".
Definition demo_start : start (W := manager_world) (S := option string) :=
  Start (fun _ => None) (fun _ => None) (fun _ => Ok None) demo_process.

Abbreviation demo_boot := (build_composite_service boot_env no_toml no_print demo_start sample_config demo_mworld).
Lemma start_runs_one_state_witness :
  exists c h w', demo_boot = Some (Ok ((c, h), w')) /\ exists state, h !! cs_dynamic c = Some state /\ version state = 1%Z.
Proof.
  assert (Hs : match demo_boot with Some (Ok _) => true | _ => false end = true) by (vm_compute; reflexivity).
  destruct demo_boot as [[[[c h] w']|]|] eqn:E; [|discriminate Hs..]. exists c, h, w'. split; [reflexivity|].
  destruct (start_runs_one_state boot_env no_toml no_print demo_start sample_config demo_mworld c h w' E)
    as (? & ? & ? & ? & state & ? & ? & _ & _ & _ & Hst & Hv & _).
  exists state. split; [exact Hst|exact Hv].
Defined.

(** Started in production, the gateway runs [production-spectra.toml] but stores the text of
    [spectra.toml]; the next start runs that one. *)
Example restart_changes_configuration :
  let vars n := if String.eqb n "SPECTRA_ENV" then Some "production" else None in
  let read f := if String.eqb f "spectra.toml" then Some "good" else None in
  let production := sample_config in
  file_sources vars (fun f => String.eqb f "production-spectra.toml") = [SrcFile "production-spectra" true] /\
  let '(first, _, store) := hydrate (S := option string) demo_toml no_print vars read production None in
  let '(second, _, _) := hydrate (S := option string) demo_toml no_print vars read production store in
  first = production /\ second = demo_managed.
Proof. split; [reflexivity|]. vm_compute. by split. Qed.
End Witnesses.
