(* ===== verification/Settings.v ===== *)
(** * Settings: how a configuration is read from its sources and written as text,
    [src/core/config.rs].

    The [config] crate merges the defaults, a text or files, and the environment into a
    tree of tables; the records of [Config] are read from it field by field as their
    attributes say, with the conversions of the crate between texts, numbers and
    booleans, and are written for [toml]. A tree is a [json]; a hash map is the list of
    its entries in the order of their keys. *)

From S2P Require Import Prelude Externals Serde Types Config ConfigStore Boot.
Local Open Scope string_scope.
Import Derive.

(** ** Tables in the order of their keys *)

Lemma obj_insert_perm {V} k (v : V) l : k ∉ l.*1 -> obj_insert k v l ≡ₚ (k, v) :: l.
Proof.
  induction l as [|[k' v'] l IH]; [done|]. cbn. intros [Hk Hl]%not_elem_of_cons.
  destruct (String.compare k k') eqn:E; [|done|].
  - apply String.compare_eq_iff in E. congruence.
  - rewrite IH by done. apply perm_swap.
Qed.
Lemma obj_of_perm {V} (l : list (string * V)) : NoDup l.*1 -> obj_of l ≡ₚ l.
Proof.
  unfold obj_of. induction l as [|[k v] l IH] using rev_ind; [done|].
  rewrite fmap_app, NoDup_app. intros (Hl & Hd & _). rewrite fold_left_app. cbn.
  rewrite obj_insert_perm.
  - rewrite IH by done. by rewrite Permutation_app_comm.
  - rewrite IH by done. intros Hin. apply (Hd k Hin). by left.
Qed.
Lemma get_perm {V} (l l' : list (string * V)) k : l ≡ₚ l' -> NoDup l.*1 -> Assoc.get k l = Assoc.get k l'.
Proof.
  intros Hp Hnd. assert (Hnd' : NoDup l'.*1) by by rewrite <- Hp. destruct (Assoc.get k l) as [v|] eqn:E.
  - symmetry. apply Assoc.In_get; [done|]. rewrite <- Hp. by apply Assoc.get_In.
  - symmetry. apply Assoc.get_None. rewrite <- Hp. by apply Assoc.get_None.
Qed.
Lemma values_keys (l : list (string * json)) : (map (fun kv => (fst kv, json_value (snd kv))) l).*1 = l.*1.
Proof. induction l as [|[k v] l IH]; [done|]. cbn. by rewrite IH. Qed.
Lemma values_get k (l : list (string * json)) :
  Assoc.get k (map (fun kv => (fst kv, json_value (snd kv))) l) = json_value <$> Assoc.get k l.
Proof. induction l as [|[k' v] l IH]; [done|]. cbn. by destruct (String.eqb k k'). Qed.

(** A codec that reads what it wrote when the tables have been put in order. *)
Class Canonical {A} (c : codec A) := de_canon a : fits c a -> de c (json_value (ser c a)) = Some a.
Class CanonicalFields {A} (s : shape A) := get_canon a (look : string -> option json) : NoDup (names s) ->
  shape_fits s a -> (forall k, k ∈ names s -> look k = json_value <$> Assoc.get k (put s a)) -> get s false look = Some a.

#[export] Instance vec_canon {A} (c : codec A) : Canonical c -> Canonical (vec c).
Proof.
  intros Hc l Hl. cbn. induction Hl as [|a l Ha Hl IH]; [done|]. cbn in *. by rewrite de_canon, IH.
Qed.
#[export] Instance opt_canon {A} (c : codec A) Hs : Canonical c -> Canonical (opt c Hs).
Proof.
  intros Hc [a|]; [|done]. cbn. intros Ha. unfold de_opt. pose proof (Hs a) as Hn.
  pose proof (de_canon (c := c) a Ha) as Hd. destruct (ser c a) eqn:E; try done; cbn in *; by rewrite Hd.
Qed.
#[export] Instance iso_canon {A B} (c : codec A) (to : B -> A) back Hof Hto : Canonical c -> Canonical (iso c to back Hof Hto).
Proof. intros Hc b Hb. cbn in *. rewrite de_canon by done. cbn. by rewrite Hof. Qed.
#[export] Instance field_canon {A} name (c : codec A) absent short skip Ha Hd : Canonical c ->
  CanonicalFields (field name c absent short skip Ha Hd).
Proof.
  intros Hc a look _ Hf Hl. cbn. unfold get_field. rewrite (Hl name) by by left. cbn. unfold put_field.
  destruct (skip a) eqn:Es; cbn; [by apply Ha|]. rewrite String.eqb_refl. cbn. by apply de_canon.
Qed.
#[export] Instance both_canon {A B} (s : shape A) (t : shape B) : CanonicalFields s -> CanonicalFields t -> CanonicalFields (both s t).
Proof.
  intros Hs Ht [a b] look (Hns & Hdis & Hnt)%NoDup_app [Ha Hb] Hl. cbn in *. unfold get_pair.
  rewrite (Hs a look), (Ht b look); try done.
  - intros k Hk. rewrite Hl by (apply elem_of_app; by right). f_equal. apply assoc_app_r.
    intros Hin. apply (Hdis k); [|done]. by eapply elem_of_submseteq, sublist_submseteq, put_names.
  - intros k Hk. rewrite Hl by (apply elem_of_app; by left). f_equal. apply assoc_app_l.
    intros Hin. apply (Hdis k); [done|]. by eapply elem_of_submseteq, sublist_submseteq, put_names.
Qed.
Lemma known_once fields (l : list (string * json)) : NoDup l.*1 -> is_struct fields (JObject l) = true.
Proof.
  intros Hl. apply bool_decide_eq_true. apply NoDup_ListNoDup, List.NoDup_filter. by apply NoDup_ListNoDup.
Qed.
Lemma struct_canonical {A} (s : shape A) (l : list (string * json)) a : CanonicalFields s -> NoDup (names s) -> shape_fits s a ->
  l ≡ₚ map (fun kv => (fst kv, json_value (snd kv))) (put s a) -> de_struct s (JObject l) = Some a.
Proof.
  intros Hs Hnd Ha Hp. assert (Hl : NoDup l.*1).
  { rewrite Hp, values_keys. eapply sublist_NoDup; [done|apply put_names]. }
  unfold de_struct. rewrite known_once by done. apply Hs; [done..|]. intros k Hk. cbn.
  rewrite (get_perm _ _ _ Hp Hl). apply values_get.
Qed.

(** A struct whose fields have other names too: each is known under any of them, and is
    given under one. *)
Section Aliased.
Context {A : Type} (s : shape A) (aliases : list (string * string)).
Hypothesis Hnames : bool_decide (NoDup (names s)) = true.
Hypothesis Hother : forallb (fun k => match Assoc.get k aliases with Some _ => false | None => true end) (names s) = true.
Definition called (k : string) : string := default k (Assoc.get k aliases).
Definition with_names (j : json) : json :=
  match j with JObject l => JObject (map (fun kv => (called (fst kv), snd kv)) l) | _ => j end.
Lemma called_name k : k ∈ names s -> called k = k.
Proof using Hother.
  intros Hk. eapply forallb_forall in Hother; [|apply list_elem_of_In, Hk]. unfold called. by destruct (Assoc.get k aliases).
Qed.
Lemma with_known_names (l : list (string * json)) : (forall k, k ∈ l.*1 -> k ∈ names s) -> with_names (JObject l) = JObject l.
Proof using Hother.
  intros Hl. cbn. f_equal. induction l as [|[k v] l IH]; [done|]. cbn. rewrite called_name by (apply Hl; by left).
  rewrite IH; [done|]. intros k' Hk'. apply Hl. by right.
Qed.
Lemma put_known a k : k ∈ (put s a).*1 -> k ∈ names s.
Proof. intros Hk. by eapply elem_of_submseteq, sublist_submseteq, put_names. Qed.
Program Definition aliased : codec A :=
  Codec (fun a => JObject (put s a)) (fun j => de_struct s (with_names j)) (shape_fits s) _ _.
Next Obligation.
  intros a Ha. cbn beta. rewrite with_known_names by apply put_known. apply (de_ser (struct s Hnames) a Ha).
Qed.
Next Obligation.
  intros j a Hj. apply struct_fits. destruct j as [| | | | |l]; try done. cbn in *.
  induction l as [|[k v] l IH]; [done|]. cbn in *. apply andb_true_iff in Hj as [-> Hj]. by apply IH.
Qed.
#[export] Instance aliased_canon : CanonicalFields s -> Canonical aliased.
Proof using Hnames Hother.
  intros Hs a Ha. cbn. assert (Hnd : NoDup (put s a).*1).
  { eapply sublist_NoDup; [by eapply bool_decide_eq_true_1|apply put_names]. }
  assert (Hp := obj_of_perm (map (fun kv => (fst kv, json_value (snd kv))) (put s a))). rewrite values_keys in Hp. specialize (Hp Hnd).
  fold (with_names (JObject (obj_of (map (fun kv => (fst kv, json_value (snd kv))) (put s a))))).
  rewrite with_known_names.
  - apply struct_canonical; [done|by eapply bool_decide_eq_true_1|done..].
  - intros k Hk. apply put_known with a. rewrite <- values_keys, <- Hp. done.
Qed.
End Aliased.
(** A struct without other names. *)
Abbreviation plain s := (aliased s [] eq_refl eq_refl).

(** [HashMap<String, T>]. *)
Section Table.
Context {A : Type} (c : codec A).
Definition ser_table (l : list (string * A)) : json := JObject (map (fun kv => (fst kv, ser c (snd kv))) l).
Definition de_entry (kv : string * json) : option (string * A) := pair (fst kv) <$> de c (snd kv).
Definition de_table (j : json) : option (list (string * A)) :=
  match j with JObject l => obj_of <$> mapM de_entry l | _ => None end.
Definition table_fits (l : list (string * A)) : Prop := keys_sorted l = true /\ Forall (fun kv => fits c (snd kv)) l.
Lemma de_entry_some k v a : de c v = Some a -> de_entry (k, v) = Some (k, a).
Proof. unfold de_entry. cbn. by intros ->. Qed.
Lemma de_entries (l : list (string * A)) : Forall (fun kv => fits c (snd kv)) l ->
  mapM de_entry (map (fun kv => (fst kv, ser c (snd kv))) l) = Some l.
Proof.
  induction 1 as [|[k a] l Ha Hl IH]; [done|]. cbn [map mapM fst snd] in *.
  by rewrite (de_entry_some k _ a), IH by by apply de_ser.
Qed.
Lemma entries_fit (l : list (string * json)) l' : forallb (fun kv => json_typed (snd kv)) l = true -> mapM de_entry l = Some l' ->
  Forall (fun kv => fits c (snd kv)) l'.
Proof.
  revert l'. induction l as [|[k v] l IH]; intros l'; [by intros _ [= <-]|]. cbn. intros [Hv Hl]%andb_true_iff.
  destruct (de_entry (k, v)) as [kv|] eqn:Ee; [|done]. cbn. destruct (mapM de_entry l) as [l1|]; [|done].
  unfold de_entry in Ee. cbn in Ee. destruct (de c v) as [a|] eqn:Ea; [|done]. injection Ee as <-.
  intros [= <-]. constructor; [by eapply de_fits|by apply IH].
Qed.
Program Definition table : codec (list (string * A)) := Codec ser_table de_table table_fits _ _.
Next Obligation. intros l [Hs Hl]. cbn. rewrite de_entries by done. cbn. by rewrite obj_of_sorted. Qed.
Next Obligation.
  intros j l Hj. destruct j as [| | | | |m]; try done. cbn in *. destruct (mapM de_entry m) as [l1|] eqn:E; [|done]. intros [= <-].
  destruct (obj_of_wf l1) as [Hs Hin]. split; [done|]. apply Forall_forall. intros kv Hkv%Hin.
  pose proof (entries_fit _ _ Hj E) as Hf. rewrite Forall_forall in Hf. by apply Hf.
Qed.
#[export] Instance table_canon : Canonical c -> Canonical table.
Proof.
  intros Hc l [Hs Hl]. cbn. rewrite map_map. cbn. rewrite obj_of_sorted.
  - assert (He : mapM de_entry (map (fun kv => (fst kv, json_value (ser c (snd kv)))) l) = Some l); [|by rewrite He; cbn; rewrite obj_of_sorted].
    clear Hs. induction Hl as [|[k a] l Ha Hl IH]; [done|]. cbn [map mapM fst snd] in *.
    by rewrite (de_entry_some k _ a), IH by by apply de_canon.
  - revert Hs. clear. induction l as [|[k a] [|[k' a'] l] IH]; try done. cbn in *. destruct (String.compare k k'); try done.
Qed.
Lemma table_solid l : ser table l <> JNull.
Proof. done. Qed.
End Table.

(** ** The values of a tree *)

(** What the [config] crate makes of a value where a type is asked for. A value of the
    type is taken as it is; others are converted, a text of digits to a number for
    instance, as the environment's values are all texts. A number is in the range it
    is asked in, and a variant one of those asked for. *)
Class ConfigValues := {
  read_bool : json -> option bool;
  read_text : json -> option string;
  read_uint : Z -> json -> option Z;
  read_variant : list string -> json -> option string;
  read_bool_bool b : read_bool (JBool b) = Some b;
  read_text_text s : read_text (JString s) = Some s;
  read_uint_uint bound n : (0 <= n <= bound)%Z -> read_uint bound (JNumber (PosInt n)) = Some n;
  read_uint_range bound j n : read_uint bound j = Some n -> (0 <= n <= bound)%Z;
  read_variant_text l s : s ∈ l -> read_variant l (JString s) = Some s
}.
Section Values.
Context `{ConfigValues}.
Program Definition a_flag : codec bool := Codec JBool read_bool (fun _ => True) _ _.
Next Obligation. intros b _. apply read_bool_bool. Qed.
Next Obligation. done. Qed.
Program Definition a_text : codec string := Codec JString read_text (fun _ => True) _ _.
Next Obligation. intros s _. apply read_text_text. Qed.
Next Obligation. done. Qed.
Program Definition a_number (bound : Z) : codec Z :=
  Codec (fun n => JNumber (PosInt n)) (read_uint bound) (fun n => (0 <= n <= bound)%Z) _ _.
Next Obligation. intros bound n. apply read_uint_uint. Qed.
Next Obligation. intros bound j n _. apply read_uint_range. Qed.
(** An enumeration by the names of its variants, other names included. *)
Section Variants.
Context {A : Type} (all : list string) (of_name : string -> option A) (name : A -> string).
Hypothesis Hname : forall a, existsb (String.eqb (name a)) all = true /\ of_name (name a) = Some a.
Program Definition a_variant : codec A :=
  Codec (fun a => JString (name a)) (fun j => read_variant all j ≫= of_name) (fun _ => True) _ _.
Next Obligation.
  intros a _. destruct (Hname a) as [Hin Ha]. cbn beta. rewrite read_variant_text; [exact Ha|].
  apply existsb_exists in Hin as (s & Hs & ->%String.eqb_eq). by apply list_elem_of_In.
Qed.
Next Obligation. done. Qed.
End Variants.
#[export] Instance flag_canon : Canonical a_flag.
Proof. intros b. apply (de_ser a_flag). Qed.
#[export] Instance text_canon : Canonical a_text.
Proof. intros s. apply (de_ser a_text). Qed.
#[export] Instance number_canon bound : Canonical (a_number bound).
Proof. intros n. apply (de_ser (a_number bound)). Qed.
#[export] Instance variant_canon {A} all of_name name Hn : Canonical (a_variant (A := A) all of_name name Hn).
Proof. intros a. apply (de_ser (a_variant all of_name name Hn)). Qed.

(** ** Fields *)

(** Fields by their types: an [Option] is left out of a text when it is [None]. *)
Definition flag_or (name : string) (d : bool) : shape bool := dflt name a_flag d I.
Definition text_or (name : string) (d : string) : shape string := dflt name a_text d I.
Definition number_or (name : string) (d : Z) (Hd : ((0 <=? d) && (d <=? Int.u64_max))%Z = true) : shape Z :=
  dflt name (a_number Int.u64_max) d ltac:(cbn; apply andb_true_iff in Hd; lia).
Definition opt_text (name : string) : shape (option string) := maybe_skipped name a_text ltac:(done).
Definition opt_number (name : string) (bound : Z) : shape (option Z) := maybe_skipped name (a_number bound) ltac:(done).
Definition opt_default {A} (name : string) (c : codec A) (Hs : forall a, ser c a <> JNull) : shape (option A) :=
  field name (opt c Hs) (Some None) (Some None) is_none ltac:(by intros [a|]) ltac:(by intros a [[= <-]|[= <-]]).
(** [skip_serializing_if] of an empty list or map. *)
Definition is_empty {A} (l : list A) : bool := match l with [] => true | _ => false end.
Definition list_or_empty {A} (name : string) (c : codec (list A)) (Hn : fits c []) : shape (list A) :=
  field name c (Some []) (Some []) is_empty ltac:(by intros [|]) ltac:(by intros a [[= <-]|[= <-]]).
#[export] Instance req_canon {A} name (c : codec A) : Canonical c -> CanonicalFields (req name c).
Proof. apply field_canon. Qed.
#[export] Instance dflt_canon {A} name (c : codec A) d Hd : Canonical c -> CanonicalFields (dflt name c d Hd).
Proof. apply field_canon. Qed.
#[export] Instance maybe_skipped_canon {A} name (c : codec A) Hs : Canonical c -> CanonicalFields (maybe_skipped name c Hs).
Proof. intros Hc. by apply field_canon, opt_canon. Qed.
#[export] Instance flag_or_canon name d : CanonicalFields (flag_or name d).
Proof. apply dflt_canon, _. Qed.
#[export] Instance text_or_canon name d : CanonicalFields (text_or name d).
Proof. apply dflt_canon, _. Qed.
#[export] Instance number_or_canon name d Hd : CanonicalFields (number_or name d Hd).
Proof. apply dflt_canon, _. Qed.
#[export] Instance opt_text_canon name : CanonicalFields (opt_text name).
Proof. apply maybe_skipped_canon, _. Qed.
#[export] Instance opt_number_canon name bound : CanonicalFields (opt_number name bound).
Proof. apply maybe_skipped_canon, _. Qed.
#[export] Instance opt_default_canon {A} name (c : codec A) Hs : Canonical c -> CanonicalFields (opt_default name c Hs).
Proof. intros Hc. by apply field_canon, opt_canon. Qed.
#[export] Instance list_or_empty_canon {A} name (c : codec (list A)) Hn : Canonical c -> CanonicalFields (list_or_empty name c Hn).
Proof. apply field_canon. Qed.

(** ** The records *)

Local Open Scope serde_scope.
Definition strategy_codec : codec ExecutionStrategy :=
  a_variant (sync_names ++ async_names) strategy_of_str strategy_to_str ltac:(by intros []).
Definition policy_names : list string := map policy_as_str [ResponseWithFailure; ResponseOnly; RawAudit; NoDispatch].
Definition policy_codec : codec ModeADispatchPolicy := a_variant policy_names policy_of_str policy_as_str ltac:(by intros []).
(** The [snake_case] names of an enumeration. *)
Definition named {A} (l : list (string * A)) (s : string) : option A := Assoc.get s l.
(** @core/config.rs:70-75 InterceptorStage::deserialize *)
Definition stage_names : list (string * InterceptorStage) := [("request", StRequest); ("response", StResponse)].
Definition stage_to_str (x : InterceptorStage) : string := match x with StRequest => "request" | StResponse => "response" end.
Definition stage_codec : codec InterceptorStage := a_variant stage_names.*1 (named stage_names) stage_to_str ltac:(by intros []).
(** @core/config.rs:77-85 InterceptorType::deserialize *)
Definition type_names : list (string * InterceptorType) :=
  [("cel", TCel); ("wasm", TWasm); ("native", TNative); ("rbac", TRbac); ("auth", TAuth)].
Definition type_to_str (x : InterceptorType) : string :=
  match x with TCel => "cel" | TWasm => "wasm" | TNative => "native" | TRbac => "rbac" | TAuth => "auth" end.
Definition type_codec : codec InterceptorType := a_variant type_names.*1 (named type_names) type_to_str ltac:(by intros []).
(** @interceptors/evaluators/wasm.rs:17-25 FailMode::deserialize *)
Definition fail_mode_names : list (string * FailMode) := [("fail_closed", FailClosed); ("fail_open", FailOpen)].
Definition fail_mode_to_str (x : FailMode) : string := match x with FailClosed => "fail_closed" | FailOpen => "fail_open" end.
Definition fail_mode_codec : codec FailMode :=
  a_variant fail_mode_names.*1 (named fail_mode_names) fail_mode_to_str ltac:(by intros []).
(** @core/config.rs:165-171 IdempotencyBackendType::deserialize *)
Definition backend_names : list (string * IdempotencyBackendType) := [("memory", BackendMemory); ("redis", BackendRedis)].
Definition backend_to_str (x : IdempotencyBackendType) : string := match x with BackendMemory => "memory" | BackendRedis => "redis" end.
Definition backend_codec : codec IdempotencyBackendType :=
  a_variant backend_names.*1 (named backend_names) backend_to_str ltac:(by intros []).

(** @core/config.rs:26-34 SpectraModeAConfig::deserialize *)
Definition mode_a_codec : codec SpectraModeAConfig :=
  iso (plain (flag_or "enabled" default_true *** dflt "dispatch_policy" policy_codec ResponseWithFailure I ***
      number_or "timeout_ms" default_timeout_ms' eq_refl))
    (fun m => (ma_enabled m, (ma_dispatch_policy m, ma_timeout_ms m)))
    (fun t => let '(a, (b, c)) := t in ModeA a b c) ltac:(by intros []) ltac:(tupled).
(** @core/config.rs:48-62 SpectraRouteConfig::deserialize *)
Definition route_codec : codec SpectraRouteConfig :=
  iso (aliased (req "operation" a_text *** dflt "mode" strategy_codec SyncUpstreamExecution I *** flag_or "enabled" default_true ***
      opt_text "upstream" *** text_or "receipt_status" default_receipt_status *** dflt "interceptors" (vec a_text) [] (Forall_nil_2 _) ***
      opt_default "dispatch_policy" policy_codec ltac:(abstract done))
      [("strategy", "mode"); ("execution", "mode"); ("execution_strategy", "mode")] eq_refl eq_refl)
    (fun r => (operation r, (mode r, (rt_enabled r, (rt_upstream r, (receipt_status r, (rt_interceptors r, rt_dispatch_policy r)))))))
    (fun t => let '(a, (b, (c, (d, (e, (f, g)))))) := t in Route a b c d e f g) ltac:(by intros []) ltac:(tupled).
(** @core/config.rs:87-124 InterceptorConfig::deserialize *)
Definition interceptor_codec : codec InterceptorConfig :=
  iso (aliased (req "type" type_codec *** req "stage" stage_codec *** opt_text "expression" ***
      opt_number "status_code" 65535 *** opt_text "code" *** opt_text "message" *** opt_text "action" *** opt_text "tag" ***
      opt_text "path" *** opt_number "timeout_ms" Int.u64_max *** maybe_skipped "fail_mode" fail_mode_codec ltac:(abstract done) ***
      opt_number "failure_threshold" Int.u32_max *** opt_number "cooloff_duration_secs" Int.u64_max *** opt_text "kind" ***
      opt_text "token" *** opt_text "provider" *** opt_text "jwks_url" *** opt_text "secret" *** opt_text "mutations_default" ***
      opt_text "queries_default" *** maybe_skipped "unauthenticated_ops" (vec a_text) ltac:(abstract done) ***
      maybe_skipped "roles" (table (vec a_text)) ltac:(abstract done) *** opt_text "subject_path" *** opt_text "tenant_path" ***
      opt_text "roles_path" *** opt_text "permissions_path")
      [("expr", "expression"); ("module", "path"); ("circuit_breaker_failures", "failure_threshold");
       ("circuit_breaker_reset_ms", "cooloff_duration_secs")] eq_refl eq_refl)
    (fun i => (interceptor_type i, (stage i, (expression i, (status_code i, (code i, (ic_message i, (action i, (tag i, (path i,
      (timeout_ms i, (fail_mode i, (failure_threshold i, (cooloff_duration_secs i, (kind i, (token i, (provider i, (jwks_url i,
      (secret i, (mutations_default i, (queries_default i, (unauthenticated_ops i, (roles i, (subject_path i, (tenant_path i,
      (roles_path i, permissions_path i))))))))))))))))))))))))))
    (fun t => let '(a, (b, (c, (d, (e, (f, (g, (h, (i, (j, (k, (l, (m, (n, (o, (p, (q, (r, (s, (u, (v, (w, (x, (y, (z, aa)))))))))))))))))))))))))
        := t in Interceptor a b c d e f g h i j k l m n o p q r s u v w x y z aa) ltac:(by intros []) ltac:(tupled).
(** @core/config.rs:134-144 SpectraWasmConfig::deserialize *)
Definition wasm_codec : codec SpectraWasmConfig :=
  iso (plain (flag_or "strict_aot" default_true *** flag_or "allow_jit" false ***
      number_or "epoch_tick_interval_ms" default_epoch_tick_interval_ms eq_refl ***
      number_or "default_timeout_ms" default_wasm_timeout_ms eq_refl))
    (fun m => (strict_aot m, (allow_jit m, (epoch_tick_interval_ms m, default_timeout_ms m))))
    (fun t => let '(a, (b, (c, d))) := t in WasmCfg a b c d) ltac:(by intros []) ltac:(tupled).
(** @core/config.rs:157-163 SpectraUpstreamConfig::deserialize *)
Definition upstream_codec : codec SpectraUpstreamConfig :=
  iso (plain (text_or "name" default_upstream_name *** opt_text "description" *** req "addr" a_text))
    (fun u => (up_name u, (up_description u, up_addr u)))
    (fun t => let '(a, (b, c)) := t in Upstream a b c) ltac:(by intros []) ltac:(tupled).
(** @core/config.rs:193-203 SpectraSubscriptionsConfig::deserialize *)
Definition subscriptions_codec : codec SpectraSubscriptionsConfig :=
  iso (plain (flag_or "enabled" default_true *** text_or "topic_prefix" default_sub_prefix ***
      number_or "keepalive_secs" default_keepalive_secs eq_refl ***
      number_or "client_buffer_capacity" default_client_buffer_capacity eq_refl))
    (fun m => (sub_enabled m, (topic_prefix m, (keepalive_secs m, client_buffer_capacity m))))
    (fun t => let '(a, (b, (c, d))) := t in SubsCfg a b c d) ltac:(by intros []) ltac:(tupled).
(** @core/config.rs:216-225 SpectraIdempotencyConfig::deserialize *)
Definition idempotency_codec : codec SpectraIdempotencyConfig :=
  iso (plain (dflt "backend" backend_codec BackendMemory I *** opt_text "addr" ***
      number_or "ttl_secs" default_idempotency_ttl_secs eq_refl *** number_or "max_capacity" default_max_capacity eq_refl))
    (fun m => (backend m, (id_addr m, (ttl_secs m, id_max_capacity m))))
    (fun t => let '(a, (b, (c, d))) := t in IdemCfg a b c d) ltac:(by intros []) ltac:(tupled).
(** @core/config.rs:242-248 ErrorCaptureConfig::deserialize *)
Definition error_capture_codec : codec ErrorCaptureConfig :=
  iso (plain (flag_or "enabled" default_true *** number_or "max_body_bytes" default_error_max_body_bytes eq_refl))
    (fun m => (ec_enabled m, max_body_bytes m))
    (fun t => let '(a, b) := t in ErrCfg a b) ltac:(by intros []) ltac:(tupled).
(** The only section of [SpectraTelemetryConfig]. @core/config.rs:259-263 SpectraTelemetryConfig::deserialize *)
Definition telemetry_codec : codec ErrorCaptureConfig :=
  plain (dflt "error_capture" error_capture_codec error_capture_default ltac:(abstract (by repeat split))).
(** @core/config.rs:269-275 SpectraDnsConfig::deserialize *)
Definition dns_codec : codec SpectraDnsConfig :=
  iso (plain (flag_or "enabled" default_true *** number_or "interval_secs" default_dns_interval_secs eq_refl))
    (fun m => (dns_enabled m, interval_secs m))
    (fun t => let '(a, b) := t in DnsCfg a b) ltac:(by intros []) ltac:(tupled).
(** @core/config.rs:286-298 SpectraDispatchConfig::deserialize *)
Definition dispatch_codec : codec SpectraDispatchConfig :=
  iso (plain (req "name" a_text *** opt_text "description" *** req "method" a_text *** req "addr" a_text ***
      opt_default "reconnect_profile" a_text ltac:(abstract done) *** opt_default "reconnect_initial_ms" (a_number Int.u64_max) ltac:(abstract done) ***
      opt_default "reconnect_max_ms" (a_number Int.u64_max) ltac:(abstract done)))
    (fun d => (d_name d, (d_description d, (d_method d, (d_addr d, (reconnect_profile d, (reconnect_initial_ms d, reconnect_max_ms d)))))))
    (fun t => let '(a, (b, (c, (d, (e, (f, g)))))) := t in DispatchCfg a b c d e f g) ltac:(by intros []) ltac:(tupled).
(** @core/config.rs:349-361 SpectraGqlConfig::deserialize *)
Definition gql_codec : codec SpectraGqlConfig :=
  iso (aliased (req "paths" a_text *** req "ops_to_dispatch" a_text *** maybe_skipped "upstream" upstream_codec ltac:(abstract done) ***
      maybe_skipped "dispatch" dispatch_codec ltac:(abstract done) *** dflt "mode_a" mode_a_codec mode_a_default ltac:(abstract (by repeat split)) ***
      dflt "routes" (table route_codec) [] ltac:(abstract (by split)) *** dflt "interceptors" (vec a_text) [] (Forall_nil_2 _))
      [("sync", "mode_a"); ("synchronous", "mode_a"); ("sync_execution", "mode_a")] eq_refl eq_refl)
    (fun g => (g_paths g, (ops_to_dispatch g, (g_upstream g, (g_dispatch g, (mode_a g, (routes g, g_interceptors g)))))))
    (fun t => let '(a, (b, (c, (d, (e, (f, g)))))) := t in GqlCfg a b c d e f g) ltac:(by intros []) ltac:(tupled).
(** @core/config.rs:363-369 SpectraRestConfig::deserialize *)
Definition rest_codec : codec SpectraRestConfig :=
  iso (plain (req "paths" a_text *** maybe_skipped "upstream" upstream_codec ltac:(abstract done) ***
      maybe_skipped "dispatch" dispatch_codec ltac:(abstract done)))
    (fun r => (r_paths r, (r_upstream r, r_dispatch r)))
    (fun t => let '(a, (b, c)) := t in RestCfg a b c) ltac:(by intros []) ltac:(tupled).
(** @core/config.rs:393-407 SpectraAdminConfig::deserialize *)
Definition admin_codec : codec SpectraAdminConfig :=
  iso (plain (flag_or "enabled" default_admin_enabled *** text_or "bind_addr" default_admin_bind_addr ***
      text_or "path_prefix" default_admin_path_prefix *** dflt "allowed_ips" (vec a_text) default_allowed_ips ltac:(abstract (by repeat constructor)) ***
      flag_or "enable_ui" default_true *** opt_default "deploy_token" a_text ltac:(abstract done)))
    (fun a => (a_enabled a, (a_bind_addr a, (path_prefix a, (allowed_ips a, (enable_ui a, deploy_token a))))))
    (fun t => let '(a, (b, (c, (d, (e, f))))) := t in AdminCfg a b c d e f) ltac:(by intros []) ltac:(tupled).
(** @core/config.rs:422-435 SpectraAppConfig::deserialize *)
Definition app_codec : codec SpectraAppConfig :=
  iso (plain (req "id" a_text *** text_or "name" "" *** dflt "domains" (vec a_text) [] (Forall_nil_2 _) ***
      dflt "path_prefixes" (vec a_text) [] (Forall_nil_2 _) *** text_or "upstream" "" *** opt_default "subject_prefix" a_text ltac:(abstract done)))
    (fun a => (app_id a, (app_name a, (domains a, (path_prefixes a, (app_upstream a, subject_prefix a))))))
    (fun t => let '(a, (b, (c, (d, (e, f))))) := t in App a b c d e f) ltac:(by intros []) ltac:(tupled).
(** @core/config.rs:457-468 SpectraConfigStoreConfig::deserialize *)
Definition store_codec : codec SpectraConfigStoreConfig :=
  iso (plain (text_or "backend" default_store_backend *** opt_text "database_url" *** opt_text "redis_url" ***
      opt_text "file_path" *** text_or "table_name" default_table_name *** text_or "key" default_config_key))
    (fun s => (st_backend s, (database_url s, (redis_url s, (file_path s, (table_name s, st_key s))))))
    (fun t => let '(a, (b, (c, (d, (e, f))))) := t in StoreCfg a b c d e f) ltac:(by intros []) ltac:(tupled).
(** @core/config.rs:483-512 SpectraConfig::deserialize *)
Definition spectra_codec : codec SpectraConfig :=
  iso (plain (req "bind_addr" a_text *** req "gql" gql_codec *** req "rest" rest_codec *** req "upstream" upstream_codec ***
      list_or_empty "upstreams" (table upstream_codec) ltac:(abstract (by split)) *** list_or_empty "apps" (vec app_codec) (Forall_nil_2 _) ***
      opt_default "default_app" a_text ltac:(abstract done) *** req "dispatch" dispatch_codec ***
      dflt "idempotency" idempotency_codec idempotency_default ltac:(abstract (by repeat split)) ***
      dflt "subscriptions" subscriptions_codec subscriptions_default ltac:(abstract (by repeat split)) ***
      dflt "admin" admin_codec admin_default ltac:(abstract (by repeat split; repeat constructor)) ***
      list_or_empty "interceptors" (table interceptor_codec) ltac:(abstract (by split)) ***
      dflt "wasm" wasm_codec wasm_default ltac:(abstract (by repeat split)) ***
      dflt "telemetry" telemetry_codec error_capture_default ltac:(abstract (by repeat split)) ***
      dflt "config_store" store_codec store_default ltac:(abstract (by repeat split)) ***
      dflt "dns" dns_codec dns_default ltac:(abstract (by repeat split))))
    (fun c => (bind_addr c, (gql c, (rest c, (upstream c, (upstreams c, (apps c, (default_app c, (dispatch c, (idempotency c,
      (subscriptions c, (admin c, (interceptors c, (wasm c, (error_capture c, (config_store c, dns c))))))))))))))))
    (fun t => let '(a, (b, (c, (d, (e, (f, (g, (h, (i, (j, (k, (l, (m, (n, (o, p))))))))))))))) := t in
      Spectra a b c d e f g h i j k l m n o p) ltac:(by intros []) ltac:(tupled).

#[local] Typeclasses Opaque opt_default maybe_skipped dflt req list_or_empty flag_or text_or number_or opt_text opt_number.
#[local] Ltac canonical := apply iso_canon, aliased_canon; apply _.
#[export] Instance strategy_canon : Canonical strategy_codec.
Proof. apply variant_canon. Qed.
#[export] Instance policy_canon : Canonical policy_codec.
Proof. apply variant_canon. Qed.
#[export] Instance stage_canon : Canonical stage_codec.
Proof. apply variant_canon. Qed.
#[export] Instance type_canon : Canonical type_codec.
Proof. apply variant_canon. Qed.
#[export] Instance fail_mode_canon : Canonical fail_mode_codec.
Proof. apply variant_canon. Qed.
#[export] Instance backend_canon : Canonical backend_codec.
Proof. apply variant_canon. Qed.
#[export] Instance mode_a_canon : Canonical mode_a_codec.
Proof. canonical. Qed.
#[export] Instance route_canon : Canonical route_codec.
Proof. canonical. Qed.
#[export] Instance interceptor_canon : Canonical interceptor_codec.
Proof. canonical. Qed.
#[export] Instance wasm_canon : Canonical wasm_codec.
Proof. canonical. Qed.
#[export] Instance upstream_canon : Canonical upstream_codec.
Proof. canonical. Qed.
#[export] Instance subscriptions_canon : Canonical subscriptions_codec.
Proof. canonical. Qed.
#[export] Instance idempotency_canon : Canonical idempotency_codec.
Proof. canonical. Qed.
#[export] Instance error_capture_canon : Canonical error_capture_codec.
Proof. canonical. Qed.
#[export] Instance telemetry_canon : Canonical telemetry_codec.
Proof. apply aliased_canon; apply _. Qed.
#[export] Instance dns_canon : Canonical dns_codec.
Proof. canonical. Qed.
#[export] Instance dispatch_canon : Canonical dispatch_codec.
Proof. canonical. Qed.
#[export] Instance gql_canon : Canonical gql_codec.
Proof. canonical. Qed.
#[export] Instance rest_canon : Canonical rest_codec.
Proof. canonical. Qed.
#[export] Instance admin_canon : Canonical admin_codec.
Proof. canonical. Qed.
#[export] Instance app_canon : Canonical app_codec.
Proof. canonical. Qed.
#[export] Instance store_canon : Canonical store_codec.
Proof. canonical. Qed.
#[export] Instance spectra_canon : Canonical spectra_codec.
Proof. canonical. Qed.

(** ** Texts *)

(** What is reached in a tree by a path of names with dots. *)
Fixpoint at_path (path : list string) (j : json) : option json :=
  match path with
  | [] => Some j
  | k :: path => j_get k j ≫= at_path path
  end.
Definition gives (j : json) (path : string) : bool :=
  match at_path (split_on "." path) j with Some _ => true | None => false end.
(** The crates' part: merging the defaults, the sources (the variables of the environment
    among them) and an override for the bind address; printing a tree; the text of an
    error. A merged tree has its integers in range. *)
Class ConfigLib := {
  build : (string -> option string) -> list (string * default_value) -> list source -> option string -> result string json;
  toml_print : json -> result string string;
  misfit : json -> string;
  build_typed vars base l bind j : build vars base l bind = Ok j -> json_typed j = true
}.
Context `{ConfigLib}.
Context (vars : string -> option string).
Definition try_deserialize (built : result string json) : result string SpectraConfig :=
  match built with
  | Ok j => match de spectra_codec j with Some c => Ok c | None => Err (misfit j) end
  | Err e => Err e
  end.
(** @core/config.rs:{fn from_toml_str} SpectraConfig::from_toml_str *)
Definition from_toml_str (content : string) : result string SpectraConfig :=
  let '(sources, bind) := toml_sources vars content in try_deserialize (build vars base_builder sources bind).
(** @core/config.rs:{fn new} SpectraConfig::new *)
Definition new (exists_file : string -> bool) : result string SpectraConfig :=
  let '(sources, bind) := config_sources vars exists_file in try_deserialize (build vars base_builder sources bind).
(** @core/config.rs:{fn to_toml_string} SpectraConfig::to_toml_string *)
Definition to_toml_string (c : SpectraConfig) : result string string := toml_print (ser spectra_codec c).

(** Every default has its place in a configuration that ics written out. *)
Lemma written_in_full c : forallb (fun d => gives (ser spectra_codec c) (fst d)) base_builder = true.
Proof.
  destruct c as [addr [? ? ? ? ? ? ?] [? ? ?] [? ud ?] us apps da [? dd ? ? ? ? ?] [? ia ? ?] ? ? ics ? ? [? s1 s2 s3 ? ?] ?].
  cbn [base_builder forallb fst]. repeat (apply andb_true_iff; split); try reflexivity.
  all: first [by destruct ud|by destruct us, apps, da|by destruct us, apps, da, dd|by destruct us, apps, da, ia|
    by destruct us, apps, da, ics|by destruct us, apps, da, ics, s1, s2, s3].
Qed.

(** ** Properties *)

(** The numbers of a configuration are in the ranges of their types. *)
Definition up_to (bound : Z) (n : Z) : Prop := (0 <= n <= bound)%Z.
Definition some_up_to (bound : Z) (o : option Z) : Prop := match o with Some n => up_to bound n | None => True end.
Definition interceptor_numbers (i : InterceptorConfig) : Prop :=
  some_up_to 65535 (status_code i) /\ some_up_to Int.u64_max (timeout_ms i) /\
  some_up_to Int.u32_max (failure_threshold i) /\ some_up_to Int.u64_max (cooloff_duration_secs i).
Definition numbers_fit (c : SpectraConfig) : Prop :=
  Forall (up_to Int.u64_max)
    [ma_timeout_ms (mode_a (gql c)); ttl_secs (idempotency c); id_max_capacity (idempotency c);
     keepalive_secs (subscriptions c); client_buffer_capacity (subscriptions c); epoch_tick_interval_ms (wasm c);
     default_timeout_ms (wasm c); max_body_bytes (error_capture c); interval_secs (dns c)] /\
  some_up_to Int.u64_max (reconnect_initial_ms (dispatch c)) /\ some_up_to Int.u64_max (reconnect_max_ms (dispatch c)) /\
  Forall (fun kv => interceptor_numbers (snd kv)) (interceptors c).
Lemma interceptor_fits i : fits interceptor_codec i -> interceptor_numbers i.
Proof. intros (_ & _ & _ & Hs & _ & _ & _ & _ & _ & Ht & _ & Hf & Hc & _). by split_and!. Qed.
Lemma fits_numbers c : fits spectra_codec c -> numbers_fit c.
Proof.
  intros (_ & Hg & _ & _ & _ & _ & _ & Hd & Hi & Hs & _ & Hics & Hw & Ht & _ & Hdns).
  destruct Hg as (_ & _ & _ & _ & Hm & _). destruct Hm as (_ & _ & Hm). destruct Hi as (_ & _ & Hi1 & Hi2).
  destruct Hs as (_ & _ & Hs1 & Hs2). destruct Hw as (_ & _ & Hw1 & Hw2). destruct Ht as (_ & Ht). destruct Hdns as (_ & Hdns).
  destruct Hd as (_ & _ & _ & _ & _ & Hd1 & Hd2). destruct Hics as [_ Hics]. split; [|split; [exact Hd1|split; [exact Hd2|]]].
  - repeat (apply Forall_cons_2; [assumption|]). apply Forall_nil_2.
  - eapply Forall_impl; [exact Hics|]. intros [k i]. apply interceptor_fits.
Qed.
Lemma try_fits built c : (forall j, built = Ok j -> json_typed j = true) -> try_deserialize built = Ok c -> fits spectra_codec c.
Proof.
  unfold try_deserialize. destruct built as [j|e]; [|done]. intros Hj. destruct (de spectra_codec j) as [c'|] eqn:E; [|done].
  intros [= <-]. by eapply de_fits; [apply Hj|].
Qed.
Lemma read_fits content c : from_toml_str content = Ok c -> fits spectra_codec c.
Proof.
  unfold from_toml_str. destruct (toml_sources vars content) as [l bind]. apply try_fits. intros j. apply build_typed.
Qed.
Lemma new_fits exists_file c : new exists_file = Ok c -> fits spectra_codec c.
Proof.
  unfold new. destruct (config_sources vars exists_file) as [l bind]. apply try_fits. intros j. apply build_typed.
Qed.

(** A configuration that is read has every number in the range of its type and its
    tables in order, whether it comes from a text or from the files and the environment. *)
Theorem settings_typed c :
  (exists content, from_toml_str content = Ok c) \/ (exists exists_file, new exists_file = Ok c) ->
  numbers_fit c /\ keys_sorted (routes (gql c)) = true /\ keys_sorted (upstreams c) = true /\ keys_sorted (interceptors c) = true.
Proof.
  intros Hr. assert (Hf : fits spectra_codec c) by (destruct Hr as [[content Hr]|[ex Hr]]; [by eapply read_fits|by eapply new_fits]).
  split; [by apply fits_numbers|]. destruct Hf as (_ & Hg & _ & _ & Hu & _ & _ & _ & _ & _ & _ & Hi & _).
  destruct Hg as (_ & _ & _ & _ & _ & Hr' & _). destruct Hr' as [Hr' _]. destruct Hu as [Hu _]. destruct Hi as [Hi _]. done.
Qed.

(** No variable of the two prefixes is set, whatever the case it is spelt in. *)
Definition unset (vs : string -> option string) : Prop :=
  forall name, starts_with "spectra_" (to_ascii_lowercase name) = true \/
               starts_with "spectragql_" (to_ascii_lowercase name) = true -> vs name = None.
(** What the crates do with a text printed of a tree that gives every default a value, when
    no variable of the prefixes is set: the merged tree is the one that was printed. *)
Definition text_wins : Prop := forall vs t text, unset vs ->
  forallb (fun d => gives t (fst d)) base_builder = true -> toml_print t = Ok text ->
  build vs base_builder (fst (toml_sources vs text)) None = Ok (json_value t).
Lemma unset_or vs a b : unset vs -> starts_with "spectra_" (to_ascii_lowercase a) = true ->
  starts_with "spectragql_" (to_ascii_lowercase b) = true -> env_or vs a b = None.
Proof. intros Hu Ha Hb. unfold env_or. rewrite (Hu a), (Hu b); auto. Qed.
End Values.

Section Texts.
Context `{ConfigValues, ConfigLib}.
Lemma written_read vs c text : text_wins -> unset vs -> fits spectra_codec c -> to_toml_string c = Ok text ->
  from_toml_str vs text = Ok c.
Proof.
  intros Hw Hu Hc Ht. pose proof (Hw vs _ _ Hu (written_in_full c) Ht) as Hb. unfold from_toml_str, toml_sources in *.
  rewrite (unset_or vs) by done. cbn [fst] in Hb. rewrite Hb.
  unfold try_deserialize. by rewrite (de_canon (c := spectra_codec) c Hc).
Qed.

(** C20. A configuration that was read, from a text or from the files and the environment,
    and is written out, is read back as it was by a gateway for which no SPECTRA_ or
    SPECTRAGQL_ variable is set (each of these overrides the text: [SPECTRA_ADMIN_TOKEN],
    [SPECTRA_BIND_ADDR] and all others). This is under what the config and toml crates
    are taken to do ([text_wins]): a text printed of a tree that gives every default a
    value is merged, without such variables, into that tree. *)
Theorem toml_roundtrip vs vs' exists_file c text : text_wins -> unset vs' ->
  (exists content, from_toml_str vs content = Ok c) \/ new vs exists_file = Ok c ->
  to_toml_string c = Ok text -> from_toml_str vs' text = Ok c.
Proof.
  intros Hw Hu Hr. apply written_read; [done..|]. destruct Hr as [[content Hr]|Hr]; [by eapply read_fits|by eapply new_fits].
Qed.

(** C19. A first start without any SPECTRA_ or SPECTRAGQL_ variable that finds no text in
    spectra.toml, over an empty store, stores what it runs written out: every later start
    over that store runs the same, whatever configuration it reads for itself and whatever
    files there are, as long as none of these variables is set for it either (each of
    them overrides the stored text). This is under what the config and toml crates are
    taken to do ([text_wins]): a text printed of a tree that gives every default a value
    is merged, without such variables, into that tree. *)
Theorem first_start_is_repeated {S} `{!ConfigStore S} vs exists_file read_to_string (store : S) c raw :
  text_wins -> unset vs -> new vs exists_file = Ok c -> read_to_string "spectra.toml" = None ->
  to_toml_string c = Ok raw -> nonblank raw = true ->
  load_config store = Ok None -> fst (save_config raw store) = Ok tt ->
  let '(c1, raw1, store1) := hydrate (from_toml_str vs) to_toml_string vs read_to_string c store in
  c1 = c /\ raw1 = raw /\
  forall vs' read' later, unset vs' ->
    hydrate (from_toml_str vs') to_toml_string vs' read' later store1 = (c, raw, store1).
Proof.
  intros Hw Hu Hn Hfile Ht Hraw Hl Hs. unfold hydrate at 1. rewrite Hl.
  assert (Hd : default_raw to_toml_string vs read_to_string c = raw).
  { unfold default_raw. rewrite !(unset_or vs) by done. cbn. rewrite Hfile. cbn. by rewrite Ht. }
  rewrite Hd. split; [done|]. split; [done|]. intros vs' read' later Hu'. destruct (String.eqb_spec raw "") as [->|Hne]; [done|].
  pose proof (save_ok raw store Hs) as Hload. unfold hydrate. rewrite Hload, Hraw.
  rewrite (written_read vs' c raw Hw Hu'); [done|by eapply new_fits|done].
Qed.
End Texts.

(** ** Concrete sources *)

Section Witnesses.
#[local] Existing Instances bits_json_text MemoryConfigStore.
Definition strict_uint (bound : Z) (j : json) : option Z :=
  n ← as_u64 j; if (0 <=? n)%Z && (n <=? bound)%Z then Some n else None.
Definition strict_variant (l : list string) (j : json) : option string :=
  s ← as_str j; if existsb (String.eqb s) l then Some s else None.
(** Conversions that take a value of the type only. *)
#[local] Program Instance strict_values : ConfigValues := {|
  read_bool := as_bool; read_text := as_str; read_uint := strict_uint; read_variant := strict_variant |}.
Next Obligation. done. Qed.
Next Obligation. done. Qed.
Next Obligation. intros bound n Hn. unfold strict_uint. cbn. by rewrite (proj2 (andb_true_iff _ _)) by lia. Qed.
Next Obligation.
  intros bound j n. unfold strict_uint. destruct (as_u64 j) as [m|]; [|done]. cbn. destruct (_ && _) eqn:E; [|done].
  intros [= <-]. apply andb_true_iff in E. lia.
Qed.
Next Obligation.
  intros l s Hs. unfold strict_variant. cbn. rewrite (proj2 (existsb_exists _ _)); [done|].
  exists s. split; [by apply list_elem_of_In|apply String.eqb_refl].
Qed.
Definition default_json (v : default_value) : json :=
  match v with DString s => JString s | DBool b => JBool b | DInt n => JNumber (PosInt n) end.
Fixpoint set_path (path : list string) (v t : json) : json :=
  match path with
  | [] => v
  | k :: path =>
      let l := match t with JObject l => l | _ => [] end in
      JObject (obj_insert k (set_path path v (default (JObject []) (Assoc.get k l))) l)
  end.
Definition default_tree : json :=
  fold_left (fun t d => set_path (split_on "." (fst d)) (default_json (snd d)) t) base_builder (JObject []).
(** Texts are JSON, and one that is not leaves the defaults; there are no files. *)
Definition demo_build (vs : string -> option string) (base : list (string * default_value)) (l : list source) (bind : option string) : result string json :=
  match l with
  | SrcString text :: _ => Ok (match json_read text with Some j => json_value j | None => default_tree end)
  | _ => Ok default_tree
  end.
Definition demo_print (t : json) : result string string := if json_plain t then Ok (json_to_string t) else Err "no text".
#[local] Program Instance demo_config_lib : ConfigLib := {| build := demo_build; toml_print := demo_print; misfit := fun _ => "misfit" |}.
Next Obligation.
  intros vs base l bind j. unfold demo_build. assert (Hd : json_typed default_tree = true) by by vm_compute.
  destruct l as [|[text|name required|prefix] l]; try by intros [= <-].
  destruct (json_read text) as [t|] eqn:E; intros [= <-]; [|done]. apply json_value_typed. by eapply json_read_typed.
Qed.
Definition no_vars (_ : string) : option string := None.
Lemma no_vars_unset : unset no_vars.
Proof. done. Qed.
Lemma demo_text_wins : text_wins.
Proof.
  intros vs t text _ _ Ht. change (demo_print t = Ok text) in Ht. unfold demo_print in Ht.
  destruct (json_plain t) eqn:Ep; [|done]. injection Ht as <-.
  change (@Ok string json (match json_read (json_to_string t) with Some j => json_value j | None => default_tree end) = Ok (json_value t)).
  by rewrite json_read_print.
Qed.
(** A gateway without any text has these settings. *)
Definition default_settings : SpectraConfig :=
  Spectra "0.0.0.0:8000" (GqlCfg "/gql,/graphql" "query, mutation, subscription" None None mode_a_default [] [])
    (RestCfg "/api,/api/{*path}" None None) (Upstream "default" None "localhost:4000") [] [] None
    (DispatchCfg "default" None "nats" "127.0.0.1:4222" None None None)
    idempotency_default subscriptions_default admin_default [] wasm_default error_capture_default store_default dns_default.
Example no_text_gives_the_defaults :
  from_toml_str no_vars "" = Ok default_settings /\ new no_vars (fun _ => false) = Ok default_settings.
Proof. split; vm_compute; reflexivity. Qed.
(** A route's strategy under another name, and under two. *)
Example a_field_has_one_name :
  let route l := de route_codec (JObject (("operation", JString "pay") :: l)) in
  (mode <$> route [("strategy", JString "queue")]) = Some AsyncCommandReceipt /\
  (mode <$> route []) = Some SyncUpstreamExecution /\
  (mode <$> route [("mode", JString "async"); ("strategy", JString "async")]) = None.
Proof. split; [|split]; vm_compute; reflexivity. Qed.
(** A section that is misspelt is passed over in silence. *)
Example misspelt_sections_are_ignored :
  de rest_codec (JObject [("paths", JString "/api"); ("upstraem", JNull)]) = Some (RestCfg "/api" None None).
Proof. vm_compute. reflexivity. Qed.

Lemma settings_typed_witness : numbers_fit default_settings.
Proof.
  apply (settings_typed no_vars default_settings). left. exists "". vm_compute. reflexivity.
Defined.
Lemma toml_roundtrip_witness : exists text, to_toml_string default_settings = Ok text /\ from_toml_str no_vars text = Ok default_settings.
Proof.
  assert (Hp : json_plain (ser spectra_codec default_settings) = true) by (vm_compute; reflexivity).
  exists (json_to_string (ser spectra_codec default_settings)).
  assert (Ht : to_toml_string default_settings = Ok (json_to_string (ser spectra_codec default_settings))).
  { unfold to_toml_string. change (demo_print (ser spectra_codec default_settings) = Ok (json_to_string (ser spectra_codec default_settings))).
    unfold demo_print. rewrite Hp. reflexivity. }
  split; [exact Ht|]. apply (toml_roundtrip no_vars no_vars (fun _ => false)); [exact demo_text_wins|exact no_vars_unset| |exact Ht].
  right. vm_compute. reflexivity.
Defined.
Definition demo_text : string := json_to_string (ser spectra_codec default_settings).
Lemma first_start_is_repeated_witness : exists raw store1,
  hydrate (S := option string) (from_toml_str no_vars) to_toml_string no_vars no_vars default_settings None =
    (default_settings, raw, store1) /\
  forall read' later, hydrate (S := option string) (from_toml_str no_vars) to_toml_string no_vars read' later store1 =
    (default_settings, raw, store1).
Proof.
  assert (Hp : json_plain (ser spectra_codec default_settings) = true) by (vm_compute; reflexivity).
  assert (Hb : nonblank demo_text = true) by (vm_compute; reflexivity).
  assert (Ht : to_toml_string default_settings = Ok demo_text).
  { unfold to_toml_string. change (demo_print (ser spectra_codec default_settings) = Ok demo_text). unfold demo_print. rewrite Hp. reflexivity. }
  assert (Hn : new no_vars (fun _ => false) = Ok default_settings) by (vm_compute; reflexivity).
  pose proof (first_start_is_repeated no_vars (S := option string) (fun _ => false) no_vars None default_settings demo_text demo_text_wins
    no_vars_unset Hn eq_refl Ht Hb eq_refl eq_refl) as H.
  destruct (hydrate (from_toml_str no_vars) to_toml_string no_vars no_vars default_settings None) as [[c1 raw1] store1] eqn:E.
  destruct H as (-> & -> & Hlater). exists demo_text, store1. split; [reflexivity|].
  intros read' later. exact (Hlater no_vars read' later no_vars_unset).
Defined.
End Witnesses.
