(* ===== verification/Site.v ===== *)
(** * Site: one gateway with everything it holds, over the requests it is sent one after
    the other.

    [Gateway] has the administrative engine, the WebSocket handler and the idempotency
    engine as parameters. Here these are the parts themselves: the request's phases over
    the running configuration that [Admin] reads and replaces, the claims answered by
    [Idempotency], the records kept by [Traffic] and shown by the interface, the upgrade
    answered by [WebSocket]. Between the requests the thread that refreshes the upstreams'
    addresses takes its steps. Requests that overlap are in [Crowd], [Overlap] and
    [Lifecycle]. *)

From S2P Require Import Prelude Externals Serde Api Clock Types Idempotency Sanitizer Protocol Config ConfigStore Interceptors.
From S2P Require Import Auth Wasm Cel Manager Hub WebSocket Access Traffic State Gateway Lifecycle Retry.
From S2P Require Import Registry EventSink Inspector Router Admin Answers.
Local Open Scope string_scope.

Section Site.
Context `{HttpLib, JsonText, Unicode, GqlParser, LruLib, AuthLib, CelLib, RegexLib, Matchit}.
Context {W : Type} `{Clocks W, WasmTypes, !WasmLib W}.
Context {SocketAddr : Type} `{EqDecision SocketAddr}.
Context {S : Type} `{!ConfigStore S}.
Context (env : State.surroundings (W := W) (SocketAddr := SocketAddr)) (parse_toml : string -> result string SpectraConfig).
Abbreviation plane := (plane (W := W) (SocketAddr := SocketAddr) (S := S)).
Abbreviation dynamic_state := (DynamicGatewayState (W := W) (SocketAddr := SocketAddr)).
Abbreviation admin_state := (admin_state (W := W) (SocketAddr := SocketAddr) (S := S)).
(** The broker, the path router and the texts, as a request finds them; and the engine's
    hash and the WebSocket library's accept key. *)
Context (around : Gateway.surroundings (SocketAddr := SocketAddr)) (hash : string -> Z) (derive_accept_key : string -> string).
(** What the gateway was built with: its services, the configuration chosen for it, and the
    parts its administrative engine was given. *)
Context (services : list (ServiceConfig (SocketAddr := SocketAddr))) (startup : SpectraConfig)
  (named : gmap string SocketAddr) (p0 : plane) (traffic0 : TrafficRecorder) (workers0 : WorkerRegistry).

(** The two halves of a built gateway. @lib.rs:170-179 build_composite_service *)
Definition administration : AdminEngine (SocketAddr := SocketAddr) :=
  fst (engine_new (admin startup) startup named (routes (gql startup)) p0 traffic0 workers0).
(** @lib.rs:183-204 build_composite_service *)
Definition proxy : gateway := Gw services (Some (admin startup)) (subscriptions startup) (error_capture startup).

(** Where the thread that refreshes the upstreams' addresses is: asleep, woken and with
    re-resolution enabled, or resolving the names of a state it has loaded.
    @gateway/composite_service.rs:237-262 spawn_dns_refresher *)
Inductive refresher := Sleeping | Woken | Rescanning (loaded : dynamic_state).
(** What it holds between requests: the engine of the claims, and what the interface
    shares, the running configuration and the recorder among it.
    @gateway/composite_service.rs:{struct CompositeServiceProxy} CompositeServiceProxy *)
Record site := Site { claims : Idempotency.engine; administered : admin_state; refreshing : refresher }.
Definition running (x : site) : dynamic_state := default dynamic_default (dynamic (configuration (administered x))).

(** A request: its session, what time, identifiers and other parties make of it, which
    shards of the engine are taken and which records find the recorder's lock free. *)
Record visit := Visit {
  v_session : session;
  v_reading : reading;
  v_id : string;
  v_hlc : HlcTimestamp;
  v_chunks : list (option string);
  v_upstream : upstream_answer;
  v_outside : outside (SocketAddr := SocketAddr);
  v_pumped : list pump_event;
  v_busy : nat -> bool;
  v_claimed_at : Z;
  v_settled_at : Z;
  v_lock_free : TrafficRecord -> bool
}.

(** ** A request *)

(** The administrative engine on the session it is handed; no phase before it has changed
    it. @gateway/filters/admin.rs:{fn handle} AdminFilter::handle *)
Definition asked (x : site) (v : visit) : result string bool * option reply * admin_state :=
  handle_request env parse_toml (v_outside v) administration (v_session v) (administered x).
(** The WebSocket handler, likewise; its answer.
    @gateway/composite_service.rs:{fn handle_websocket_subscription} CompositeServiceProxy::handle_websocket_subscription *)
Definition handle_websocket_subscription (v : visit) : result string bool :=
  fst (fst (WebSocket.handle derive_accept_key (req_headers (v_session v)) (connected (v_session v)) (v_pumped v))).
(** What the phases find: the broker and the rest, the engine's answers, and the answers
    of the two parts a session is handed to. *)
Definition surrounds (x : site) (v : visit) : Gateway.surroundings (SocketAddr := SocketAddr) :=
  Around (send around)
    (fun key h => fst (Idempotency.check_or_insert hash (v_busy v) (v_claimed_at v) key h (claims x)))
    (service_at around) (fst (fst (asked x v))) (handle_websocket_subscription v)
    (headers_json around) (Gateway.to_uppercase around) (Gateway.sha256 around) (hv_bytes around) (uri_query around)
    (status_text around) (Gateway.addr_text around) (favicon_svg around).
Definition served (x : site) (v : visit) : Gateway.state (W := W) (SocketAddr := SocketAddr) :=
  serve (surrounds x v) proxy (fun _ => running x) (v_reading v) (v_id v) (v_hlc v) (v_chunks v) (v_upstream v)
    (v_session v) (State.world (configuration (administered x))).
(** Whether the request is handed to the administrative engine: the filters before it take
    the probes and the icons. @gateway/composite_service.rs:795-815 CompositeServiceProxy::request_filter *)
Definition reaches_admin (v : visit) : bool :=
  let path := path_of (v_session v) in
  negb (is_health_probe path) && negb (is_favicon_request path) && is_admin_request (Some (admin startup)) path.

(** ** What it leaves *)

(** An event of a request in the engine: a request claims once, and settles later. *)
Definition play_claim (v : visit) (e : Idempotency.engine) (ev : event (SocketAddr := SocketAddr)) : Idempotency.engine :=
  match ev with
  | Claimed key _ => snd (Idempotency.check_or_insert hash (v_busy v) (v_claimed_at v) key (v_hlc v) e)
  | _ => play hash (v_settled_at v) ev e
  end.
(** An event of a request in the recorder. *)
Definition play_record (v : visit) (t : TrafficRecorder) (ev : event (SocketAddr := SocketAddr)) : TrafficRecorder :=
  match ev with Recorded r => record (v_lock_free v r) r t | _ => t end.
Definition with_world (w : W) (s : admin_state) : admin_state :=
  with_plane (Plane (store (configuration s)) (dynamic (configuration s)) w) s.
Definition with_traffic (t : TrafficRecorder) (s : admin_state) : admin_state :=
  AdminState (configuration s) t (worker_registry s) (eventsink_inspector s) (schema_inspector s).
Definition left_by (x : site) (v : visit) : site :=
  let st := served x v in
  let s := if reaches_admin v then snd (asked x v) else with_world (Gateway.world st) (administered x) in
  Site (fold_left (play_claim v) (log st) (claims x))
    (with_traffic (fold_left (play_record v) (log st) (traffic_recorder s)) s) (refreshing x).
(** The refresher's next step, if the configuration of start-up had it started: it wakes up
    and looks whether re-resolution is enabled, loads the state, and stores it again with
    the addresses the resolver then answers, unless none has changed.
    @gateway/composite_service.rs:237-262 spawn_dns_refresher *)
Definition refreshed (e : State.surroundings (W := W) (SocketAddr := SocketAddr)) (now : Z) (x : site) : site :=
  let p := configuration (administered x) in
  if negb (dns_enabled (dns startup)) then x
  else match refreshing x, dynamic p with
  | Sleeping, Some st => Site (claims x) (administered x) (if dns_enabled (dns_config st) then Woken else Sleeping)
  | Woken, Some st => Site (claims x) (administered x) (Rescanning st)
  | Rescanning loaded, Some _ =>
      Site (claims x)
        (match rescan_dns e now loaded with
         | Some st => with_plane (Plane (store p) (Some st) (State.world p)) (administered x)
         | None => administered x
         end) Sleeping
  | _, None => x
  end.
(** What happens to a gateway: a request comes, or the refresher goes on, the resolver
    answering what it then does. *)
Inductive happening :=
| Visited (v : visit)
| Refreshed (e : State.surroundings (W := W) (SocketAddr := SocketAddr)) (now : Z).
Definition after (x : site) (h : happening) : site :=
  match h with Visited v => left_by x v | Refreshed e now => refreshed e now x end.
Definition left_by_all (x : site) (hs : list happening) : site := fold_left after hs x.
(** What the interface answers it, if it is asked and the client is still there. *)
Definition admin_answered (x : site) (v : visit) : option reply := if reaches_admin v then snd (fst (asked x v)) else None.

(** Who may write: the allowlist admits the address, and the token is the one writes
    need. *)
Definition admitted (v : visit) : bool :=
  admin_admits (req_headers (v_session v)) (client_addr (v_session v)) (allowed_ips (admin startup)).
Definition operates (v : visit) : bool :=
  reaches_admin v && admitted v &&
  is_write_authorized (process_env (v_outside v)) (deploy_token (admin startup)) (req_headers (v_session v)).
Definition operated (h : happening) : bool := match h with Visited v => operates v | Refreshed _ _ => false end.
(** A state but for the upstreams' addresses and the time it was last changed. *)
Definition unaddressed (st : dynamic_state) : dynamic_state :=
  Dynamic ∅ (upstream_targets st) (dns_config st) (dy_mode_a st) (dy_routes st) (dy_apps st) (dy_default_app st)
    (interceptor_manager st) (telemetry_config st) (raw_config st) (version st) 0 (config_hash st).
(** No rescan is under way of a state that another has replaced since. *)
Definition in_step (x : site) : Prop :=
  match refreshing x with
  | Rescanning loaded => unaddressed <$> dynamic (configuration (administered x)) = Some (unaddressed loaded)
  | _ => True
  end.

(** ** Lemmas *)

Lemma asked_answers x v : fst (fst (asked x v)) <> Ok false.
Proof.
  unfold asked, handle_request. cbv zeta. destruct (negb _); [done|].
  destruct (Router.match_route _ _ _) as [[route params]|]; [|done].
  by destruct (handle_route _ _ _ _ _ _ _ _) as [[rp|err] s1].
Qed.
(** The two phases a request for the interface goes through. *)
Lemma admin_early x v (d : dynamic_state) st : reaches_admin v = true -> sess st = v_session v ->
  early_request_filter (surrounds x v) proxy d st = (Go false, st).
Proof.
  unfold reaches_admin. rewrite !andb_true_iff. intros [_ Ha] Hs.
  unfold early_request_filter, bind, get_sess, ret. rewrite Hs. cbn [admin_engine proxy]. cbv zeta. rewrite Ha.
  by destruct (is_health_probe _); [|destruct (is_favicon_request _)].
Qed.
Lemma admin_edge x v (st : Gateway.state (W := W)) : reaches_admin v = true -> sess st = v_session v ->
  edge_stage (surrounds x v) proxy st = (Stop (fst (fst (asked x v))), st).
Proof.
  unfold reaches_admin. rewrite !andb_true_iff, !negb_true_iff. intros [[Hh Hf] Ha] Hs.
  pose proof (asked_answers x v) as Hb. apply orb_false_iff in Hh as [Hh1 Hh2].
  unfold edge_stage, health_handle, favicon_handle, admin_handle, bind, get_sess, ret, stop.
  rewrite Hs, Hh1, Hh2. cbn [negb]. rewrite Hs, Hf, Hs. cbn [admin_engine proxy]. rewrite Ha. cbn [admin_answer surrounds].
  by destruct (fst (fst (asked x v))) as [[|]|].
Qed.
(** A request for the interface runs nothing else of the gateway. *)
Lemma admin_served x v : reaches_admin v = true ->
  served x v = St (v_session v) (new_ctx (running x) (v_id v) (v_hlc v)) (State.world (configuration (administered x))) [].
Proof.
  intros Hr. unfold served, serve, before_logging, run. rewrite (admin_early x v) by done.
  unfold request_filter, bind at 1. rewrite (admin_edge x v) by done. pose proof (asked_answers x v).
  by destruct (fst (fst (asked x v))) as [[|]|].
Qed.
Lemma admin_left x v : reaches_admin v = true -> left_by x v = Site (claims x) (snd (asked x v)) (refreshing x).
Proof. intros Hr. unfold left_by. rewrite admin_served, Hr by done. cbn. by destruct (snd (asked x v)). Qed.
(** Any other leaves the configuration alone. *)
Lemma other_left x v : reaches_admin v = false ->
  let p := configuration (administered (left_by x v)) in
  store p = store (configuration (administered x)) /\ dynamic p = dynamic (configuration (administered x)).
Proof. intros Hr. unfold left_by. by rewrite Hr. Qed.
(** And so does everyone who is not an operator. *)
Lemma outsider_left x v : operates v = false ->
  let p := configuration (administered (left_by x v)) in
  store p = store (configuration (administered x)) /\ dynamic p = dynamic (configuration (administered x)).
Proof.
  intros Ho. destruct (reaches_admin v) eqn:Hr; [|by apply other_left]. rewrite admin_left by done. cbn [administered].
  pose proof (admin_request_effects env parse_toml (admin startup) startup named (routes (gql startup)) p0 traffic0 workers0
    (v_outside v) (v_session v) (administered x)) as He.
  cbv zeta in He. fold administration in He. fold (asked x v) in He. unfold operates, admitted in Ho. rewrite Hr in Ho.
  destruct (asked x v) as [[r answer] s']. cbn [snd] in *. destruct He as (Hd & _ & Hu).
  apply andb_false_iff in Ho as [Ho|Ho]; [by destruct (Hd Ho) as [-> _]|by rewrite Hu].
Qed.
(** A rescan changes addresses and the time. *)
Lemma rescan_unaddressed e now loaded st : rescan_dns e now loaded = Some st -> unaddressed st = unaddressed loaded.
Proof. unfold rescan_dns. destruct (rescan e loaded) as [[ups es] [|n]]; [done|]. by intros [= <-]. Qed.
(** What nobody but an operator changes. *)
Definition same_configuration (x y : site) : Prop :=
  store (configuration (administered y)) = store (configuration (administered x)) /\
  unaddressed <$> dynamic (configuration (administered y)) = unaddressed <$> dynamic (configuration (administered x)) /\
  (dns_enabled (dns startup) = false -> dynamic (configuration (administered y)) = dynamic (configuration (administered x))).
Lemma refreshed_left e now x : in_step x -> same_configuration x (refreshed e now x) /\ in_step (refreshed e now x).
Proof.
  intros Hi. unfold refreshed, same_configuration. destruct (dns_enabled (dns startup)); cbn [negb]; [|done].
  destruct (dynamic (configuration (administered x))) as [st|] eqn:Ed; [|by destruct (refreshing x); rewrite ?Ed].
  unfold in_step in Hi. destruct (refreshing x) as [| |loaded] eqn:Er; cbn.
  - split; [by rewrite Ed|]. unfold in_step. cbn. by destruct (dns_enabled (dns_config st)).
  - split; [by rewrite Ed|]. unfold in_step. cbn. by rewrite Ed.
  - split; [|done]. destruct (rescan_dns e now loaded) as [st'|] eqn:Ers; cbn; [|by rewrite Ed].
    split; [done|]. split; [|done]. apply rescan_unaddressed in Ers. rewrite Ers. rewrite Ed in Hi. by cbn in Hi.
Qed.
Lemma happening_left h x : operated h = false -> in_step x -> same_configuration x (after x h) /\ in_step (after x h).
Proof.
  intros Ho Hi. destruct h as [v|e now]; cbn [after operated] in *; [|by apply refreshed_left].
  destruct (outsider_left x v Ho) as [Hs Hd]. split; [split_and!; [done|by rewrite Hd|by rewrite Hd]|].
  unfold in_step in *. assert (refreshing (left_by x v) = refreshing x) as -> by done. by rewrite Hd.
Qed.
Lemma outsiders_left hs : forall x, Forall (fun h => operated h = false) hs -> in_step x ->
  same_configuration x (left_by_all x hs).
Proof.
  induction hs as [|h hs IH]; intros x Ho Hi; [done|]. apply Forall_cons in Ho as [Hh Hhs]. cbn [left_by_all fold_left].
  destruct (happening_left h x Hh Hi) as [(Hs & Hd & Hn) Hi'], (IH (after x h) Hhs Hi') as (Hs' & Hd' & Hn').
  unfold left_by_all in *. split_and!; [by rewrite Hs'|by rewrite Hd'|intros Hf; by rewrite Hn', Hn].
Qed.
(** The interface serves an admitted client's request by the handler of its route. *)
Lemma admitted_asked x v route params : admitted v = true ->
  Router.match_route (router administration) (method (req (v_session v))) (path_of (v_session v)) = Some (route, params) ->
  asked x v = match handle_route env parse_toml (v_outside v) administration route params (v_session v) (administered x) with
              | (Ok r, s) => (Ok true, if connected (v_session v) then Some r else None, s)
              | (Err err, s) => (Err err, None, s)
              end.
Proof.
  intros Ha Hm. unfold asked, handle_request. cbv zeta. rewrite Hm.
  change (allowed_ips (config administration)) with (allowed_ips (admin startup)).
  unfold admitted, admin_admits in Ha. rewrite Ha. by destruct (handle_route _ _ _ _ _ _ _ _) as [[]].
Qed.

(** The two routes of the configuration. *)
Abbreviation routed v route params := (Router.match_route (router administration) (method (req (v_session v))) (path_of (v_session v)) = Some (route, params)).
Lemma update_asked x u params : admitted u = true -> routed u ConfigUpdate params -> connected (v_session u) = true ->
  asked x u = match handle_config_update env parse_toml (authorized (v_outside u) administration (v_session u)) (chunks (v_session u))
                      (configuration (administered x)) with
              | Ok (r, p) => (Ok true, Some (answer_of r), with_plane p (administered x))
              | Err err => (Err err, None, administered x)
              end.
Proof.
  intros Ha Hm Hc. rewrite (admitted_asked x u _ _ Ha Hm), Hc. cbn [handle_route].
  by destruct (handle_config_update _ _ _ _ _) as [[]|].
Qed.
Lemma get_asked x v params : reaches_admin v = true -> admitted v = true -> routed v ConfigGet params -> connected (v_session v) = true ->
  admin_answered x v = Some (answer_of (handle_config_get (store_descriptor (v_outside v)) (configuration (administered x)))).
Proof. intros Hr Ha Hm Hc. unfold admin_answered. by rewrite Hr, (admitted_asked x v _ _ Ha Hm), Hc. Qed.
Lemma refused_answered x v : reaches_admin v = true -> admitted v = false -> forall a, admin_answered x v = Some a -> rp_code a = 403%Z.
Proof.
  intros Hr Ha a. unfold admin_answered. rewrite Hr. unfold asked, handle_request. cbv zeta.
  change (allowed_ips (config administration)) with (allowed_ips (admin startup)).
  unfold admitted, admin_admits in Ha. rewrite Ha. cbn. by destruct (connected _); intros [= <-].
Qed.

(** ** Properties *)

(** C16. Whoever is no operator (a request with an address on the allowlist and the token
    that writes need) changes neither the configuration that runs nor the one that is
    stored, whatever requests are sent, to the gateway and to its interface, in any
    number, one after the other. In between the refresher gives the upstreams other
    addresses and notes the time, if the configuration of start-up has it started, and
    changes nothing else, as long as it has not loaded a configuration that was replaced
    before this history began. After all of them a request to the interface with an
    address that is not on the allowlist changes nothing at all and is answered 403, and a
    GET changes no record of traffic or of a worker and no claim. The address is the one
    the request itself claims, in X-Forwarded-For or X-Real-IP, and only without them that
    of its connection ([Access.admission_by_header]). *)
Theorem outsiders_change_nothing x hs : Forall (fun h => operated h = false) hs -> in_step x ->
  let y := left_by_all x hs in
  same_configuration x y /\
  forall v, reaches_admin v = true ->
    (admitted v = false -> left_by y v = y /\ forall a, admin_answered y v = Some a -> rp_code a = 403%Z) /\
    (method (req (v_session v)) = "GET" ->
       same_data (administered y) (administered (left_by y v)) /\ claims (left_by y v) = claims y).
Proof.
  intros Ho Hi y. split; [by apply outsiders_left|].
  intros v Hr. rewrite admin_left by done. unfold admin_answered. rewrite Hr.
  pose proof (admin_request_effects env parse_toml (admin startup) startup named (routes (gql startup)) p0 traffic0 workers0
    (v_outside v) (v_session v) (administered y)) as He.
  cbv zeta in He. fold administration in He. fold (asked y v) in He. destruct (asked y v) as [[r answer] s'].
  destruct He as (Hd' & Hg & _). split; [|by intros; split; [apply Hg|]].
  intros Ha. destruct (Hd' Ha) as (-> & _ & H403). split; [by destruct y|exact H403].
Qed.

(** C40. An operator's update is what is served. When the interface answers an update that
    asks for a reload with 200, while no rescan of the upstreams' addresses is under way,
    its content is stored, and the state built from it runs under the next version for
    every later request, to the gateway and to the interface, one after the other, until
    another operator comes: a client that asks the interface for the configuration is told
    this content, this version and this digest. The refresher, where it is started, only
    gives its upstreams other addresses and notes the time. On any other answer the
    configuration that ran before runs on, likewise. A rescan that had loaded the state
    before the update undoes it ([pending_rescan_undoes]). *)
Theorem update_is_served x u params prev b content hs :
  reaches_admin u = true -> connected (v_session u) = true ->
  routed u ConfigUpdate params -> dynamic (configuration (administered x)) = Some prev ->
  match refreshing x with Rescanning _ => False | _ => True end ->
  read_body (Z.to_nat (2 * 1024 * 1024)) "" (chunks (v_session u)) = Ok b -> requested b = Some (content, true) ->
  Forall (fun h => operated h = false) hs ->
  let y := left_by_all (left_by x u) hs in
  if bool_decide (rp_code <$> admin_answered x u = Some 200%Z) then
    operates u = true /\ stored content (store (configuration (administered y))) /\
    exists cfg st w, parse_toml content = Ok cfg /\
      reload_config env cfg content prev (State.world (configuration (administered x))) = Ok (st, w) /\
      (unaddressed (running y) = unaddressed st /\ (dns_enabled (dns startup) = false -> running y = st)) /\
      raw_config st = content /\ version st = Int.wrap 64 (version prev + 1) /\
      forall v params, reaches_admin v = true -> admitted v = true -> routed v ConfigGet params -> connected (v_session v) = true ->
        exists backend descriptor, admin_answered y v = Some (answer_of (Response 200 (Derive.ser config_response
          (ConfigResponse backend descriptor (version st) (updated_at_epoch_ms (running y)) (config_hash st) content))))
  else unaddressed (running y) = unaddressed prev /\ (dns_enabled (dns startup) = false -> running y = prev).
Proof.
  intros Hr Hc Hm Hp Hq0 Hb Hq Ho y.
  assert (Hi : in_step (left_by x u)).
  { unfold in_step. assert (refreshing (left_by x u) = refreshing x) as -> by done. by destruct (refreshing x). }
  pose proof (outsiders_left hs (left_by x u) Ho Hi) as Hsame. fold y in Hsame.
  assert (Hruns : forall st, dynamic (configuration (administered (left_by x u))) = Some st ->
    unaddressed (running y) = unaddressed st /\ (dns_enabled (dns startup) = false -> running y = st)).
  { intros st Hst. destruct Hsame as (_ & Hd & Hn). rewrite Hst in Hd, Hn. unfold running.
    destruct (dynamic (configuration (administered y))) as [st'|]; [|done]. split; [by apply (inj Some) in Hd|].
    intros Hf. by apply (inj Some), Hn. }
  destruct (admitted u) eqn:Ha.
  2: { destruct (outsider_left x u) as [_ Hd]; [by unfold operates; rewrite Ha, andb_false_r|].
       rewrite bool_decide_false; [apply Hruns; by rewrite Hd, Hp|].
       intros (a & He & Hcode)%fmap_Some. apply (refused_answered x u Hr Ha) in He. lia. }
  assert (Hplane : configuration (administered (left_by x u)) = configuration (snd (asked x u))) by by rewrite admin_left.
  assert (Hans : admin_answered x u = snd (fst (asked x u))) by (unfold admin_answered; by rewrite Hr). rewrite Hans.
  rewrite (update_asked x u params Ha Hm Hc) in *.
  destruct (handle_config_update _ _ _ _ _) as [[r p']|err] eqn:Eu; cbn [fst snd] in *;
    [|apply Hruns; by rewrite Hplane, Hp].
  destruct (config_update_contract _ _ _ _ _ _ _ Eu) as (Hno & _ & Hyes). case_bool_decide as Hcode.
  2: { apply Hruns. rewrite Hplane. cbn. rewrite Hno, Hp; [done|]. intros Hst. apply Hcode. cbn. by rewrite Hst. }
  assert (Hst : State.status r = 200%Z) by by injection Hcode. destruct (Hyes Hst) as (Hauth & b' & c' & rl & Hb' & Hq' & _ & Hstored & _).
  assert (c' = content) as -> by congruence.
  destruct (updated_runs _ _ _ _ _ _ _ _ _ Eu Hst Hb Hq) as (cfg & st0 & Hparse & Hswap).
  unfold swap in Hswap. cbn [dynamic State.world] in Hswap. rewrite Hp in Hswap.
  destruct (reload_config env cfg content prev _) as [[st w]|] eqn:Er; [|done]. injection Hswap as <-.
  destruct (reload_config_ok _ _ _ _ _ _ _ Er) as (Hraw & Hv & _).
  destruct (Hruns st) as [Hun Hex]; [by rewrite Hplane|]. destruct Hsame as (Hsy & Hdy & _). rewrite Hplane in Hsy, Hdy.
  split; [by unfold operates; rewrite Hr, Ha; exact Hauth|]. split; [by rewrite Hsy|].
  exists cfg, st, w. split; [done|]. split; [done|]. split; [done|]. split; [done|]. split; [done|].
  intros v ps Hrv Hav Hmv Hcv. rewrite (get_asked y v ps Hrv Hav Hmv Hcv). unfold handle_config_get, config_of, running in *.
  destruct (dynamic (configuration (administered y))) as [st'|]; [|done].
  change (unaddressed st' = unaddressed st) in Hun. change (default dynamic_default (Some st')) with st'.
  pose proof (f_equal raw_config Hun) as Hr'. pose proof (f_equal version Hun) as Hv'. pose proof (f_equal config_hash Hun) as Hh'.
  cbn [unaddressed raw_config version config_hash] in Hr', Hv', Hh'. rewrite Hr', Hv', Hh', Hraw.
  by destruct (store _); eexists _, _.
Qed.
End Site.

(** ** A concrete site *)

Section Witnesses.
#[local] Existing Instances list_http ascii_tables bits_json_text list_lru demo_auth_lib demo_cel demo_types
  demo_wasm no_gql manager_clocks MemoryConfigStore list_matchit no_match_regex.
Abbreviation site := (site (W := manager_world) (SocketAddr := string) (S := option string)).
Definition site_plane : plane (W := manager_world) (SocketAddr := string) (S := option string) := demo_plane.
(** A gateway with an interface that asks for a token. *)
Definition site_config : SpectraConfig :=
  let c := demo_managed in
  Spectra (bind_addr c) (gql c) (rest c) (upstream c) (upstreams c) (apps c) (default_app c) (Config.dispatch c) (idempotency c)
    (subscriptions c) (AdminCfg true "" "/admin" ["127.0.0.1"] true (Some "s3")) (interceptors c) (wasm c) (error_capture c)
    (config_store c) (dns c).
Definition opened : site :=
  Site demo_engine (snd (engine_new (SocketAddr := string) (admin site_config) site_config ∅ [] site_plane (recorder_new 10) registry_default)) Sleeping.
Definition asks (ip : IpAddr) (hs : HeaderMap) (method path body : string) : visit (SocketAddr := string) :=
  Visit (@Session list_http (@HttpInfo list_http method path "HTTP/1.1" hs) (Some ip) [Ok body] true)
    (Reading (F64.of_Z 0) 0 0) "r1" (HLC 0 0) [] (UpFails "down") demo_outside [] free 5 6 (fun _ => true).
Definition here : IpAddr := V4 2130706433.
Definition elsewhere : IpAddr := V4 134744072.
Definition token : @HeaderMap list_http := [("authorization", "Bearer s3")].
Definition demo_answered (x : site) (v : visit) : option reply :=
  admin_answered (demo_surroundings "10.0.0.2:80") demo_toml site_config ∅ site_plane (recorder_new 10) registry_default x v.
#[local] Abbreviation happening := (happening (W := manager_world) (SocketAddr := string)).
Definition demo_left (x : site) (hs : list happening) : site :=
  left_by_all (demo_surroundings "10.0.0.2:80") demo_toml demo_env hash0 (fun k => k) [] site_config ∅ site_plane
    (recorder_new 10) registry_default x hs.
Definition updating : visit := asks here token "POST" "/admin/api/v1/config" "good".
(** The token from another address, the address without the token, and a command; and the
    refresher goes on in between, the resolver answering another address. *)
#[local] Abbreviation goes_on := (Refreshed (demo_surroundings "10.0.0.9:80") 9).
Definition outsiders : list happening :=
  [goes_on; Visited (asks elsewhere token "POST" "/admin/api/v1/config" "bad"); goes_on;
   Visited (asks here [] "POST" "/admin/api/v1/config/reload" ""); goes_on;
   Visited (asks elsewhere [("idempotency-key", "k1")] "POST" "/gql" "{}")].
Definition shown : visit := asks here [] "GET" "/admin/api/v1/config" "".
Lemma outsiders_operate_not : Forall (fun h => operated site_config h = false) outsiders.
Proof. repeat constructor. Qed.
Lemma outsiders_change_nothing_witness :
  unaddressed <$> dynamic (configuration (administered (demo_left opened outsiders))) = unaddressed <$> dynamic site_plane /\
  existsb (fun a => String.eqb a "10.0.0.9:80") (map snd (map_to_list (named_upstreams (running (demo_left opened outsiders))))) = true /\
  exists a, demo_answered (demo_left opened outsiders) (asks elsewhere token "GET" "/admin/api/v1/status" "") = Some a /\
    rp_code a = 403%Z.
Proof.
  destruct (outsiders_change_nothing (demo_surroundings "10.0.0.2:80") demo_toml demo_env hash0 (fun k => k) [] site_config ∅
    site_plane (recorder_new 10) registry_default opened outsiders outsiders_operate_not I) as ((_ & Hd & _) & Hv).
  split; [exact Hd|]. split; [vm_compute; reflexivity|].
  destruct (Hv (asks elsewhere token "GET" "/admin/api/v1/status" "") eq_refl) as [H403 _].
  destruct (demo_answered (demo_left opened outsiders) (asks elsewhere token "GET" "/admin/api/v1/status" "")) as [a|] eqn:Ea.
  - exists a. split; [reflexivity|]. destruct (H403 eq_refl) as [_ Hc]. exact (Hc a Ea).
  - assert (Hs : is_some (demo_answered (demo_left opened outsiders) (asks elsewhere token "GET" "/admin/api/v1/status" "")) = true) by (vm_compute; reflexivity).
    rewrite Ea in Hs. discriminate Hs.
Defined.
Lemma update_is_served_witness :
  let y := demo_left opened (Visited updating :: outsiders) in
  raw_config (running y) = "good" /\ version (running y) = 2%Z /\
  exists backend descriptor hash, demo_answered y shown = Some (answer_of (Response 200 (Derive.ser config_response
    (ConfigResponse backend descriptor 2 (updated_at_epoch_ms (running y)) hash "good")))).
Proof.
  pose proof (update_is_served (demo_surroundings "10.0.0.2:80") demo_toml demo_env hash0 (fun k => k) [] site_config ∅
    site_plane (recorder_new 10) registry_default opened updating [] demo_state "good" "good" outsiders
    eq_refl eq_refl eq_refl eq_refl I eq_refl eq_refl outsiders_operate_not) as Hu.
  cbv zeta in Hu.
  assert (Hc : bool_decide (rp_code <$> demo_answered opened updating = Some 200%Z) = true) by (vm_compute; reflexivity).
  unfold demo_answered in Hc. rewrite Hc in Hu. destruct Hu as (_ & _ & cfg & st & w & _ & _ & [Hr _] & Hraw & Hv & Hget).
  cbv zeta. change (unaddressed (running (demo_left opened (Visited updating :: outsiders))) = unaddressed st) in Hr.
  change (version st = 2%Z) in Hv.
  split; [exact (eq_trans (f_equal raw_config Hr) Hraw)|]. split; [exact (eq_trans (f_equal version Hr) Hv)|].
  destruct (Hget shown [] eq_refl eq_refl eq_refl eq_refl) as (backend & descriptor & Ha). rewrite Hv in Ha.
  exists backend, descriptor, (config_hash st). exact Ha.
Defined.
(** A rescan under way when the update comes puts the state it had loaded back, although
    the update was answered with 200 and is stored. *)
Definition rescanning : site :=
  demo_left opened [goes_on; goes_on].
Example pending_rescan_undoes :
  bool_decide (rp_code <$> demo_answered rescanning updating = Some 200%Z) &&
  String.eqb (raw_config (running (demo_left rescanning [Visited updating]))) "good" &&
  negb (String.eqb (raw_config (running (demo_left rescanning [Visited updating; goes_on]))) "good") = true.
Proof. vm_compute. reflexivity. Qed.
End Witnesses.
